(* ===== verification/_CoqProject ===== *)
-Q . S2P
Prelude.v
Stp.v
StpFacts.v
StpProps.v
StpRate.v
StpWire.v
Csum.v
Ofp.v
Tag.v
MacLearning.v
MacLearningFacts.v
Ofpbuf.v
Flow.v
FlowFacts.v
SwitchFlow.v
SwitchFlowFacts.v
Rconn.v
RconnFacts.v
RconnProps.v
Env.v
EnvFacts.v
OfpMsg.v
Table.v
TableLinear.v
TableLinearFacts.v
TableSeq.v
TableHash.v
TableHashFacts.v
Chain.v
ChainFacts.v
ChainProps.v
DpAct.v
Datapath.v
DpMsg.v
DpFlow.v
DpStats.v
DpRun.v
DpActFacts.v
DpFacts.v
DpPacket.v
DpFlowFacts.v
DpOutput.v
DpForward.v
DpCrash.v
DpControl.v
DpRunFacts.v
DpProps.v
DpStatsFacts.v
LearningSwitch.v
LearningSwitchFacts.v
ControlLoop.v
ControllerProps.v
RateLimit.v
RateLimitFacts.v
Stream.v
StreamFacts.v
Vconn.v
VconnFacts.v
Natfw.v
NatfwSession.v
NatfwExt.v
NatfwNode.v
NatfwFacts.v
NatfwNodeFacts.v
NatfwProps.v
NatfwExtProps.v
NatfwPath.v
NatfwWitness.v
