(* ===== verification/Prelude.v ===== *)
(** * The OpenFlow reference switch and NATFW signalling: a Rocq development

    The repository holds the OpenFlow 1.0 reference implementation
    (src/openflow) and the NSIS-ka signalling suite (src/nsis-ka).  Of the former,
    this development models the userspace switch, from the bytes that arrive on its
    ports and connections to the frames and messages that leave it, the learning
    controller at the other end of a connection, and the libraries both are built
    from.  Of the latter it models the nodes of the NAT and firewall signalling
    protocol.

    ** The program

    A datapath (udatapath/datapath.c) receives frames from its ports.  It extracts
    the flow of a frame (lib/flow.c), looks it up in a chain of flow tables
    (udatapath/chain.c over table-hash.c and table-linear.c, whose entries are those
    of switch-flow.c), and executes the actions of the entry it finds (dp_act.c),
    which rewrite the frame (lib/csum.c keeps the checksums right) and send it to
    ports, queues, the tables again, or the controllers.  A frame without an entry
    goes to the controllers, over the reliable connections of lib/rconn.c; messages
    from the controllers change the tables, the ports and the queues, send packets,
    and ask for statistics.  Entries expire with time.  The secure channel runs the
    spanning tree of lib/stp.c, and limits the rate of messages to the controller
    (secchan/ratelimit.c).  A reliable connection is made of virtual connections
    (lib/vconn.c), which agree on a version of the protocol over a transport such as
    the byte streams of lib/vconn-stream.c.  The controller is a learning switch
    (lib/learning-switch.c over lib/mac-learning.c and lib/tag.c): it learns from
    packet-in messages where stations are, and sets up flows.

    A NATFW node (natfw-nslp) hands each event, i.e. a message, a timer or a request
    of the user, to a session (src/dispatcher.cpp).  The session of an initiator
    sends CREATE messages along the path of a data flow; forwarder sessions on
    firewalls and NATs pass them on and, with the response, install policy rules for
    the flow with iptables; the session of the responder answers.  A receiver
    behind a NAT announces itself with EXT messages in the same way.  All end when
    they are not refreshed.

    ** Files

    - Prelude.v: notation for C expressions, machine integers, bytes in memory, the
      monad [comp] of computations that may abort, and its rules.
    - Stp.v: lib/stp.c, every operation on a bridge.  StpFacts.v, StpProps.v,
      StpRate.v, StpWire.v: its theorems.
    - Csum.v: lib/csum.c and udatapath/crc32.c, with theorems.
    - Tag.v: lib/hash.c and lib/tag.c, with theorems.  MacLearning.v,
      MacLearningFacts.v: lib/mac-learning.c.
    - Ofp.v: constants and layouts of openflow.h and lib/packets.h.
    - Ofpbuf.v: lib/ofpbuf.c, with theorems.
    - Flow.v, FlowFacts.v: lib/flow.c.
    - SwitchFlow.v, SwitchFlowFacts.v: udatapath/switch-flow.c.
    - Rconn.v, RconnFacts.v, RconnProps.v: lib/rconn.c.
    - Env.v, EnvFacts.v: the state that tables and datapath share, i.e. allocated
      flow entries, time, allocation failures, and controller connections.
    - OfpMsg.v: the messages that lib/vconn.c makes and checks.
    - Table.v: the interface of udatapath/table.h as a type class, with its laws.
      TableLinear.v and TableHash.v implement it, TableLinearFacts.v and
      TableHashFacts.v prove the laws, and TableSeq.v combines tables.
    - Chain.v, ChainFacts.v, ChainProps.v: udatapath/chain.c, proved against the
      interface alone.
    - DpAct.v: udatapath/dp_act.c.  Datapath.v, DpMsg.v, DpFlow.v, DpStats.v,
      DpRun.v: udatapath/datapath.c, with of_ext_msg.c and private-msg.c, in the
      order packets, configuration messages, flow modifications, statistics, main
      loop.
    - DpActFacts.v, DpFacts.v, DpFlowFacts.v, DpPacket.v, DpOutput.v, DpForward.v,
      DpCrash.v, DpControl.v, DpRunFacts.v, DpStatsFacts.v: the theorems about the
      datapath.  DpProps.v instantiates them on a concrete switch.
    - LearningSwitch.v, LearningSwitchFacts.v: lib/learning-switch.c.
      ControlLoop.v: the learning switch and the datapath together.
      ControllerProps.v instantiates their theorems.
    - RateLimit.v, RateLimitFacts.v: secchan/ratelimit.c with lib/queue.c.
    - Stream.v, StreamFacts.v: lib/vconn-stream.c.  Vconn.v, VconnFacts.v:
      lib/vconn.c, over any transport that keeps the laws of the class [Channel];
      the byte streams are an instance.
    - Natfw.v: messages, events, addresses, policy rules, the NAT manager and the
      services of the dispatcher (natfw-nslp/src/msg, include/events.h,
      src/nat_manager.cpp, src/iptables_policy_rule_installer.cpp,
      src/dispatcher.cpp).  NatfwSession.v: src/ni_session.cpp, src/nr_session.cpp
      and src/nf_session.cpp, as the modules [Ni], [Nr] and [Nf].  NatfwExt.v:
      src/nr_ext_session.cpp, src/nf_non_edge_ext_session.cpp and the data of
      src/nf_edge_ext_session.cpp.  NatfwNode.v: the session table, the dispatcher,
      and the edge session, which acts on both.
    - NatfwFacts.v, NatfwNodeFacts.v, NatfwProps.v, NatfwExtProps.v, NatfwPath.v: the
      theorems about sessions, nodes and paths.  NatfwWitness.v instantiates them.

    ** How C is modelled

    Integers are [Z], wrapped to their width wherever an operation can leave it.
    Objects in memory are lists of bytes, on a little-endian host; reading or
    writing outside an object aborts ([Abort]), as do failed assertions, null
    pointers, and uses of freed memory.  The datapath is a record threaded through a
    state and abort monad; flow entries and packet buffers live in heaps, so that
    leaks, double frees and uses after free are visible.  What the program does not
    decide is part of the state it starts in: the results of devices, of
    transports, of allocations and of the random number generator are lists of
    results to come.  The contents of fresh memory are given by the class [Malloc]
    and are arbitrary.

    The C++ of natfw-nslp is modelled with objects as records: a handler takes a
    session and the world and returns both, exceptions are values of a sum, failed
    assertions abort, and so does an exception that leaves a function declared
    [throw ()].  Configuration parameters keep the type they were registered with.  The
    double precision arithmetic of the initiator's timers is that of [SpecFloat].

    Total correctness is stated with [wp]: [wp c Q] says that [c] terminates without
    aborting, in a result that satisfies [Q].

    ** What the theorems show

    - Messages from controllers (DpControl.v): no message crashes the switch, except
      for the ones listed there, and every field stays in the range of its type;
      the exceptions do crash it (DpControl.v, DpCrash.v).
    - Flow tables: the tables keep their order and find the best entry; a chain owns
      every entry exactly once whatever is done to it, finds an entry if there is
      one, and loses none when it expires; flow modifications of at most 65523 bytes
      account for every entry on every path, when they name no buffered packet, and an
      addition, with one or without, replaces at most a duplicate of the new entry
      (TableLinearFacts.v, TableHashFacts.v, ChainFacts.v, DpFlowFacts.v,
      DpRunFacts.v).
    - Packets: unicast forwarding, flooding, and packets sent to the controllers are
      described exactly, with the frames, counters and buffers; a saved packet is
      retrieved unchanged (DpForward.v, DpOutput.v, DpPacket.v).  Parsing is memory
      safe on every packet (FlowFacts.v).  Validation accepts exactly the action
      lists of its specification (DpActFacts.v).
    - Matching (SwitchFlowFacts.v): comparing two keys decides whether some packet
      matches both; conversion to the wire and back is the identity.
    - Spanning tree: on every reachable bridge only root and designated ports may
      forward, the root is the best one known, ports go up only with time, and
      configuration BPDUs are rate limited.
    - Connections (RconnFacts.v): no call aborts, [rconn_run] terminates, what is
      sent is what was queued, in order, and queues are bounded.
    - Ofpbuf.v and Csum.v: buffers are byte queues; the checksums agree with their
      mathematical definitions.
    - Transports (StreamFacts.v, VconnFacts.v): messages survive being cut into
      pieces; a connection agrees on a version in its range or fails, and delivers
      what the peer sent.
    - Rate limiting (RateLimitFacts.v): the rate and the queues are bounded, every
      message is accounted for, and ports are served in turn.
    - Learning (MacLearningFacts.v, Tag.v, LearningSwitchFacts.v): the table of
      stations implements a list in order of use; no message crashes the learning
      switch but for one kind; flows whose answer changes are found by their tags.
    - Control loop (ControlLoop.v): a datapath that obeys the learning switch sends
      the packet that waits in a buffer, and the following packets of the flow, to the
      learned port, unless the type of service of the flow is not zero; the deletions
      for the spanning tree are never obeyed.
    - NATFW (NatfwProps.v, NatfwPath.v, NatfwExtProps.v): whatever the order of
      events, the rules in effect on a node are those of its established sessions and
      the ports missing from its pool are held by sessions, except after a change of
      route, which leaks both.  For a NAT this takes a list of private networks of the
      type it is read with.  The program registers another one: its NATs and edge
      nodes terminate when they first read it, and every node at a request for an EXT
      session.  A request sets up a session along the whole path; a lost response is
      never recovered from; EXT sessions add a port to the pool that was not reserved;
      some messages crash every node.

    ** Fuel and bounds

    Loops over lists are structural.  The others have fuel that the theorems show
    to be enough: action lists have as many steps as bytes, since each action takes
    at least eight; the search for a free queue number ends within the 65536
    numbers; [rconn_run] changes state at most four times; the transmit loop takes
    a packet each time.  The [for] loops of the code with constant bounds keep them
    (fifty messages per connection and iteration; the rate limiter's loop of fifty
    has fuel 51).  The loop of [vconn_connect] passes its states in order and has fuel
    for five; receiving from a stream reads a header and a body and has fuel two.
    The loop that looks for an unused session id takes the random ids of the state,
    and a theorem asks for as many of them as there are events.  Output and forwarding
    call each other when an action sends a packet through the tables again; their
    recursion is on the argument [depth], the room on the stack, and a theorem about
    forwarding holds for every depth that the action list needs.  That an action list
    can exceed every depth is a theorem as well.

    ** Not modelled

    - Input and output proper: sockets, TLS, netlink, network devices, files,
      signals, polling, logging, and the command lines of the programs.
    - The kernel module (src/openflow/datapath): a variant of the userspace datapath
      over sk_buff, RCU and netlink, which are kernel code; hardware tables.
    - Printing of messages and flows for people.
    - The secure channel's other parts, which relay between connections, DHCP, and
      the remaining containers of the library.
    - The serialisation of the messages of NATFW, its configuration files, and its
      locks: sessions process one event at a time.  What iptables makes of the commands
      that a node runs, and the nodes that have no rule installer configured.
    - The rest of src/nsis-ka: GIST and the protocol library, which are threads over
      shared queues and sockets, and the QoS protocol, whose modules work on their
      own threads and on kernel interfaces. *)

From stdpp Require Export prelude list gmap.
From Stdlib Require Export ZArith Lia.
Open Scope Z_scope.

(** ** Notation for C expressions *)

Declare Scope c_scope.
Delimit Scope c_scope with c.
Open Scope c_scope.

Infix ".&" := Z.land (at level 42, left associativity) : c_scope.
Infix ".^" := Z.lxor (at level 43, left associativity) : c_scope.
Infix ".|" := Z.lor (at level 44, left associativity) : c_scope.
Infix "<<" := Z.shiftl (at level 41, left associativity) : c_scope.
Infix ">>" := Z.shiftr (at level 41, left associativity) : c_scope.

(** The truth value of a C integer expression. *)
Definition truth (x : Z) : bool := negb (x =? 0).

(** Sequencing of statements: [let* s := e in k] runs [k] in the state [e]
    computes.  A constant rather than a [let], so that the lemmas of a
    component apply to it. *)
Definition andthen {A B} (a : A) (k : A → B) : B := k a.
Notation "'let*' x := e 'in' k" := (andthen e (λ x, k))
  (at level 10, x binder, k at level 200,
   format "'[' 'let*'  x  :=  e  'in' ']' '//' k").

(** ** Machine integers

    A [w]-bit unsigned object holds a [Z] in [[0, 2^w)]; conversions to it
    reduce modulo [2^w].  [s32] is the conversion to a 32-bit two's complement
    [int]. *)

Definition u8 (x : Z) : Z := x mod 2 ^ 8.
Definition u16 (x : Z) : Z := x mod 2 ^ 16.
Definition u32 (x : Z) : Z := x mod 2 ^ 32.
Definition u64 (x : Z) : Z := x mod 2 ^ 64.
Definition s32 (x : Z) : Z := (x + 2 ^ 31) mod 2 ^ 32 - 2 ^ 31.

Definition INT_MAX : Z := 2147483647.
Definition UINT16_MAX : Z := 65535.
Definition UINT32_MAX : Z := 4294967295.

(** ** Byte order of the host

    The host is little-endian: an object of [n] bytes with value [x] is stored
    as [le_bytes n x], and the conversions between host and network order swap
    bytes.  [htonll] is the function of lib/xtoxll.h. *)

Definition htons (x : Z) : Z := 256 * (x mod 256) + x / 256 mod 256.
Definition ntohs (x : Z) : Z := htons x.
Definition htonl (x : Z) : Z := 65536 * htons (x mod 65536) + htons (x / 65536 mod 65536).
Definition ntohl (x : Z) : Z := htonl x.
Definition htonll (n : Z) : Z := (u64 (htonl n << 32)) .| htonl (n >> 32).
Definition ntohll (n : Z) : Z := (u64 (ntohl n << 32)) .| ntohl (n >> 32).

Fixpoint le_bytes (n : nat) (x : Z) : list Z :=
  match n with
  | O => []
  | S n => x mod 256 :: le_bytes n (x / 256)
  end.

Fixpoint le_int (l : list Z) : Z :=
  match l with
  | [] => 0
  | b :: l => b + 256 * le_int l
  end.

(** [n] bytes of [l] from offset [off], and the integer stored there. *)
Definition bytes_at (l : list Z) (off n : nat) : list Z := take n (drop off l).
Definition int_at (l : list Z) (off n : nat) : Z := le_int (bytes_at l off n).

Definition is_byte (b : Z) : Prop := 0 <= b < 256.

(** ** Computations

    [Ok] is normal termination, [Abort] a failed assertion or an access
    outside the objects of the program, [NoFuel] a computation cut short by
    the bound on its recursion depth. *)

Inductive comp (A : Type) : Type :=
| Ok (a : A)
| Abort
| NoFuel.
Arguments Ok {A} a.
Arguments Abort {A}.
Arguments NoFuel {A}.

#[export] Instance comp_ret : MRet comp := λ A, Ok.
#[export] Instance comp_bind : MBind comp := λ A B f c,
  match c with
  | Ok a => f a
  | Abort => Abort
  | NoFuel => NoFuel
  end.

Definition assert_c (b : bool) : comp unit := if b then Ok tt else Abort.
Definition deref {A} (o : option A) : comp A :=
  match o with Some a => Ok a | None => Abort end.

(** ** Updating a field of a record

    [r <| f := v |>] is [r] with field [f] replaced.  A record type declares
    its eta-expansion as an [Eta] instance, from which the setter of every
    field is derived. *)

Class Eta (R : Type) := eta : R → R.
Class Field {R T : Type} (get : R → T) := upd : (T → T) → R → R.
Arguments upd {R T} get {_} f r / : simpl nomatch.

Ltac derive_field :=
  match goal with
  | |- @Field ?R _ ?get =>
      let e := eval hnf in (_ : Eta R) in
      lazymatch eval pattern get in e with
      | ?k _ => exact (λ f, k (λ r, f (get r)))
      end
  end.
#[global] Hint Extern 0 (Field _) => derive_field : typeclass_instances.

Notation "r '<|' x ':=' v '|>'" := (upd x (λ _, v) r)
  (at level 1, left associativity, x at level 200, format "r '<|' x  ':='  v '|>'").

(** ** Arithmetic lemmas shared by the components *)

(** Linear arithmetic with division and remainder by constants. *)
Ltac zlia := Z.div_mod_to_equations; lia.

Lemma u16_range x : 0 <= u16 x < 65536.
Proof. unfold u16. zlia. Qed.

Lemma u32_range x : 0 <= u32 x < 2 ^ 32.
Proof. unfold u32. zlia. Qed.

Lemma htons_range x : 0 <= htons x < 65536.
Proof. unfold htons. zlia. Qed.

Lemma ntohs_htons x : 0 <= x < 65536 → ntohs (htons x) = x.
Proof. unfold ntohs, htons. intros. zlia. Qed.

Lemma htonl_range x : 0 <= htonl x < 2 ^ 32.
Proof.
  unfold htonl. pose proof (htons_range (x mod 65536)).
  pose proof (htons_range (x / 65536 mod 65536)). lia.
Qed.

Lemma htonl_parts x :
  htonl x mod 65536 = htons (x / 65536 mod 65536) ∧
  htonl x / 65536 mod 65536 = htons (x mod 65536).
Proof.
  unfold htonl. pose proof (htons_range (x mod 65536)).
  pose proof (htons_range (x / 65536 mod 65536)).
  split; zlia.
Qed.

Lemma ntohl_htonl x : 0 <= x < 2 ^ 32 → ntohl (htonl x) = x.
Proof.
  intros Hx. unfold ntohl. unfold htonl at 1.
  destruct (htonl_parts x) as [-> ->].
  change (htons (htons (x / 65536 mod 65536))) with (ntohs (htons (x / 65536 mod 65536))).
  change (htons (htons (x mod 65536))) with (ntohs (htons (x mod 65536))).
  rewrite !ntohs_htons by zlia. zlia.
Qed.

Lemma length_le_bytes n x : length (le_bytes n x) = n.
Proof. revert x; induction n as [|n IH]; intros x; simpl; [done|by rewrite IH]. Qed.

Lemma le_int_bytes n x : 0 <= x < 256 ^ Z.of_nat n → le_int (le_bytes n x) = x.
Proof.
  revert x; induction n as [|n IH]; intros x Hx; simpl.
  - rewrite Z.pow_0_r in Hx. lia.
  - rewrite Nat2Z.inj_succ, Z.pow_succ_r in Hx by lia.
    rewrite IH by zlia. zlia.
Qed.

Lemma le_bytes_is_byte n x : Forall is_byte (le_bytes n x).
Proof.
  revert x; induction n as [|n IH]; intros x; simpl; constructor; [|done].
  unfold is_byte. zlia.
Qed.

(** Reading a field back from the concatenation that stores it. *)
Lemma int_at_app (a b : list Z) n x :
  0 <= x < 256 ^ Z.of_nat n →
  int_at (a ++ le_bytes n x ++ b) (length a) n = x.
Proof.
  intros Hx. unfold int_at, bytes_at. rewrite drop_app_length.
  rewrite take_app_le by (by rewrite length_le_bytes).
  rewrite take_ge by (by rewrite length_le_bytes). by apply le_int_bytes.
Qed.

Lemma int_at_head n x l : 0 <= x < 256 ^ Z.of_nat n → int_at (le_bytes n x ++ l) 0 n = x.
Proof. apply (int_at_app []). Qed.

Lemma int_at_skip m x l off n :
  (m ≤ off)%nat → int_at (le_bytes m x ++ l) off n = int_at l (off - m) n.
Proof.
  intros H. unfold int_at, bytes_at. rewrite drop_app_ge by by rewrite length_le_bytes.
  by rewrite length_le_bytes.
Qed.

(** Reads the field of a concatenation of [le_bytes] at a literal offset. *)
Ltac read_field :=
  repeat (rewrite int_at_skip by (apply leb_complete; reflexivity); cbn [Nat.sub]);
  apply int_at_head.

Lemma mod_pow2_lxor x y n :
  0 <= n → (x .^ y) mod 2 ^ n = (x mod 2 ^ n) .^ (y mod 2 ^ n).
Proof.
  intros Hn. apply Z.bits_inj'. intros k Hk. rewrite Z.lxor_spec.
  destruct (decide (k < n)).
  - by rewrite !Z.mod_pow2_bits_low, Z.lxor_spec by lia.
  - by rewrite !Z.mod_pow2_bits_high by lia.
Qed.

Lemma lxor_range x y n :
  0 <= n → 0 <= x < 2 ^ n → 0 <= y < 2 ^ n → 0 <= x .^ y < 2 ^ n.
Proof.
  intros Hn Hx Hy. rewrite <-(Z.mod_small x (2 ^ n)), <-(Z.mod_small y (2 ^ n)) by done.
  rewrite <-mod_pow2_lxor by done. apply Z.mod_pos_bound. lia.
Qed.

(** ** Memory

    [xmalloc n] is a fresh object of [n] bytes of unspecified content.  It is an
    interface: the functions that allocate take an implementation, and their
    theorems hold for each. *)

Class Malloc := {
  xmalloc : nat → list Z;
  length_xmalloc n : length (xmalloc n) = n;
  xmalloc_is_byte n : Forall is_byte (xmalloc n);
}.

#[refine] Definition zero_malloc : Malloc := {| xmalloc n := replicate n 0 |}.
Proof.
  - intros n. apply length_replicate.
  - intros n. apply Forall_replicate. unfold is_byte. lia.
Defined.

(** Reading and writing an object; an access that is not inside it aborts. *)
Definition load (mem : list Z) (off n : nat) : comp Z :=
  assert_c (off + n <=? length mem)%nat;; Ok (int_at mem off n).
Definition load_bytes (mem : list Z) (off n : nat) : comp (list Z) :=
  assert_c (off + n <=? length mem)%nat;; Ok (bytes_at mem off n).
Definition put_at (mem : list Z) (off : nat) (src : list Z) : list Z :=
  take off mem ++ src ++ drop (off + length src) mem.
Definition memcpy (mem : list Z) (off : nat) (src : list Z) : comp (list Z) :=
  assert_c (off + length src <=? length mem)%nat;; Ok (put_at mem off src).
Definition store (mem : list Z) (off n : nat) (x : Z) : comp (list Z) :=
  memcpy mem off (le_bytes n x).

Lemma length_put_at mem off src :
  (off + length src ≤ length mem)%nat → length (put_at mem off src) = length mem.
Proof. intros H. unfold put_at. rewrite !length_app, length_take, length_drop. lia. Qed.

Lemma bytes_at_put_at mem off src :
  (off ≤ length mem)%nat → bytes_at (put_at mem off src) off (length src) = src.
Proof.
  intros H. unfold bytes_at, put_at.
  rewrite drop_app_ge by (rewrite length_take; lia).
  rewrite length_take, Nat.min_l, Nat.sub_diag, drop_0 by lia.
  rewrite take_app_le by lia. apply take_ge. lia.
Qed.

(** A write leaves the bytes before and after it alone. *)
Lemma bytes_at_put_at_before mem off src o n :
  (off ≤ length mem)%nat → (o + n ≤ off)%nat →
  bytes_at (put_at mem off src) o n = bytes_at mem o n.
Proof.
  intros H1 H2. unfold bytes_at, put_at. rewrite drop_app_le by (rewrite length_take; lia).
  rewrite take_app_le by (rewrite length_drop, length_take; lia).
  by rewrite !take_drop_commute, take_take, Nat.min_l by lia.
Qed.

Lemma bytes_at_put_at_after mem off src o n :
  (off + length src ≤ length mem)%nat → (off + length src ≤ o)%nat →
  bytes_at (put_at mem off src) o n = bytes_at mem o n.
Proof.
  intros H1 H2. unfold bytes_at, put_at.
  rewrite drop_app_ge by (rewrite length_take; lia). rewrite length_take, Nat.min_l by lia.
  rewrite drop_app_ge by lia. rewrite drop_drop. f_equal. f_equal. lia.
Qed.

(** ** Weakest preconditions

    [wp c Q]: the computation [c] terminates normally, in a result with [Q]. *)

Definition wp {A} (c : comp A) (Q : A → Prop) : Prop :=
  match c with Ok a => Q a | _ => False end.

Lemma wp_ok {A} (a : A) (Q : A → Prop) : Q a → wp (Ok a) Q.
Proof. done. Qed.

Lemma wp_bind {A B} (c : comp A) (k : A → comp B) Q :
  wp c (λ a, wp (k a) Q) → wp (c ≫= k) Q.
Proof. by destruct c. Qed.

Lemma wp_mono {A} (c : comp A) (P Q : A → Prop) : wp c P → (∀ a, P a → Q a) → wp c Q.
Proof. destruct c; simpl; auto. Qed.

Lemma wp_inv {A} (c : comp A) Q : wp c Q → ∃ a, c = Ok a ∧ Q a.
Proof. destruct c; simpl; [eauto|done..]. Qed.

Lemma wp_assert (b : bool) (Q : unit → Prop) : b = true → Q tt → wp (assert_c b) Q.
Proof. by intros ->. Qed.

Lemma load_eq mem off n : (off + n ≤ length mem)%nat → load mem off n = Ok (int_at mem off n).
Proof. intros H. unfold load. by rewrite (proj2 (Nat.leb_le _ _)). Qed.

Lemma wp_load mem off n Q :
  (off + n ≤ length mem)%nat → Q (int_at mem off n) → wp (load mem off n) Q.
Proof. intros H HQ. unfold load. by rewrite (proj2 (Nat.leb_le _ _)). Qed.

Lemma wp_load_bytes mem off n Q :
  (off + n ≤ length mem)%nat → Q (bytes_at mem off n) → wp (load_bytes mem off n) Q.
Proof. intros H HQ. unfold load_bytes. by rewrite (proj2 (Nat.leb_le _ _)). Qed.

Lemma wp_memcpy mem off src Q :
  (off + length src ≤ length mem)%nat → Q (put_at mem off src) → wp (memcpy mem off src) Q.
Proof. intros H HQ. unfold memcpy. by rewrite (proj2 (Nat.leb_le _ _)). Qed.

Lemma wp_store mem off n x Q :
  (off + n ≤ length mem)%nat → Q (put_at mem off (le_bytes n x)) → wp (store mem off n x) Q.
Proof. intros H HQ. apply wp_memcpy; [by rewrite length_le_bytes|done]. Qed.

(** The values that bytes in memory can hold. *)
Lemma le_int_range l : Forall is_byte l → 0 <= le_int l < 256 ^ Z.of_nat (length l).
Proof.
  induction 1 as [|b l Hb _ IH]; [done|]. unfold is_byte in Hb. cbn [length le_int].
  rewrite Nat2Z.inj_succ, Z.pow_succ_r by lia. lia.
Qed.

Lemma bytes_at_is_byte mem off n : Forall is_byte mem → Forall is_byte (bytes_at mem off n).
Proof. intros H. by apply Forall_take, Forall_drop. Qed.

Lemma length_bytes_at mem off n :
  (off + n ≤ length mem)%nat → length (bytes_at mem off n) = n.
Proof. intros H. unfold bytes_at. rewrite length_take, length_drop. lia. Qed.

Lemma int_at_range mem off n :
  Forall is_byte mem → 0 <= int_at mem off n < 256 ^ Z.of_nat n.
Proof.
  intros H. unfold int_at. pose proof (le_int_range _ (bytes_at_is_byte mem off n H)) as Hr.
  split; [lia|]. eapply Z.lt_le_trans; [apply Hr|]. apply Z.pow_le_mono_r; [lia|].
  unfold bytes_at. rewrite length_take. lia.
Qed.

(** Follows a computation: [wp_step] crosses one bind, or one branch. *)
Ltac wp_step :=
  lazymatch goal with
  | |- wp (Ok _) _ => apply wp_ok
  | |- wp (_ ≫= _) _ => apply wp_bind
  | |- wp (load _ _ _) _ => apply wp_load
  | |- wp (load_bytes _ _ _) _ => apply wp_load_bytes
  | |- wp (memcpy _ _ _) _ => apply wp_memcpy
  | |- wp (store _ _ _ _) _ => apply wp_store
  end.

(** ** Byte order conversion permutes bits *)

Lemma testbit_join a b k n :
  0 <= k → 0 <= b < 2 ^ k → 0 <= n →
  Z.testbit (2 ^ k * a + b) n = if decide (n < k) then Z.testbit b n else Z.testbit a (n - k).
Proof.
  intros Hk Hb Hn. case_decide.
  - rewrite <-(Z.mod_pow2_bits_low (2 ^ k * a + b) k n) by lia.
    by rewrite Z.mul_comm, Z.add_comm, Z.mod_add, Z.mod_small by lia.
  - replace n with ((n - k) + k) at 1 by lia. rewrite <-Z.div_pow2_bits by lia.
    rewrite Z.mul_comm, Z.div_add_l, Z.div_small by lia. by rewrite Z.add_0_r.
Qed.

Lemma testbit_htons x n :
  0 <= n < 16 → Z.testbit (htons x) n = Z.testbit x (if decide (n < 8) then n + 8 else n - 8).
Proof.
  intros Hn. unfold htons. change 256 with (2 ^ 8) at 1.
  rewrite testbit_join by zlia. change 256 with (2 ^ 8). case_decide.
  - rewrite Z.mod_pow2_bits_low, Z.div_pow2_bits by lia. done.
  - by rewrite Z.mod_pow2_bits_low by lia.
Qed.

Lemma testbit_htonl x n :
  0 <= n < 32 → Z.testbit (htonl x) n = Z.testbit x (24 - 8 * (n / 8) + n mod 8).
Proof.
  intros Hn. unfold htonl. change 65536 with (2 ^ 16) at 1.
  pose proof (htons_range (x / 65536 mod 65536)).
  rewrite testbit_join by lia. change 65536 with (2 ^ 16). case_decide.
  - rewrite testbit_htons by lia. rewrite Z.mod_pow2_bits_low by (repeat case_decide; lia).
    rewrite Z.div_pow2_bits by (repeat case_decide; lia). f_equal. case_decide; zlia.
  - rewrite testbit_htons by lia. rewrite Z.mod_pow2_bits_low by (repeat case_decide; lia).
    f_equal. case_decide; zlia.
Qed.

Lemma testbit_high x n k : 0 <= x < 2 ^ k → k <= n → Z.testbit x n = false.
Proof.
  intros Hx Hn. rewrite <-(Z.mod_small x (2 ^ k)) by done.
  destruct (decide (0 <= k)); [by apply Z.mod_pow2_bits_high|].
  rewrite Z.pow_neg_r in Hx by lia. lia.
Qed.

(** Bitwise operations may be made on either side of the conversion. *)
Lemma htonl_bitwise (op : Z → Z → Z) (f : bool → bool → bool) x y :
  (∀ x y n, Z.testbit (op x y) n = f (Z.testbit x n) (Z.testbit y n)) →
  f false false = false →
  htonl (op x y) = op (htonl x) (htonl y).
Proof.
  intros Hop Hf. apply Z.bits_inj'. intros n Hn. rewrite Hop.
  destruct (decide (n < 32)).
  - by rewrite !testbit_htonl, Hop by lia.
  - by rewrite !(testbit_high _ n 32) by (apply htonl_range || lia).
Qed.

Lemma htonl_land x y : htonl (x .& y) = htonl x .& htonl y.
Proof. apply (htonl_bitwise Z.land andb); [apply Z.land_spec|done]. Qed.

Lemma htonl_lxor x y : htonl (x .^ y) = htonl x .^ htonl y.
Proof. apply (htonl_bitwise Z.lxor xorb); [apply Z.lxor_spec|done]. Qed.

Lemma htonl_inj_0 x : 0 <= x < 2 ^ 32 → htonl x = 0 → x = 0.
Proof. intros Hx H. rewrite <-(ntohl_htonl x) by done. by rewrite H. Qed.
