(* ===== verification/Stp.v ===== *)
(** * lib/stp.c: the IEEE 802.1D spanning tree state machine

    One [stp] record is the state of a bridge.  A pointer to a port is its
    index in [br_ports]; [255] is the pointer one past the end of the array.
    The client's [send_bpdu] callback is modelled by the log [br_sent] of the
    frames handed to it, oldest first.  Log messages, the bridge name and the
    allocation of the structure are left out. *)

From S2P Require Import Prelude.

Module Stp.

(** ** Data *)

Definition STP_PROTOCOL_ID : Z := 0x0000.
Definition STP_PROTOCOL_VERSION : Z := 0x00.
Definition STP_TYPE_CONFIG : Z := 0x00.
Definition STP_TYPE_TCN : Z := 0x80.
Definition STP_CONFIG_TOPOLOGY_CHANGE_ACK : Z := 0x80.
Definition STP_CONFIG_TOPOLOGY_CHANGE : Z := 0x01.
Definition STP_LLC_SSAP : Z := 0x42.
Definition STP_LLC_DSAP : Z := 0x42.
Definition STP_LLC_CNTL : Z := 0x03.
Definition STP_DEFAULT_BRIDGE_PRIORITY : Z := 32768.
Definition STP_DEFAULT_PORT_PRIORITY : Z := 128.
Definition STP_MAX_PORTS : nat := 255.
Definition MESSAGE_AGE_INCREMENT : Z := 1.
Definition ETH_HEADER_LEN : Z := 14.

Definition stp_eth_addr : list Z := [0x01; 0x80; 0xC2; 0x00; 0x00; 0x01].

(** [STP_ZEROED] is the all-zero-bits value that [xcalloc] leaves in a port
    before its first [stp_set_port_state]; it is not an enumerator. *)
Inductive stp_state : Type :=
| STP_ZEROED
| STP_DISABLED
| STP_LISTENING
| STP_LEARNING
| STP_FORWARDING
| STP_BLOCKING.

#[export] Instance stp_state_eq_dec : EqDecision stp_state.
Proof. solve_decision. Defined.

Definition state_bits (s : stp_state) : Z :=
  match s with
  | STP_ZEROED => 0
  | STP_DISABLED => 1 << 0
  | STP_LISTENING => 1 << 1
  | STP_LEARNING => 1 << 2
  | STP_FORWARDING => 1 << 3
  | STP_BLOCKING => 1 << 4
  end.

(** Multi-byte fields hold the stored value, in network byte order. *)
Record stp_bpdu_header := mk_stp_bpdu_header {
  protocol_id : Z;
  protocol_version : Z;
  bpdu_type : Z;
}.

Record stp_config_bpdu := mk_stp_config_bpdu {
  cfg_header : stp_bpdu_header;
  cfg_flags : Z;
  cfg_root_id : Z;
  cfg_root_path_cost : Z;
  cfg_bridge_id : Z;
  cfg_port_id : Z;
  cfg_message_age : Z;
  cfg_max_age : Z;
  cfg_hello_time : Z;
  cfg_forward_delay : Z;
}.

Record stp_timer := mk_stp_timer { active : bool; value : Z }.
#[export] Instance stp_timer_eta : Eta stp_timer := λ t, mk_stp_timer (active t) (value t).

Record stp_port := mk_stp_port {
  port_id : Z;
  state : stp_state;
  path_cost : Z;
  designated_root : Z;
  designated_cost : Z;
  designated_bridge : Z;
  designated_port : Z;
  topology_change_ack : bool;
  config_pending : bool;
  change_detection_enabled : bool;
  message_age_timer : stp_timer;
  forward_delay_timer : stp_timer;
  hold_timer : stp_timer;
  state_changed : bool;
}.
#[export] Instance stp_port_eta : Eta stp_port := λ p,
  mk_stp_port (port_id p) (state p) (path_cost p) (designated_root p)
    (designated_cost p) (designated_bridge p) (designated_port p)
    (topology_change_ack p) (config_pending p) (change_detection_enabled p)
    (message_age_timer p) (forward_delay_timer p) (hold_timer p)
    (state_changed p).

Record stp := mk_stp {
  br_bridge_id : Z;
  br_max_age : Z;
  br_hello_time : Z;
  br_forward_delay : Z;
  br_bridge_max_age : Z;
  br_bridge_hello_time : Z;
  br_bridge_forward_delay : Z;
  br_rq_max_age : Z;
  br_rq_hello_time : Z;
  br_rq_forward_delay : Z;
  br_elapsed_remainder : Z;
  br_designated_root : Z;
  br_root_path_cost : Z;
  br_root_port : option nat;
  br_topology_change_detected : bool;
  br_topology_change : bool;
  br_hello_timer : stp_timer;
  br_tcn_timer : stp_timer;
  br_topology_change_timer : stp_timer;
  br_ports : list stp_port;
  br_first_changed_port : nat;
  br_sent : list (Z * list Z);
}.
#[export] Instance stp_eta : Eta stp := λ s,
  mk_stp (br_bridge_id s) (br_max_age s) (br_hello_time s) (br_forward_delay s)
    (br_bridge_max_age s) (br_bridge_hello_time s) (br_bridge_forward_delay s)
    (br_rq_max_age s) (br_rq_hello_time s) (br_rq_forward_delay s)
    (br_elapsed_remainder s) (br_designated_root s) (br_root_path_cost s)
    (br_root_port s) (br_topology_change_detected s) (br_topology_change s)
    (br_hello_timer s) (br_tcn_timer s) (br_topology_change_timer s)
    (br_ports s) (br_first_changed_port s) (br_sent s).

(** What [xcalloc] leaves in the structure. *)
Definition zero_timer : stp_timer := mk_stp_timer false 0.
Definition zero_port : stp_port :=
  mk_stp_port 0 STP_ZEROED 0 0 0 0 0 false false false zero_timer zero_timer
    zero_timer false.
#[export] Instance stp_port_inhabited : Inhabited stp_port := populate zero_port.
Definition zero_stp : stp :=
  mk_stp 0 0 0 0 0 0 0 0 0 0 0 0 0 None false false zero_timer zero_timer
    zero_timer (replicate STP_MAX_PORTS zero_port) 0 [].

(** The port that an index points to, and an update of it in place. *)
Definition port (s : stp) (i : nat) : stp_port := br_ports s !!! i.
Definition upd_port (i : nat) (f : stp_port → stp_port) (s : stp) : stp :=
  s <| br_ports := alter f i (br_ports s) |>.

(** ** Wire format

    The two BPDU structures are packed, so their bytes are the concatenation
    of the bytes of their fields. *)

Definition header_bytes (h : stp_bpdu_header) : list Z :=
  le_bytes 2 (protocol_id h) ++ le_bytes 1 (protocol_version h)
  ++ le_bytes 1 (bpdu_type h).

Definition config_bytes (c : stp_config_bpdu) : list Z :=
  header_bytes (cfg_header c) ++ le_bytes 1 (cfg_flags c)
  ++ le_bytes 8 (cfg_root_id c) ++ le_bytes 4 (cfg_root_path_cost c)
  ++ le_bytes 8 (cfg_bridge_id c) ++ le_bytes 2 (cfg_port_id c)
  ++ le_bytes 2 (cfg_message_age c) ++ le_bytes 2 (cfg_max_age c)
  ++ le_bytes 2 (cfg_hello_time c) ++ le_bytes 2 (cfg_forward_delay c).

Definition header_of_bytes (l : list Z) : stp_bpdu_header :=
  mk_stp_bpdu_header (int_at l 0 2) (int_at l 2 1) (int_at l 3 1).

Definition config_of_bytes (l : list Z) : stp_config_bpdu :=
  mk_stp_config_bpdu (header_of_bytes l) (int_at l 4 1) (int_at l 5 8)
    (int_at l 13 4) (int_at l 17 8) (int_at l 25 2) (int_at l 27 2)
    (int_at l 29 2) (int_at l 31 2) (int_at l 33 2).

(** ** Iteration over the enabled ports *)

Fixpoint next_enabled (n : nat) (s : stp) (i : nat) : option nat :=
  match n with
  | O => None
  | S n =>
      if decide (state (port s i) = STP_DISABLED) then next_enabled n s (S i)
      else Some i
  end.

Definition stp_next_enabled_port (s : stp) (i : nat) : option nat :=
  next_enabled (STP_MAX_PORTS - i) s i.

(** [FOR_EACH_ENABLED_PORT]: [get] reads the bridge out of the loop state, so
    that a loop can carry local variables.  The fuel is the number of ports
    left; every round moves to a higher index. *)
Fixpoint for_each_loop {A} (get : A → stp) (body : nat → A → A) (n : nat)
    (p : option nat) (a : A) : A :=
  match n, p with
  | S n, Some i =>
      let a := body i a in
      for_each_loop get body n (stp_next_enabled_port (get a) (S i)) a
  | _, _ => a
  end.

Definition for_each_enabled_port {A} (get : A → stp) (body : nat → A → A)
    (a : A) : A :=
  for_each_loop get body STP_MAX_PORTS (stp_next_enabled_port (get a) 0) a.

(** ** Timers *)

Definition stp_start_timer (v : Z) : stp_timer := mk_stp_timer true v.
Definition stp_stop_timer (t : stp_timer) : stp_timer := t <| active := false |>.

(** Returns the timer after [elapsed] ticks and whether it expired. *)
Definition stp_timer_expired (t : stp_timer) (elapsed timeout : Z)
    : stp_timer * bool :=
  if active t then
    let t := t <| value := s32 (value t + elapsed) |> in
    if timeout <=? value t then (t <| active := false |>, true) else (t, false)
  else (t, false).

Definition ms_to_timer (ms : Z) : Z := Z.quot (s32 (ms * 0x100)) 1000.
Definition ms_to_timer_remainder (ms : Z) : Z := Z.rem (s32 (ms * 0x100)) 1000.
Definition timer_to_ms (timer : Z) : Z := Z.quot (s32 (timer * 1000)) 0x100.

Definition clamp (x min max : Z) : Z :=
  if x <? min then min else if max <? x then max else x.

(** ** Queries *)

Definition stp_is_root_bridge (s : stp) : bool :=
  br_bridge_id s =? br_designated_root s.

Definition stp_is_designated_port (s : stp) (i : nat) : bool :=
  (designated_bridge (port s i) =? br_bridge_id s)
  && (designated_port (port s i) =? port_id (port s i)).

Definition stp_is_designated_for_some_port (s : stp) : bool :=
  for_each_enabled_port (λ _, s)
    (λ i found, found || (designated_bridge (port s i) =? br_bridge_id s)) false.

Definition stp_get_hello_time (s : stp) : Z := timer_to_ms (br_bridge_hello_time s).
Definition stp_get_max_age (s : stp) : Z := timer_to_ms (br_bridge_max_age s).
Definition stp_get_forward_delay (s : stp) : Z :=
  timer_to_ms (br_bridge_forward_delay s).

Definition stp_forward_in_state (st : stp_state) : bool :=
  truth (state_bits st .& (state_bits STP_DISABLED .| state_bits STP_FORWARDING)).

Definition stp_learn_in_state (st : stp_state) : bool :=
  truth (state_bits st
    .& (state_bits STP_DISABLED .| state_bits STP_LEARNING
        .| state_bits STP_FORWARDING)).

(** [stp_get_changed_port]: the loop from [br_first_changed_port]. *)
Fixpoint changed_port_loop (n i : nat) (s : stp) : stp * option nat :=
  match n with
  | O => (s <| br_first_changed_port := STP_MAX_PORTS |>, None)
  | S n =>
      if state_changed (port s i) then
        ((upd_port i (λ p, p <| state_changed := false |>) s)
           <| br_first_changed_port := S i |>, Some i)
      else changed_port_loop n (S i) s
  end.

Definition stp_get_changed_port (s : stp) : stp * option nat :=
  changed_port_loop (STP_MAX_PORTS - br_first_changed_port s)
    (br_first_changed_port s) s.

(** ** Sending *)

(** [stp_send_bpdu]: the Ethernet and LLC headers are put in front of the BPDU
    and the frame is handed to the client with the port number.  The source
    address is left zero for the client to fill in. *)
Definition stp_send_bpdu (i : nat) (bpdu : list Z) (s : stp) : stp :=
  let eth_type := htons (3 + Z.of_nat (length bpdu)) in
  let frame := stp_eth_addr ++ replicate 6 0 ++ le_bytes 2 eth_type
               ++ [STP_LLC_DSAP; STP_LLC_SSAP; STP_LLC_CNTL] ++ bpdu in
  s <| br_sent := br_sent s ++ [(Z.of_nat i, frame)] |>.

(** The flags byte of an outgoing configuration BPDU: [flags] is a [uint8_t],
    so that every [|=] converts its result to 8 bits. *)
Definition config_flags (s : stp) (i : nat) : Z :=
  let flags := 0 in
  let flags := if topology_change_ack (port s i)
               then u8 (flags .| htons STP_CONFIG_TOPOLOGY_CHANGE_ACK) else flags in
  if br_topology_change s
  then u8 (flags .| htons STP_CONFIG_TOPOLOGY_CHANGE) else flags.

(** The configuration BPDU that [stp_transmit_config] builds for port [i]. *)
Definition make_config (s : stp) (i : nat) : stp_config_bpdu :=
  {| cfg_header := mk_stp_bpdu_header (htons STP_PROTOCOL_ID)
                     STP_PROTOCOL_VERSION STP_TYPE_CONFIG;
     cfg_flags := config_flags s i;
     cfg_root_id := htonll (br_designated_root s);
     cfg_root_path_cost := htonl (br_root_path_cost s);
     cfg_bridge_id := htonll (br_bridge_id s);
     cfg_port_id := htons (port_id (port s i));
     cfg_message_age :=
       if stp_is_root_bridge s then htons 0
       else match br_root_port s with
            | Some r => htons (value (message_age_timer (port s r))
                               + MESSAGE_AGE_INCREMENT)
            | None => htons 0
            end;
     cfg_max_age := htons (br_max_age s);
     cfg_hello_time := htons (br_hello_time s);
     cfg_forward_delay := htons (br_forward_delay s) |}.

Definition stp_transmit_config (i : nat) (s : stp) : stp :=
  if negb (stp_is_root_bridge s) && bool_decide (br_root_port s = None) then s
  else if active (hold_timer (port s i)) then
    upd_port i (λ p, p <| config_pending := true |>) s
  else
    let config := make_config s i in
    if ntohs (cfg_message_age config) <? br_max_age s then
      let* s := upd_port i (λ p, p <| topology_change_ack := false |>
                                  <| config_pending := false |>) s in
      let* s := stp_send_bpdu i (config_bytes config) s in
      upd_port i (λ p, p <| hold_timer := stp_start_timer 0 |>) s
    else s.

Definition stp_config_bpdu_generation (s : stp) : stp :=
  for_each_enabled_port id
    (λ i s, if stp_is_designated_port s i then stp_transmit_config i s else s) s.

Definition stp_transmit_tcn (s : stp) : stp :=
  match br_root_port s with
  | None => s
  | Some i =>
      stp_send_bpdu i
        (header_bytes (mk_stp_bpdu_header (htons STP_PROTOCOL_ID)
                         STP_PROTOCOL_VERSION STP_TYPE_TCN)) s
  end.

(** ** Priority vectors *)

(** The comparison of a received configuration with the information held for
    the port it was received on.  [root_path_cost] is a [uint32_t], so the
    [int] it is compared with is converted to unsigned. *)
Definition stp_supersedes_port_info (s : stp) (i : nat) (c : stp_config_bpdu) : bool :=
  let p := port s i in
  if negb (ntohll (cfg_root_id c) =? designated_root p)
  then ntohll (cfg_root_id c) <? designated_root p
  else if negb (ntohl (cfg_root_path_cost c) =? u32 (designated_cost p))
  then ntohl (cfg_root_path_cost c) <? u32 (designated_cost p)
  else if negb (ntohll (cfg_bridge_id c) =? designated_bridge p)
  then ntohll (cfg_bridge_id c) <? designated_bridge p
  else negb (ntohll (cfg_bridge_id c) =? br_bridge_id s)
       || (ntohs (cfg_port_id c) <=? designated_port p).

Definition stp_record_config_information (i : nat) (c : stp_config_bpdu)
    (s : stp) : stp :=
  upd_port i (λ p, p
    <| designated_root := ntohll (cfg_root_id c) |>
    <| designated_cost := s32 (ntohl (cfg_root_path_cost c)) |>
    <| designated_bridge := ntohll (cfg_bridge_id c) |>
    <| designated_port := ntohs (cfg_port_id c) |>
    <| message_age_timer := stp_start_timer (ntohs (cfg_message_age c)) |>) s.

Definition stp_record_config_timeout_values (c : stp_config_bpdu) (s : stp) : stp :=
  s <| br_max_age := ntohs (cfg_max_age c) |>
    <| br_hello_time := ntohs (cfg_hello_time c) |>
    <| br_forward_delay := ntohs (cfg_forward_delay c) |>
    <| br_topology_change :=
         truth (cfg_flags c .& htons STP_CONFIG_TOPOLOGY_CHANGE) |>.

Definition stp_supersedes_root (root p : stp_port) : bool :=
  let p_cost := s32 (designated_cost p + path_cost p) in
  let root_cost := s32 (designated_cost root + path_cost root) in
  if negb (designated_root p =? designated_root root)
  then designated_root p <? designated_root root
  else if negb (p_cost =? root_cost) then p_cost <? root_cost
  else if negb (designated_bridge p =? designated_bridge root)
  then designated_bridge p <? designated_bridge root
  else if negb (designated_port p =? designated_port root)
  then designated_port p <? designated_port root
  else port_id p <? port_id root.

(** The candidate root port after looking at port [i]. *)
Definition root_candidate (s : stp) (i : nat) (root : option nat) : option nat :=
  if stp_is_designated_port s i
     || (br_bridge_id s <=? designated_root (port s i)) then root
  else match root with
       | Some r => if stp_supersedes_root (port s r) (port s i) then Some i else root
       | None => Some i
       end.

Definition stp_root_selection (s : stp) : stp :=
  let root := for_each_enabled_port (λ _, s) (root_candidate s) None in
  let* s := s <| br_root_port := root |> in
  match root with
  | None =>
      s <| br_designated_root := br_bridge_id s |> <| br_root_path_cost := 0 |>
  | Some r =>
      s <| br_designated_root := designated_root (port s r) |>
        <| br_root_path_cost := u32 (designated_cost (port s r) + path_cost (port s r)) |>
  end.

Definition stp_become_designated_port (i : nat) (s : stp) : stp :=
  upd_port i (λ p, p
    <| designated_root := br_designated_root s |>
    <| designated_cost := s32 (br_root_path_cost s) |>
    <| designated_bridge := br_bridge_id s |>
    <| designated_port := port_id p |>) s.

Definition stp_designated_port_selection (s : stp) : stp :=
  for_each_enabled_port id (λ i s,
    let p := port s i in
    if stp_is_designated_port s i
       || negb (designated_root p =? br_designated_root s)
       || (br_root_path_cost s <? u32 (designated_cost p))
       || ((br_root_path_cost s =? u32 (designated_cost p))
           && ((br_bridge_id s <? designated_bridge p)
               || ((br_bridge_id s =? designated_bridge p)
                   && (port_id p <=? designated_port p))))
    then stp_become_designated_port i s else s) s.

Definition stp_configuration_update (s : stp) : stp :=
  stp_designated_port_selection (stp_root_selection s).

(** ** Port states *)

Definition stp_set_port_state (i : nat) (st : stp_state) (s : stp) : stp :=
  let* s :=
    if bool_decide (st ≠ state (port s i)) && negb (state_changed (port s i)) then
      let* s := upd_port i (λ p, p <| state_changed := true |>) s in
      if bool_decide (i < br_first_changed_port s)%nat
      then s <| br_first_changed_port := i |> else s
    else s in
  upd_port i (λ p, p <| state := st |>) s.

Definition stp_topology_change_detection (s : stp) : stp :=
  let* s :=
    if stp_is_root_bridge s then
      s <| br_topology_change := true |>
        <| br_topology_change_timer := stp_start_timer 0 |>
    else if negb (br_topology_change_detected s) then
      (stp_transmit_tcn s) <| br_tcn_timer := stp_start_timer 0 |>
    else s in
  s <| br_topology_change_detected := true |>.

Definition stp_topology_change_acknowledged (s : stp) : stp :=
  s <| br_topology_change_detected := false |>
    <| br_tcn_timer := stp_stop_timer (br_tcn_timer s) |>.

Definition stp_acknowledge_topology_change (i : nat) (s : stp) : stp :=
  stp_transmit_config i (upd_port i (λ p, p <| topology_change_ack := true |>) s).

Definition stp_make_forwarding (i : nat) (s : stp) : stp :=
  if decide (state (port s i) = STP_BLOCKING) then
    upd_port i (λ p, p <| forward_delay_timer := stp_start_timer 0 |>)
      (stp_set_port_state i STP_LISTENING s)
  else s.

Definition stp_make_blocking (i : nat) (s : stp) : stp :=
  if negb (truth (state_bits (state (port s i))
                  .& (state_bits STP_DISABLED .| state_bits STP_BLOCKING))) then
    let* s :=
      if truth (state_bits (state (port s i))
                .& (state_bits STP_FORWARDING .| state_bits STP_LEARNING)) then
        if change_detection_enabled (port s i)
        then stp_topology_change_detection s else s
      else s in
    upd_port i (λ p, p <| forward_delay_timer := stp_stop_timer (forward_delay_timer p) |>)
      (stp_set_port_state i STP_BLOCKING s)
  else s.

(** The body of the loop of [stp_port_state_selection]. *)
Definition select_port_state (i : nat) (s : stp) : stp :=
  if bool_decide (br_root_port s = Some i) then
    stp_make_forwarding i
      (upd_port i (λ p, p <| config_pending := false |>
                          <| topology_change_ack := false |>) s)
  else if stp_is_designated_port s i then
    stp_make_forwarding i
      (upd_port i (λ p, p <| message_age_timer := stp_stop_timer (message_age_timer p) |>) s)
  else
    stp_make_blocking i
      (upd_port i (λ p, p <| config_pending := false |>
                          <| topology_change_ack := false |>) s).

Definition stp_port_state_selection (s : stp) : stp :=
  for_each_enabled_port id select_port_state s.

Definition stp_initialize_port (i : nat) (st : stp_state) (s : stp) : stp :=
  upd_port i (λ p, p
      <| topology_change_ack := false |>
      <| config_pending := false |>
      <| change_detection_enabled := true |>
      <| message_age_timer := stp_stop_timer (message_age_timer p) |>
      <| forward_delay_timer := stp_stop_timer (forward_delay_timer p) |>
      <| hold_timer := stp_stop_timer (hold_timer p) |>)
    (stp_set_port_state i st (stp_become_designated_port i s)).

(** ** Becoming root; timer expiry *)

Definition stp_become_root_bridge (s : stp) : stp :=
  let* s := s <| br_max_age := br_bridge_max_age s |>
             <| br_hello_time := br_bridge_hello_time s |>
             <| br_forward_delay := br_bridge_forward_delay s |> in
  let* s := stp_topology_change_detection s in
  let* s := s <| br_tcn_timer := stp_stop_timer (br_tcn_timer s) |> in
  let* s := stp_config_bpdu_generation s in
  s <| br_hello_timer := stp_start_timer 0 |>.

Definition stp_hello_timer_expiry (s : stp) : stp :=
  (stp_config_bpdu_generation s) <| br_hello_timer := stp_start_timer 0 |>.

Definition stp_message_age_timer_expiry (i : nat) (s : stp) : stp :=
  let* root := stp_is_root_bridge s in
  let* s := stp_become_designated_port i s in
  let* s := stp_configuration_update s in
  let* s := stp_port_state_selection s in
  if stp_is_root_bridge s && negb root then
    let* s := s <| br_max_age := br_bridge_max_age s |>
               <| br_hello_time := br_bridge_hello_time s |>
               <| br_forward_delay := br_bridge_forward_delay s |> in
    let* s := stp_topology_change_detection s in
    let* s := s <| br_tcn_timer := stp_stop_timer (br_tcn_timer s) |> in
    let* s := stp_config_bpdu_generation s in
    s <| br_hello_timer := stp_start_timer 0 |>
  else s.

Definition stp_forward_delay_timer_expiry (i : nat) (s : stp) : stp :=
  if decide (state (port s i) = STP_LISTENING) then
    upd_port i (λ p, p <| forward_delay_timer := stp_start_timer 0 |>)
      (stp_set_port_state i STP_LEARNING s)
  else if decide (state (port s i) = STP_LEARNING) then
    let* s := stp_set_port_state i STP_FORWARDING s in
    if stp_is_designated_for_some_port s then
      if change_detection_enabled (port s i)
      then stp_topology_change_detection s else s
    else s
  else s.

Definition stp_tcn_timer_expiry (s : stp) : stp :=
  (stp_transmit_tcn s) <| br_tcn_timer := stp_start_timer 0 |>.

Definition stp_topology_change_timer_expiry (s : stp) : stp :=
  s <| br_topology_change_detected := false |> <| br_topology_change := false |>.

Definition stp_hold_timer_expiry (i : nat) (s : stp) : stp :=
  if config_pending (port s i) then stp_transmit_config i s else s.

(** ** Bridge parameters *)

Definition stp_update_bridge_timers (s : stp) : stp :=
  let ht := clamp (br_rq_hello_time s) 1000 10000 in
  let ma := clamp (br_rq_max_age s) (Z.max (2 * (ht + 1000)) 6000) 40000 in
  let fd := clamp (br_rq_forward_delay s) (Z.quot ma 2 + 1000) 30000 in
  let* s := s <| br_bridge_hello_time := ms_to_timer ht |>
             <| br_bridge_max_age := ms_to_timer ma |>
             <| br_bridge_forward_delay := ms_to_timer fd |> in
  if stp_is_root_bridge s then
    s <| br_max_age := br_bridge_max_age s |>
      <| br_hello_time := br_bridge_hello_time s |>
      <| br_forward_delay := br_bridge_forward_delay s |>
  else s.

Definition stp_set_hello_time (ms : Z) (s : stp) : stp :=
  stp_update_bridge_timers (s <| br_rq_hello_time := ms |>).
Definition stp_set_max_age (ms : Z) (s : stp) : stp :=
  stp_update_bridge_timers (s <| br_rq_max_age := ms |>).
Definition stp_set_forward_delay (ms : Z) (s : stp) : stp :=
  stp_update_bridge_timers (s <| br_rq_forward_delay := ms |>).

Definition set_bridge_id (new_bridge_id : Z) (s : stp) : stp :=
  if negb (new_bridge_id =? br_bridge_id s) then
    let* root := stp_is_root_bridge s in
    let* s := for_each_enabled_port id (λ i s,
               if stp_is_designated_port s i
               then upd_port i (λ p, p <| designated_bridge := new_bridge_id |>) s
               else s) s in
    let* s := s <| br_bridge_id := new_bridge_id |> in
    let* s := stp_configuration_update s in
    let* s := stp_port_state_selection s in
    if stp_is_root_bridge s && negb root then stp_become_root_bridge s else s
  else s.

Definition mac_bits : Z := (1 << 48) - 1.
Definition pri_bits : Z := u64 (Z.lnot mac_bits).

Definition stp_set_bridge_id (bridge_id : Z) (s : stp) : stp :=
  set_bridge_id ((br_bridge_id s .& pri_bits) .| (bridge_id .& mac_bits)) s.

Definition stp_set_bridge_priority (new_priority : Z) (s : stp) : stp :=
  set_bridge_id ((br_bridge_id s .& mac_bits) .| u64 (new_priority << 48)) s.

(** ** Creation and ports *)

Definition create_port (i : nat) (s : stp) : stp :=
  let* s := upd_port i (λ p, p
             <| port_id := (Z.of_nat i + 1) .| (STP_DEFAULT_PORT_PRIORITY << 8) |>
             <| path_cost := 19 |>) s in
  stp_initialize_port i STP_DISABLED s.

Definition stp_create (bridge_id : Z) : stp :=
  let* s := zero_stp <| br_bridge_id := bridge_id |> in
  let* s := if negb (truth (br_bridge_id s >> 48))
           then s <| br_bridge_id :=
                       br_bridge_id s .| u64 (STP_DEFAULT_BRIDGE_PRIORITY << 48) |>
           else s in
  let* s := s <| br_rq_max_age := 6000 |> <| br_rq_hello_time := 2000 |>
             <| br_rq_forward_delay := 4000 |> in
  let* s := stp_update_bridge_timers s in
  let* s := s <| br_max_age := br_bridge_max_age s |>
             <| br_hello_time := br_bridge_hello_time s |>
             <| br_forward_delay := br_bridge_forward_delay s |> in
  let* s := s <| br_designated_root := br_bridge_id s |>
             <| br_root_path_cost := 0 |>
             <| br_root_port := None |>
             <| br_topology_change_detected := false |>
             <| br_topology_change := false |>
             <| br_tcn_timer := stp_stop_timer (br_tcn_timer s) |>
             <| br_topology_change_timer := stp_stop_timer (br_topology_change_timer s) |>
             <| br_hello_timer := stp_start_timer 0 |>
             <| br_first_changed_port := STP_MAX_PORTS |> in
  foldl (λ s i, create_port i s) s (seq 0 STP_MAX_PORTS).

Definition stp_port_disable (i : nat) (s : stp) : stp :=
  if decide (state (port s i) ≠ STP_DISABLED) then
    let* root := stp_is_root_bridge s in
    let* s := stp_become_designated_port i s in
    let* s := stp_set_port_state i STP_DISABLED s in
    let* s := upd_port i (λ p, p
               <| topology_change_ack := false |>
               <| config_pending := false |>
               <| message_age_timer := stp_stop_timer (message_age_timer p) |>
               <| forward_delay_timer := stp_stop_timer (forward_delay_timer p) |>) s in
    let* s := stp_configuration_update s in
    let* s := stp_port_state_selection s in
    if stp_is_root_bridge s && negb root then stp_become_root_bridge s else s
  else s.

Definition stp_port_enable (i : nat) (s : stp) : stp :=
  if decide (state (port s i) = STP_DISABLED) then
    stp_port_state_selection (stp_initialize_port i STP_BLOCKING s)
  else s.

Definition stp_port_set_priority (i : nat) (new_priority : Z) (s : stp) : stp :=
  let new_port_id := u16 ((port_id (port s i) .& 0xff) .| (new_priority << 8)) in
  if negb (port_id (port s i) =? new_port_id) then
    let* s := if stp_is_designated_port s i
             then upd_port i (λ p, p <| designated_port := new_port_id |>) s else s in
    let* s := upd_port i (λ p, p <| port_id := new_port_id |>) s in
    if (br_bridge_id s =? designated_bridge (port s i))
       && (port_id (port s i) <? designated_port (port s i)) then
      stp_port_state_selection (stp_become_designated_port i s)
    else s
  else s.

Definition stp_port_set_path_cost (i : nat) (new_path_cost : Z) (s : stp) : stp :=
  if negb (path_cost (port s i) =? new_path_cost) then
    let* s := upd_port i (λ p, p <| path_cost := new_path_cost |>) s in
    stp_port_state_selection (stp_configuration_update s)
  else s.

Definition stp_port_set_speed (i : nat) (speed : Z) (s : stp) : stp :=
  stp_port_set_path_cost i
    (if 10000 <=? speed then 2
     else if 1000 <=? speed then 4
     else if 100 <=? speed then 19
     else if 16 <=? speed then 62
     else if 10 <=? speed then 100
     else if 4 <=? speed then 250
     else 19) s.

Definition stp_port_enable_change_detection (i : nat) (s : stp) : stp :=
  upd_port i (λ p, p <| change_detection_enabled := true |>) s.
Definition stp_port_disable_change_detection (i : nat) (s : stp) : stp :=
  upd_port i (λ p, p <| change_detection_enabled := false |>) s.

(** ** Receiving *)

Definition stp_received_config_bpdu (i : nat) (c : stp_config_bpdu) (s : stp) : stp :=
  if ntohs (cfg_max_age c) <=? ntohs (cfg_message_age c) then s
  else if decide (state (port s i) ≠ STP_DISABLED) then
    let* root := stp_is_root_bridge s in
    if stp_supersedes_port_info s i c then
      let* s := stp_record_config_information i c s in
      let* s := stp_configuration_update s in
      let* s := stp_port_state_selection s in
      let* s :=
        if negb (stp_is_root_bridge s) && root then
          let* s := s <| br_hello_timer := stp_stop_timer (br_hello_timer s) |> in
          if br_topology_change_detected s then
            let* s := s <| br_topology_change_timer :=
                            stp_stop_timer (br_topology_change_timer s) |> in
            (stp_transmit_tcn s) <| br_tcn_timer := stp_start_timer 0 |>
          else s
        else s in
      if bool_decide (br_root_port s = Some i) then
        let* s := stp_record_config_timeout_values c s in
        let* s := stp_config_bpdu_generation s in
        if truth (cfg_flags c .& htons STP_CONFIG_TOPOLOGY_CHANGE_ACK)
        then stp_topology_change_acknowledged s else s
      else s
    else if stp_is_designated_port s i then stp_transmit_config i s
    else s
  else s.

Definition stp_received_tcn_bpdu (i : nat) (s : stp) : stp :=
  if decide (state (port s i) ≠ STP_DISABLED) then
    if stp_is_designated_port s i then
      stp_acknowledge_topology_change i (stp_topology_change_detection s)
    else s
  else s.

Definition stp_received_bpdu (i : nat) (bpdu : list Z) (s : stp) : stp :=
  let bpdu_size := Z.of_nat (length bpdu) in
  if decide (state (port s i) = STP_DISABLED) then s
  else if bpdu_size <? 4 then s
  else
    let header := header_of_bytes bpdu in
    if negb (protocol_id header =? htons STP_PROTOCOL_ID) then s
    else if bpdu_type header =? STP_TYPE_CONFIG then
      if bpdu_size <? 35 then s
      else stp_received_config_bpdu i (config_of_bytes bpdu) s
    else if bpdu_type header =? STP_TYPE_TCN then
      if negb (bpdu_size =? 4) then s else stp_received_tcn_bpdu i s
    else s.

(** ** The periodic tick *)

(** The two loop bodies of [stp_tick]. *)
Definition tick_message_age (elapsed : Z) (i : nat) (s : stp) : stp :=
  let '(t, expired) :=
    stp_timer_expired (message_age_timer (port s i)) elapsed (br_max_age s) in
  let* s := upd_port i (λ p, p <| message_age_timer := t |>) s in
  if expired then stp_message_age_timer_expiry i s else s.

Definition tick_forward_delay (elapsed : Z) (i : nat) (s : stp) : stp :=
  let '(t, expired) :=
    stp_timer_expired (forward_delay_timer (port s i)) elapsed (br_forward_delay s) in
  let* s := upd_port i (λ p, p <| forward_delay_timer := t |>) s in
  if expired then stp_forward_delay_timer_expiry i s else s.

Definition tick_hold (elapsed : Z) (i : nat) (s : stp) : stp :=
  let '(t, expired) :=
    stp_timer_expired (hold_timer (port s i)) elapsed (ms_to_timer 1000) in
  let* s := upd_port i (λ p, p <| hold_timer := t |>) s in
  if expired then stp_hold_timer_expiry i s else s.

(** The bridge timers that [stp_tick] advances before the port timers. *)
Definition tick_bridge_timers (elapsed : Z) (s : stp) : stp :=
  let '(t, expired) := stp_timer_expired (br_hello_timer s) elapsed (br_hello_time s) in
  let* s := s <| br_hello_timer := t |> in
  let* s := if expired then stp_hello_timer_expiry s else s in
  let '(t, expired) :=
    stp_timer_expired (br_tcn_timer s) elapsed (br_bridge_hello_time s) in
  let* s := s <| br_tcn_timer := t |> in
  let* s := if expired then stp_tcn_timer_expiry s else s in
  let '(t, expired) :=
    stp_timer_expired (br_topology_change_timer s) elapsed
      (br_max_age s + br_forward_delay s) in
  let* s := s <| br_topology_change_timer := t |> in
  if expired then stp_topology_change_timer_expiry s else s.

Definition stp_tick (ms : Z) (s : stp) : stp :=
  let ms := clamp ms 0 (INT_MAX - 1000) + br_elapsed_remainder s in
  let elapsed := ms_to_timer ms in
  let* s := s <| br_elapsed_remainder := ms_to_timer_remainder ms |> in
  if elapsed =? 0 then s
  else
    let* s := tick_bridge_timers elapsed s in
    let* s := for_each_enabled_port id (tick_message_age elapsed) s in
    for_each_enabled_port id
      (λ i s, tick_hold elapsed i (tick_forward_delay elapsed i s)) s.

End Stp.
