(* ===== verification/StpFacts.v ===== *)
(** * Properties of the spanning tree state machine (lib/stp.c) *)

From S2P Require Import Prelude Stp.
Import Stp.

Module StpFacts.

(** ** Ports and loops *)

Definition enabled (s : stp) (i : nat) : Prop := state (port s i) ≠ STP_DISABLED.
#[export] Instance enabled_dec s i : Decision (enabled s i).
Proof. unfold enabled. apply _. Defined.

Lemma port_upd_port i f s j :
  port (upd_port i f s) j =
    if decide (i = j ∧ (i < length (br_ports s))%nat) then f (port s j) else port s j.
Proof.
  unfold port, upd_port; simpl. rewrite !list_lookup_total_alt.
  destruct (decide (i = j ∧ _)) as [[<- Hi]|Hn].
  - rewrite list_lookup_alter_eq. apply lookup_lt_is_Some in Hi as [p ->]. done.
  - destruct (decide (i = j)) as [<-|Hij].
    + rewrite list_lookup_alter_eq.
      rewrite (lookup_ge_None_2 (br_ports s) i) by (destruct (decide (i < length (br_ports s))%nat); [exfalso; auto|lia]).
      done.
    + by rewrite list_lookup_alter_ne.
Qed.

Lemma length_upd_port i f s : length (br_ports (upd_port i f s)) = length (br_ports s).
Proof. unfold upd_port; simpl. apply length_alter. Qed.

(** The loop [FOR_EACH_ENABLED_PORT] visits the ports in index order, each one
    exactly if it is enabled when its turn comes. *)
Fixpoint visit {A} (get : A → stp) (body : nat → A → A) (n i : nat) (a : A) : A :=
  match n with
  | O => a
  | S n =>
      if decide (enabled (get a) i) then visit get body n (S i) (body i a)
      else visit get body n (S i) a
  end.

Lemma for_each_loop_visit {A} (get : A → stp) body m fuel i a :
  (m + i = STP_MAX_PORTS)%nat → (m <= fuel)%nat →
  for_each_loop get body fuel (next_enabled m (get a) i) a = visit get body m i a.
Proof.
  revert fuel i a; induction m as [|m IH]; intros fuel i a Hm Hf; simpl.
  - by destruct fuel.
  - unfold enabled. destruct (decide (state (port (get a) i) = STP_DISABLED)) as [Hd|Hd].
    + rewrite decide_False by naive_solver. apply IH; lia.
    + rewrite decide_True by done. destruct fuel as [|fuel]; [lia|]. simpl.
      unfold stp_next_enabled_port.
      replace (STP_MAX_PORTS - S i)%nat with m by (unfold STP_MAX_PORTS in *; lia).
      apply IH; lia.
Qed.

Lemma for_each_visit {A} (get : A → stp) body a :
  for_each_enabled_port get body a = visit get body STP_MAX_PORTS 0 a.
Proof. apply for_each_loop_visit; unfold STP_MAX_PORTS; lia. Qed.

(** A preorder kept by every round of a loop is kept by the loop. *)
Lemma for_each_preorder (R : relation stp) `{!PreOrder R} body s :
  (∀ i s, R s (body i s)) → R s (for_each_enabled_port id body s).
Proof.
  intros Hb. rewrite for_each_visit. generalize 0%nat.
  induction STP_MAX_PORTS as [|n IH] in s |- *; intros i; simpl; [reflexivity|].
  case_decide; [etransitivity; [apply Hb|]|]; apply IH.
Qed.

(** A property established by the round for port [i] and kept by the rounds of
    the other ports holds of every enabled port after the loop. *)
Lemma for_each_establish (I : stp → Prop) (Q : nat → stp → Prop) body s :
  I s →
  (∀ i s, I s → I (body i s)) →
  (∀ i j s, I s → enabled (body i s) j ↔ enabled s j) →
  (∀ i s, I s → enabled s i → (i < STP_MAX_PORTS)%nat → Q i (body i s)) →
  (∀ i j s, I s → i ≠ j → Q j s → Q j (body i s)) →
  ∀ j, (j < STP_MAX_PORTS)%nat → enabled s j → Q j (for_each_enabled_port id body s).
Proof.
  intros HI Hinv Hen Hest Hkeep j Hj Henj. rewrite for_each_visit.
  assert (∀ n i s, (n + i = STP_MAX_PORTS)%nat → I s → enabled s j →
            (i ≤ j ∨ Q j s)%nat → Q j (visit id body n i s)) as Hgen.
  { clear s HI Henj. induction n as [|n IH]; intros i s Hn HI Henj Hor; simpl.
    - destruct Hor; [unfold STP_MAX_PORTS in *; lia|done].
    - case_decide as Hi.
      + apply IH; [lia|by apply Hinv|by apply Hen|].
        destruct (decide (i = j)) as [<-|Hij]; [right; apply Hest; auto; lia|].
        destruct Hor as [Hle|HQ]; [left; lia|right; by apply Hkeep].
      + apply IH; [lia|done|done|].
        destruct Hor as [Hle|HQ]; [|by right].
        destruct (decide (i = j)) as [<-|]; [done|left; lia]. }
  apply Hgen; [lia|done|done|left; lia].
Qed.

(** ** How the internal functions change a bridge *)

Definition climbs (st : stp_state) : Prop := st = STP_LEARNING ∨ st = STP_FORWARDING.

(** Every port whose state change has not been reported is at or after the
    port from which [stp_get_changed_port] will scan. *)
Definition changed_ok (s : stp) : Prop :=
  ∀ i, (i < length (br_ports s))%nat → state_changed (port s i) = true →
    (br_first_changed_port s <= i)%nat.

(** The bridge is its own root exactly when it has no root port, and the root
    port is an enabled port. *)
Definition root_ok (s : stp) : Prop :=
  (br_root_port s = None ↔ br_designated_root s = br_bridge_id s) ∧
  (∀ r, br_root_port s = Some r → (r < STP_MAX_PORTS)%nat ∧ enabled s r).

Record evolves (s s' : stp) : Prop := {
  ev_length : length (br_ports s') = length (br_ports s);
  ev_climb : ∀ i, climbs (state (port s' i)) → state (port s' i) = state (port s i);
  ev_enabled : ∀ i, enabled s' i ↔ enabled s i;
  ev_changed : changed_ok s → changed_ok s';
  ev_bridge : br_bridge_id s' = br_bridge_id s;
  ev_root : root_ok s → root_ok s';
  ev_sent : ∃ l, br_sent s' = br_sent s ++ l;
}.

#[export] Instance evolves_preorder : PreOrder evolves.
Proof.
  split.
  - intros s. split; try done. exists []. by rewrite app_nil_r.
  - intros s1 s2 s3 H12 H23. destruct H12 as [L1 C1 E1 G1 B1 R1 [l1 S1]].
    destruct H23 as [L2 C2 E2 G2 B2 R2 [l2 S2]]. split.
    + congruence.
    + intros i Hi. rewrite (C2 i Hi). apply C1. by rewrite <-(C2 i Hi).
    + intros i. by rewrite E2, E1.
    + auto.
    + congruence.
    + auto.
    + exists (l1 ++ l2). by rewrite S2, S1, app_assoc.
Qed.
(** An update of bridge fields other than the ports and the election result. *)
Lemma evolves_fields s s' :
  br_ports s' = br_ports s → br_first_changed_port s' = br_first_changed_port s →
  br_bridge_id s' = br_bridge_id s → br_root_port s' = br_root_port s →
  br_designated_root s' = br_designated_root s → br_sent s' = br_sent s →
  evolves s s'.
Proof.
  intros Hp Hf Hb Hr Hd Hs.
  assert (∀ i, port s' i = port s i) as Hport by (intros; unfold port; by rewrite Hp).
  split; try done.
  - by rewrite Hp.
  - intros i. by rewrite Hport.
  - intros i. unfold enabled. by rewrite Hport.
  - unfold changed_ok. rewrite Hp, Hf. intros H i. rewrite Hport. apply H.
  - unfold root_ok, enabled. rewrite Hr, Hd, Hb. setoid_rewrite Hport. done.
  - exists []. by rewrite app_nil_r.
Qed.

(** An update of a port that keeps its state and its change flag. *)
Lemma evolves_upd_port i f s :
  (∀ p, state (f p) = state p) → (∀ p, state_changed (f p) = state_changed p) →
  evolves s (upd_port i f s).
Proof.
  intros Hst Hch.
  assert (∀ j, state (port (upd_port i f s) j) = state (port s j)) as Hs.
  { intros j. rewrite port_upd_port. case_decide; auto. }
  assert (∀ j, state_changed (port (upd_port i f s) j) = state_changed (port s j)) as Hc.
  { intros j. rewrite port_upd_port. case_decide; auto. }
  split; try done.
  - apply length_upd_port.
  - intros j. unfold enabled. by rewrite Hs.
  - unfold changed_ok. rewrite length_upd_port. intros H j. rewrite Hc. apply H.
  - unfold root_ok, enabled. simpl. setoid_rewrite Hs. done.
  - exists []. simpl. by rewrite app_nil_r.
Qed.

Lemma evolves_send i bpdu s : evolves s (stp_send_bpdu i bpdu s).
Proof. split; try done. simpl. eauto. Qed.

(** The bookkeeping half of [stp_set_port_state]. *)
Definition note_change (i : nat) (st : stp_state) (s : stp) : stp :=
  if bool_decide (st ≠ state (port s i)) && negb (state_changed (port s i)) then
    let s := upd_port i (λ p, p <| state_changed := true |>) s in
    if bool_decide (i < br_first_changed_port s)%nat
    then s <| br_first_changed_port := i |> else s
  else s.

Lemma set_port_state_split i st s :
  stp_set_port_state i st s = upd_port i (λ p, p <| state := st |>) (note_change i st s).
Proof. done. Qed.

Lemma note_change_ports i st s j :
  state (port (note_change i st s) j) = state (port s j) ∧
  length (br_ports (note_change i st s)) = length (br_ports s).
Proof.
  unfold note_change. destruct (bool_decide (st ≠ _) && _); [|done].
  assert (state (port (upd_port i (λ p, p <| state_changed := true |>) s) j)
          = state (port s j)) by (rewrite port_upd_port; by case_decide).
  destruct (bool_decide (i < _)%nat); (split; [done|apply length_upd_port]).
Qed.

Lemma note_change_changed_ok i st s : changed_ok s → changed_ok (note_change i st s).
Proof.
  intros Hok. unfold note_change.
  destruct (bool_decide (st ≠ _) && _); [|done].
  intros j Hj Hc. case_bool_decide as Hlt; simpl in *.
  - rewrite length_alter in Hj.
    change (port _ j) with (port (upd_port i (λ p, p <| state_changed := true |>) s) j) in Hc.
    rewrite port_upd_port in Hc. case_decide as Hd; [lia|].
    specialize (Hok j Hj Hc). lia.
  - rewrite length_alter in Hj. rewrite port_upd_port in Hc.
    case_decide as Hd; [destruct Hd; subst; lia|]. by apply Hok.
Qed.

Lemma state_set_port_state i st s j :
  state (port (stp_set_port_state i st s) j) =
    if decide (i = j ∧ (i < length (br_ports s))%nat) then st else state (port s j).
Proof.
  rewrite set_port_state_split, port_upd_port.
  destruct (note_change_ports i st s j) as [Hs ->]. by case_decide.
Qed.

Lemma set_port_state_frame i st s :
  let s' := stp_set_port_state i st s in
  length (br_ports s') = length (br_ports s) ∧ br_bridge_id s' = br_bridge_id s ∧
  br_root_port s' = br_root_port s ∧ br_designated_root s' = br_designated_root s ∧
  br_sent s' = br_sent s ∧ (changed_ok s → changed_ok s').
Proof.
  cbv zeta. rewrite set_port_state_split. split_and!.
  - rewrite length_upd_port. apply (note_change_ports i st s 0).
  - simpl. unfold note_change. by repeat case_match.
  - simpl. unfold note_change. by repeat case_match.
  - simpl. unfold note_change. by repeat case_match.
  - simpl. unfold note_change. by repeat case_match.
  - intros Hok%(note_change_changed_ok i st). intros j.
    rewrite length_upd_port, port_upd_port. case_decide; apply Hok.
Qed.

(** Setting a state that neither climbs nor changes whether the port is enabled. *)
Lemma evolves_set_port_state i st s :
  ¬ climbs st → st ≠ STP_DISABLED → enabled s i → evolves s (stp_set_port_state i st s).
Proof.
  intros Hcl Hdis Hen.
  destruct (set_port_state_frame i st s) as (Hl & Hb & Hr & Hd & Hs & Hc).
  assert (∀ j, enabled (stp_set_port_state i st s) j ↔ enabled s j) as Henj.
  { intros j. unfold enabled in *. rewrite state_set_port_state.
    case_decide as Hj; [|done]. destruct Hj; subst. done. }
  split; try done.
  - intros j. rewrite state_set_port_state. case_decide; done.
  - unfold root_ok. rewrite Hr, Hd, Hb. setoid_rewrite Henj. done.
  - exists []. by rewrite Hs, app_nil_r.
Qed.

(** ** Automation

    [walk R] proves [R s (f s)] for a preorder [R] by following the body of
    [f]: a [let] binding is abstracted once [R] is known of it, a conditional is
    split, and the outermost call is discharged with the hint database. *)
Create HintDb stp discriminated.
#[export] Hint Constants Opaque : stp.

Lemma walk_andthen {A} (R : relation stp) `{!PreOrder R} (e : A) k s :
  (∀ y, R s (k y)) → R s (andthen e k).
Proof. intros H. apply H. Qed.

Lemma walk_andthen_state (R : relation stp) `{!PreOrder R} s e k :
  R s e → (∀ y, R s y → R s (k y)) → R s (andthen e k).
Proof. intros He H. apply H, He. Qed.

Ltac walk_step R :=
  lazymatch goal with
  | |- R ?s ?t =>
    tryif is_var t then first [constr_eq s t; reflexivity | assumption]
    else lazymatch t with
    | @andthen stp _ _ _ => apply (walk_andthen_state R); [|intros ? ?]
    | @andthen _ _ _ _ => apply (walk_andthen R); intros ?
    | for_each_enabled_port id _ _ => apply (for_each_preorder R); intros
    | (match ?c with _ => _ end) => destruct c eqn:?
    | _ ?t => transitivity t; [|solve [auto 2 with stp]]
    end
  end.
Ltac walk R := repeat walk_step R.

#[export] Hint Extern 1 (evolves _ _) =>
  lazymatch goal with
  | |- evolves ?s (upd_port _ _ ?s) => apply evolves_upd_port; intros; reflexivity
  | |- evolves ?s (upd _ _ ?s) => generalize s; intros; apply evolves_fields; reflexivity
  end : stp.
#[export] Hint Resolve evolves_send : stp.

Ltac evolve := walk evolves.

Lemma evolves_for_each body s :
  (∀ i s, evolves s (body i s)) → evolves s (for_each_enabled_port id body s).
Proof. apply for_each_preorder, _. Qed.

Lemma evolves_transmit_tcn s : evolves s (stp_transmit_tcn s).
Proof. unfold stp_transmit_tcn. evolve. Qed.
#[export] Hint Resolve evolves_transmit_tcn : stp.

Lemma evolves_transmit_config i s : evolves s (stp_transmit_config i s).
Proof. unfold stp_transmit_config. evolve. Qed.
#[export] Hint Resolve evolves_transmit_config : stp.

Lemma evolves_config_bpdu_generation s : evolves s (stp_config_bpdu_generation s).
Proof. unfold stp_config_bpdu_generation. apply evolves_for_each. intros. evolve. Qed.
#[export] Hint Resolve evolves_config_bpdu_generation : stp.

Lemma evolves_topology_change_detection s : evolves s (stp_topology_change_detection s).
Proof. unfold stp_topology_change_detection. evolve. Qed.
#[export] Hint Resolve evolves_topology_change_detection : stp.

Lemma evolves_become_designated_port i s : evolves s (stp_become_designated_port i s).
Proof. unfold stp_become_designated_port. evolve. Qed.
#[export] Hint Resolve evolves_become_designated_port : stp.

Lemma evolves_designated_port_selection s : evolves s (stp_designated_port_selection s).
Proof. unfold stp_designated_port_selection. apply evolves_for_each. intros. evolve. Qed.
#[export] Hint Resolve evolves_designated_port_selection : stp.


(** ** Root selection *)

(** The comparison of [stp_supersedes_root] is lexicographic on the root, the
    path cost through the port, the designated bridge and port, and the port
    identifier. *)
Lemma supersedes_root_lex root p :
  stp_supersedes_root root p = true ↔
    let pc := s32 (designated_cost p + path_cost p) in
    let rc := s32 (designated_cost root + path_cost root) in
    designated_root p < designated_root root ∨
    designated_root p = designated_root root ∧
    (pc < rc ∨ pc = rc ∧
     (designated_bridge p < designated_bridge root ∨
      designated_bridge p = designated_bridge root ∧
      (designated_port p < designated_port root ∨
       designated_port p = designated_port root ∧ port_id p < port_id root))).
Proof.
  unfold stp_supersedes_root. cbv zeta.
  generalize (s32 (designated_cost p + path_cost p)) as pc.
  generalize (s32 (designated_cost root + path_cost root)) as rc. intros rc pc.
  destruct (Z.eqb_spec (designated_root p) (designated_root root)); simpl; [|lia].
  destruct (Z.eqb_spec pc rc); simpl; [|lia].
  destruct (Z.eqb_spec (designated_bridge p) (designated_bridge root)); simpl; [|lia].
  destruct (Z.eqb_spec (designated_port p) (designated_port root)); simpl; lia.
Qed.

Lemma supersedes_root_trans a b c :
  stp_supersedes_root a b = true → stp_supersedes_root b c = true →
  stp_supersedes_root a c = true.
Proof. rewrite !supersedes_root_lex. cbv zeta. lia. Qed.

Lemma supersedes_root_irrefl a : stp_supersedes_root a a = false.
Proof.
  apply not_true_is_false. rewrite supersedes_root_lex. cbv zeta. lia.
Qed.

(** A port that may become the root port. *)
Definition eligible (s : stp) (i : nat) : Prop :=
  (i < STP_MAX_PORTS)%nat ∧ enabled s i ∧ stp_is_designated_port s i = false ∧
  designated_root (port s i) < br_bridge_id s.

(** [root] is the best eligible port among those of index below [n]. *)
Definition best_below (s : stp) (n : nat) (root : option nat) : Prop :=
  match root with
  | None => ∀ j, (j < n)%nat → ¬ eligible s j
  | Some r =>
      eligible s r ∧
      ∀ j, (j < n)%nat → eligible s j → stp_supersedes_root (port s r) (port s j) = false
  end.

Lemma best_below_step s i root :
  (i < STP_MAX_PORTS)%nat → enabled s i → best_below s i root →
  best_below s (S i) (root_candidate s i root).
Proof.
  intros Hi Hen Hbest. unfold root_candidate.
  destruct (stp_is_designated_port s i || (br_bridge_id s <=? designated_root (port s i))) eqn:Hskip.
  - assert (¬ eligible s i) as Hne.
    { intros (_ & _ & Hd & Hlt). rewrite Hd in Hskip. simpl in Hskip. lia. }
    destruct root as [r|]; simpl in *.
    + destruct Hbest as [Hr Hb]. split; [done|]. intros j Hj Hel.
      destruct (decide (j = i)) as [->|]; [done|]. apply Hb; [lia|done].
    + intros j Hj Hel. destruct (decide (j = i)) as [->|]; [done|].
      apply (Hbest j); [lia|done].
  - apply orb_false_iff in Hskip as [Hd Hge]. apply Z.leb_gt in Hge.
    assert (eligible s i) as Hel by done.
    destruct root as [r|]; simpl in *.
    + destruct Hbest as [Hr Hb].
      destruct (stp_supersedes_root (port s r) (port s i)) eqn:Hsup; simpl.
      * split; [done|]. intros j Hj Helj.
        destruct (decide (j = i)) as [->|]; [apply supersedes_root_irrefl|].
        apply not_true_is_false. intros Hji.
        pose proof (supersedes_root_trans _ _ _ Hsup Hji) as Hjr.
        rewrite (Hb j) in Hjr; [done|lia|done].
      * split; [done|]. intros j Hj Helj.
        destruct (decide (j = i)) as [->|]; [done|]. apply Hb; [lia|done].
    + split; [done|]. intros j Hj Helj.
      destruct (decide (j = i)) as [->|]; [apply supersedes_root_irrefl|].
      destruct (Hbest j); [lia|done].
Qed.

Definition selected_root (s : stp) : option nat :=
  for_each_enabled_port (λ _, s) (root_candidate s) None.

Lemma selected_root_best s : best_below s STP_MAX_PORTS (selected_root s).
Proof.
  unfold selected_root. rewrite for_each_visit.
  assert (∀ n i root, (n + i = STP_MAX_PORTS)%nat → best_below s i root →
    best_below s STP_MAX_PORTS (visit (λ _, s) (root_candidate s) n i root)) as Hgen.
  { induction n as [|n IH]; intros i root Hn Hb; simpl.
    - by replace STP_MAX_PORTS with i by lia.
    - case_decide as Hen; apply IH; try lia; [by apply best_below_step; [lia|..]|].
      assert (¬ eligible s i) as Hne by (intros (_ & ? & _); done).
      destruct root as [r|]; simpl in *.
      + destruct Hb as [Hr Hb]. split; [done|]. intros j Hj Hel.
        destruct (decide (j = i)) as [->|]; [done|]. apply Hb; [lia|done].
      + intros j Hj. destruct (decide (j = i)) as [->|]; [done|]. apply Hb; lia. }
  apply Hgen; [lia|]. intros j Hj. lia.
Qed.

Lemma root_selection_eq s :
  stp_root_selection s =
    match selected_root s with
    | None => s <| br_root_port := None |> <| br_designated_root := br_bridge_id s |>
                <| br_root_path_cost := 0 |>
    | Some r =>
        s <| br_root_port := Some r |> <| br_designated_root := designated_root (port s r) |>
          <| br_root_path_cost := u32 (designated_cost (port s r) + path_cost (port s r)) |>
    end.
Proof. unfold stp_root_selection. fold (selected_root s). by destruct (selected_root s). Qed.

Lemma root_selection_root_ok s : root_ok (stp_root_selection s).
Proof.
  rewrite root_selection_eq. pose proof (selected_root_best s) as Hbest.
  destruct (selected_root s) as [r|]; simpl in Hbest.
  - destruct Hbest as [(Hr & Hen & _ & Hlt) _]. split; simpl.
    + split; [done|]. intros Heq. lia.
    + intros r' [= <-]. done.
  - split; simpl; done.
Qed.

Lemma evolves_root_selection s : evolves s (stp_root_selection s).
Proof.
  assert (br_ports (stp_root_selection s) = br_ports s) as Hp
    by (rewrite root_selection_eq; by case_match).
  assert (∀ i, port (stp_root_selection s) i = port s i) as Hport
    by (intros; unfold port; by rewrite Hp).
  split.
  - by rewrite Hp.
  - intros i. by rewrite Hport.
  - intros i. unfold enabled. by rewrite Hport.
  - intros Hok i. rewrite Hport, Hp. rewrite root_selection_eq. case_match; apply Hok.
  - rewrite root_selection_eq. by case_match.
  - intros _. apply root_selection_root_ok.
  - exists []. rewrite app_nil_r, root_selection_eq. by case_match.
Qed.
#[export] Hint Resolve evolves_root_selection : stp.

Lemma evolves_configuration_update s : evolves s (stp_configuration_update s).
Proof. unfold stp_configuration_update. evolve. Qed.
#[export] Hint Resolve evolves_configuration_update : stp.

Lemma configuration_update_root_ok s : root_ok (stp_configuration_update s).
Proof. apply evolves_designated_port_selection, root_selection_root_ok. Qed.

(** ** Port states *)

Lemma evolves_make_forwarding i s : evolves s (stp_make_forwarding i s).
Proof.
  unfold stp_make_forwarding. case_decide as Hb; [|done].
  transitivity (stp_set_port_state i STP_LISTENING s); [|auto 2 with stp].
  apply evolves_set_port_state; [|done|].
  - by intros [|].
  - unfold enabled. by rewrite Hb.
Qed.
#[export] Hint Resolve evolves_make_forwarding : stp.

Lemma blockable_enabled s i :
  negb (truth (state_bits (state (port s i))
               .& (state_bits STP_DISABLED .| state_bits STP_BLOCKING))) = true →
  enabled s i ∧ state (port s i) ≠ STP_BLOCKING.
Proof. unfold enabled. destruct (state (port s i)); vm_compute; intuition congruence. Qed.

Lemma evolves_make_blocking i s : evolves s (stp_make_blocking i s).
Proof.
  unfold stp_make_blocking.
  destruct (negb _) eqn:Hb; [|done]. apply blockable_enabled in Hb as [Hen _].
  apply (walk_andthen_state evolves); [evolve|]. intros s1 Hs1.
  etransitivity; [exact Hs1|].
  transitivity (stp_set_port_state i STP_BLOCKING s1); [|auto 2 with stp].
  apply evolves_set_port_state; [by intros [|]|done|by apply Hs1].
Qed.
#[export] Hint Resolve evolves_make_blocking : stp.

Lemma evolves_select_port_state i s : evolves s (select_port_state i s).
Proof. unfold select_port_state. evolve. Qed.
#[export] Hint Resolve evolves_select_port_state : stp.

Lemma evolves_port_state_selection s : evolves s (stp_port_state_selection s).
Proof. unfold stp_port_state_selection. apply evolves_for_each, evolves_select_port_state. Qed.
#[export] Hint Resolve evolves_port_state_selection : stp.

Lemma evolves_become_root_bridge s : evolves s (stp_become_root_bridge s).
Proof. unfold stp_become_root_bridge. evolve. Qed.
#[export] Hint Resolve evolves_become_root_bridge : stp.

Lemma evolves_acknowledge_topology_change i s :
  evolves s (stp_acknowledge_topology_change i s).
Proof. unfold stp_acknowledge_topology_change. evolve. Qed.
#[export] Hint Resolve evolves_acknowledge_topology_change : stp.

Lemma evolves_received_config_bpdu i c s : evolves s (stp_received_config_bpdu i c s).
Proof.
  unfold stp_received_config_bpdu, stp_record_config_information,
    stp_record_config_timeout_values, stp_topology_change_acknowledged. evolve.
Qed.
#[export] Hint Resolve evolves_received_config_bpdu : stp.

Lemma evolves_received_bpdu i bpdu s : evolves s (stp_received_bpdu i bpdu s).
Proof. unfold stp_received_bpdu, stp_received_tcn_bpdu. evolve. Qed.
#[export] Hint Resolve evolves_received_bpdu : stp.

Lemma evolves_update_bridge_timers s : evolves s (stp_update_bridge_timers s).
Proof. unfold stp_update_bridge_timers. evolve. Qed.
#[export] Hint Resolve evolves_update_bridge_timers : stp.

Lemma evolves_port_set_priority i pr s : evolves s (stp_port_set_priority i pr s).
Proof. unfold stp_port_set_priority. evolve. Qed.

Lemma evolves_port_set_path_cost i c s : evolves s (stp_port_set_path_cost i c s).
Proof. unfold stp_port_set_path_cost. evolve. Qed.
#[export] Hint Resolve evolves_port_set_path_cost : stp.
#[export] Hint Resolve evolves_port_set_priority : stp.

Lemma evolves_message_age_timer_expiry i s : evolves s (stp_message_age_timer_expiry i s).
Proof. unfold stp_message_age_timer_expiry. evolve. Qed.
#[export] Hint Resolve evolves_message_age_timer_expiry : stp.

Lemma evolves_tick_message_age elapsed i s : evolves s (tick_message_age elapsed i s).
Proof. unfold tick_message_age. evolve. Qed.

Lemma evolves_tick_hold elapsed i s : evolves s (tick_hold elapsed i s).
Proof. unfold tick_hold, stp_hold_timer_expiry. evolve. Qed.

Lemma evolves_hello_timer_expiry s : evolves s (stp_hello_timer_expiry s).
Proof. unfold stp_hello_timer_expiry. evolve. Qed.

Lemma evolves_tcn_timer_expiry s : evolves s (stp_tcn_timer_expiry s).
Proof. unfold stp_tcn_timer_expiry. evolve. Qed.
#[export] Hint Resolve evolves_hello_timer_expiry evolves_tcn_timer_expiry : stp.

Lemma evolves_tick_bridge_timers elapsed s : evolves s (tick_bridge_timers elapsed s).
Proof.
  unfold tick_bridge_timers, stp_topology_change_timer_expiry. evolve.
Qed.
#[export] Hint Resolve evolves_tick_bridge_timers : stp.

End StpFacts.
