(* ===== verification/StpRate.v ===== *)
(** * How often a bridge sends configuration BPDUs

    Between two ticks of the clock a port sends at most one configuration
    BPDU: [stp_transmit_config] starts the hold timer, which only [stp_tick]
    lets expire and only the initialisation of a port stops. *)

From S2P Require Import Prelude Stp StpFacts StpProps.
Import Stp StpFacts StpProps.

Module StpRate.

(** Whether a frame handed to [send_bpdu] carries a configuration BPDU: its
    [bpdu_type] follows the 14 bytes of the Ethernet header, the 3 of the LLC
    header, and the protocol and version fields. *)
Definition is_config (frame : list Z) : bool :=
  bool_decide (frame !! 20%nat = Some STP_TYPE_CONFIG).

(** The number of configuration BPDUs for port [i] in a log. *)
Definition configs (i : nat) (l : list (Z * list Z)) : nat :=
  length (filter (λ f, f.1 = Z.of_nat i ∧ is_config f.2 = true) l).

Definition holding (s : stp) (i : nat) : bool := active (hold_timer (port s i)).

Record held (i : nat) (s s' : stp) (l : list (Z * list Z)) : Prop := {
  held_sent : br_sent s' = br_sent s ++ l;
  held_quiet : holding s i = true → configs i l = 0%nat ∧ holding s' i = true;
  held_once : (configs i l ≤ 1)%nat;
  held_start : configs i l = 1%nat → holding s' i = true;
}.

Record rate (i : nat) (s s' : stp) : Prop := {
  rate_length : length (br_ports s') = length (br_ports s);
  rate_held : (i < length (br_ports s))%nat → ∃ l, held i s s' l;
}.

Lemma configs_app i l1 l2 : configs i (l1 ++ l2) = (configs i l1 + configs i l2)%nat.
Proof. unfold configs. by rewrite filter_app, length_app. Qed.

#[export] Instance rate_preorder i : PreOrder (rate i).
Proof.
  split.
  - intros s. split; [done|]. intros _. exists []. split; try done.
    + by rewrite app_nil_r.
    + unfold configs. simpl. lia.
  - intros s1 s2 s3 [L1 H1] [L2 H2]. split; [congruence|]. intros Hi.
    destruct (H1 Hi) as [l1 [S1 Q1 O1 T1]].
    destruct H2 as [l2 [S2 Q2 O2 T2]]; [by rewrite L1|].
    exists (l1 ++ l2). split; rewrite ?configs_app.
    + by rewrite S2, S1, app_assoc.
    + intros Hh. destruct (Q1 Hh) as [E1 Hh2]. destruct (Q2 Hh2) as [E2 Hh3]. split; [lia|done].
    + destruct (decide (configs i l1 = 1%nat)) as [E|E]; [|lia].
      destruct (Q2 (T1 E)). lia.
    + intros E. destruct (decide (configs i l1 = 1%nat)) as [E1|E1].
      * by apply Q2, T1.
      * apply T2. lia.
Qed.

Lemma rate_silent i s s' :
  length (br_ports s') = length (br_ports s) → holding s' i = holding s i →
  br_sent s' = br_sent s → rate i s s'.
Proof.
  intros Hl Hh Hs. split; [done|]. intros _. exists []. split.
  - by rewrite Hs, app_nil_r.
  - by rewrite Hh.
  - unfold configs. simpl. lia.
  - done.
Qed.

Lemma rate_fields i s s' :
  br_ports s' = br_ports s → br_sent s' = br_sent s → rate i s s'.
Proof.
  intros Hp Hs. apply rate_silent; [by rewrite Hp| |done]. unfold holding, port. by rewrite Hp.
Qed.

Lemma rate_upd_port i k f s :
  (∀ p, active (hold_timer (f p)) = active (hold_timer p)) → rate i s (upd_port k f s).
Proof.
  intros Hf. apply rate_silent; [apply length_upd_port| |done].
  unfold holding. rewrite port_upd_port. case_decide; auto.
Qed.

#[export] Hint Extern 1 (rate _ _ _) =>
  lazymatch goal with
  | |- rate _ ?s (upd_port _ _ ?s) => apply rate_upd_port; intros; reflexivity
  | |- rate _ ?s (upd _ _ ?s) => generalize s; intros; apply rate_fields; reflexivity
  end : stp.

Lemma configs_single i k frame :
  configs i [(Z.of_nat k, frame)] = if decide (k = i ∧ is_config frame = true) then 1%nat else 0%nat.
Proof.
  unfold configs. rewrite filter_cons, filter_nil. simpl.
  assert (Z.of_nat k = Z.of_nat i ↔ k = i) by lia.
  repeat case_decide; simpl in *; tauto.
Qed.

Lemma rate_transmit_tcn i s : rate i s (stp_transmit_tcn s).
Proof.
  unfold stp_transmit_tcn. destruct (br_root_port s) as [k|]; [|done].
  split; [done|]. intros _. unfold stp_send_bpdu. eexists. split; simpl.
  - done.
  - intros Hh. rewrite configs_single, decide_False; [done|]. by intros [_ ?].
  - rewrite configs_single. case_decide; lia.
  - rewrite configs_single, decide_False; [done|]. by intros [_ ?].
Qed.

Lemma rate_transmit_config i k s : rate i s (stp_transmit_config k s).
Proof.
  unfold stp_transmit_config. destruct (_ && _); [done|].
  destruct (active _) eqn:Hk; [auto 2 with stp|].
  cbv zeta. destruct (_ <? _); [|done]. unfold andthen.
  set (s1 := upd_port k _ s). set (bpdu := config_bytes _).
  transitivity s1; [apply rate_upd_port; done|].
  assert (holding s1 k = false) as Hk1.
  { unfold holding, s1. rewrite port_upd_port. case_decide; exact Hk. }
  clearbody s1. split; [rewrite length_upd_port; done|]. intros Hi.
  assert (∀ j, holding (upd_port k (λ p, p <| hold_timer := stp_start_timer 0 |>)
     (stp_send_bpdu k bpdu s1)) j = if decide (k = j ∧ (k < length (br_ports s1))%nat)
     then true else holding s1 j) as Hhold.
  { intros j. unfold holding. rewrite port_upd_port.
    change (br_ports (stp_send_bpdu k bpdu s1)) with (br_ports s1). by case_decide. }
  eexists. split; [done|rewrite ?Hhold..].
  - intros Hh. assert (k ≠ i) by (intros ->; congruence).
    by rewrite configs_single, !decide_False by tauto.
  - rewrite configs_single. destruct (decide _); lia.
  - rewrite configs_single. destruct (decide (k = i ∧ is_config _ = true)) as [[<- _]|]; [|done].
    intros _. by rewrite decide_True.
Qed.
#[export] Hint Resolve rate_transmit_tcn rate_transmit_config : stp.

Lemma rate_set_port_state i k st s : rate i s (stp_set_port_state k st s).
Proof. unfold stp_set_port_state. walk (rate i). Qed.

Lemma rate_config_bpdu_generation i s : rate i s (stp_config_bpdu_generation s).
Proof. unfold stp_config_bpdu_generation. walk (rate i). Qed.

Lemma rate_topology_change_detection i s : rate i s (stp_topology_change_detection s).
Proof. unfold stp_topology_change_detection. walk (rate i). Qed.

Lemma rate_become_designated_port i k s : rate i s (stp_become_designated_port k s).
Proof. unfold stp_become_designated_port. walk (rate i). Qed.
#[export] Hint Resolve rate_set_port_state rate_config_bpdu_generation
  rate_topology_change_detection rate_become_designated_port : stp.

Lemma rate_become_root_bridge i s : rate i s (stp_become_root_bridge s).
Proof. unfold stp_become_root_bridge. walk (rate i). Qed.

Lemma rate_configuration_update i s : rate i s (stp_configuration_update s).
Proof.
  unfold stp_configuration_update. transitivity (stp_root_selection s).
  - rewrite root_selection_eq. destruct (selected_root s); walk (rate i).
  - unfold stp_designated_port_selection. walk (rate i).
Qed.

Lemma rate_port_state_selection i s : rate i s (stp_port_state_selection s).
Proof.
  unfold stp_port_state_selection, select_port_state, stp_make_forwarding, stp_make_blocking.
  walk (rate i).
Qed.
#[export] Hint Resolve rate_become_root_bridge rate_configuration_update
  rate_port_state_selection : stp.

Lemma rate_get_changed_port i s : rate i s (fst (stp_get_changed_port s)).
Proof.
  unfold stp_get_changed_port.
  pose proof (changed_port_loop_spec _ (br_first_changed_port s) s eq_refl) as H.
  destruct (changed_port_loop _ _ _) as [s' [k|]]; destruct H as [-> _]; cbn [fst];
    walk (rate i).
Qed.

(** Everything but the clock and the initialisation of a port. *)
Definition timeless (c : call) : bool :=
  match c with Tick _ | PortEnable _ => false | _ => true end.

Lemma rate_run i c s : timeless c = true → rate i s (run c s).
Proof.
  destruct c; try done; intros _; simpl run; try apply rate_get_changed_port;
    unfold stp_received_bpdu, stp_received_config_bpdu, stp_received_tcn_bpdu,
      stp_acknowledge_topology_change, stp_record_config_information,
      stp_record_config_timeout_values, stp_topology_change_acknowledged,
      stp_set_bridge_id, stp_set_bridge_priority, set_bridge_id, stp_set_hello_time,
      stp_set_max_age, stp_set_forward_delay, stp_update_bridge_timers, stp_port_disable,
      stp_port_set_priority, stp_port_set_speed, stp_port_set_path_cost,
      stp_port_enable_change_detection, stp_port_disable_change_detection;
    cbv zeta; walk (rate i).
Qed.

Lemma rate_runs i cs s :
  forallb timeless cs = true → rate i s (foldl (λ s c, run c s) s cs).
Proof.
  revert s; induction cs as [|c cs IH]; intros s Hcs; simpl; [done|].
  simpl in Hcs. apply andb_true_iff in Hcs as [Hc Hcs].
  transitivity (run c s); [by apply rate_run|by apply IH].
Qed.

(** C23: however many BPDUs a bridge receives and however its parameters are
    changed between two ticks, it hands at most one configuration BPDU per port
    to its client, and none for a port whose hold timer is running. *)
Theorem one_config_between_ticks s cs i :
  reachable s → forallb timeless cs = true → (i < STP_MAX_PORTS)%nat →
  ∃ l, br_sent (foldl (λ s c, run c s) s cs) = br_sent s ++ l ∧ (configs i l ≤ 1)%nat ∧
    (active (hold_timer (port s i)) = true → configs i l = 0%nat).
Proof.
  intros Hr Hcs Hi. destruct (reachable_inv s Hr) as [[Hf _] _].
  destruct (rate_runs i cs s Hcs) as [_ H]. destruct H as [l [Hl Hq Ho _]].
  - by rewrite Hf.
  - exists l. split_and!; [done|done|]. intros Ha. by apply Hq.
Qed.

(** A bridge that replies twice to an inferior configuration on a designated
    port sends one BPDU. *)
Definition inferior_config : list Z :=
  config_bytes (mk_stp_config_bpdu (mk_stp_bpdu_header 0 0 0) 0
    (htonll (9 .| (32768 << 48))) 0 (htonll (9 .| (32768 << 48))) 128 0 255 255 255).

Lemma one_config_between_ticks_witness :
  ∃ l, br_sent (foldl (λ s c, run c s) two_ports
                  [ReceivedBpdu 0 inferior_config; ReceivedBpdu 0 inferior_config])
       = br_sent two_ports ++ l ∧ (configs 0 l ≤ 1)%nat.
Proof.
  destruct (one_config_between_ticks two_ports
    [ReceivedBpdu 0 inferior_config; ReceivedBpdu 0 inferior_config] 0) as (l & H1 & H2 & _).
  - exact two_ports_reachable.
  - reflexivity.
  - unfold STP_MAX_PORTS. lia.
  - exists l. exact (conj H1 H2).
Defined.

Example inferior_config_answered :
  configs 0 (br_sent (foldl (λ s c, run c s) two_ports
    [ReceivedBpdu 0 inferior_config; ReceivedBpdu 0 inferior_config])) = 1%nat.
Proof. vm_compute. reflexivity. Qed.


End StpRate.
