(* ===== verification/StpWire.v ===== *)
(** * BPDUs on the wire and the bridge's timers

    What a bridge reads back from the BPDUs another one writes, and the values
    that its timer parameters can take. *)

From S2P Require Import Prelude Stp.
Import Stp.

Module StpWire.

(** Every field fits its width. *)
Definition header_range (h : stp_bpdu_header) : Prop :=
  0 <= protocol_id h < 2 ^ 16 ∧ 0 <= protocol_version h < 2 ^ 8 ∧
  0 <= bpdu_type h < 2 ^ 8.
Definition config_range (c : stp_config_bpdu) : Prop :=
  header_range (cfg_header c) ∧ 0 <= cfg_flags c < 2 ^ 8 ∧
  0 <= cfg_root_id c < 2 ^ 64 ∧ 0 <= cfg_root_path_cost c < 2 ^ 32 ∧
  0 <= cfg_bridge_id c < 2 ^ 64 ∧ 0 <= cfg_port_id c < 2 ^ 16 ∧
  0 <= cfg_message_age c < 2 ^ 16 ∧ 0 <= cfg_max_age c < 2 ^ 16 ∧
  0 <= cfg_hello_time c < 2 ^ 16 ∧ 0 <= cfg_forward_delay c < 2 ^ 16.

Lemma config_of_config_bytes c l :
  config_range c → config_of_bytes (config_bytes c ++ l) = c.
Proof.
  destruct c as [[] ? ? ? ? ? ? ? ? ?]. intros Hc. unfold config_range, header_range in Hc.
  simpl in Hc. destruct Hc as ((? & ? & ?) & ? & ? & ? & ? & ? & ? & ? & ? & ?).
  unfold config_of_bytes, header_of_bytes, config_bytes, header_bytes.
  cbn [cfg_header cfg_flags cfg_root_id cfg_root_path_cost cfg_bridge_id cfg_port_id
       cfg_message_age cfg_max_age cfg_hello_time cfg_forward_delay protocol_id
       protocol_version bpdu_type].
  rewrite <-!app_assoc. f_equal; [f_equal|..]; read_field; lia.
Qed.

Lemma length_config_bytes c : length (config_bytes c) = 35%nat.
Proof. unfold config_bytes, header_bytes. by rewrite !length_app, !length_le_bytes. Qed.

(** A configuration BPDU survives the wire: a bridge that receives the
    bytes of one, possibly padded, on an enabled port handles exactly the
    configuration that was sent. *)
Theorem received_bpdu_config s i c pad :
  config_range c → cfg_header c = mk_stp_bpdu_header STP_PROTOCOL_ID 0 STP_TYPE_CONFIG →
  state (port s i) ≠ STP_DISABLED →
  stp_received_bpdu i (config_bytes c ++ pad) s = stp_received_config_bpdu i c s.
Proof.
  intros Hc Hh Hen. unfold stp_received_bpdu. rewrite decide_False by done. cbv zeta.
  rewrite length_app, length_config_bytes.
  assert ((Z.of_nat (35 + length pad) <? 4) = false) as -> by (clear; apply Z.ltb_ge; lia).
  assert ((Z.of_nat (35 + length pad) <? 35) = false) as -> by (clear; apply Z.ltb_ge; lia).
  change (header_of_bytes (config_bytes c ++ pad))
    with (cfg_header (config_of_bytes (config_bytes c ++ pad))).
  rewrite config_of_config_bytes, Hh by done. reflexivity.
Qed.

Lemma u8_lor_high a : a < 256 → 0 <= a → u8 (a .| 256) = a.
Proof.
  intros H1 H2. unfold u8. rewrite <-Z.land_ones, Z.land_lor_distr_l, !Z.land_ones by lia.
  change (256 mod 2 ^ 8) with 0. rewrite Z.lor_0_r. apply Z.mod_small. lia.
Qed.

(** The flags byte of every configuration BPDU sent is zero, and no byte
    received is read as carrying the acknowledgement flag: the masks are swapped
    to network order although the field is a single byte, so that topology
    changes are neither announced nor acknowledged. *)
Theorem config_flags_lost s i flags :
  config_flags s i = 0 ∧
  (0 <= flags < 256 →
   truth (flags .& htons STP_CONFIG_TOPOLOGY_CHANGE_ACK) = false ∧
   truth (flags .& htons STP_CONFIG_TOPOLOGY_CHANGE) = false).
Proof.
  split.
  - unfold config_flags. destruct (topology_change_ack _), (br_topology_change s); reflexivity.
  - intros Hf.
    assert (∀ k, 8 <= k → flags .& (1 << k) = 0) as Hz.
    { intros k Hk. apply Z.bits_inj'. intros n Hn.
      rewrite Z.land_spec, Z.bits_0, Z.shiftl_spec by lia.
      destruct (decide (n < 8)).
      - rewrite (Z.testbit_neg_r 1 (n - k)) by lia. apply andb_false_r.
      - rewrite (Z.bits_above_log2 flags n); [done|lia|].
        destruct (decide (flags = 0)) as [->|]; [simpl; lia|].
        apply Z.log2_lt_pow2; [lia|]. eapply Z.lt_le_trans; [apply Hf|].
        change 256 with (2 ^ 8). apply Z.pow_le_mono_r; lia. }
    split.
    + change (htons STP_CONFIG_TOPOLOGY_CHANGE_ACK) with (1 << 15). by rewrite Hz by lia.
    + change (htons STP_CONFIG_TOPOLOGY_CHANGE) with (1 << 8). by rewrite Hz by lia.
Qed.

(** ** Timers *)

Lemma clamp_range x a b : a <= b → a <= clamp x a b <= b.
Proof. intros. unfold clamp. destruct (Z.ltb_spec x a), (Z.ltb_spec b x); lia. Qed.

Lemma ms_to_timer_small ms : 0 <= ms < 2 ^ 23 → ms_to_timer ms = ms * 256 / 1000.
Proof.
  intros H. unfold ms_to_timer, s32.
  rewrite (Z.mod_small (ms * 256 + 2 ^ 31)) by lia.
  replace (ms * 256 + 2 ^ 31 - 2 ^ 31) with (ms * 256) by lia.
  rewrite Z.quot_div_nonneg by lia. done.
Qed.

(** Whatever times are requested, the bridge's own parameters stay in the
    ranges of the standard (in 1/256 s) and its maximum age is at least twice
    the hello time plus a second; the relation between the forward delay and
    the maximum age holds up to the rounding of the two to timer ticks. *)
Theorem bridge_timers_bounds s :
  let s' := stp_update_bridge_timers s in
  256 <= br_bridge_hello_time s' <= 2560 ∧
  1536 <= br_bridge_max_age s' <= 10240 ∧
  1024 <= br_bridge_forward_delay s' <= 7680 ∧
  2 * (br_bridge_hello_time s' + 256) <= br_bridge_max_age s' ∧
  br_bridge_max_age s' <= 2 * (br_bridge_forward_delay s' - 256) + 2 ∧
  (stp_is_root_bridge s' = true →
   br_hello_time s' = br_bridge_hello_time s' ∧ br_max_age s' = br_bridge_max_age s' ∧
   br_forward_delay s' = br_bridge_forward_delay s').
Proof.
  unfold stp_update_bridge_timers. cbv zeta.
  pose proof (clamp_range (br_rq_hello_time s) 1000 10000 ltac:(lia)).
  set (ht := clamp (br_rq_hello_time s) _ _) in *.
  pose proof (clamp_range (br_rq_max_age s) (Z.max (2 * (ht + 1000)) 6000) 40000 ltac:(lia)).
  set (ma := clamp (br_rq_max_age s) _ _) in *.
  assert (Z.quot ma 2 = ma / 2) as Hq by (apply Z.quot_div_nonneg; lia).
  rewrite Hq.
  pose proof (clamp_range (br_rq_forward_delay s) (ma / 2 + 1000) 30000 ltac:(zlia)).
  set (fd := clamp (br_rq_forward_delay s) _ _) in *.
  rewrite !ms_to_timer_small by zlia. clearbody ht ma fd. clear Hq.
  unfold andthen. destruct (stp_is_root_bridge _) eqn:E; simpl in *; rewrite ?E;
    (split_and!; [zlia..|]); done.
Qed.

Lemma received_bpdu_config_witness :
  let s := stp_port_enable 0 (stp_create 7) in
  let c := mk_stp_config_bpdu (mk_stp_bpdu_header 0 0 0) 0 (htonll 3) 0 (htonll 3) 128 0
             255 255 255 in
  stp_received_bpdu 0 (config_bytes c ++ [0]) s = stp_received_config_bpdu 0 c s.
Proof.
  cbv zeta. apply received_bpdu_config.
  - vm_compute. repeat split; discriminate.
  - reflexivity.
  - intros E. vm_compute in E. discriminate E.
Defined.

(** The milliseconds a tick leaves over are kept in units of 1/256 ms but
    added to the next tick as milliseconds: two ticks of 1 ms advance the hello
    timer by 65/256 s, while one tick of 2 ms does not advance it. *)
Theorem tick_remainder_scaled :
  value (br_hello_timer (stp_tick 1 (stp_tick 1 (stp_create 7)))) = 65 ∧
  value (br_hello_timer (stp_tick 2 (stp_create 7))) = 0.
Proof. vm_compute. done. Qed.

(** A requested maximum age of 6004 ms with the shortest forward delay
    breaks the documented relation 2 * (bridge_forward_delay - 1 s) >=
    bridge_max_age by one timer tick. *)
Theorem forward_delay_relation_fails :
  let s := stp_set_max_age 6004 (stp_create 7) in
  2 * (br_bridge_forward_delay s - 256) < br_bridge_max_age s.
Proof. vm_compute. done. Qed.


End StpWire.
