(* ===== verification/Csum.v ===== *)
(** * lib/csum.c and udatapath/crc32.c: checksums

    The internet checksum and its incremental update, and the table-driven CRC
    with which the hash tables choose a bucket.  The theorems compare the first
    with arithmetic modulo 65535 and the second with bit-serial division. *)

From S2P Require Import Prelude.

Module Csum.

(** ** lib/csum.c *)

Definition csum_add16 (partial new : Z) : Z := u32 (partial + new).

Definition csum_add32 (partial new : Z) : Z := u32 (partial + (new >> 16) + (new .& 0xffff)).

(** The words of [data] are read in the byte order of the host; a trailing
    byte is added as it is. *)
Fixpoint csum_continue (partial : Z) (data : list Z) : Z :=
  match data with
  | a :: b :: data => csum_continue (csum_add16 partial (le_int [a; b])) data
  | [a] => u32 (partial + a)
  | [] => partial
  end.

Definition csum_finish (partial : Z) : Z :=
  u16 (Z.lnot (u32 ((partial .& 0xffff) + (partial >> 16)))).

Definition csum (data : list Z) : Z := csum_finish (csum_continue 0 data).

Definition recalc_csum16 (old_csum old_u16 new_u16 : Z) : Z :=
  let hc_complement := u16 (Z.lnot old_csum) in
  let m_complement := u16 (Z.lnot old_u16) in
  let m_prime := new_u16 in
  let sum := u32 (hc_complement + m_complement + m_prime) in
  let hc_prime_complement := u16 (u32 (sum + (sum >> 16))) in
  u16 (Z.lnot hc_prime_complement).

Definition recalc_csum32 (old_csum old_u32 new_u32 : Z) : Z :=
  recalc_csum16 (recalc_csum16 old_csum (u16 old_u32) (u16 new_u32))
    (u16 (old_u32 >> 16)) (u16 (new_u32 >> 16)).

(** ** udatapath/crc32.c *)

Definition CRC32_TABLE_BITS : nat := 8.
Definition CRC32_TABLE_SIZE : nat := 256.

Definition crc_step (polynomial reg : Z) : Z :=
  let topBit := truth (reg .& 0x80000000) in
  let reg := u32 (reg << 1) in
  if topBit then reg .^ polynomial else reg.

Definition crc32_init (polynomial : Z) : list Z :=
  (λ i, Nat.iter CRC32_TABLE_BITS (crc_step polynomial) (u32 (Z.of_nat i << 24)))
    <$> seq 0 CRC32_TABLE_SIZE.

Definition crc32_calculate (table : list Z) (data : list Z) : Z :=
  foldl (λ result byte,
    let top := (result >> 24) .^ byte in
    u32 (result << 8) .^ (table !!! Z.to_nat top)) 0 data.

(** ** Lemmas *)

Lemma land_ffff x : x .& 0xffff = x mod 65536.
Proof. change 0xffff with (Z.ones 16). by rewrite Z.land_ones. Qed.

Lemma shiftr_16 x : x >> 16 = x / 65536.
Proof. by rewrite Z.shiftr_div_pow2. Qed.

Lemma u16_lnot x : u16 (Z.lnot x) = 65535 - u16 x.
Proof. unfold u16, Z.lnot. zlia. Qed.

(** The one fold that [csum_finish] makes. *)
Definition fold16 (p : Z) : Z := p mod 65536 + p / 65536.

Lemma csum_finish_eq p : 0 <= p < 2 ^ 32 → csum_finish p = 65535 - fold16 p mod 65536.
Proof.
  intros Hp. unfold csum_finish, fold16. rewrite land_ffff, shiftr_16, u16_lnot.
  unfold u16, u32. rewrite (Z.mod_small (p mod 65536 + p / 65536)) by zlia. done.
Qed.

Lemma csum_continue_range p data : 0 <= p < 2 ^ 32 → 0 <= csum_continue p data < 2 ^ 32.
Proof.
  revert p. induction data as [data IH] using (induction_ltof1 _ length). intros p Hp.
  destruct data as [|a [|b data]]; simpl.
  - done.
  - apply u32_range.
  - apply IH; [unfold ltof; simpl; lia|]. apply u32_range.
Qed.

(** The sum of the 16-bit words of a list of bytes. *)
Fixpoint words (data : list Z) : Z :=
  match data with
  | a :: b :: data => le_int [a; b] + words data
  | [a] => a
  | [] => 0
  end.

Lemma words_range data :
  Forall is_byte data → 0 <= words data <= 32768 * Z.of_nat (length data) + 32768.
Proof.
  induction data as [data IH] using (induction_ltof1 _ length). intros Hd.
  destruct data as [|a [|b data]]; simpl.
  - lia.
  - inversion_clear Hd as [|? ? Ha _]. unfold is_byte in Ha. lia.
  - inversion_clear Hd as [|? ? Ha Hd']. inversion_clear Hd' as [|? ? Hb Hd].
    unfold is_byte in *.
    assert (0 <= words data <= 32768 * Z.of_nat (length data) + 32768)
      by (apply IH; [unfold ltof; simpl; lia|done]). lia.
Qed.

Lemma csum_continue_words p data :
  Forall is_byte data → 0 <= p → p + words data < 2 ^ 32 →
  csum_continue p data = p + words data.
Proof.
  revert p. induction data as [data IH] using (induction_ltof1 _ length). intros p Hd Hp Hs.
  destruct data as [|a [|b data]]; simpl in *.
  - lia.
  - inversion_clear Hd as [|? ? Ha _]. unfold is_byte in Ha.
    unfold u32. rewrite Z.mod_small by lia. done.
  - inversion_clear Hd as [|? ? Ha Hd']. inversion_clear Hd' as [|? ? Hb Hd].
    pose proof (words_range data Hd). unfold is_byte in *.
    unfold csum_add16, u32. simpl. rewrite (Z.mod_small (p + _)) by lia.
    rewrite IH; [lia|unfold ltof; simpl; lia|done|lia|lia].
Qed.

Lemma crc_top x : truth (x .& 0x80000000) = Z.testbit x 31.
Proof.
  unfold truth. change 0x80000000 with (2 ^ 31).
  destruct (Z.testbit x 31) eqn:E.
  - apply negb_true_iff, Z.eqb_neq. intros Hz.
    assert (Z.testbit (x .& 2 ^ 31) 31 = false) as Hb by (rewrite Hz; apply Z.bits_0).
    rewrite Z.land_spec, E, Z.pow2_bits_true in Hb by lia. discriminate.
  - apply negb_false_iff, Z.eqb_eq. apply Z.bits_inj'. intros n Hn.
    rewrite Z.land_spec, Z.bits_0. destruct (decide (n = 31)) as [->|].
    + by rewrite E.
    + rewrite Z.pow2_bits_false by lia. apply andb_false_r.
Qed.

Lemma u32_lxor x y : u32 (x .^ y) = u32 x .^ u32 y.
Proof. by apply mod_pow2_lxor. Qed.

Lemma u32_u32 x : u32 (u32 x) = u32 x.
Proof. unfold u32. by rewrite Z.mod_mod by lia. Qed.

Lemma crc_step_lxor poly x y : crc_step poly (x .^ y) = crc_step poly x .^ crc_step poly y.
Proof.
  unfold crc_step. cbv zeta. rewrite !crc_top, Z.lxor_spec, Z.shiftl_lxor, u32_lxor.
  destruct (Z.testbit x 31), (Z.testbit y 31); simpl; apply Z.bits_inj'; intros n _;
    rewrite !Z.lxor_spec; destruct (Z.testbit (u32 (x << 1)) n),
      (Z.testbit (u32 (y << 1)) n), (Z.testbit poly n); done.
Qed.

Lemma crc_steps_lxor poly n x y :
  Nat.iter n (crc_step poly) (x .^ y) =
    Nat.iter n (crc_step poly) x .^ Nat.iter n (crc_step poly) y.
Proof. induction n as [|n IH]; simpl; [done|]. by rewrite IH, crc_step_lxor. Qed.

(** A register whose top [n] bits are clear is only shifted by [n] steps. *)
Lemma crc_steps_low poly n x :
  (n ≤ 31)%nat → 0 <= x < 2 ^ (32 - Z.of_nat n) →
  Nat.iter n (crc_step poly) x = x << Z.of_nat n.
Proof.
  intros Hn Hx. induction n as [|n IH]; [by rewrite Z.shiftl_0_r|].
  assert (2 ^ (32 - Z.of_nat n) = 2 * 2 ^ (32 - Z.of_nat (S n))) as Hp.
  { rewrite <-Z.pow_succ_r by lia. f_equal. lia. }
  simpl Nat.iter. rewrite IH by lia. unfold crc_step. cbv zeta. rewrite crc_top.
  assert (Z.testbit (x << Z.of_nat n) 31 = false) as ->.
  { rewrite Z.shiftl_spec by lia. rewrite Z.bits_above_log2; [done|lia|].
    destruct (decide (x = 0)) as [->|]; [simpl; lia|]. apply Z.log2_lt_pow2; [lia|].
    replace (31 - Z.of_nat n) with (32 - Z.of_nat (S n)) by lia. lia. }
  rewrite Z.shiftl_shiftl by lia. replace (Z.of_nat n + 1) with (Z.of_nat (S n)) by lia.
  unfold u32. apply Z.mod_small. rewrite Z.shiftl_mul_pow2 by lia. split; [nia|].
  replace (2 ^ 32) with (2 ^ (32 - Z.of_nat (S n)) * 2 ^ Z.of_nat (S n)); [nia|].
  rewrite <-Z.pow_add_r by lia. f_equal. lia.
Qed.

(** One byte of bit-serial division: the byte enters at the top of the register. *)
Definition crc_byte (poly reg byte : Z) : Z :=
  Nat.iter 8 (crc_step poly) (reg .^ (byte << 24)).

Lemma crc_step_range poly x : 0 <= poly < 2 ^ 32 → 0 <= crc_step poly x < 2 ^ 32.
Proof.
  intros Hp. unfold crc_step. cbv zeta. pose proof (u32_range (x << 1)) as Hu.
  case_match; [|done]. assert (u32 (u32 (x << 1) .^ poly) = u32 (x << 1) .^ poly) as <-.
  { rewrite u32_lxor, u32_u32. f_equal. by apply Z.mod_small. }
  apply u32_range.
Qed.

Lemma crc_steps_range poly n x :
  0 <= poly < 2 ^ 32 → 0 <= x < 2 ^ 32 → 0 <= Nat.iter n (crc_step poly) x < 2 ^ 32.
Proof. intros Hp Hx. destruct n as [|n]; simpl; [done|]. by apply crc_step_range. Qed.

Lemma crc_table_entry poly k :
  0 <= k < 256 → crc32_init poly !!! Z.to_nat k = Nat.iter 8 (crc_step poly) (k << 24).
Proof.
  intros Hk. unfold crc32_init, CRC32_TABLE_SIZE, CRC32_TABLE_BITS.
  rewrite list_lookup_total_alt, list_lookup_fmap, lookup_seq_lt by lia.
  cbn [fmap option_fmap option_map from_option Nat.add id default].
  rewrite Z2Nat.id by lia. f_equal. unfold u32. apply Z.mod_small.
  rewrite Z.shiftl_mul_pow2 by lia. lia.
Qed.

Lemma crc_round poly r b :
  0 <= r < 2 ^ 32 → 0 <= b < 256 →
  u32 (r << 8) .^ (crc32_init poly !!! Z.to_nat ((r >> 24) .^ b)) = crc_byte poly r b.
Proof.
  intros Hr Hb.
  assert (0 <= r >> 24 < 2 ^ 8) as Hhi by (rewrite Z.shiftr_div_pow2 by lia; zlia).
  assert (0 <= (r >> 24) .^ b < 2 ^ 8) as Htop by (apply lxor_range; [lia|done|lia]).
  rewrite crc_table_entry by lia. unfold crc_byte.
  assert (r = ((r >> 24) << 24) .^ (r mod 2 ^ 24)) as Hsplit.
  { apply Z.bits_inj'. intros n Hn. rewrite Z.lxor_spec.
    destruct (decide (n < 24)).
    - by rewrite Z.shiftl_spec_low, Z.mod_pow2_bits_low by lia.
    - rewrite Z.shiftl_spec_high, Z.shiftr_spec, Z.mod_pow2_bits_high by lia.
      rewrite xorb_false_r. f_equal. lia. }
  rewrite Hsplit at 3.
  replace ((((r >> 24) << 24) .^ (r mod 2 ^ 24)) .^ (b << 24))
    with ((r mod 2 ^ 24) .^ (((r >> 24) .^ b) << 24)).
  2:{ by rewrite Z.shiftl_lxor, <-Z.lxor_assoc, (Z.lxor_comm (r mod 2 ^ 24)). }
  rewrite crc_steps_lxor. f_equal. rewrite crc_steps_low; [|lia|].
  - unfold u32. rewrite !Z.shiftl_mul_pow2 by lia. change (Z.of_nat 8) with 8. zlia.
  - change (2 ^ (32 - Z.of_nat 8)) with (2 ^ 24). zlia.
Qed.

Lemma crc_byte_range poly r b :
  0 <= poly < 2 ^ 32 → 0 <= crc_byte poly r b < 2 ^ 32.
Proof. intros Hp. unfold crc_byte. simpl Nat.iter. by apply crc_step_range. Qed.

Lemma crc_rounds poly r data :
  0 <= poly < 2 ^ 32 → 0 <= r < 2 ^ 32 → Forall is_byte data →
  let crc := foldl (λ r b, u32 (r << 8) .^ (crc32_init poly !!! Z.to_nat ((r >> 24) .^ b))) r data in
  crc = foldl (crc_byte poly) r data ∧ 0 <= crc < 2 ^ 32.
Proof.
  intros Hp. revert r. induction data as [|b data IH]; intros r Hr Hd; [done|].
  inversion_clear Hd as [|? ? Hb Hd']. cbv zeta. cbn [foldl]. rewrite crc_round by done.
  apply IH; [by apply crc_byte_range|done].
Qed.

(** ** Theorems *)

(** C29: the table-driven CRC is division of the data by the polynomial bit by
    bit, for every polynomial and all data, and so a function of them alone. *)
Theorem crc32_bitwise poly data :
  0 <= poly < 2 ^ 32 → Forall is_byte data →
  crc32_calculate (crc32_init poly) data = foldl (crc_byte poly) 0 data ∧
  0 <= crc32_calculate (crc32_init poly) data < 2 ^ 32.
Proof.
  intros Hp Hd. unfold crc32_calculate. apply crc_rounds; [done|lia|done].
Qed.

Lemma crc32_bitwise_witness :
  crc32_calculate (crc32_init 0x04C11DB7) [1; 2; 3] = foldl (crc_byte 0x04C11DB7) 0 [1; 2; 3].
Proof.
  apply (crc32_bitwise 0x04C11DB7 [1; 2; 3]).
  - lia.
  - repeat constructor; unfold is_byte; lia.
Defined.

(** [csum_finish] yields a checksum that complements its partial sum in
    ones-complement arithmetic exactly when the sum of the two halves does not
    carry: it folds the carries once where two folds are needed. *)
Theorem csum_finish_exact p :
  0 <= p < 2 ^ 32 → ((p + csum_finish p) mod 65535 = 0 ↔ fold16 p < 65536).
Proof. intros Hp. rewrite csum_finish_eq by done. unfold fold16. split; intros; zlia. Qed.

Lemma csum_finish_exact_witness : (0x1ffff + csum_finish 0x1ffff) mod 65535 = 0 ↔ fold16 0x1ffff < 65536.
Proof. apply csum_finish_exact. lia. Defined.

(** The checksum of up to 64 kB of data makes the ones-complement sum of
    the data and the checksum zero, unless the single fold carries. *)
Theorem csum_complements data :
  Forall is_byte data → Z.of_nat (length data) <= 65535 → fold16 (words data) < 65536 →
  (words data + csum data) mod 65535 = 0 ∧ 0 <= csum data < 65536.
Proof.
  intros Hd Hl Hf. pose proof (words_range data Hd). unfold csum.
  rewrite csum_continue_words by (done || lia). rewrite !Z.add_0_l.
  rewrite csum_finish_eq by lia. unfold fold16 in *. split; zlia.
Qed.

Lemma csum_complements_witness :
  (words [0x45; 0; 0; 20] + csum [0x45; 0; 0; 20]) mod 65535 = 0.
Proof.
  apply (csum_complements [0x45; 0; 0; 20]).
  - repeat constructor; unfold is_byte; lia.
  - vm_compute. discriminate.
  - vm_compute. reflexivity.
Defined.

Lemma recalc_csum16_eq c o n :
  0 <= c < 65536 → 0 <= o < 65536 → 0 <= n < 65536 →
  let sum := (65535 - c) + (65535 - o) + n in
  recalc_csum16 c o n = 65535 - (sum + sum / 65536) mod 65536.
Proof.
  intros Hc Ho Hn. cbv zeta. unfold recalc_csum16. cbv zeta.
  rewrite !u16_lnot, shiftr_16. unfold u16, u32.
  rewrite (Z.mod_small c), (Z.mod_small o) by lia.
  rewrite (Z.mod_small (65535 - c + (65535 - o) + n)) by lia.
  set (sum := 65535 - c + (65535 - o) + n). assert (0 <= sum <= 196605) by lia.
  rewrite (Z.mod_small (sum + sum / 65536)) by zlia. by rewrite Z.mod_mod.
Qed.

(** The incremental update of a checksum after one 16-bit field changes
    moves it by exactly the opposite of the field's change in ones-complement
    arithmetic, except when the intermediate sum is 0x1ffff, where the result
    is off by one. *)
Theorem recalc_csum16_exact c o n :
  0 <= c < 65536 → 0 <= o < 65536 → 0 <= n < 65536 →
  ((recalc_csum16 c o n + n) mod 65535 = (c + o) mod 65535 ↔
   (65535 - c) + (65535 - o) + n ≠ 0x1ffff) ∧ 0 <= recalc_csum16 c o n < 65536.
Proof.
  intros Hc Ho Hn. rewrite recalc_csum16_eq by done.
  split; [split; [intros H E|intros Hne]|]; zlia.
Qed.

Lemma recalc_csum16_exact_witness :
  (recalc_csum16 0xdd2f 0x5555 0x3285 + 0x3285) mod 65535 = (0xdd2f + 0x5555) mod 65535.
Proof. apply (recalc_csum16_exact 0xdd2f 0x5555 0x3285); lia. Defined.

End Csum.
