(* ===== verification/Ofp.v ===== *)
(** * include/openflow/openflow.h and lib/packets.h: protocol constants and layouts

    Constants keep their names.  Multi-byte fields of wire structures hold the
    stored value, in network byte order; addresses are lists of bytes. *)

From S2P Require Import Prelude.

Module Ofp.

(** ** openflow.h *)

Definition OFP_VERSION : Z := 0x01.

Definition OFPP_MAX : Z := 0xff00.
Definition OFPP_IN_PORT : Z := 0xfff8.
Definition OFPP_TABLE : Z := 0xfff9.
Definition OFPP_NORMAL : Z := 0xfffa.
Definition OFPP_FLOOD : Z := 0xfffb.
Definition OFPP_ALL : Z := 0xfffc.
Definition OFPP_CONTROLLER : Z := 0xfffd.
Definition OFPP_LOCAL : Z := 0xfffe.
Definition OFPP_NONE : Z := 0xffff.

Definition OFPT_HELLO : Z := 0.
Definition OFPT_ERROR : Z := 1.
Definition OFPT_ECHO_REQUEST : Z := 2.
Definition OFPT_ECHO_REPLY : Z := 3.
Definition OFPT_VENDOR : Z := 4.
Definition OFPT_FEATURES_REQUEST : Z := 5.
Definition OFPT_FEATURES_REPLY : Z := 6.
Definition OFPT_GET_CONFIG_REQUEST : Z := 7.
Definition OFPT_GET_CONFIG_REPLY : Z := 8.
Definition OFPT_SET_CONFIG : Z := 9.
Definition OFPT_PACKET_IN : Z := 10.
Definition OFPT_FLOW_REMOVED : Z := 11.
Definition OFPT_PORT_STATUS : Z := 12.
Definition OFPT_PACKET_OUT : Z := 13.
Definition OFPT_FLOW_MOD : Z := 14.
Definition OFPT_PORT_MOD : Z := 15.
Definition OFPT_STATS_REQUEST : Z := 16.
Definition OFPT_STATS_REPLY : Z := 17.
Definition OFPT_BARRIER_REQUEST : Z := 18.
Definition OFPT_BARRIER_REPLY : Z := 19.
Definition OFPT_QUEUE_GET_CONFIG_REQUEST : Z := 20.
Definition OFPT_QUEUE_GET_CONFIG_REPLY : Z := 21.

Definition OFP_DEFAULT_MISS_SEND_LEN : Z := 128.
Definition OFPC_STP : Z := 1 << 3.
Definition OFPC_FRAG_NORMAL : Z := 0.
Definition OFPC_FRAG_DROP : Z := 1.
Definition OFPC_FRAG_MASK : Z := 3.

Definition OFPPC_PORT_DOWN : Z := 1 << 0.
Definition OFPPC_NO_STP : Z := 1 << 1.
Definition OFPPC_NO_RECV : Z := 1 << 2.
Definition OFPPC_NO_RECV_STP : Z := 1 << 3.
Definition OFPPC_NO_FLOOD : Z := 1 << 4.

Definition OFPR_NO_MATCH : Z := 0.
Definition OFPR_ACTION : Z := 1.

Definition OFPAT_OUTPUT : Z := 0.
Definition OFPAT_SET_VLAN_VID : Z := 1.
Definition OFPAT_SET_VLAN_PCP : Z := 2.
Definition OFPAT_STRIP_VLAN : Z := 3.
Definition OFPAT_SET_DL_SRC : Z := 4.
Definition OFPAT_SET_DL_DST : Z := 5.
Definition OFPAT_SET_NW_SRC : Z := 6.
Definition OFPAT_SET_NW_DST : Z := 7.
Definition OFPAT_SET_NW_TOS : Z := 8.
Definition OFPAT_SET_TP_SRC : Z := 9.
Definition OFPAT_SET_TP_DST : Z := 10.
Definition OFPAT_ENQUEUE : Z := 11.
Definition OFPAT_VENDOR : Z := 0xffff.

Definition OFPSF_REPLY_MORE : Z := 1.
Definition OFPST_DESC : Z := 0.
Definition OFPST_FLOW : Z := 1.
Definition OFPST_AGGREGATE : Z := 2.
Definition OFPST_TABLE : Z := 3.
Definition OFPST_PORT : Z := 4.
Definition OFPST_QUEUE : Z := 5.
Definition OFPST_VENDOR : Z := 0xffff.

Definition OFPPS_LINK_DOWN : Z := 1 << 0.
Definition OFPPS_STP_LISTEN : Z := 0 << 8.
Definition OFPPS_STP_LEARN : Z := 1 << 8.
Definition OFPPS_STP_FORWARD : Z := 2 << 8.
Definition OFPPS_STP_BLOCK : Z := 3 << 8.
Definition OFPPS_STP_MASK : Z := 3 << 8.

Definition OFPFC_ADD : Z := 0.
Definition OFPFC_MODIFY : Z := 1.
Definition OFPFC_MODIFY_STRICT : Z := 2.
Definition OFPFC_DELETE : Z := 3.
Definition OFPFC_DELETE_STRICT : Z := 4.

Definition OFPFW_IN_PORT : Z := 1 << 0.
Definition OFPFW_DL_VLAN : Z := 1 << 1.
Definition OFPFW_DL_SRC : Z := 1 << 2.
Definition OFPFW_DL_DST : Z := 1 << 3.
Definition OFPFW_DL_TYPE : Z := 1 << 4.
Definition OFPFW_NW_PROTO : Z := 1 << 5.
Definition OFPFW_TP_SRC : Z := 1 << 6.
Definition OFPFW_TP_DST : Z := 1 << 7.
Definition OFPFW_NW_SRC_SHIFT : Z := 8.
Definition OFPFW_NW_SRC_BITS : Z := 6.
Definition OFPFW_NW_SRC_MASK : Z := ((1 << OFPFW_NW_SRC_BITS) - 1) << OFPFW_NW_SRC_SHIFT.
Definition OFPFW_NW_DST_SHIFT : Z := 14.
Definition OFPFW_NW_DST_BITS : Z := 6.
Definition OFPFW_NW_DST_MASK : Z := ((1 << OFPFW_NW_DST_BITS) - 1) << OFPFW_NW_DST_SHIFT.
Definition OFPFW_DL_VLAN_PCP : Z := 1 << 20.
Definition OFPFW_NW_TOS : Z := 1 << 21.
Definition OFPFW_ALL : Z := (1 << 22) - 1.

Definition OFP_DL_TYPE_ETH2_CUTOFF : Z := 0x0600.
Definition OFP_DL_TYPE_NOT_ETH_TYPE : Z := 0x05ff.
Definition OFP_VLAN_NONE : Z := 0xffff.
Definition OFP_FLOW_PERMANENT : Z := 0.

Definition OFPFF_SEND_FLOW_REM : Z := 1 << 0.
Definition OFPFF_CHECK_OVERLAP : Z := 1 << 1.
Definition OFPFF_EMERG : Z := 1 << 2.

Definition OFPRR_IDLE_TIMEOUT : Z := 0.
Definition OFPRR_HARD_TIMEOUT : Z := 1.
Definition OFPRR_DELETE : Z := 2.

Definition OFPET_BAD_REQUEST : Z := 1.
Definition OFPET_BAD_ACTION : Z := 2.
Definition OFPET_FLOW_MOD_FAILED : Z := 3.
Definition OFPET_QUEUE_OP_FAILED : Z := 5.
Definition OFPBRC_BAD_TYPE : Z := 1.
Definition OFPBRC_BAD_VENDOR : Z := 3.
Definition OFPBAC_BAD_TYPE : Z := 0.
Definition OFPBAC_BAD_LEN : Z := 1.
Definition OFPBAC_BAD_VENDOR : Z := 2.
Definition OFPBAC_BAD_OUT_PORT : Z := 4.
Definition OFPFMFC_ALL_TABLES_FULL : Z := 0.
Definition OFPFMFC_OVERLAP : Z := 1.
Definition OFPFMFC_BAD_EMERG_TIMEOUT : Z := 3.
Definition OFPQOFC_BAD_PORT : Z := 0.

Definition OFP_ETH_ALEN : nat := 6.

Record ofp_match := mk_ofp_match {
  m_wildcards : Z;
  m_in_port : Z;
  m_dl_src : list Z;
  m_dl_dst : list Z;
  m_dl_vlan : Z;
  m_dl_vlan_pcp : Z;
  m_dl_type : Z;
  m_nw_tos : Z;
  m_nw_proto : Z;
  m_nw_src : Z;
  m_nw_dst : Z;
  m_tp_src : Z;
  m_tp_dst : Z;
}.

Definition sizeof_ofp_match : nat := 40.

(** The structure at offset [off] of an object. *)
Definition match_at (mem : list Z) (off : nat) : ofp_match :=
  {| m_wildcards := int_at mem off 4;
     m_in_port := int_at mem (off + 4) 2;
     m_dl_src := bytes_at mem (off + 6) 6;
     m_dl_dst := bytes_at mem (off + 12) 6;
     m_dl_vlan := int_at mem (off + 18) 2;
     m_dl_vlan_pcp := int_at mem (off + 20) 1;
     m_dl_type := int_at mem (off + 22) 2;
     m_nw_tos := int_at mem (off + 24) 1;
     m_nw_proto := int_at mem (off + 25) 1;
     m_nw_src := int_at mem (off + 28) 4;
     m_nw_dst := int_at mem (off + 32) 4;
     m_tp_src := int_at mem (off + 36) 2;
     m_tp_dst := int_at mem (off + 38) 2 |}.

(** The bytes of the structure, with its padding zero. *)
Definition match_bytes (m : ofp_match) : list Z :=
  le_bytes 4 (m_wildcards m) ++ le_bytes 2 (m_in_port m) ++ m_dl_src m ++ m_dl_dst m
  ++ le_bytes 2 (m_dl_vlan m) ++ le_bytes 1 (m_dl_vlan_pcp m) ++ [0]
  ++ le_bytes 2 (m_dl_type m) ++ le_bytes 1 (m_nw_tos m) ++ le_bytes 1 (m_nw_proto m)
  ++ [0; 0] ++ le_bytes 4 (m_nw_src m) ++ le_bytes 4 (m_nw_dst m)
  ++ le_bytes 2 (m_tp_src m) ++ le_bytes 2 (m_tp_dst m).

(** ** packets.h *)

Definition ETH_ADDR_LEN : nat := 6.
Definition ETH_TYPE_IP : Z := 0x0800.
Definition ETH_TYPE_ARP : Z := 0x0806.
Definition ETH_TYPE_VLAN : Z := 0x8100.
Definition ETH_HEADER_LEN : nat := 14.
Definition LLC_HEADER_LEN : nat := 3.
Definition LLC_DSAP_SNAP : Z := 0xaa.
Definition LLC_SSAP_SNAP : Z := 0xaa.
Definition LLC_CNTL_SNAP : Z := 3.
Definition SNAP_ORG_ETHERNET : list Z := [0; 0; 0].
Definition SNAP_HEADER_LEN : nat := 5.
Definition LLC_SNAP_HEADER_LEN : nat := LLC_HEADER_LEN + SNAP_HEADER_LEN.
Definition VLAN_VID_MASK : Z := 0x0fff.
Definition VLAN_PCP_MASK : Z := 0xe000.
Definition VLAN_PCP_SHIFT : Z := 13.
Definition VLAN_PCP_BITMASK : Z := 0x0007.
Definition VLAN_HEADER_LEN : nat := 4.
Definition VLAN_ETH_HEADER_LEN : nat := ETH_HEADER_LEN + VLAN_HEADER_LEN.
Definition IP_TYPE_ICMP : Z := 1.
Definition IP_TYPE_TCP : Z := 6.
Definition IP_TYPE_UDP : Z := 17.
Definition IP_MORE_FRAGMENTS : Z := 0x2000.
Definition IP_FRAG_OFF_MASK : Z := 0x1fff.
Definition IP_ADDR_LEN : Z := 4.
Definition IP_HEADER_LEN : nat := 20.
Definition ICMP_HEADER_LEN : nat := 4.
Definition UDP_HEADER_LEN : nat := 8.
Definition TCP_HEADER_LEN : nat := 20.
Definition ARP_PRO_IP : Z := 0x0800.
Definition ARP_ETH_HEADER_LEN : nat := 28.

Definition IP_IHL (ip_ihl_ver : Z) : Z := ip_ihl_ver .& 15.
Definition IP_IS_FRAGMENT (ip_frag_off : Z) : bool :=
  truth (ip_frag_off .& htons (IP_MORE_FRAGMENTS .| IP_FRAG_OFF_MASK)).
Definition TCP_OFFSET (tcp_ctl : Z) : Z := htons tcp_ctl >> 12.

Definition eth_addr_equals (a b : list Z) : bool := bool_decide (a = b).

Definition eth_addr_to_uint64 (ea : list Z) : Z :=
  ((ea !!! 0%nat) << 40) .| ((ea !!! 1%nat) << 32) .| ((ea !!! 2%nat) << 24)
  .| ((ea !!! 3%nat) << 16) .| ((ea !!! 4%nat) << 8) .| (ea !!! 5%nat).

Definition eth_addr_from_uint64 (x : Z) : list Z :=
  [u8 (x >> 40); u8 (x >> 32); u8 (x >> 24); u8 (x >> 16); u8 (x >> 8); u8 x].

(** Offsets of the fields the datapath accesses. *)
Definition o_eth_dst : nat := 0.
Definition o_eth_src : nat := 6.
Definition o_eth_type : nat := 12.
Definition o_veth_tci : nat := 14.
Definition o_veth_next_type : nat := 16.
Definition o_ip_ihl_ver : nat := 0.
Definition o_ip_tos : nat := 1.
Definition o_ip_frag_off : nat := 6.
Definition o_ip_proto : nat := 9.
Definition o_ip_csum : nat := 10.
Definition o_ip_src : nat := 12.
Definition o_ip_dst : nat := 16.
Definition o_tcp_src : nat := 0.
Definition o_tcp_dst : nat := 2.
Definition o_tcp_ctl : nat := 12.
Definition o_tcp_csum : nat := 16.
Definition o_udp_src : nat := 0.
Definition o_udp_dst : nat := 2.
Definition o_udp_csum : nat := 6.
Definition o_ar_pro : nat := 2.
Definition o_ar_pln : nat := 5.
Definition o_ar_op : nat := 6.
Definition o_ar_spa : nat := 14.
Definition o_ar_tpa : nat := 24.

End Ofp.
