(* ===== verification/Tag.v ===== *)
(** * lib/hash.c and lib/tag.c: hashes and tags

    The hash function that the tables of the library use, and tags: integers with
    two bits set that stand for the reasons of a forwarding decision.  Tags are
    combined with bitwise or; the theorems say that a set of tags may report tags
    that were never put in, but never loses one. *)

From S2P Require Import Prelude.

Module Tag.

(** ** lib/hash.c *)

Definition rot (x k : Z) : Z := u32 (x << k) .| (x >> (32 - k)).

Definition mix (a b c : Z) : Z * Z * Z :=
  let a := u32 (a - c) .^ rot c 4 in let c := u32 (c + b) in
  let b := u32 (b - a) .^ rot a 6 in let a := u32 (a + c) in
  let c := u32 (c - b) .^ rot b 8 in let b := u32 (b + a) in
  let a := u32 (a - c) .^ rot c 16 in let c := u32 (c + b) in
  let b := u32 (b - a) .^ rot a 19 in let a := u32 (a + c) in
  let c := u32 (c - b) .^ rot b 4 in let b := u32 (b + a) in
  (a, b, c).

(** The third word of the result, the only one that is used. *)
Definition final (a b c : Z) : Z :=
  let c := u32 ((c .^ b) - rot b 14) in
  let a := u32 ((a .^ c) - rot c 11) in
  let b := u32 ((b .^ a) - rot a 25) in
  let c := u32 ((c .^ b) - rot b 16) in
  let a := u32 ((a .^ c) - rot c 4) in
  let b := u32 ((b .^ a) - rot a 14) in
  u32 ((c .^ b) - rot b 24).

(** The loop of [hash_words] and the words that are left. *)
Fixpoint hash_words_loop (fuel : nat) (p : list Z) (a b c : Z) : comp Z :=
  match p with
  | [] => Ok c
  | [p0] => Ok (final (u32 (a + p0)) b c)
  | [p0; p1] => Ok (final (u32 (a + p0)) (u32 (b + p1)) c)
  | [p0; p1; p2] => Ok (final (u32 (a + p0)) (u32 (b + p1)) (u32 (c + p2)))
  | p0 :: p1 :: p2 :: p =>
      match fuel with
      | O => NoFuel
      | S fuel =>
          let '(a, b, c) := mix (u32 (a + p0)) (u32 (b + p1)) (u32 (c + p2)) in
          hash_words_loop fuel p a b c
      end
  end.

Definition hash_words (p : list Z) (basis : Z) : comp Z :=
  let a := u32 (0xdeadbeef + u32 (Z.of_nat (length p) << 2) + basis) in
  hash_words_loop (length p) p a a a.

(** The loop of [hash_bytes], in blocks of twelve bytes. *)
Fixpoint hash_bytes_loop (fuel : nat) (p : list Z) (a b c : Z) : comp Z :=
  let n := length p in
  if (12 <=? n)%nat then
    match fuel with
    | O => NoFuel
    | S fuel =>
        let '(a, b, c) := mix (u32 (a + int_at p 0 4)) (u32 (b + int_at p 4 4))
                              (u32 (c + int_at p 8 4)) in
        hash_bytes_loop fuel (drop 12 p) a b c
    end
  else if (n =? 0)%nat then Ok c
  else
    let tmp := p ++ replicate (12 - n) 0 in
    Ok (final (u32 (a + int_at tmp 0 4)) (u32 (b + int_at tmp 4 4)) (u32 (c + int_at tmp 8 4))).

Definition hash_bytes (p : list Z) (basis : Z) : comp Z :=
  let a := u32 (0xdeadbeef + Z.of_nat (length p) + basis) in
  hash_bytes_loop (length p) p a a a.

(** ** lib/tag.h and lib/tag.c *)

Definition N_TAG_BITS : Z := 32.
Definition LOG2_N_TAG_BITS : Z := 5.

Definition tag_intersects (a b : Z) : bool :=
  let x := a .& b in truth (x .& u32 (x - 1)).

Definition tag_is_valid (tag : Z) : bool :=
  let x := tag .& u32 (tag - 1) in
  let y := x .& u32 (x - 1) in
  truth x && negb (truth y).

(** The result of [random_uint16] decides one iteration; [random] is what the
    next calls return. *)
Fixpoint tag_create_random (random : list Z) : comp (Z * list Z) :=
  match random with
  | [] => NoFuel
  | r :: random =>
      let x := r .& (N_TAG_BITS - 1) in
      let y := r >> (16 - LOG2_N_TAG_BITS) in
      if x =? y then tag_create_random random else Ok ((1 << x) .| (1 << y), random)
  end.

Definition tag_create_deterministic (seed : Z) : Z :=
  let x := seed .& (N_TAG_BITS - 1) in
  let y := (seed >> LOG2_N_TAG_BITS) mod 31 in
  let y := y + (if x <=? y then 1 else 0) in
  (1 << x) .| (1 << y).

Definition TAG_SET_SIZE : Z := 4.

Record tag_set := mk_tag_set { total : Z; tags : list Z; ts_n : Z }.
#[export] Instance tag_set_eta : Eta tag_set := λ s, mk_tag_set (total s) (tags s) (ts_n s).

Definition tag_set_init : tag_set := mk_tag_set 0 (replicate (Z.to_nat TAG_SET_SIZE) 0) 0.

Definition tag_set_is_empty (set : tag_set) : bool := negb (truth (ts_n set)).

Definition tag_set_intersects (set : tag_set) (t : Z) : bool :=
  tag_intersects (total set) t &&
  existsb (λ i, tag_intersects (nth i (tags set) 0) t) [0; 1; 2; 3]%nat.

Definition tag_set_add (set : tag_set) (tag : Z) : tag_set :=
  if truth tag && (negb (tag_is_valid tag) || negb (tag_set_intersects set tag)) then
    let i := Z.to_nat (ts_n set mod TAG_SET_SIZE) in
    let t := nth i (tags set) 0 .| tag in
    let ts := <[i := t]> (tags set) in
    let ts := if t =? UINT32_MAX then <[0%nat := t]> ts else ts in
    mk_tag_set (total set .| tag) ts (u32 (ts_n set + 1))
  else set.

(** ** Bits of tags *)

(** The bits of [x]: a number below [2^32] as a set of positions. *)
Definition bit (x k : Z) : Prop := Z.testbit x k = true.
Definition subset (x y : Z) : Prop := x .& y = x.
Definition word (x : Z) : Prop := 0 <= x < 2 ^ 32.

(** [x & (x - 1)] is [x] without its lowest bit. *)
Lemma clear_lowest_bit x : 0 < x → ∃ k, 0 <= k ∧ bit x k ∧
  ∀ j, 0 <= j → Z.testbit (x .& (x - 1)) j = Z.testbit x j && negb (j =? k).
Proof.
  unfold bit. destruct x as [|p|p]; [lia| |lia]. intros _. induction p as [p _|p IH|].
  - exists 0. split_and!; [lia|done|]. intros j Hj. rewrite Z.land_spec.
    replace (Z.pos p~1 - 1) with (2 * Z.pos p) by lia.
    replace (Z.pos p~1) with (2 * Z.pos p + 1) by lia.
    destruct (Z.eqb_spec j 0) as [->|Hn]; [by rewrite Z.testbit_even_0, andb_false_r|].
    replace j with (Z.succ (j - 1)) by lia.
    rewrite Z.testbit_even_succ, Z.testbit_odd_succ by lia. by rewrite andb_diag, andb_true_r.
  - destruct IH as (k & Hk & Hb & IH). exists (Z.succ k).
    replace (Z.pos p~0 - 1) with (2 * (Z.pos p - 1) + 1) by lia.
    replace (Z.pos p~0) with (2 * Z.pos p) by lia.
    split_and!; [lia|by rewrite Z.testbit_even_succ|]. intros j Hj. rewrite Z.land_spec.
    destruct (decide (j = 0)) as [->|Hn]; [by rewrite Z.testbit_even_0|].
    replace j with (Z.succ (j - 1)) by lia.
    rewrite Z.testbit_even_succ, Z.testbit_odd_succ by lia.
    rewrite <-Z.land_spec, IH by lia. f_equal. f_equal.
    destruct (Z.eqb_spec (j - 1) k), (Z.eqb_spec (Z.succ (j - 1)) (Z.succ k)); lia || done.
  - exists 0. split_and!; [lia|done|]. intros j Hj. rewrite Z.land_0_r, Z.bits_0.
    destruct (Z.eqb_spec j 0); [by rewrite andb_false_r|].
    change 1 with (2 ^ 0). rewrite Z.pow2_bits_false by lia. done.
Qed.

Lemma nonzero_bit x : 0 <= x → truth x = true ↔ ∃ k, 0 <= k ∧ bit x k.
Proof.
  intros Hx. unfold truth, bit. destruct (Z.eqb_spec x 0) as [->|Hn]; simpl; split; try done.
  - intros (k & _ & Hk). by rewrite Z.bits_0 in Hk.
  - intros _. exists (Z.log2 x). split; [apply Z.log2_nonneg|]. apply Z.bit_log2. lia.
Qed.

Lemma land_word x y : word x → word (x .& y).
Proof.
  unfold word. intros Hx. split; [apply Z.land_nonneg; lia|].
  destruct (decide (x .& y = 0)) as [->|]; [lia|].
  assert (0 <= x .& y) by (apply Z.land_nonneg; lia).
  destruct (decide (x = 0)) as [->|]; [by rewrite Z.land_0_l in *|].
  apply Z.log2_lt_pow2; [lia|]. apply Z.le_lt_trans with (Z.log2 x).
  - destruct (Z.le_gt_cases (Z.log2 (x .& y)) (Z.log2 x)); [done|].
    assert (bit (x .& y) (Z.log2 (x .& y))) as Hb by (apply Z.bit_log2; lia).
    unfold bit in Hb. rewrite Z.land_spec, andb_true_iff in Hb. destruct Hb as [Hb _].
    by rewrite Z.bits_above_log2 in Hb by lia.
  - apply Z.log2_lt_pow2; lia.
Qed.

Lemma lor_word x y : word x → word y → word (x .| y).
Proof.
  unfold word. intros Hx Hy. split; [apply Z.lor_nonneg; lia|].
  destruct (decide (x .| y = 0)) as [->|]; [lia|].
  assert (0 <= x .| y) by (apply Z.lor_nonneg; lia).
  apply Z.log2_lt_pow2; [lia|]. rewrite Z.log2_lor by lia.
  apply Z.max_lub_lt; [destruct (decide (x = 0)) as [->|]|destruct (decide (y = 0)) as [->|]];
    try (simpl; lia); apply Z.log2_lt_pow2; lia.
Qed.

(** The test for a second bit. *)
Lemma second_bit x : word x →
  truth (x .& u32 (x - 1)) = true ↔ ∃ i j, 0 <= i ∧ 0 <= j ∧ i ≠ j ∧ bit x i ∧ bit x j.
Proof.
  intros Hx. unfold word in Hx. destruct (decide (x = 0)) as [->|Hn].
  { split; [done|]. intros (i & j & _ & _ & _ & Hi & _). unfold bit in Hi. by rewrite Z.bits_0 in Hi. }
  unfold u32. rewrite Z.mod_small by lia.
  destruct (clear_lowest_bit x) as (k & Hk & Hb & Hc); [lia|].
  rewrite nonzero_bit by (apply Z.land_nonneg; lia). unfold bit. split.
  - intros (j & Hj & E). rewrite Hc, andb_true_iff, negb_true_iff, Z.eqb_neq in E by done.
    exists j, k. naive_solver.
  - intros (i & j & Hi & Hj & Hij & Ei & Ej).
    destruct (decide (i = k)) as [->|]; [exists j|exists i]; (split; [done|]);
      rewrite Hc, andb_true_iff, negb_true_iff, Z.eqb_neq by done; split; congruence.
Qed.

(** A valid tag has exactly two bits. *)
Lemma valid_bits v : word v → tag_is_valid v = true →
  ∃ i j, 0 <= i ∧ 0 <= j ∧ i ≠ j ∧ ∀ k, 0 <= k → bit v k ↔ k = i ∨ k = j.
Proof.
  intros Hv. unfold word in Hv. unfold tag_is_valid.
  destruct (decide (v = 0)) as [->|Hn]; [done|]. rewrite andb_true_iff, negb_true_iff.
  set (x := v .& u32 (v - 1)). intros [Hx Hy].
  assert (word x) as Hw by (by apply land_word).
  assert (x = v .& (v - 1)) as Ex by (subst x; unfold u32; by rewrite Z.mod_small by lia).
  destruct (clear_lowest_bit v) as (i & Hi & Hbi & Hc); [lia|]. rewrite <-Ex in Hc.
  apply nonzero_bit in Hx as (j & Hj & Hbj); [|apply Hw]. unfold bit in *.
  rewrite Hc, andb_true_iff, negb_true_iff, Z.eqb_neq in Hbj by done. destruct Hbj as [Hbj Hij].
  exists i, j. split_and!; [done..|congruence|]. intros k Hk. split; [|naive_solver].
  intros Hbk. destruct (decide (k = i)) as [|Hki]; [by left|]. right.
  destruct (decide (k = j)) as [|Hkj]; [done|]. exfalso. apply not_true_iff_false in Hy. apply Hy.
  apply second_bit; [done|]. exists j, k. unfold bit.
  rewrite !Hc, !andb_true_iff, !negb_true_iff, !Z.eqb_neq by done. naive_solver.
Qed.

Lemma subset_bits x y : 0 <= x → subset x y ↔ ∀ k, 0 <= k → bit x k → bit y k.
Proof.
  intros Hx. unfold subset, bit. split.
  - intros E k Hk. rewrite <-E, Z.land_spec, andb_true_iff. naive_solver.
  - intros H. apply Z.bits_inj'. intros k Hk. rewrite Z.land_spec.
    specialize (H k Hk). destruct (Z.testbit x k); [by rewrite H|done].
Qed.

(** A valid tag has something in common with a combination exactly if the
    combination includes it. *)
Lemma tag_intersects_valid a v :
  word a → word v → tag_is_valid v = true → tag_intersects a v = true ↔ subset v a.
Proof.
  intros Ha Hv Hval. destruct (valid_bits v Hv Hval) as (i & j & Hi & Hj & Hij & Hb).
  unfold tag_intersects. rewrite second_bit by (by apply land_word).
  rewrite subset_bits by apply Hv. unfold bit in *. setoid_rewrite Z.land_spec.
  setoid_rewrite andb_true_iff. split.
  - intros (i' & j' & ? & ? & ? & [? ?] & [? ?]) k Hk. rewrite Hb by done.
    assert (i' = i ∨ i' = j) by (by apply Hb). assert (j' = i ∨ j' = j) by (by apply Hb).
    naive_solver.
  - intros Hs. exists i, j. split_and!; try done; try apply Hs; try done; apply Hb; auto.
Qed.

Lemma subset_trans x y z : 0 <= x → 0 <= y → subset x y → subset y z → subset x z.
Proof. intros Hx Hy. rewrite !subset_bits by done. eauto. Qed.

Lemma subset_lor_l x y : 0 <= x → subset x (x .| y).
Proof. intros Hx. apply subset_bits; [done|]. intros k _. unfold bit. rewrite Z.lor_spec. by intros ->. Qed.

Lemma subset_lor_r x y : 0 <= y → subset y (x .| y).
Proof. rewrite Z.lor_comm. apply subset_lor_l. Qed.

Lemma subset_max x : word x → subset x UINT32_MAX.
Proof.
  unfold word, subset. intros Hx. change UINT32_MAX with (Z.ones 32).
  rewrite Z.land_ones by lia. apply Z.mod_small. lia.
Qed.

(** ** Tag sets *)

Record tag_set_ok (s : tag_set) : Prop := {
  so_total : word (total s);
  so_length : length (tags s) = 4%nat;
  so_word : Forall word (tags s);
  so_subset : Forall (λ t, subset t (total s)) (tags s);
}.

(** Some element of the set includes [v]. *)
Definition covers (s : tag_set) (v : Z) : Prop := Exists (subset v) (tags s).

Lemma slot_ok s i : tag_set_ok s →
  (i < 4)%nat → ∃ t, tags s !! i = Some t ∧ nth i (tags s) 0 = t ∧ word t ∧ subset t (total s).
Proof.
  intros [_ Hl Hw Hs] Hi. destruct (lookup_lt_is_Some_2 (tags s) i) as [t Et]; [lia|].
  exists t. split_and!; [done|by apply nth_lookup_Some|by eapply Forall_lookup_1|by eapply Forall_lookup_1 in Hs].
Qed.

Lemma tag_set_intersects_valid s v :
  tag_set_ok s → word v → tag_is_valid v = true →
  tag_set_intersects s v = true ↔ covers s v.
Proof.
  intros Hok Hv Hval. unfold tag_set_intersects, covers.
  rewrite andb_true_iff, existsb_exists, Exists_exists. split.
  - intros (_ & i & Hi & Ht). assert (i < 4)%nat as Hlt by (simpl in Hi; lia).
    destruct (slot_ok s i Hok Hlt) as (t & Et & En & Hw & _). exists t.
    split; [by eapply list_elem_of_lookup_2|]. rewrite En in Ht. by apply tag_intersects_valid.
  - intros (t & [i Ei]%list_elem_of_lookup & Hs).
    assert (i < 4)%nat as Hlt by (rewrite <-(so_length _ Hok); by eapply lookup_lt_Some).
    destruct (slot_ok s i Hok Hlt) as (t' & Et & En & Hw & Hst). simplify_eq.
    split; [|exists i; split; [simpl; lia|]]; apply tag_intersects_valid; try done.
    + apply Hok.
    + eapply subset_trans; [apply Hv|apply Hw|done..].
Qed.

Lemma tag_set_init_ok : tag_set_ok tag_set_init.
Proof. split; simpl; unfold word; repeat constructor; lia. Qed.

(** Adding keeps the set well formed, keeps what it includes, and includes the new
    tag; a tag that is skipped is included already. *)
Lemma tag_set_add_ok s t : tag_set_ok s → word t → tag_set_ok (tag_set_add s t).
Proof.
  intros Hok Ht. unfold tag_set_add. destruct (_ && _); [|done].
  set (i := Z.to_nat (ts_n s mod TAG_SET_SIZE)).
  assert (i < 4)%nat as Hi by (subst i; unfold TAG_SET_SIZE; zlia).
  destruct (slot_ok s i Hok Hi) as (x & Ex & -> & Hw & Hs). destruct Hok as [Hok1 Hok2 Hok3 Hok4].
  assert (word (x .| t)) as Hxt by (by apply lor_word).
  assert (word (total s .| t)) as Htt by (by apply lor_word).
  assert (subset (x .| t) (total s .| t)) as Hsub.
  { rewrite subset_bits in Hs |- * by (apply Hw || apply Hxt). intros k Hk. specialize (Hs k Hk).
    unfold bit in *. rewrite !Z.lor_spec, !orb_true_iff. naive_solver. }
  assert (Forall (λ y, subset y (total s .| t)) (tags s)) as Hall.
  { rewrite Forall_forall in Hok3, Hok4 |- *. intros y Hy.
    eapply subset_trans; [by apply Hok3|apply Hok1|by apply Hok4|]. apply subset_lor_l, Hok1. }
  split; simpl; [done|..].
  - destruct (_ =? _); by rewrite ?length_insert.
  - destruct (_ =? _); repeat (apply Forall_insert; try done).
  - destruct (_ =? _); repeat (apply Forall_insert; try done).
Qed.

Lemma covers_add s t v : tag_set_ok s → word t → word v → covers s v → covers (tag_set_add s t) v.
Proof.
  intros Hok Ht Hv. unfold covers, tag_set_add. destruct (_ && _); [|done]. simpl.
  set (i := Z.to_nat (ts_n s mod TAG_SET_SIZE)).
  assert (i < 4)%nat as Hi by (subst i; unfold TAG_SET_SIZE; zlia).
  destruct (slot_ok s i Hok Hi) as (x & Ex & -> & Hw & _).
  assert (Exists (subset v) (tags s) → Exists (subset v) (<[i := x .| t]> (tags s))) as H.
  { rewrite !Exists_exists. intros (y & [j Ej]%list_elem_of_lookup & Hs).
    destruct (decide (i = j)) as [<-|Hn].
    - exists (x .| t). split; [by apply list_elem_of_insert; eapply lookup_lt_Some|]. simplify_eq.
      eapply subset_trans; [apply Hv|apply Hw|done|]. apply subset_lor_l, Hw.
    - exists y. split; [|done]. apply list_elem_of_lookup. exists j. by rewrite list_lookup_insert_ne. }
  intros Hc%H. destruct (Z.eqb_spec (x .| t) UINT32_MAX) as [E|]; [|done].
  apply Exists_exists. exists (x .| t). split.
  - apply list_elem_of_insert. rewrite length_insert, (so_length _ Hok). lia.
  - rewrite E. by apply subset_max.
Qed.

Lemma covers_new s t v :
  tag_set_ok s → word t → word v → tag_is_valid v = true → subset v t → covers (tag_set_add s t) v.
Proof.
  intros Hok Ht Hv Hval Hvt. unfold tag_set_add. destruct (_ && _) eqn:E.
  - unfold covers. simpl. set (i := Z.to_nat (ts_n s mod TAG_SET_SIZE)).
    assert (i < 4)%nat as Hi by (subst i; unfold TAG_SET_SIZE; zlia).
    destruct (slot_ok s i Hok Hi) as (x & Ex & -> & Hw & _).
    assert (subset v (x .| t)) as Hs.
    { eapply subset_trans; [apply Hv|apply Ht|done|]. apply subset_lor_r, Ht. }
    apply Exists_exists. exists (x .| t). split; [|done].
    destruct (_ =? _); apply list_elem_of_insert; rewrite ?length_insert, (so_length _ Hok); lia.
  - apply andb_false_iff in E as [E|E].
    { exfalso. apply negb_false_iff, Z.eqb_eq in E. subst t. unfold subset in Hvt.
      rewrite Z.land_0_r in Hvt. subst v. done. }
    apply orb_false_iff in E as [E1 E2]. apply negb_false_iff in E1, E2.
    apply tag_set_intersects_valid in E2; [|done..].
    unfold covers in *. rewrite Exists_exists in *. destruct E2 as (x & Hx & Hs).
    exists x. split; [done|]. eapply subset_trans; [apply Hv|apply Ht|done..].
Qed.

Lemma tag_set_adds l s v : tag_set_ok s → Forall word l → word v → tag_is_valid v = true →
  tag_set_ok (foldl tag_set_add s l) ∧
  (covers s v ∨ Exists (subset v) l → covers (foldl tag_set_add s l) v).
Proof.
  intros Hok Hl Hv Hval. revert s Hok. induction Hl as [|t l Ht _ IH]; intros s Hok; simpl.
  - split; [done|]. intros [?|?%Exists_nil]; done.
  - destruct (IH (tag_set_add s t)) as [H1 H2]; [by apply tag_set_add_ok|]. split; [done|].
    intros [Hc|[Hc|Hc]%Exists_cons]; apply H2; [left; by apply covers_add|left; by apply covers_new|by right].
Qed.

(** A tag set never forgets.  After any sequence of additions to an empty set,
    every tag that was added, alone or combined with others into one addition, is
    found by [tag_set_intersects], whatever the collisions in the four slots. *)
Theorem tag_set_complete l t v :
  Forall word l → t ∈ l → word v → tag_is_valid v = true → subset v t →
  tag_set_intersects (foldl tag_set_add tag_set_init l) v = true.
Proof.
  intros Hl Ht Hv Hval Hs.
  destruct (tag_set_adds l tag_set_init v tag_set_init_ok Hl Hv Hval) as [Hok Hc].
  apply tag_set_intersects_valid; [done..|]. apply Hc. right. apply Exists_exists. eauto.
Qed.

Lemma tag_set_complete_witness :
  tag_set_intersects (foldl tag_set_add tag_set_init [3; 5; 6; 9; 10; 12; 17; 20]) 17 = true.
Proof.
  apply (tag_set_complete [3; 5; 6; 9; 10; 12; 17; 20] 17 17).
  - unfold word. repeat constructor; lia.
  - apply list_elem_of_In. simpl. tauto.
  - unfold word. lia.
  - reflexivity.
  - reflexivity.
Defined.

(** ** New tags *)

Lemma two_bits_valid x y : 0 <= x < 32 → 0 <= y < 32 → x ≠ y →
  word ((1 << x) .| (1 << y)) ∧ tag_is_valid ((1 << x) .| (1 << y)) = true.
Proof.
  intros Hx Hy Hn.
  assert (forallb (λ i, forallb (λ j, (i =? j)%nat ||
            let t := (1 << Z.of_nat i) .| (1 << Z.of_nat j) in
            (0 <=? t) && (t <? 2 ^ 32) && tag_is_valid t) (seq 0 32)) (seq 0 32) = true) as H
    by (vm_compute; reflexivity).
  rewrite forallb_forall in H. specialize (H (Z.to_nat x)). rewrite forallb_forall in H.
  specialize (H ltac:(apply in_seq; lia) (Z.to_nat y) ltac:(apply in_seq; lia)).
  rewrite !Z2Nat.id in H by lia. unfold word.
  destruct (Nat.eqb_spec (Z.to_nat x) (Z.to_nat y)); [lia|]. simpl in H.
  rewrite !andb_true_iff, Z.leb_le, Z.ltb_lt in H. tauto.
Qed.

Lemma tag_create_deterministic_valid seed : word seed →
  word (tag_create_deterministic seed) ∧ tag_is_valid (tag_create_deterministic seed) = true.
Proof.
  intros Hs. unfold tag_create_deterministic, N_TAG_BITS, LOG2_N_TAG_BITS.
  change (32 - 1) with (Z.ones 5). rewrite Z.land_ones by lia.
  assert (0 <= (seed >> 5) mod 31 < 31) by (apply Z.mod_pos_bound; lia).
  assert (0 <= seed mod 2 ^ 5 < 32) by (apply Z.mod_pos_bound; lia).
  destruct (Z.leb_spec (seed mod 2 ^ 5) ((seed >> 5) mod 31)); apply two_bits_valid; lia.
Qed.

(** A random number that ends the loop of [tag_create_random]. *)
Definition makes_tag (r : Z) : Prop := r .& 31 ≠ r >> 11.

Lemma tag_create_random_valid random :
  Forall (λ r, 0 <= r < 2 ^ 16) random → Exists makes_tag random →
  wp (tag_create_random random) (λ '(t, random'),
    word t ∧ tag_is_valid t = true ∧ suffix random' random).
Proof.
  induction 1 as [|r random Hr _ IH]; [by intros ?%Exists_nil|]. intros He. simpl.
  unfold N_TAG_BITS, LOG2_N_TAG_BITS. change (32 - 1) with (Z.ones 5).
  change (16 - 5) with 11. destruct (Z.eqb_spec (r .& Z.ones 5) (r >> 11)) as [E|E].
  - eapply wp_mono; [apply IH|].
    + apply Exists_cons in He as [He|He]; [by destruct He|done].
    + intros [t random'] (? & ? & ?). split_and!; [done..|by apply suffix_cons_r].
  - destruct (two_bits_valid (r .& Z.ones 5) (r >> 11)) as [? ?].
    + rewrite Z.land_ones by lia. apply Z.mod_pos_bound. lia.
    + rewrite Z.shiftr_div_pow2 by lia. zlia.
    + done.
    + simpl. split_and!; [done..|by apply suffix_cons_r].
Qed.

End Tag.
