(* ===== verification/MacLearning.v ===== *)
(** * lib/mac-learning.c: where the stations are

    A table of 1024 entries records on which port each address was last seen.  A
    pointer to an entry is its index in [entries]; the doubly linked lists that run
    through the entries are lists of indexes.  Removing an entry from a list it is
    not on aborts.  The random numbers that [tag_create_random] draws are part of
    the state; times are seconds, passed as [now]. *)

From S2P Require Import Prelude Ofp Tag.
Import Ofp Tag.

Module MacLearning.

(** lib/packets.h *)
Definition eth_addr_is_multicast (ea : list Z) : bool := truth (nth 0 ea 0 .& 1).

Definition eth_addr_is_reserved (ea : list Z) : bool :=
  (nth 0 ea 0 =? 0x01) && (nth 1 ea 0 =? 0x80) && (nth 2 ea 0 =? 0xc2) && (nth 3 ea 0 =? 0x00)
  && (nth 4 ea 0 =? 0x00) && ((nth 5 ea 0 .& 0xf0) =? 0x00).

Definition MAC_HASH_BITS : Z := 10.
Definition MAC_HASH_SIZE : Z := 1 << MAC_HASH_BITS.
Definition MAC_MAX : nat := 1024.

Record mac_entry := mk_mac_entry {
  e_expires : Z;
  e_mac : list Z;
  e_vlan : Z;
  e_port : Z;
  e_tag : Z;
}.
#[export] Instance mac_entry_eta : Eta mac_entry := λ e,
  mk_mac_entry (e_expires e) (e_mac e) (e_vlan e) (e_port e) (e_tag e).

Record mac_learning := mk_mac_learning {
  ml_free : list nat;
  ml_lrus : list nat;
  ml_table : list (list nat);
  ml_entries : list mac_entry;
  ml_secret : Z;
  ml_random : list Z;
}.
#[export] Instance mac_learning_eta : Eta mac_learning := λ m,
  mk_mac_learning (ml_free m) (ml_lrus m) (ml_table m) (ml_entries m) (ml_secret m) (ml_random m).

Definition mac_table_hash (mac : list Z) (vlan : Z) : comp Z := hash_bytes mac vlan.

Definition make_unknown_mac_tag (ml : mac_learning) (mac : list Z) (vlan : Z) : comp Z :=
  h ← mac_table_hash mac vlan;
  h ← hash_bytes (le_bytes 4 (ml_secret ml)) h;
  Ok (tag_create_deterministic h).

(** The index of the bucket. *)
Definition mac_table_bucket (mac : list Z) (vlan : Z) : comp nat :=
  hash ← mac_table_hash mac vlan;
  Ok (Z.to_nat (hash .& MAC_HASH_BITS)).

Definition has_key (e : mac_entry) (mac : list Z) (vlan : Z) : bool :=
  eth_addr_equals (e_mac e) mac && (e_vlan e =? vlan).

Fixpoint search_bucket (es : list mac_entry) (bucket : list nat) (mac : list Z) (vlan : Z)
    : comp (option nat) :=
  match bucket with
  | [] => Ok None
  | i :: bucket =>
      e ← deref (es !! i);
      if has_key e mac vlan then Ok (Some i) else search_bucket es bucket mac vlan
  end.

Definition get_lru (ml : mac_learning) : option nat := head (ml_lrus ml).

Definition without (i : nat) (l : list nat) : list nat := filter (λ j, j ≠ i) l.
Definition on_list (i : nat) (l : list nat) : bool := bool_decide (i ∈ l).

(** [list_remove] of the two links of an entry. *)
Definition remove_hash_node (i : nat) (ml : mac_learning) : comp mac_learning :=
  assert_c (existsb (on_list i) (ml_table ml));;
  Ok (ml <| ml_table := without i <$> ml_table ml |>).
Definition remove_lru_node (i : nat) (ml : mac_learning) : comp mac_learning :=
  assert_c (on_list i (ml_free ml) || on_list i (ml_lrus ml));;
  Ok (ml <| ml_free := without i (ml_free ml) |> <| ml_lrus := without i (ml_lrus ml) |>).

Definition free_mac_entry (i : nat) (ml : mac_learning) : comp mac_learning :=
  ml ← remove_hash_node i ml;
  ml ← remove_lru_node i ml;
  Ok (ml <| ml_free := i :: ml_free ml |>).

(** [uninit] is what the memory of the entries holds. *)
Definition mac_learning_create (uninit : nat → mac_entry) (secret : Z) (random : list Z) : mac_learning :=
  mk_mac_learning (foldl (λ l i, i :: l) [] (seq 0 MAC_MAX)) []
    (replicate (Z.to_nat MAC_HASH_SIZE) []) (uninit <$> seq 0 MAC_MAX) secret random.

Definition write_entry (i : nat) (f : mac_entry → mac_entry) (ml : mac_learning) : comp mac_learning :=
  e ← deref (ml_entries ml !! i);
  Ok (ml <| ml_entries := <[i := f e]> (ml_entries ml) |>).

(** An entry for a new address: a free one, or the least recently used. *)
Definition take_entry (ml : mac_learning) : comp (nat * mac_learning) :=
  match ml_free ml with
  | i :: _ => Ok (i, ml)
  | [] =>
      i ← deref (head (ml_lrus ml));
      ml ← remove_hash_node i ml;
      Ok (i, ml)
  end.

(** Gives entry [i] a key that is in bucket [bucket]. *)
Definition key_entry (i bucket : nat) (mac : list Z) (vlan : Z) (ml : mac_learning) : comp mac_learning :=
  l ← deref (ml_table ml !! bucket);
  let ml := ml <| ml_table := <[bucket := i :: l]> (ml_table ml) |> in
  tag ← make_unknown_mac_tag ml mac vlan;
  write_entry i (λ e, mk_mac_entry (e_expires e) mac vlan (-1) tag) ml.

Definition new_mac_entry (bucket : nat) (mac : list Z) (vlan : Z) (ml : mac_learning)
    : comp (nat * mac_learning) :=
  '(i, ml) ← take_entry ml;
  ml ← key_entry i bucket mac vlan ml;
  Ok (i, ml).

(** Makes the entry most recently used. *)
Definition use_entry (now : Z) (i : nat) (ml : mac_learning) : comp mac_learning :=
  ml ← remove_lru_node i ml;
  let ml := ml <| ml_lrus := ml_lrus ml ++ [i] |> in
  write_entry i (λ e, e <| e_expires := now + 60 |>) ml.

(** Did we learn something?  The old tag if so, 0 otherwise. *)
Definition learn_port (i : nat) (src_port : Z) (ml : mac_learning) : comp (Z * mac_learning) :=
  e ← deref (ml_entries ml !! i);
  if negb (e_port e =? src_port) then
    '(tag, random) ← tag_create_random (ml_random ml);
    ml ← write_entry i (λ e, e <| e_port := src_port |> <| e_tag := tag |>)
           (ml <| ml_random := random |>);
    Ok (e_tag e, ml)
  else Ok (0, ml).

Definition mac_learning_learn (now : Z) (mac : list Z) (vlan src_port : Z) (ml : mac_learning)
    : comp (Z * mac_learning) :=
  if eth_addr_is_multicast mac then Ok (0, ml)
  else
    bucket ← mac_table_bucket mac vlan;
    l ← deref (ml_table ml !! bucket);
    e ← search_bucket (ml_entries ml) l mac vlan;
    '(i, ml) ← match e with Some i => Ok (i, ml) | None => new_mac_entry bucket mac vlan ml end;
    ml ← use_entry now i ml;
    learn_port i src_port ml.

(** The port, and the tag with what the lookup adds to it. *)
Definition mac_learning_lookup_tag (ml : mac_learning) (dst : list Z) (vlan tag : Z) : comp (Z * Z) :=
  if eth_addr_is_multicast dst then Ok (OFPP_FLOOD, tag)
  else
    bucket ← mac_table_bucket dst vlan;
    l ← deref (ml_table ml !! bucket);
    e ← search_bucket (ml_entries ml) l dst vlan;
    match e with
    | Some i => e ← deref (ml_entries ml !! i); Ok (u16 (e_port e), tag .| e_tag e)
    | None => t ← make_unknown_mac_tag ml dst vlan; Ok (OFPP_FLOOD, tag .| t)
    end.

Definition mac_learning_lookup (ml : mac_learning) (dst : list Z) (vlan : Z) : comp Z :=
  '(port, _) ← mac_learning_lookup_tag ml dst vlan 0; Ok port.

(** The loops free an entry each time: [fuel] is the number of entries in use. *)
Fixpoint flush_loop (fuel : nat) (ml : mac_learning) : comp mac_learning :=
  match get_lru ml with
  | None => Ok ml
  | Some i =>
      match fuel with
      | O => NoFuel
      | S fuel => ml ← free_mac_entry i ml; flush_loop fuel ml
      end
  end.

Definition mac_learning_flush (ml : mac_learning) : comp mac_learning :=
  flush_loop (length (ml_lrus ml)) ml.

Fixpoint expire_loop (fuel : nat) (now : Z) (ml : mac_learning) (set : option tag_set)
    : comp (mac_learning * option tag_set) :=
  match get_lru ml with
  | None => Ok (ml, set)
  | Some i =>
      e ← deref (ml_entries ml !! i);
      if e_expires e <=? now then
        match fuel with
        | O => NoFuel
        | S fuel =>
            let set := (λ s, tag_set_add s (e_tag e)) <$> set in
            ml ← free_mac_entry i ml;
            expire_loop fuel now ml set
        end
      else Ok (ml, set)
  end.

Definition mac_learning_run (now : Z) (ml : mac_learning) (set : option tag_set)
    : comp (mac_learning * option tag_set) :=
  expire_loop (length (ml_lrus ml)) now ml set.

(** For how many milliseconds the client may sleep, if an entry is in use. *)
Definition mac_learning_wait (now : Z) (ml : mac_learning) : comp (option Z) :=
  match get_lru ml with
  | None => Ok None
  | Some i => e ← deref (ml_entries ml !! i); Ok (Some ((e_expires e - now) * 1000))
  end.

End MacLearning.
