(* ===== verification/MacLearningFacts.v ===== *)
(** * The MAC learning table is a bounded map in order of use

    The links of the table (hash buckets, list of free entries, list in order of
    use) stay consistent under every operation, and together they implement a list
    of stations, least recently seen first, with at most 1024 elements. *)

From S2P Require Import Prelude Ofp Tag MacLearning.
Import Ofp Tag MacLearning.

Module MacLearningFacts.

(** ** Hashes *)

Lemma u32_word x : word (u32 x).
Proof. apply u32_range. Qed.

Lemma rot_word x k : word x → 0 <= k <= 32 → word (rot x k).
Proof.
  intros Hx Hk. apply lor_word; [apply u32_word|]. unfold word in *. rewrite Z.shiftr_div_pow2 by lia.
  split; [apply Z.div_pos; lia|]. apply Z.le_lt_trans with x; [|lia].
  apply Z.div_le_upper_bound; [lia|]. nia.
Qed.

Lemma lxor_word x y : word x → word y → word (x .^ y).
Proof. unfold word. intros. by apply lxor_range. Qed.

Create HintDb word.
#[export] Hint Resolve u32_word lxor_word : word.
#[export] Hint Extern 1 (word (rot _ _)) => apply rot_word; [|lia] : word.

Lemma mix_word a b c : word a → word b → word c →
  let '(a', b', c') := mix a b c in word a' ∧ word b' ∧ word c'.
Proof. intros Ha Hb Hc. unfold mix. cbv zeta. split_and!; auto 20 with word. Qed.

Lemma hash_bytes_ok p basis : wp (hash_bytes p basis) word.
Proof.
  unfold hash_bytes. set (a := u32 _). assert (word a) as Ha by apply u32_word. clearbody a.
  assert (∀ fuel p a b c, (length p ≤ fuel)%nat → word a → word b → word c →
            wp (hash_bytes_loop fuel p a b c) word) as H; [|by apply H].
  clear. induction fuel as [|fuel IH]; intros p a b c Hl Ha Hb Hc;
    cbn [hash_bytes_loop].
  - destruct p; [done|simpl in Hl; lia].
  - destruct (Nat.leb_spec 12 (length p)).
    + pose proof (mix_word (u32 (a + int_at p 0 4)) (u32 (b + int_at p 4 4)) (u32 (c + int_at p 8 4))
        (u32_word _) (u32_word _) (u32_word _)) as Hm.
      destruct (mix _ _ _) as [[a' b'] c']. destruct Hm as (? & ? & ?).
      apply IH; [rewrite length_drop; lia|done..].
    + destruct (_ =? _)%nat; [done|]. apply u32_word.
Qed.

(** The only indexes that [hash & MAC_HASH_BITS] can take. *)
Lemma bucket_index h : h .& MAC_HASH_BITS ∈ [0; 2; 8; 10].
Proof.
  unfold MAC_HASH_BITS. change 10 with (Z.ones 4 .& 10). rewrite Z.land_assoc, Z.land_ones by lia.
  assert (0 <= h mod 2 ^ 4 < 16) as Hr by (apply Z.mod_pos_bound; lia).
  set (x := h mod 2 ^ 4) in *. clearbody x.
  assert (x ∈ seqZ 0 16) as Hx by (apply elem_of_seqZ; lia). revert x Hx Hr.
  assert (Forall (λ x, x .& 10 ∈ [0; 2; 8; 10]) (seqZ 0 16)) as H
    by (apply (bool_decide_unpack _); vm_compute; exact I).
  intros x Hx _. rewrite Forall_forall in H. by apply H.
Qed.

Lemma mac_table_bucket_ok mac vlan :
  ∃ b, mac_table_bucket mac vlan = Ok b ∧ b ∈ [0; 2; 8; 10]%nat.
Proof.
  unfold mac_table_bucket, mac_table_hash.
  destruct (wp_inv _ _ (hash_bytes_ok mac vlan)) as (h & -> & _). eexists. split; [reflexivity|].
  pose proof (bucket_index h) as Hb. apply list_elem_of_In in Hb. apply list_elem_of_In.
  simpl in Hb |- *. destruct Hb as [<-|[<-|[<-|[<-|[]]]]]; auto.
Qed.

Lemma bucket_lt b : b ∈ [0; 2; 8; 10]%nat → (b < Z.to_nat MAC_HASH_SIZE)%nat.
Proof. change (Z.to_nat MAC_HASH_SIZE) with 1024%nat. rewrite list_elem_of_In. simpl. lia. Qed.

Lemma make_unknown_mac_tag_ok ml mac vlan :
  wp (make_unknown_mac_tag ml mac vlan) (λ t, word t ∧ tag_is_valid t = true).
Proof.
  unfold make_unknown_mac_tag, mac_table_hash.
  apply wp_bind. eapply wp_mono; [apply hash_bytes_ok|]. intros h Hh.
  apply wp_bind. eapply wp_mono; [apply hash_bytes_ok|]. intros h' Hh'.
  by apply tag_create_deterministic_valid.
Qed.

(** ** The invariant *)

(** An entry in use. *)
Record entry_ok (e : mac_entry) : Prop := {
  eo_port : 0 <= e_port e < 65536;
  eo_tag : word (e_tag e);
  eo_valid : tag_is_valid (e_tag e) = true;
}.

Record ml_ok (ml : mac_learning) : Prop := {
  mo_entries : length (ml_entries ml) = MAC_MAX;
  mo_table : length (ml_table ml) = Z.to_nat MAC_HASH_SIZE;
  mo_perm : ml_free ml ++ ml_lrus ml ≡ₚ seq 0 MAC_MAX;
  mo_hashed b l i : ml_table ml !! b = Some l → i ∈ l →
    i ∈ ml_lrus ml ∧ ∃ e, ml_entries ml !! i = Some e ∧ mac_table_bucket (e_mac e) (e_vlan e) = Ok b;
  mo_found i e : i ∈ ml_lrus ml → ml_entries ml !! i = Some e →
    ∃ b l, mac_table_bucket (e_mac e) (e_vlan e) = Ok b ∧ ml_table ml !! b = Some l ∧ i ∈ l;
  mo_keys i j ei ej : i ∈ ml_lrus ml → j ∈ ml_lrus ml →
    ml_entries ml !! i = Some ei → ml_entries ml !! j = Some ej →
    e_mac ei = e_mac ej → e_vlan ei = e_vlan ej → i = j;
  mo_used i e : i ∈ ml_lrus ml → ml_entries ml !! i = Some e → entry_ok e;
  mo_random : Forall (λ r, 0 <= r < 2 ^ 16) (ml_random ml);
}.

Lemma has_key_true e mac vlan : has_key e mac vlan = true ↔ e_mac e = mac ∧ e_vlan e = vlan.
Proof. unfold has_key, eth_addr_equals. rewrite andb_true_iff, bool_decide_eq_true, Z.eqb_eq. done. Qed.

Lemma index_lt ml i : ml_ok ml → i ∈ ml_free ml ∨ i ∈ ml_lrus ml → (i < MAC_MAX)%nat.
Proof.
  intros Hok Hi. assert (i ∈ seq 0 MAC_MAX) as H.
  { rewrite <-(mo_perm _ Hok), elem_of_app. tauto. }
  apply elem_of_seq in H. lia.
Qed.

Lemma entry_of ml i : ml_ok ml → i ∈ ml_free ml ∨ i ∈ ml_lrus ml → ∃ e, ml_entries ml !! i = Some e.
Proof.
  intros Hok Hi. apply lookup_lt_is_Some_2. rewrite (mo_entries _ Hok). by eapply index_lt.
Qed.

Lemma ml_nodup ml : ml_ok ml → NoDup (ml_free ml ++ ml_lrus ml).
Proof. intros Hok. rewrite (mo_perm _ Hok). apply NoDup_seq. Qed.

Lemma mac_learning_create_ok uninit secret random :
  Forall (λ r, 0 <= r < 2 ^ 16) random → ml_ok (mac_learning_create uninit secret random).
Proof.
  intros Hr. unfold mac_learning_create.
  split; cbn [ml_free ml_lrus ml_table ml_entries ml_random].
  - by rewrite length_fmap, length_seq.
  - apply length_replicate.
  - rewrite app_nil_r. generalize (seq 0 MAC_MAX). intros l.
    assert (∀ l' : list nat, foldl (λ l i, i :: l) l' l ≡ₚ l ++ l') as H; [|by rewrite H, app_nil_r].
    induction l as [|i l IH]; intros l'; simpl; [done|]. rewrite IH. by rewrite Permutation_middle.
  - intros b l i Hb Hi. apply lookup_replicate in Hb as [-> _]. by apply elem_of_nil in Hi.
  - by intros i e Hi%elem_of_nil.
  - by intros i j ei ej Hi%elem_of_nil.
  - by intros i e Hi%elem_of_nil.
  - done.
Qed.

(** ** Searching *)

Lemma search_bucket_spec es l mac vlan :
  (∀ i, i ∈ l → is_Some (es !! i)) →
  wp (search_bucket es l mac vlan) (λ r,
    match r with
    | Some i => i ∈ l ∧ ∃ e, es !! i = Some e ∧ has_key e mac vlan = true
    | None => ∀ i e, i ∈ l → es !! i = Some e → has_key e mac vlan = false
    end).
Proof.
  induction l as [|i l IH]; intros Hl; simpl.
  - by intros i e Hi%elem_of_nil.
  - destruct (Hl i) as [e Ee]; [by left|]. rewrite Ee. simpl.
    destruct (has_key e mac vlan) eqn:Ek; simpl; [split; [by left|eauto]|].
    eapply wp_mono; [apply IH; intros j Hj; apply Hl; by right|]. intros [j|].
    + intros [Hj He]. split; [by right|done].
    + intros Hn j e' [->|Hj]%elem_of_cons Ej; [congruence|by eapply Hn].
Qed.

(** The bucket of a key holds the entry in use with that key, if there is one. *)
Lemma search_spec ml mac vlan : ml_ok ml → ∃ b l,
  mac_table_bucket mac vlan = Ok b ∧ (b < Z.to_nat MAC_HASH_SIZE)%nat ∧ ml_table ml !! b = Some l ∧
  wp (search_bucket (ml_entries ml) l mac vlan) (λ r,
    match r with
    | Some i => i ∈ ml_lrus ml ∧ ∃ e, ml_entries ml !! i = Some e ∧ has_key e mac vlan = true
    | None => ∀ i e, i ∈ ml_lrus ml → ml_entries ml !! i = Some e → has_key e mac vlan = false
    end).
Proof.
  intros Hok. destruct (mac_table_bucket_ok mac vlan) as (b & Eb & Hb%bucket_lt).
  destruct (lookup_lt_is_Some_2 (ml_table ml) b) as [l El]; [by rewrite (mo_table _ Hok)|].
  exists b, l. split_and!; [done..|]. eapply wp_mono; [apply search_bucket_spec|].
  - intros i Hi. destruct (mo_hashed _ Hok b l i El Hi) as (_ & e & Ee & _). eauto.
  - intros [i|].
    + intros [Hi He]. split; [|done]. by destruct (mo_hashed _ Hok b l i El Hi).
    + intros Hn i e Hi Ee. destruct (has_key e mac vlan) eqn:Ek; [|done].
      pose proof Ek as [Em Ev]%has_key_true.
      destruct (mo_found _ Hok i e Hi Ee) as (b' & l' & Eb' & El' & Hl').
      rewrite Em, Ev in Eb'. assert (b' = b) as -> by congruence.
      assert (l' = l) as -> by congruence. specialize (Hn i e Hl' Ee). congruence.
Qed.

Lemma elem_of_without i j l : j ∈ without i l ↔ j ≠ i ∧ j ∈ l.
Proof. unfold without. by rewrite list_elem_of_filter. Qed.

Lemma without_id i l : i ∉ l → without i l = l.
Proof.
  intros Hi. unfold without. induction l as [|j l IH]; [done|].
  apply not_elem_of_cons in Hi as [Hj Hi]. rewrite filter_cons_True by congruence. by rewrite IH.
Qed.

Lemma without_head i l : i ∉ l → without i (i :: l) = l.
Proof.
  intros Hi. unfold without. rewrite filter_cons_False by naive_solver. by apply without_id.
Qed.

Lemma without_perm i l : i ∈ l → NoDup l → l ≡ₚ i :: without i l.
Proof.
  induction l as [|j l IH]; intros Hi Hd; [by apply elem_of_nil in Hi|].
  apply NoDup_cons in Hd as [Hj Hd]. unfold without. destruct (decide (j = i)) as [->|Hn].
  - rewrite filter_cons_False by naive_solver. fold (without i l). by rewrite without_id.
  - rewrite filter_cons_True by done. fold (without i l).
    apply elem_of_cons in Hi as [->|Hi]; [done|]. rewrite (IH Hi Hd) at 1. apply perm_swap.
Qed.

(** ** Learning *)

(** What [mac_learning_learn] does once it has an entry [i] for the address:
    [i] becomes the most recently used, with contents [e], in bucket [b] only. *)
Record touched (i b : nat) (e : mac_entry) (ml ml' : mac_learning) : Prop := {
  to_free : ml_free ml' = without i (ml_free ml);
  to_lrus : ml_lrus ml' = without i (ml_lrus ml) ++ [i];
  to_entries : ml_entries ml' = <[i := e]> (ml_entries ml);
  to_length : length (ml_table ml') = length (ml_table ml);
  to_table b' l' j : ml_table ml' !! b' = Some l' →
    j ∈ l' ↔ j = i ∧ b' = b ∨ j ≠ i ∧ ∃ l, ml_table ml !! b' = Some l ∧ j ∈ l;
  to_random : Forall (λ r, 0 <= r < 2 ^ 16) (ml_random ml');
}.

Lemma touched_ok i b e ml ml' :
  ml_ok ml → touched i b e ml ml' → i ∈ ml_free ml ∨ i ∈ ml_lrus ml →
  mac_table_bucket (e_mac e) (e_vlan e) = Ok b → (b < Z.to_nat MAC_HASH_SIZE)%nat → entry_ok e →
  (∀ j ej, j ∈ ml_lrus ml → j ≠ i → ml_entries ml !! j = Some ej →
     has_key ej (e_mac e) (e_vlan e) = false) →
  ml_ok ml'.
Proof.
  intros Hok [Tf Tl Te Tt Tb Tr] Hi Eb Hb He Hk.
  pose proof (ml_nodup _ Hok) as Hd. pose proof (index_lt _ _ Hok Hi) as Hlt.
  assert (∀ j, j ∈ ml_lrus ml' ↔ j = i ∨ j ≠ i ∧ j ∈ ml_lrus ml) as Hl.
  { intros j. rewrite Tl, elem_of_app, elem_of_without, list_elem_of_singleton. tauto. }
  assert (ml_entries ml' !! i = Some e) as Ei
    by (rewrite Te, list_lookup_insert_eq; [done|by rewrite (mo_entries _ Hok)]).
  assert (∀ j, j ≠ i → ml_entries ml' !! j = ml_entries ml !! j) as En
    by (intros j Hj; by rewrite Te, list_lookup_insert_ne).
  assert (∀ j ej, j ≠ i → j ∈ ml_lrus ml' → ml_entries ml' !! j = Some ej →
            e_mac ej = e_mac e → e_vlan ej = e_vlan e → False) as Hne.
  { intros j ej Hj Hjl Ej E1 E2. rewrite En in Ej by done. apply Hl in Hjl as [->|[_ Hjl]]; [done|].
    specialize (Hk j ej Hjl Hj Ej). apply not_true_iff_false in Hk. apply Hk. by apply has_key_true. }
  split.
  - rewrite Te, length_insert. apply Hok.
  - rewrite Tt. apply Hok.
  - rewrite Tf, Tl, app_assoc, <-Permutation_cons_append, <-(mo_perm _ Hok).
    unfold without. rewrite <-filter_app. symmetry. apply without_perm; [|done].
    rewrite elem_of_app. tauto.
  - intros b' l' j Hb' Hj. apply (Tb b' l' j Hb') in Hj as [[-> ->]|(Hn & l & El & Hj)].
    + split; [apply Hl; by left|eauto].
    + destruct (mo_hashed _ Hok b' l j El Hj) as (Hjl & ej & Ej & Ek). split; [apply Hl; by right|].
      exists ej. by rewrite En.
  - intros j ej Hj Ej. destruct (decide (j = i)) as [->|Hn].
    + simplify_eq. destruct (lookup_lt_is_Some_2 (ml_table ml') b) as [l El].
      { by rewrite Tt, (mo_table _ Hok). }
      exists b, l. split_and!; [done..|]. eapply Tb; [done|]. by left.
    + apply Hl in Hj as [->|[_ Hj]]; [done|]. rewrite En in Ej by done.
      destruct (mo_found _ Hok j ej Hj Ej) as (b' & l & Eb' & El & Hjl).
      destruct (lookup_lt_is_Some_2 (ml_table ml') b') as [l' El'].
      { rewrite Tt. by eapply lookup_lt_Some. }
      exists b', l'. split_and!; [done..|]. eapply Tb; [done|]. right. eauto.
  - intros j k ej ek Hj Hk' Ej Ek E1 E2. destruct (decide (j = i)) as [->|Hji], (decide (k = i)) as [->|Hki];
      [done|exfalso; simplify_eq; eapply (Hne k ek); eauto; congruence
      |exfalso; simplify_eq; eapply (Hne j ej); eauto|].
    rewrite En in Ej, Ek by done. apply Hl in Hj as [->|[_ Hj]]; [done|].
    apply Hl in Hk' as [->|[_ Hk']]; [done|]. by eapply (mo_keys _ Hok).
  - intros j ej Hj Ej. destruct (decide (j = i)) as [->|Hn]; [by simplify_eq|].
    rewrite En in Ej by done. apply Hl in Hj as [->|[_ Hj]]; [done|]. by eapply (mo_used _ Hok).
  - done.
Qed.

(** An entry [i] that now has the key and contents [e], in bucket [b] only, but is
    where it was in the other lists. *)
Record acquired (i b : nat) (e : mac_entry) (ml ml' : mac_learning) : Prop := {
  ac_free : ml_free ml' = ml_free ml;
  ac_lrus : ml_lrus ml' = ml_lrus ml;
  ac_random : ml_random ml' = ml_random ml;
  ac_entries : ml_entries ml' = <[i := e]> (ml_entries ml);
  ac_length : length (ml_table ml') = length (ml_table ml);
  ac_table b' l' j : ml_table ml' !! b' = Some l' →
    j ∈ l' ↔ j = i ∧ b' = b ∨ j ≠ i ∧ ∃ l, ml_table ml !! b' = Some l ∧ j ∈ l;
}.

(** The entry that a known address has. *)
Lemma acquired_known i b l e ml :
  ml_ok ml → i ∈ ml_lrus ml → ml_entries ml !! i = Some e →
  mac_table_bucket (e_mac e) (e_vlan e) = Ok b → ml_table ml !! b = Some l →
  acquired i b e ml ml.
Proof.
  intros Hok Hi Ee Eb El. split; try done.
  - by rewrite list_insert_id.
  - intros b' l' j Hb'. destruct (decide (j = i)) as [->|Hn]; [|naive_solver].
    destruct (mo_found _ Hok i e Hi Ee) as (b2 & l2 & Eb2 & El2 & Hi2). split.
    + intros Hj. left. split; [done|]. destruct (mo_hashed _ Hok b' l' i Hb' Hj) as (_ & e' & ? & ?).
      simplify_eq. congruence.
    + intros [[_ ->]|[? _]]; [|done]. assert (b2 = b) as -> by congruence. congruence.
Qed.

Lemma remove_hash_node_spec i ml : ml_ok ml → i ∈ ml_lrus ml →
  remove_hash_node i ml = Ok (ml <| ml_table := without i <$> ml_table ml |>).
Proof.
  intros Hok Hi. unfold remove_hash_node.
  destruct (entry_of ml i Hok) as [e Ee]; [by right|].
  destruct (mo_found _ Hok i e Hi Ee) as (b & l & _ & El & Hl).
  assert (existsb (on_list i) (ml_table ml) = true) as ->; [|done].
  apply existsb_exists. exists l. split; [by apply list_elem_of_In; eapply list_elem_of_lookup_2|].
  by apply bool_decide_eq_true.
Qed.

(** Taking an entry removes it from its bucket, if it has one. *)
Lemma take_entry_spec ml : ml_ok ml →
  wp (take_entry ml) (λ '(i, ml1),
    (i ∈ ml_free ml ∨ i ∈ ml_lrus ml) ∧ head (ml_free ml ++ ml_lrus ml) = Some i ∧
    ml1 = ml <| ml_table := ml_table ml1 |> ∧ length (ml_table ml1) = length (ml_table ml) ∧
    ∀ b' l' j, ml_table ml1 !! b' = Some l' →
      j ∈ l' ↔ j ≠ i ∧ ∃ l, ml_table ml !! b' = Some l ∧ j ∈ l).
Proof.
  intros Hok. unfold take_entry. pose proof (ml_nodup _ Hok) as Hd.
  pose proof (Permutation_length (mo_perm _ Hok)) as Hp. rewrite length_seq in Hp.
  destruct (ml_free ml) as [|i free] eqn:Ef.
  - destruct (ml_lrus ml) as [|i lrus] eqn:Elr; [done|].
    assert (i ∈ ml_lrus ml) as Hi by (rewrite Elr; by left). clear Hp. simpl.
    rewrite remove_hash_node_spec by done. simpl.
    split_and!; [right; by left|done|by destruct ml|apply length_fmap|].
    intros b' l' j Hb'. rewrite list_lookup_fmap in Hb'.
    destruct (ml_table ml !! b') as [l0|]; [|done]. simplify_eq/=. rewrite elem_of_without. naive_solver.
  - clear Hp. simpl. split_and!; [left; by left|done|by destruct ml|done|].
    intros b' l' j Hb'. rewrite Hb'. split; [|naive_solver]. intros Hj. split; [|eauto].
    intros ->. destruct (mo_hashed _ Hok b' l' i Hb' Hj) as [Hi _].
    simpl in Hd. apply NoDup_cons in Hd as [Hd _]. rewrite elem_of_app in Hd. tauto.
Qed.

Lemma key_entry_spec i b mac vlan ml ml1 :
  ml_ok ml → (b < Z.to_nat MAC_HASH_SIZE)%nat → i ∈ ml_free ml ∨ i ∈ ml_lrus ml →
  ml1 = ml <| ml_table := ml_table ml1 |> → length (ml_table ml1) = length (ml_table ml) →
  (∀ b' l' j, ml_table ml1 !! b' = Some l' →
     j ∈ l' ↔ j ≠ i ∧ ∃ l, ml_table ml !! b' = Some l ∧ j ∈ l) →
  wp (key_entry i b mac vlan ml1) (λ ml',
    ∃ e, acquired i b e ml ml' ∧ e_mac e = mac ∧ e_vlan e = vlan ∧
       e_port e = -1 ∧ word (e_tag e) ∧ tag_is_valid (e_tag e) = true ∧
       make_unknown_mac_tag ml mac vlan = Ok (e_tag e)).
Proof.
  intros Hok Hb Hi E1 Hlen Ht. destruct (entry_of ml i Hok Hi) as [e0 Ee].
  destruct (lookup_lt_is_Some_2 (ml_table ml1) b) as [l El]; [by rewrite Hlen, (mo_table _ Hok)|].
  unfold key_entry. rewrite El. cbn [deref]. apply wp_bind, wp_ok.
  assert (∀ x, make_unknown_mac_tag (ml1 <| ml_table := x |>) mac vlan = make_unknown_mac_tag ml mac vlan) as Hu
    by (intros x; by rewrite E1).
  rewrite Hu. destruct (wp_inv _ _ (make_unknown_mac_tag_ok ml mac vlan)) as (tag & Etag & Hw & Hv).
  rewrite Etag. cbn [mbind comp_bind].
  unfold write_entry. rewrite E1. simpl. rewrite Ee. simpl.
  eexists. split_and!; [split; simpl; try reflexivity|try reflexivity..|done|done|done].
  - by rewrite length_insert.
  - intros b' l' j Hb'. destruct (decide (b' = b)) as [->|Hn].
    + rewrite list_lookup_insert_eq in Hb' by (by eapply lookup_lt_Some). simplify_eq.
      rewrite elem_of_cons, (Ht b l j El). naive_solver.
    + rewrite list_lookup_insert_ne in Hb' by done. rewrite (Ht b' l' j Hb'). naive_solver.
Qed.

Lemma new_mac_entry_spec b mac vlan ml :
  ml_ok ml → (b < Z.to_nat MAC_HASH_SIZE)%nat →
  wp (new_mac_entry b mac vlan ml) (λ '(i, ml'),
    (i ∈ ml_free ml ∨ i ∈ ml_lrus ml) ∧ (head (ml_free ml ++ ml_lrus ml) = Some i) ∧
    ∃ e, acquired i b e ml ml' ∧ e_mac e = mac ∧ e_vlan e = vlan ∧
       e_port e = -1 ∧ word (e_tag e) ∧ tag_is_valid (e_tag e) = true ∧
       make_unknown_mac_tag ml mac vlan = Ok (e_tag e)).
Proof.
  intros Hok Hb. unfold new_mac_entry. apply wp_bind. eapply wp_mono; [by apply take_entry_spec|].
  intros [i ml1] (Hi & Hh & E1 & Hlen & Ht). apply wp_bind.
  eapply wp_mono; [by eapply key_entry_spec|]. intros ml' He. by split_and!.
Qed.

(** The entry of a station after a frame from it. *)
Definition seen (now : Z) (mac : list Z) (vlan port tag : Z) : mac_entry :=
  mk_mac_entry (now + 60) mac vlan port tag.

Lemma learn_acquired now i b e port ml ml1 :
  ml_ok ml → acquired i b e ml ml1 → i ∈ ml_free ml ∨ i ∈ ml_lrus ml →
  word (e_tag e) → tag_is_valid (e_tag e) = true → Exists makes_tag (ml_random ml) →
  wp (ml2 ← use_entry now i ml1; learn_port i port ml2) (λ '(r, ml'), ∃ tag,
    word tag ∧ tag_is_valid tag = true ∧
    touched i b (seen now (e_mac e) (e_vlan e) port tag) ml ml' ∧
    r = if e_port e =? port then 0 else e_tag e).
Proof.
  intros Hok [Af Al Ar Ae An At] Hi Hw Hv Hr. pose proof (index_lt _ _ Hok Hi) as Hlt.
  rewrite <-(mo_entries _ Hok) in Hlt.
  unfold use_entry, remove_lru_node. rewrite Af, Al.
  assert (on_list i (ml_free ml) || on_list i (ml_lrus ml) = true) as ->.
  { unfold on_list. by rewrite orb_true_iff, !bool_decide_eq_true. }
  unfold write_entry, learn_port. simpl. rewrite Ae, list_lookup_insert_eq by done. simpl.
  rewrite list_insert_insert_eq, list_lookup_insert_eq by done. simpl.
  destruct (Z.eqb_spec (e_port e) port) as [Ep|Ep]; simpl.
  - exists (e_tag e). split_and!; [done..| |done]. split; simpl; try done.
    + rewrite <-Ep. done.
    + rewrite Ar. apply Hok.
  - apply wp_bind. rewrite Ar. eapply wp_mono; [apply tag_create_random_valid; [apply Hok|done]|].
    intros [tag random] (Ht & Hval & [pre Esuf]). unfold write_entry. simpl.
    rewrite list_lookup_insert_eq by done. simpl. exists tag. split_and!; [done..| |done].
    split; simpl; try done.
    + by rewrite list_insert_insert_eq.
    + pose proof (mo_random _ Hok) as Hall. rewrite Esuf, Forall_app in Hall. by destruct Hall.
Qed.

(** ** The abstract table *)

Record station := mk_station { st_mac : list Z; st_vlan : Z; st_port : Z; st_expires : Z }.

Definition station_of (e : mac_entry) : station :=
  mk_station (e_mac e) (e_vlan e) (e_port e) (e_expires e).

(** The stations the table knows, least recently seen first. *)
Definition entries_at (es : list mac_entry) (l : list nat) : list mac_entry := omap (λ i, es !! i) l.
Definition stations (ml : mac_learning) : list station :=
  station_of <$> entries_at (ml_entries ml) (ml_lrus ml).

Definition is_station (mac : list Z) (vlan : Z) (s : station) : bool :=
  eth_addr_equals (st_mac s) mac && (st_vlan s =? vlan).

(** A frame from a station moves it to the end; a new station takes the place of
    the first one if the table is full. *)
Definition learned (now : Z) (mac : list Z) (vlan port : Z) (l : list station) : list station :=
  (if existsb (is_station mac vlan) l then filter (λ s, is_station mac vlan s = false) l
   else if (length l <? MAC_MAX)%nat then l else tail l) ++ [mk_station mac vlan port (now + 60)].

Definition port_of (mac : list Z) (vlan : Z) (l : list station) : option Z :=
  st_port <$> find (is_station mac vlan) l.

Lemma is_station_of e mac vlan : is_station mac vlan (station_of e) = has_key e mac vlan.
Proof. done. Qed.

Lemma entries_at_app es l1 l2 : entries_at es (l1 ++ l2) = entries_at es l1 ++ entries_at es l2.
Proof. apply omap_app. Qed.

Lemma entries_at_insert es i e l : i ∉ l → entries_at (<[i := e]> es) l = entries_at es l.
Proof.
  intros Hi. unfold entries_at. induction l as [|j l IH]; [done|].
  apply not_elem_of_cons in Hi as [Hj Hi]. simpl. rewrite list_lookup_insert_ne by done.
  destruct (es !! j); [f_equal|]; by apply IH.
Qed.

Lemma length_entries_at es l : (∀ i, i ∈ l → is_Some (es !! i)) → length (entries_at es l) = length l.
Proof.
  unfold entries_at. induction l as [|i l IH]; intros Hl; simpl; [done|].
  destruct (Hl i) as [e Ee]; [by left|]. rewrite Ee. simpl. f_equal. apply IH.
  intros j Hj. apply Hl. by right.
Qed.

Lemma length_stations ml : ml_ok ml → length (stations ml) = length (ml_lrus ml).
Proof.
  intros Hok. unfold stations. rewrite length_fmap. apply length_entries_at.
  intros i Hi. destruct (entry_of ml i Hok); [by right|eauto].
Qed.

(** Leaving out the entry with a key leaves out the station. *)
Lemma stations_without es i mac vlan l :
  (∀ j, j ∈ l → ∃ e, es !! j = Some e ∧ (has_key e mac vlan = true ↔ j = i)) →
  station_of <$> entries_at es (without i l) =
  filter (λ s, is_station mac vlan s = false) (station_of <$> entries_at es l).
Proof.
  unfold entries_at, without. induction l as [|j l IH]; intros Hl; [done|].
  destruct (Hl j) as (e & Ee & Hk); [by left|].
  specialize (IH ltac:(intros k Hkl; apply Hl; by right)). simpl. rewrite Ee. simpl.
  destruct (decide (j = i)) as [->|Hn].
  - rewrite filter_cons_False by naive_solver. rewrite filter_cons_False; [done|].
    rewrite is_station_of, (proj2 Hk eq_refl). done.
  - rewrite filter_cons_True by done. simpl. rewrite Ee. simpl. rewrite filter_cons_True; [f_equal; exact IH|].
    rewrite is_station_of. destruct (has_key e mac vlan); [naive_solver|done].
Qed.

Lemma existsb_stations ml mac vlan : ml_ok ml →
  existsb (is_station mac vlan) (stations ml) = true ↔
  ∃ i e, i ∈ ml_lrus ml ∧ ml_entries ml !! i = Some e ∧ has_key e mac vlan = true.
Proof.
  intros Hok. rewrite existsb_exists. unfold stations, entries_at. split.
  - intros (s & Hs & Hk). apply list_elem_of_In, list_elem_of_fmap in Hs as (e & -> & He).
    apply list_elem_of_omap in He as (i & Hi & Ee). eauto.
  - intros (i & e & Hi & Ee & Hk). exists (station_of e). split; [|done].
    apply list_elem_of_In, list_elem_of_fmap. exists e. split; [done|].
    apply list_elem_of_omap. eauto.
Qed.

(** Three ways to get the entry of a station. *)
Lemma learn_spec now mac vlan port ml :
  ml_ok ml → eth_addr_is_multicast mac = false → 0 <= port < 65536 →
  Exists makes_tag (ml_random ml) →
  wp (mac_learning_learn now mac vlan port ml) (λ '(r, ml'), ∃ i b tag,
    (i ∈ ml_free ml ∨ i ∈ ml_lrus ml) ∧
    mac_table_bucket mac vlan = Ok b ∧ (b < Z.to_nat MAC_HASH_SIZE)%nat ∧
    word tag ∧ tag_is_valid tag = true ∧ touched i b (seen now mac vlan port tag) ml ml' ∧
    ((∃ e, i ∈ ml_lrus ml ∧ ml_entries ml !! i = Some e ∧ has_key e mac vlan = true ∧
       r = if e_port e =? port then 0 else e_tag e) ∨
     ((∀ j e, j ∈ ml_lrus ml → ml_entries ml !! j = Some e → has_key e mac vlan = false) ∧
      head (ml_free ml ++ ml_lrus ml) = Some i ∧ truth r = true ∧
      make_unknown_mac_tag ml mac vlan = Ok r))).
Proof.
  intros Hok Hm Hp Hr. unfold mac_learning_learn. rewrite Hm.
  destruct (search_spec ml mac vlan Hok) as (b & l & Eb & Hb & El & Hs). rewrite Eb.
  cbn [mbind comp_bind]. rewrite El. cbn [mbind comp_bind deref].
  apply wp_bind. eapply wp_mono; [exact Hs|]. intros [i|].
  - intros (Hi & e & Ee & Hk). cbn [mbind comp_bind]. pose proof (proj1 (has_key_true _ _ _) Hk) as [Em Ev].
    destruct (mo_used _ Hok i e Hi Ee) as [_ Ht Hv].
    eapply wp_mono; [apply (learn_acquired now i b e port ml ml); auto|].
    { eapply acquired_known; [done..| |done]. by rewrite Em, Ev. }
    rewrite Em, Ev. intros [r ml'] (tag & ? & ? & ? & ?). exists i, b, tag.
    split_and!; [by right|done..|]. left. by exists e.
  - intros Hn. apply wp_bind. eapply wp_mono; [by apply new_mac_entry_spec|].
    intros [i ml1] (Hi & Hh & e & Hac & Em & Ev & Ep & Ht & Hv & Hu).
    eapply wp_mono; [by apply (learn_acquired now i b e port ml ml1)|].
    rewrite Em, Ev, Ep. intros [r ml'] (tag & ? & ? & ? & ->). exists i, b, tag.
    split_and!; [done..|]. right. destruct (Z.eqb_spec (-1) port); [lia|].
    split_and!; [done..| |done]. unfold truth. destruct (Z.eqb_spec (e_tag e) 0) as [E0|]; [|done].
    by rewrite E0 in Hv.
Qed.

Lemma seen_ok now mac vlan port tag :
  0 <= port < 65536 → word tag → tag_is_valid tag = true → entry_ok (seen now mac vlan port tag).
Proof. by split. Qed.

Lemma stations_touched i b e ml ml' :
  ml_ok ml → touched i b e ml ml' → (i < MAC_MAX)%nat →
  stations ml' = (station_of <$> entries_at (ml_entries ml) (without i (ml_lrus ml))) ++ [station_of e].
Proof.
  intros Hok [_ Tl Te _ _ _] Hi. unfold stations. rewrite Tl, Te, entries_at_app, fmap_app. f_equal.
  - rewrite entries_at_insert; [done|]. rewrite elem_of_without. naive_solver.
  - unfold entries_at. simpl. rewrite list_lookup_insert_eq by (by rewrite (mo_entries _ Hok)). done.
Qed.

Lemma find_station ml mac vlan i e : ml_ok ml →
  i ∈ ml_lrus ml → ml_entries ml !! i = Some e → has_key e mac vlan = true →
  find (is_station mac vlan) (stations ml) = Some (station_of e).
Proof.
  intros Hok Hi Ee Hk. unfold stations, entries_at.
  assert (∀ j, j ∈ ml_lrus ml → ∃ ej, ml_entries ml !! j = Some ej ∧ (has_key ej mac vlan = true → j = i)) as Hl.
  { intros j Hj. destruct (entry_of ml j Hok) as [ej Ej]; [by right|]. exists ej. split; [done|].
    intros [E1 E2]%has_key_true. apply has_key_true in Hk as [<- <-]. by eapply (mo_keys _ Hok). }
  revert Hi Hl. generalize (ml_lrus ml) as l. induction l as [|j l IH]; intros Hi Hl.
  { by apply elem_of_nil in Hi. }
  destruct (Hl j) as (ej & Ej & Hj); [by left|]. simpl. rewrite Ej. simpl. rewrite is_station_of.
  destruct (has_key ej mac vlan) eqn:Ekj; [rewrite Hj in Ej by done; congruence|]. apply IH.
  - apply elem_of_cons in Hi as [->|Hi]; [congruence|done].
  - intros k Hkl. apply Hl. by right.
Qed.

Lemma no_station ml mac vlan : ml_ok ml →
  (∀ j e, j ∈ ml_lrus ml → ml_entries ml !! j = Some e → has_key e mac vlan = false) →
  existsb (is_station mac vlan) (stations ml) = false ∧ find (is_station mac vlan) (stations ml) = None.
Proof.
  intros Hok Hn. assert (existsb (is_station mac vlan) (stations ml) = false) as H.
  { apply not_true_iff_false. rewrite existsb_stations by done. intros (i & e & Hi & Ee & Hk).
    by rewrite (Hn i e) in Hk. }
  split; [done|]. destruct (find _ _) as [s|] eqn:E; [|done].
  apply find_some in E as [Hs Hk]. apply not_true_iff_false in H. exfalso. apply H, existsb_exists. eauto.
Qed.

Lemma learn_refines now mac vlan port ml :
  ml_ok ml → eth_addr_is_multicast mac = false → 0 <= port < 65536 →
  Exists makes_tag (ml_random ml) →
  wp (mac_learning_learn now mac vlan port ml) (λ '(r, ml'),
    ml_ok ml' ∧ stations ml' = learned now mac vlan port (stations ml) ∧
    truth r = negb (bool_decide (port_of mac vlan (stations ml) = Some port))).
Proof.
  intros Hok Hm Hp Hr. eapply wp_mono; [by apply learn_spec|].
  intros [r ml'] (i & b & tag & Hi & Eb & Hb & Hw & Hv & Ht & Hcase).
  pose proof (index_lt _ _ Hok Hi) as Hlt. destruct (entry_of ml i Hok Hi) as [ei Ei].
  rewrite (stations_touched i b _ ml ml' Hok Ht Hlt).
  assert (entry_ok (seen now mac vlan port tag)) as He by by apply seen_ok.
  unfold learned, port_of. destruct Hcase as [(e & Hl & Ee & Hk & ->)|(Hn & Hh & Htr & _)].
  - assert (∀ j ej, j ∈ ml_lrus ml → j ≠ i → ml_entries ml !! j = Some ej → has_key ej mac vlan = false) as Hne.
    { intros j ej Hj Hji Ej. apply not_true_iff_false. intros [E1 E2]%has_key_true.
      apply has_key_true in Hk as [<- <-]. apply Hji. by apply (mo_keys _ Hok j i ej e). }
    rewrite (proj2 (existsb_stations ml mac vlan Hok)) by eauto.
    rewrite (find_station ml mac vlan i e) by done. split_and!.
    + by eapply touched_ok.
    + f_equal. apply stations_without. intros j Hj.
      destruct (entry_of ml j Hok) as [ej Ej]; [by right|]. exists ej. split; [done|]. split.
      * intros Hkj. destruct (decide (j = i)) as [|Hji]; [done|]. by rewrite (Hne j ej) in Hkj.
      * intros ->. congruence.
    + destruct (mo_used _ Hok i e Hl Ee) as [_ _ Hval]. simpl. unfold truth.
      destruct (Z.eqb_spec (e_port e) port) as [->|Hn]; [by rewrite bool_decide_true|].
      rewrite bool_decide_false by congruence.
      destruct (Z.eqb_spec (e_tag e) 0) as [E0|]; [by rewrite E0 in Hval|done].
  - destruct (no_station ml mac vlan Hok Hn) as [-> ->]. split_and!.
    + eapply touched_ok; [done|done|done|done|done|done|]. intros j ej Hj _ Ej. by eapply Hn.
    + f_equal. rewrite length_stations by done.
      pose proof (Permutation_length (mo_perm _ Hok)) as Hlen. rewrite length_app, length_seq in Hlen.
      pose proof (ml_nodup _ Hok) as Hd. unfold stations.
      destruct (ml_free ml) as [|f free] eqn:Ef; simpl in Hlen, Hh, Hd.
      * rewrite (proj2 (Nat.ltb_ge _ _)) by lia. destruct (ml_lrus ml) as [|j l]; [done|].
        simplify_eq/=. apply NoDup_cons in Hd as [Hd _]. rewrite without_head by done.
        unfold entries_at. simpl. by rewrite Ei.
      * rewrite (proj2 (Nat.ltb_lt _ _)) by lia. simplify_eq/=. apply NoDup_cons in Hd as [Hd _].
        rewrite without_id; [done|]. rewrite elem_of_app in Hd. tauto.
    + by rewrite Htr.
Qed.

Lemma stations_port ml s : ml_ok ml → In s (stations ml) → 0 <= st_port s < 65536.
Proof.
  intros Hok Hs. apply list_elem_of_In in Hs. unfold stations, entries_at in Hs.
  apply list_elem_of_fmap in Hs as (e & -> & He). apply list_elem_of_omap in He as (i & Hi & Ee).
  apply (mo_used _ Hok i e Hi Ee).
Qed.

(** What a lookup finds, and the tag that it depends on. *)
Lemma lookup_tag_spec ml dst vlan tag : ml_ok ml → eth_addr_is_multicast dst = false →
  wp (mac_learning_lookup_tag ml dst vlan tag) (λ '(p, t),
    p = default OFPP_FLOOD (port_of dst vlan (stations ml)) ∧ ∃ u, t = tag .| u ∧
    ((∃ i e, i ∈ ml_lrus ml ∧ ml_entries ml !! i = Some e ∧ has_key e dst vlan = true ∧
       p = e_port e ∧ u = e_tag e) ∨
     (∀ j e, j ∈ ml_lrus ml → ml_entries ml !! j = Some e → has_key e dst vlan = false) ∧
      make_unknown_mac_tag ml dst vlan = Ok u)).
Proof.
  intros Hok Hm. unfold mac_learning_lookup_tag. rewrite Hm.
  destruct (search_spec ml dst vlan Hok) as (b & l & Eb & Hb & El & Hs). rewrite Eb.
  cbn [mbind comp_bind]. rewrite El. cbn [mbind comp_bind deref]. apply wp_bind.
  eapply wp_mono; [exact Hs|]. unfold port_of. intros [i|].
  - intros (Hi & e & Ee & Hk). rewrite (find_station ml dst vlan i e) by done. rewrite Ee. simpl.
    destruct (mo_used _ Hok i e Hi Ee) as [Hp _ _].
    assert (u16 (e_port e) = e_port e) as -> by (apply Z.mod_small; lia).
    split; [done|]. exists (e_tag e). split; [done|]. left. by exists i, e.
  - intros Hn. destruct (no_station ml dst vlan Hok Hn) as [_ ->].
    destruct (wp_inv _ _ (make_unknown_mac_tag_ok ml dst vlan)) as (u & -> & _ & _). simpl.
    split; [done|]. exists u. auto.
Qed.

Lemma lookup_refines ml dst vlan : ml_ok ml →
  wp (mac_learning_lookup ml dst vlan) (λ p,
    p = if eth_addr_is_multicast dst then OFPP_FLOOD else default OFPP_FLOOD (port_of dst vlan (stations ml))).
Proof.
  intros Hok. unfold mac_learning_lookup. apply wp_bind. destruct (eth_addr_is_multicast dst) eqn:Em.
  - unfold mac_learning_lookup_tag. by rewrite Em.
  - eapply wp_mono; [by apply lookup_tag_spec|]. by intros [p t] [-> _].
Qed.

(** Freeing the least recently used entry. *)
Lemma free_lru ml i l : ml_ok ml → ml_lrus ml = i :: l →
  wp (free_mac_entry i ml) (λ ml', ml_ok ml' ∧ ml_lrus ml' = l ∧ ml_entries ml' = ml_entries ml ∧
    stations ml' = tail (stations ml)).
Proof.
  intros Hok El. assert (i ∈ ml_lrus ml) as Hi by (rewrite El; by left).
  pose proof (ml_nodup _ Hok) as Hd. pose proof (mo_perm _ Hok) as Hp. rewrite El in Hd, Hp.
  assert ((i ∉ ml_free ml) ∧ i ∉ l) as [Hf Hl].
  { rewrite <-Permutation_middle, NoDup_cons, elem_of_app in Hd. tauto. }
  unfold free_mac_entry. rewrite remove_hash_node_spec by done. simpl. unfold remove_lru_node. simpl.
  assert (on_list i (ml_free ml) || on_list i (ml_lrus ml) = true) as ->.
  { unfold on_list. rewrite orb_true_iff, !bool_decide_eq_true. by right. }
  simpl. rewrite (without_id i (ml_free ml)), El, without_head by done.
  split_and!; [|done|done|].
  - destruct Hok as [H1 H2 H3 H4 H5 H6 H7 H8]. rewrite El in *.
    split; simpl; [done| |by rewrite <-Hp, Permutation_middle|..|done].
    + by rewrite length_fmap.
    + intros b l' j Hb Hj. rewrite list_lookup_fmap in Hb.
      destruct (ml_table ml !! b) as [l0|] eqn:E0; [|done]. injection Hb as <-.
      apply elem_of_without in Hj as [Hn Hj]. destruct (H4 b l0 j E0 Hj) as [Hjl He].
      apply elem_of_cons in Hjl as [->|Hjl]; done.
    + intros j e Hj Ej. destruct (H5 j e) as (b & l0 & Eb & E0 & Hj0); [by right|done|].
      exists b, (without i l0). rewrite list_lookup_fmap, E0. split_and!; [done..|].
      apply elem_of_without. split; [|done]. by intros ->.
    + intros j k ej ek Hj Hk. apply H6; by right.
    + intros j e Hj. apply H7. by right.
  - unfold stations, entries_at. simpl. rewrite El. simpl.
    destruct (entry_of ml i Hok) as [e Ee]; [by right|]. by rewrite Ee.
Qed.

(** ** Every operation *)

Inductive call :=
| CLearn (now : Z) (mac : list Z) (vlan port : Z)
| CLookup (dst : list Z) (vlan : Z)
| CFlush
| CRun (now : Z).

Definition run_call (c : call) (ml : mac_learning) : comp (Z * mac_learning) :=
  match c with
  | CLearn now mac vlan port => mac_learning_learn now mac vlan port ml
  | CLookup dst vlan => p ← mac_learning_lookup ml dst vlan; Ok (p, ml)
  | CFlush => ml ← mac_learning_flush ml; Ok (0, ml)
  | CRun now => '(ml, _) ← mac_learning_run now ml None; Ok (0, ml)
  end.

(** Of the tag that learning returns, the client observes whether there is one. *)
Definition observe (c : call) (r : Z) : Z :=
  match c with CLearn _ _ _ _ => if truth r then 1 else 0 | _ => r end.

Fixpoint expire (now : Z) (l : list station) : list station :=
  match l with
  | s :: l' => if st_expires s <=? now then expire now l' else l
  | [] => []
  end.

Definition spec_call (c : call) (l : list station) : Z * list station :=
  match c with
  | CLearn now mac vlan port =>
      if eth_addr_is_multicast mac then (0, l)
      else (if bool_decide (port_of mac vlan l = Some port) then 0 else 1, learned now mac vlan port l)
  | CLookup dst vlan =>
      (if eth_addr_is_multicast dst then OFPP_FLOOD else default OFPP_FLOOD (port_of dst vlan l), l)
  | CFlush => (0, [])
  | CRun now => (0, expire now l)
  end.

(** Ports are ports, and some random number to come makes a tag. *)
Definition call_ok (c : call) (ml : mac_learning) : Prop :=
  match c with
  | CLearn _ _ _ port => 0 <= port < 65536 ∧ Exists makes_tag (ml_random ml)
  | _ => True
  end.

Lemma flush_refines ml : ml_ok ml → wp (mac_learning_flush ml) (λ ml', ml_ok ml' ∧ stations ml' = []).
Proof.
  unfold mac_learning_flush. remember (ml_lrus ml) as l eqn:El. symmetry in El. revert ml El.
  induction l as [|i l IH]; intros ml El Hok; simpl; unfold get_lru; rewrite El; simpl.
  - split; [done|]. unfold stations. by rewrite El.
  - apply wp_bind. eapply wp_mono; [by apply free_lru|]. intros ml' (Hok' & El' & _ & _). by apply IH.
Qed.

Lemma run_refines now ml set : ml_ok ml →
  wp (mac_learning_run now ml set) (λ '(ml', _), ml_ok ml' ∧ stations ml' = expire now (stations ml)).
Proof.
  unfold mac_learning_run. remember (ml_lrus ml) as l eqn:El. symmetry in El. revert ml set El.
  induction l as [|i l IH]; intros ml set El Hok; simpl; unfold get_lru; rewrite El; simpl.
  - split; [done|]. unfold stations. by rewrite El.
  - destruct (entry_of ml i Hok) as [e Ee]; [rewrite El; right; by left|]. rewrite Ee. simpl.
    assert (∃ l', stations ml = station_of e :: l') as [l' Es].
    { unfold stations, entries_at. rewrite El. simpl. rewrite Ee. eauto. }
    rewrite Es. simpl. destruct (e_expires e <=? now); [|by split].
    apply wp_bind. eapply wp_mono; [by apply free_lru|]. intros ml' (Hok' & El' & _ & Es').
    eapply wp_mono; [by apply IH|]. intros [ml2 set2]. by rewrite Es', Es.
Qed.

(** C16: the MAC learning table, with its hash buckets and its lists of free and
    used entries, implements a list of at most 1024 stations in order of use: every
    operation terminates without touching an entry that is not there, keeps the
    links consistent, and does to the list what the specification says.  Learning
    moves the station to the end, and replaces the least recently seen one if the
    table is full; a tag is returned exactly if the port of the station changed; a
    lookup gives the port on which the station was last seen; expiry removes the
    stations at the front whose time is over. *)
Theorem mac_learning_refines c ml : ml_ok ml → call_ok c ml →
  wp (run_call c ml) (λ '(r, ml'), ml_ok ml' ∧ (observe c r, stations ml') = spec_call c (stations ml)).
Proof.
  intros Hok Hc. destruct c as [now mac vlan port|dst vlan| |now]; simpl in *.
  - destruct (eth_addr_is_multicast mac) eqn:Em.
    + unfold mac_learning_learn. by rewrite Em.
    + destruct Hc as [Hp Hr]. eapply wp_mono; [by apply learn_refines|].
      intros [r ml'] (Hok' & -> & ->). split; [done|].
      by destruct (bool_decide _).
  - apply wp_bind. eapply wp_mono; [by apply lookup_refines|]. by intros p ->.
  - apply wp_bind. eapply wp_mono; [by apply flush_refines|]. intros ml' [? E]. simpl. by rewrite E.
  - apply wp_bind. eapply wp_mono; [by apply run_refines|]. intros [ml' set'] [? E]. simpl. by rewrite E.
Qed.

(** ** A table with two stations *)

Definition ex_mac (x : Z) : list Z := [0; 0x1b; 0x21; 0; 0; x].
Definition ex_table : mac_learning :=
  mac_learning_create (λ _, mk_mac_entry 0 [] 0 0 0) 42 (repeat 5 10).

Lemma ex_random : Forall (λ r, 0 <= r < 2 ^ 16) (repeat 5 10) ∧ Exists makes_tag (repeat 5 10).
Proof. split; [repeat constructor; lia|]. apply Exists_cons. left. unfold makes_tag. done. Qed.

(** ** Revalidation *)

Lemma find_filter {A} (p q : A → bool) l :
  (∀ x, p x = true → q x = false) → find p (filter (λ x, q x = false) l) = find p l.
Proof.
  intros H. induction l as [|x l IH]; [done|]. destruct (q x) eqn:Eq.
  - rewrite filter_cons_False by congruence. simpl. destruct (p x) eqn:Ep; [|done].
    by rewrite H in Eq.
  - rewrite filter_cons_True by done. simpl. by rewrite IH.
Qed.

Lemma find_app {A} (p : A → bool) l1 l2 :
  find p (l1 ++ l2) = match find p l1 with Some x => Some x | None => find p l2 end.
Proof. induction l1 as [|x l IH]; simpl; [done|]. by destruct (p x). Qed.

Lemma is_station_true mac vlan s : is_station mac vlan s = true ↔ st_mac s = mac ∧ st_vlan s = vlan.
Proof. unfold is_station, eth_addr_equals. by rewrite andb_true_iff, bool_decide_eq_true, Z.eqb_eq. Qed.

(** Learning about one station, with room for it, does not change the others. *)
Lemma port_of_learned_ne now mac vlan port dst vlan' l :
  existsb (is_station mac vlan) l = true ∨ (length l < MAC_MAX)%nat →
  (dst, vlan') ≠ (mac, vlan) → port_of dst vlan' (learned now mac vlan port l) = port_of dst vlan' l.
Proof.
  intros Hroom Hne. unfold port_of, learned. rewrite find_app. f_equal.
  assert (is_station dst vlan' (mk_station mac vlan port (now + 60)) = false) as Hn.
  { apply not_true_iff_false. rewrite is_station_true. simpl. naive_solver. }
  simpl. rewrite Hn. destruct (existsb _ l) eqn:Ee.
  - rewrite find_filter; [by destruct (find _ l)|]. intros s [E1 E2]%is_station_true.
    apply not_true_iff_false. rewrite is_station_true. naive_solver.
  - destruct Hroom as [?|Hl]; [done|]. rewrite (proj2 (Nat.ltb_lt _ _)) by done. by destruct (find _ l).
Qed.

Lemma find_none mac vlan l :
  existsb (is_station mac vlan) l = false → find (is_station mac vlan) l = None.
Proof.
  intros H. destruct (find _ l) as [s|] eqn:E; [|done]. apply find_some in E as [Hin Hk].
  apply not_true_iff_false in H. exfalso. apply H, existsb_exists. eauto.
Qed.

(** The others in the table after learning about a station. *)
Definition rest (mac : list Z) (vlan : Z) (l : list station) : list station :=
  if existsb (is_station mac vlan) l then filter (λ s, is_station mac vlan s = false) l
  else if (length l <? MAC_MAX)%nat then l else tail l.

Lemma rest_without mac vlan l : existsb (is_station mac vlan) (rest mac vlan l) = false.
Proof.
  unfold rest. destruct (existsb _ l) eqn:Ee.
  - apply not_true_iff_false. rewrite existsb_exists. intros (s & Hin & Hk).
    apply list_elem_of_In, list_elem_of_filter in Hin as [Hf _]. congruence.
  - destruct (_ <? _)%nat; [done|]. destruct l as [|s l]; [done|]. by apply orb_false_iff in Ee as [_ ?].
Qed.

Lemma port_of_learned_eq now mac vlan port l :
  port_of mac vlan (learned now mac vlan port l) = Some port.
Proof.
  unfold port_of, learned. fold (rest mac vlan l). rewrite find_app, (find_none _ _ _ (rest_without mac vlan l)).
  simpl. by rewrite (proj2 (is_station_true mac vlan (mk_station mac vlan port (now + 60)))).
Qed.

(** A station that was just seen is still known after the next one is. *)
Lemma port_of_learned_twice now now' mac mac' vlan vlan' port port' l :
  (mac, vlan) ≠ (mac', vlan') →
  port_of mac vlan (learned now' mac' vlan' port' (learned now mac vlan port l)) = Some port.
Proof.
  intros Hne. set (l1 := learned now mac vlan port l).
  destruct (decide (existsb (is_station mac' vlan') l1 = true ∨ (length l1 < MAC_MAX)%nat)) as [Hroom|Hfull].
  { rewrite port_of_learned_ne by done. apply port_of_learned_eq. }
  apply Decidable.not_or in Hfull as [Hn Hl]. apply not_true_iff_false in Hn.
  unfold port_of, learned at 1. rewrite Hn, (proj2 (Nat.ltb_ge _ _)) by lia.
  subst l1. unfold learned in *. fold (rest mac vlan l) in *. rewrite length_app in Hl. simpl in Hl.
  pose proof (rest_without mac vlan l) as Hr. destruct (rest mac vlan l) as [|s0 r].
  { exfalso. apply Hl. simpl. unfold MAC_MAX. lia. }
  apply orb_false_iff in Hr as [_ Hr]. simpl. rewrite !find_app, (find_none _ _ _ Hr). simpl.
  by rewrite (proj2 (is_station_true mac vlan (mk_station mac vlan port (now + 60)))).
Qed.

Lemma intersects_own tag u : word tag → word u → tag_is_valid u = true → tag_intersects (tag .| u) u = true.
Proof.
  intros Ht Hu Hv. apply tag_intersects_valid; [by apply lor_word|done..|]. apply subset_lor_r, Hu.
Qed.

Lemma learn_total now mac vlan port ml :
  ml_ok ml → 0 <= port < 65536 → Exists makes_tag (ml_random ml) →
  ∃ r ml', mac_learning_learn now mac vlan port ml = Ok (r, ml') ∧ ml_ok ml' ∧
    stations ml' = if eth_addr_is_multicast mac then stations ml
                   else learned now mac vlan port (stations ml).
Proof.
  intros Hok Hp Hr. destruct (eth_addr_is_multicast mac) eqn:Em.
  - exists 0, ml. unfold mac_learning_learn. by rewrite Em.
  - destruct (wp_inv _ _ (learn_refines now mac vlan port ml Hok Em Hp Hr)) as ([r ml'] & E & ? & ? & _).
    eauto.
Qed.

(** The tag that a lookup adds is the one that learning a new port returns. *)
Lemma learn_returns_tag now mac vlan port tag p t r ml ml' :
  ml_ok ml → eth_addr_is_multicast mac = false → 0 <= port < 65536 →
  Exists makes_tag (ml_random ml) → word tag →
  mac_learning_lookup_tag ml mac vlan tag = Ok (p, t) →
  mac_learning_learn now mac vlan port ml = Ok (r, ml') → p ≠ port → tag_intersects t r = true.
Proof.
  intros Hok Em Hp Hr Ht El Er Hne.
  pose proof (lookup_tag_spec ml mac vlan tag Hok Em) as H1. rewrite El in H1.
  pose proof (learn_spec now mac vlan port ml Hok Em Hp Hr) as H2. rewrite Er in H2. simpl in H1, H2.
  destruct H1 as (_ & u & -> & [(i & e & Hi & Ee & Hk & -> & ->)|[Hn Eu]]),
    H2 as (i' & b & tag' & _ & _ & _ & _ & _ & _ & [(e' & Hi' & Ee' & Hk' & ->)|(Hn' & _ & _ & Eu')]).
  - assert (i' = i) as ->.
    { apply has_key_true in Hk as [<- <-], Hk' as [E1 E2]. by eapply (mo_keys _ Hok). }
    simplify_eq. rewrite (proj2 (Z.eqb_neq _ _)) by done.
    destruct (mo_used _ Hok i e Hi Ee). by apply intersects_own.
  - by rewrite (Hn' i e) in Hk.
  - by rewrite (Hn i' e') in Hk'.
  - assert (r = u) as -> by congruence. pose proof (make_unknown_mac_tag_ok ml mac vlan) as H.
    rewrite Eu in H. destruct H. by apply intersects_own.
Qed.

(** C31: when learning changes the answer to a lookup, the tag that it returns is one
    that the earlier answer depended on, so that every flow set up on that answer is
    found and revalidated; provided that the table has room for the new station. *)
Theorem learn_revalidates now mac vlan port dst vlan' tag ml :
  ml_ok ml → 0 <= port < 65536 → Exists makes_tag (ml_random ml) → word tag →
  existsb (is_station mac vlan) (stations ml) = true ∨ (length (stations ml) < MAC_MAX)%nat →
  wp (before ← mac_learning_lookup_tag ml dst vlan' tag;
      '(r, ml') ← mac_learning_learn now mac vlan port ml;
      after ← mac_learning_lookup ml' dst vlan';
      Ok (before, r, after))
    (λ '((p, t), r, p'), p' ≠ p → tag_intersects t r = true).
Proof.
  intros Hok Hp Hr Ht Hroom.
  destruct (learn_total now mac vlan port ml Hok Hp Hr) as (r & ml' & Er & Hok' & Est). apply wp_bind.
  destruct (eth_addr_is_multicast dst) eqn:Ed.
  { unfold mac_learning_lookup, mac_learning_lookup_tag. rewrite Ed. simpl. rewrite Er. simpl. congruence. }
  destruct (wp_inv _ _ (lookup_tag_spec ml dst vlan' tag Hok Ed)) as ([p t] & El & Ep & _).
  rewrite El. cbn [wp]. rewrite Er. cbn [mbind comp_bind]. apply wp_bind.
  eapply wp_mono; [by apply lookup_refines|]. intros p' Ep'. cbn [wp]. rewrite Ed, Est in Ep'. intros Hne.
  destruct (eth_addr_is_multicast mac) eqn:Em; [congruence|].
  destruct (decide ((dst, vlan') = (mac, vlan))) as [[= -> ->]|Hn]; cycle 1.
  { rewrite port_of_learned_ne in Ep' by done. congruence. }
  rewrite port_of_learned_eq in Ep'. simpl in Ep'. subst p'.
  eapply (learn_returns_tag now mac vlan port tag p t r ml ml'); done.
Qed.

Lemma learn_revalidates_witness :
  wp (before ← mac_learning_lookup_tag ex_table (ex_mac 7) 0 0;
      '(r, ml') ← mac_learning_learn 100 (ex_mac 7) 0 3 ex_table;
      after ← mac_learning_lookup ml' (ex_mac 7) 0;
      Ok (before, r, after))
    (λ '((p, t), r, p'), p' ≠ p → tag_intersects t r = true).
Proof.
  apply (learn_revalidates 100 (ex_mac 7) 0 3 (ex_mac 7) 0 0 ex_table).
  - apply mac_learning_create_ok, ex_random.
  - lia.
  - apply ex_random.
  - unfold word. lia.
  - right. apply Nat.ltb_lt. reflexivity.
Defined.

(** The table uses four of its 1024 buckets: the index is computed with the
    number of bits of the hash instead of its mask, so every other bucket of a
    consistent table is empty. *)
Theorem mac_table_four_buckets ml b l :
  ml_ok ml → ml_table ml !! b = Some l → l ≠ [] → b ∈ [0; 2; 8; 10]%nat.
Proof.
  intros Hok Eb Hl. destruct l as [|i l]; [done|].
  destruct (mo_hashed _ Hok b (i :: l) i Eb) as (_ & e & _ & Hb); [by left|].
  destruct (mac_table_bucket_ok (e_mac e) (e_vlan e)) as (b' & Hb' & H). congruence.
Qed.

Definition ex_learned : mac_learning :=
  match mac_learning_learn 100 (ex_mac 7) 0 3 ex_table with Ok (_, ml) => ml | _ => ex_table end.

Lemma ex_learned_ok : ml_ok ex_learned.
Proof.
  destruct ex_random as [H1 H2]. unfold ex_learned.
  destruct (learn_total 100 (ex_mac 7) 0 3 ex_table) as (r & ml & -> & Hok & _); try done.
  by apply mac_learning_create_ok.
Qed.

Lemma mac_table_four_buckets_witness :
  ml_table ex_learned !! 2%nat = Some [1023%nat] ∧ 2%nat ∈ [0; 2; 8; 10]%nat.
Proof.
  split; [vm_compute; reflexivity|]. apply (mac_table_four_buckets ex_learned 2 [1023%nat]).
  - apply ex_learned_ok.
  - vm_compute. reflexivity.
  - discriminate.
Defined.

Lemma mac_learning_refines_witness :
  wp (run_call (CLearn 100 (ex_mac 7) 0 3) ex_table) (λ '(r, ml'),
    ml_ok ml' ∧ (observe (CLearn 100 (ex_mac 7) 0 3) r, stations ml') =
      (1, [mk_station (ex_mac 7) 0 3 160])).
Proof.
  apply (mac_learning_refines (CLearn 100 (ex_mac 7) 0 3) ex_table).
  - apply mac_learning_create_ok, ex_random.
  - split; [lia|]. apply ex_random.
Defined.

End MacLearningFacts.
