(* ===== verification/Ofpbuf.v ===== *)
(** * lib/ofpbuf.c: packet buffers

    An [ofpbuf] is a malloc'd region with a window of bytes in use.  Pointers
    into the region are offsets from its start, which is what the adjustment by
    [base_delta] keeps when the region is reallocated.  The list link [next] and
    the owner's [private] pointer are left out: they are not used while a packet
    is in the datapath.  Sizes are natural numbers; that the sum of two object
    sizes fits a [size_t] is taken for granted. *)

From S2P Require Import Prelude.

Module Ofpbuf.

Record ofpbuf := mk_ofpbuf {
  base : list Z;            (* the [allocated] bytes of the region *)
  data : nat;               (* first byte in use *)
  size : nat;               (* number of bytes in use *)
  l2 : option nat;
  l3 : option nat;
  l4 : option nat;
  l7 : option nat;
}.
#[export] Instance ofpbuf_eta : Eta ofpbuf := λ b,
  mk_ofpbuf (base b) (data b) (size b) (l2 b) (l3 b) (l4 b) (l7 b).

Definition allocated (b : ofpbuf) : nat := length (base b).

Section operations.
Context `{Malloc}.

Definition ofpbuf_use (base : list Z) : ofpbuf :=
  mk_ofpbuf base 0 0 None None None None.

Definition ofpbuf_init (size : nat) : ofpbuf :=
  ofpbuf_use (if decide (size = 0%nat) then [] else xmalloc size).

Definition ofpbuf_new (size : nat) : ofpbuf := ofpbuf_init size.

Definition ofpbuf_headroom (b : ofpbuf) : nat := data b.

Definition ofpbuf_tail (b : ofpbuf) : nat := data b + size b.

Definition ofpbuf_end (b : ofpbuf) : nat := allocated b.

Definition ofpbuf_tailroom (b : ofpbuf) : nat := ofpbuf_end b - ofpbuf_tail b.

Definition ofpbuf_prealloc_tailroom (b : ofpbuf) (n : nat) : ofpbuf :=
  if (ofpbuf_tailroom b <? n)%nat then
    let new_allocated := (allocated b + Nat.max n 64)%nat in
    let new_base := xmalloc new_allocated in
    b <| base := put_at new_base 0 (base b) |>
  else b.

Definition ofpbuf_prealloc_headroom (b : ofpbuf) (n : nat) : comp unit :=
  assert_c (n <=? ofpbuf_headroom b)%nat.

(** Returns the offset of the new bytes. *)
Definition ofpbuf_put_uninit (b : ofpbuf) (n : nat) : nat * ofpbuf :=
  let b := ofpbuf_prealloc_tailroom b n in
  let p := ofpbuf_tail b in
  (p, b <| size := (size b + n)%nat |>).

Definition ofpbuf_put_zeros (b : ofpbuf) (n : nat) : comp (nat * ofpbuf) :=
  let '(dst, b) := ofpbuf_put_uninit b n in
  mem ← memcpy (base b) dst (replicate n 0);
  Ok (dst, b <| base := mem |>).

Definition ofpbuf_put (b : ofpbuf) (p : list Z) : comp (nat * ofpbuf) :=
  let '(dst, b) := ofpbuf_put_uninit b (length p) in
  mem ← memcpy (base b) dst p;
  Ok (dst, b <| base := mem |>).

Definition ofpbuf_reserve (b : ofpbuf) (n : nat) : comp ofpbuf :=
  assert_c (size b =? 0)%nat;;
  let b := ofpbuf_prealloc_tailroom b n in
  Ok (b <| data := (data b + n)%nat |>).

Definition ofpbuf_push_uninit (b : ofpbuf) (n : nat) : comp (nat * ofpbuf) :=
  ofpbuf_prealloc_headroom b n;;
  let b := b <| data := (data b - n)%nat |> <| size := (size b + n)%nat |> in
  Ok (data b, b).

Definition ofpbuf_push (b : ofpbuf) (p : list Z) : comp (nat * ofpbuf) :=
  '(dst, b) ← ofpbuf_push_uninit b (length p);
  mem ← memcpy (base b) dst p;
  Ok (dst, b <| base := mem |>).

Definition ofpbuf_at (b : ofpbuf) (offset n : nat) : option nat :=
  if (offset + n <=? size b)%nat then Some (data b + offset)%nat else None.

Definition ofpbuf_at_assert (b : ofpbuf) (offset n : nat) : comp nat :=
  assert_c (offset + n <=? size b)%nat;; Ok (data b + offset)%nat.

Definition ofpbuf_clear (b : ofpbuf) : ofpbuf := b <| data := 0%nat |> <| size := 0%nat |>.

Definition ofpbuf_pull (b : ofpbuf) (n : nat) : comp (nat * ofpbuf) :=
  assert_c (n <=? size b)%nat;;
  Ok (data b, b <| data := (data b + n)%nat |> <| size := (size b - n)%nat |>).

Definition ofpbuf_try_pull (b : ofpbuf) (n : nat) : comp (option nat * ofpbuf) :=
  if (n <=? size b)%nat then '(p, b) ← ofpbuf_pull b n; Ok (Some p, b)
  else Ok (None, b).

(** The bytes in use. *)
Definition contents (b : ofpbuf) : list Z := bytes_at (base b) (data b) (size b).

Definition ofpbuf_clone_data (p : list Z) : comp ofpbuf :=
  '(_, b) ← ofpbuf_put (ofpbuf_new (length p)) p; Ok b.

Definition ofpbuf_clone (buffer : ofpbuf) : comp ofpbuf := ofpbuf_clone_data (contents buffer).

(** ** Lemmas *)

(** The window lies in the region. *)
Definition wf (b : ofpbuf) : Prop := (data b + size b ≤ allocated b)%nat.

Lemma length_contents b : wf b → length (contents b) = size b.
Proof.
  unfold wf, contents, bytes_at, allocated. intros Hb. rewrite length_take, length_drop. lia.
Qed.

Lemma prealloc_tailroom_spec b n :
  wf b →
  let b' := ofpbuf_prealloc_tailroom b n in
  wf b' ∧ contents b' = contents b ∧ data b' = data b ∧ size b' = size b ∧
  (data b' + size b' + n ≤ allocated b')%nat.
Proof.
  intros Hb. unfold wf, allocated in Hb. cbv zeta.
  unfold ofpbuf_prealloc_tailroom, ofpbuf_tailroom, ofpbuf_end, ofpbuf_tail, allocated.
  destruct (Nat.ltb_spec (length (base b) - (data b + size b)) n) as [Hlt|Hge].
  - assert (length (put_at (xmalloc (length (base b) + Nat.max n 64)) 0 (base b)) =
            length (base b) + Nat.max n 64)%nat as Hlen.
    { rewrite length_put_at; rewrite length_xmalloc; lia. }
    unfold wf, contents, allocated; simpl. rewrite Hlen. split_and!; try lia.
    unfold bytes_at, put_at. simpl. rewrite drop_app_le by lia.
    rewrite take_app_le by (rewrite length_drop; lia). done.
  - unfold wf, allocated. split_and!; done || lia.
Qed.

(** Writing at the tail appends to the contents. *)
Lemma contents_append mem d s p :
  (d + s + length p ≤ length mem)%nat →
  bytes_at (put_at mem (d + s) p) d (s + length p) = bytes_at mem d s ++ p.
Proof.
  intros Hl. unfold bytes_at, put_at.
  rewrite drop_app_le by (rewrite length_take; lia).
  rewrite <-take_drop_commute.
  rewrite take_app_ge by (rewrite length_take, length_drop; lia). f_equal.
  rewrite length_take, length_drop, Nat.min_l by lia.
  rewrite take_app_le by lia. apply take_ge. lia.
Qed.

Lemma put_spec b p :
  wf b →
  ∃ b', ofpbuf_put b p = Ok (data b + size b, b')%nat ∧ wf b' ∧
    contents b' = contents b ++ p ∧ data b' = data b ∧ size b' = (size b + length p)%nat.
Proof.
  intros Hb. unfold ofpbuf_put, ofpbuf_put_uninit.
  destruct (prealloc_tailroom_spec b (length p) Hb) as (Hwf & Hc & Hd & Hs & Hroom).
  revert Hwf Hc Hd Hs Hroom. generalize (ofpbuf_prealloc_tailroom b (length p)).
  intros b1 Hwf Hc Hd Hs Hroom. unfold ofpbuf_tail, memcpy, allocated in *; simpl.
  rewrite (proj2 (Nat.leb_le _ _)) by lia. simpl. eexists.
  rewrite Hd, Hs. split; [done|]. unfold wf, contents, allocated in *; simpl.
  rewrite length_put_at by lia. split_and!; try lia.
  rewrite <-Hc, <-Hs, <-Hd. apply contents_append. lia.
Qed.

Lemma push_spec b p :
  wf b →
  if decide (length p ≤ ofpbuf_headroom b)%nat then
    ∃ b', ofpbuf_push b p = Ok (data b - length p, b')%nat ∧ wf b' ∧
      contents b' = p ++ contents b ∧ data b' = (data b - length p)%nat
  else ofpbuf_push b p = Abort.
Proof.
  intros Hb. unfold ofpbuf_push, ofpbuf_push_uninit, ofpbuf_prealloc_headroom, ofpbuf_headroom.
  unfold wf, allocated in Hb. case_decide as Hp.
  - rewrite (proj2 (Nat.leb_le _ _)) by done. unfold memcpy; simpl.
    rewrite (proj2 (Nat.leb_le _ _)) by lia. simpl. eexists. split; [done|].
    unfold wf, contents, allocated; simpl. rewrite length_put_at by lia. split_and!; try lia.
    unfold bytes_at, put_at. rewrite drop_app_ge by (rewrite length_take; lia).
    rewrite length_take, Nat.min_l, Nat.sub_diag, drop_0 by lia.
    rewrite take_app_ge by lia. f_equal.
    f_equal; [lia|]. f_equal. lia.
  - rewrite (proj2 (Nat.leb_gt _ _)) by lia. done.
Qed.

Lemma pull_spec b n :
  wf b →
  if decide (n ≤ size b)%nat then
    ∃ b', ofpbuf_pull b n = Ok (data b, b') ∧ wf b' ∧ contents b' = drop n (contents b) ∧
      base b' = base b ∧ data b' = (data b + n)%nat ∧ size b' = (size b - n)%nat
  else ofpbuf_pull b n = Abort.
Proof.
  intros Hb. unfold ofpbuf_pull. unfold wf, allocated in Hb. case_decide as Hn.
  - rewrite (proj2 (Nat.leb_le _ _)) by done. simpl. eexists. split; [done|].
    unfold wf, contents, bytes_at, allocated; simpl. split_and!; try done; [lia|].
    rewrite <-drop_drop. rewrite take_drop_commute. f_equal. f_equal. lia.
  - rewrite (proj2 (Nat.leb_gt _ _)) by lia. done.
Qed.

Lemma try_pull_spec b n :
  wf b →
  if decide (n ≤ size b)%nat then
    ∃ b', ofpbuf_try_pull b n = Ok (Some (data b), b') ∧ wf b' ∧
      contents b' = drop n (contents b) ∧
      base b' = base b ∧ data b' = (data b + n)%nat ∧ size b' = (size b - n)%nat
  else ofpbuf_try_pull b n = Ok (None, b).
Proof.
  intros Hb. unfold ofpbuf_try_pull. pose proof (pull_spec b n Hb) as Hp.
  case_decide as Hn.
  - rewrite (proj2 (Nat.leb_le _ _)) by done. destruct Hp as (b' & -> & Hp). simpl. eauto.
  - rewrite (proj2 (Nat.leb_gt _ _)) by lia. done.
Qed.

Lemma clone_data_spec p :
  ∃ b', ofpbuf_clone_data p = Ok b' ∧ wf b' ∧ contents b' = p ∧ data b' = 0%nat.
Proof.
  unfold ofpbuf_clone_data.
  destruct (put_spec (ofpbuf_new (length p)) p) as (b' & -> & Hwf & Hc & Hd & Hs).
  { unfold wf, ofpbuf_new, ofpbuf_init, ofpbuf_use, allocated; simpl. lia. }
  simpl. exists b'. split_and!; try done.
Qed.

(** ** Theorem *)

(** C28: a buffer is a queue of bytes with room in front: appending always
    succeeds and adds at the end, pushing adds at the front exactly when the
    headroom suffices and otherwise fails its assertion, pulling removes from
    the front, and a clone has the same bytes and no headroom. *)
Theorem ofpbuf_is_byte_queue b p n :
  wf b →
  (∃ d b', ofpbuf_put b p = Ok (d, b') ∧ wf b' ∧ contents b' = contents b ++ p ∧
     ofpbuf_headroom b' = ofpbuf_headroom b) ∧
  (if decide (length p ≤ ofpbuf_headroom b)%nat then
     ∃ d b', ofpbuf_push b p = Ok (d, b') ∧ wf b' ∧ contents b' = p ++ contents b ∧
       ofpbuf_headroom b' = (ofpbuf_headroom b - length p)%nat
   else ofpbuf_push b p = Abort) ∧
  (if decide (n ≤ length (contents b))%nat then
     ∃ d b', ofpbuf_try_pull b n = Ok (Some d, b') ∧ wf b' ∧
       contents b = take n (contents b) ++ contents b' ∧
       ofpbuf_headroom b' = (ofpbuf_headroom b + n)%nat
   else ofpbuf_try_pull b n = Ok (None, b)) ∧
  (∃ b', ofpbuf_clone b = Ok b' ∧ wf b' ∧ contents b' = contents b ∧
     ofpbuf_headroom b' = 0%nat).
Proof.
  intros Hb. split_and!.
  - destruct (put_spec b p Hb) as (b' & ? & ? & ? & ? & ?). eauto 6.
  - pose proof (push_spec b p Hb) as Hp. case_decide; [|done].
    destruct Hp as (b' & ? & ? & ? & ?). eauto 6.
  - rewrite length_contents by done. pose proof (try_pull_spec b n Hb) as Hp.
    case_decide; [|done]. destruct Hp as (b' & ? & ? & Hc & ? & ? & ?).
    do 2 eexists. split_and!; [done..| |done]. by rewrite Hc, take_drop.
  - apply clone_data_spec.
Qed.

End operations.

Lemma ofpbuf_is_byte_queue_witness :
  ∃ d b', ofpbuf_push (mk_ofpbuf [0; 0; 7] 2 1 None None None None) [5; 6] = Ok (d, b') ∧
    contents b' = [5; 6; 7].
Proof.
  destruct (ofpbuf_is_byte_queue (H := zero_malloc)
    (mk_ofpbuf [0; 0; 7] 2 1 None None None None) [5; 6] 0) as (_ & Hp & _).
  - unfold wf, allocated. simpl. lia.
  - destruct Hp as (d & b' & H1 & _ & H2 & _). exists d, b'. exact (conj H1 H2).
Defined.

End Ofpbuf.
