(* ===== verification/Flow.v ===== *)
(** * lib/flow.c and lib/flow.h: extracting a flow from a packet

    [flow_extract] walks a copy of the packet's buffer with [ofpbuf_pull] and
    records where the headers are.  It is split at the protocol layers; every
    read goes through [load], which aborts outside the buffer. *)

From S2P Require Import Prelude Ofp Ofpbuf.
Import Ofp Ofpbuf.

Module Flow.

(** All fields in network byte order. *)
Record flow := mk_flow {
  nw_src : Z;
  nw_dst : Z;
  in_port : Z;
  dl_vlan : Z;
  dl_type : Z;
  tp_src : Z;
  tp_dst : Z;
  dl_src : list Z;
  dl_dst : list Z;
  dl_vlan_pcp : Z;
  nw_tos : Z;
  nw_proto : Z;
  pad : list Z;
}.
#[export] Instance flow_eta : Eta flow := λ f,
  mk_flow (nw_src f) (nw_dst f) (in_port f) (dl_vlan f) (dl_type f) (tp_src f) (tp_dst f)
    (dl_src f) (dl_dst f) (dl_vlan_pcp f) (nw_tos f) (nw_proto f) (pad f).
#[export] Instance flow_eq_dec : EqDecision flow.
Proof. solve_decision. Defined.

(** [memset] to zero. *)
Definition zero_flow : flow :=
  mk_flow 0 0 0 0 0 0 0 (replicate 6 0) (replicate 6 0) 0 0 0 (replicate 3 0).

(** The 36 bytes that [flow_compare] and the hash functions see. *)
Definition flow_bytes (f : flow) : list Z :=
  le_bytes 4 (nw_src f) ++ le_bytes 4 (nw_dst f) ++ le_bytes 2 (in_port f)
  ++ le_bytes 2 (dl_vlan f) ++ le_bytes 2 (dl_type f) ++ le_bytes 2 (tp_src f)
  ++ le_bytes 2 (tp_dst f) ++ dl_src f ++ dl_dst f ++ le_bytes 1 (dl_vlan_pcp f)
  ++ le_bytes 1 (nw_tos f) ++ le_bytes 1 (nw_proto f) ++ pad f.

Definition flow_equal (a b : flow) : bool := bool_decide (flow_bytes a = flow_bytes b).

(** ** Pulling headers *)

Definition pull_arp (packet : ofpbuf) : comp (option nat * ofpbuf) :=
  if (ARP_ETH_HEADER_LEN <=? size packet)%nat then
    '(p, packet) ← ofpbuf_pull packet ARP_ETH_HEADER_LEN; Ok (Some p, packet)
  else Ok (None, packet).

Definition pull_ip (packet : ofpbuf) : comp (option nat * ofpbuf) :=
  if (IP_HEADER_LEN <=? size packet)%nat then
    ihl_ver ← load (base packet) (data packet + o_ip_ihl_ver) 1;
    let ip_len := Z.to_nat (IP_IHL ihl_ver * 4) in
    if (IP_HEADER_LEN <=? ip_len)%nat && (ip_len <=? size packet)%nat then
      '(p, packet) ← ofpbuf_pull packet ip_len; Ok (Some p, packet)
    else Ok (None, packet)
  else Ok (None, packet).

Definition pull_tcp (packet : ofpbuf) : comp (option nat * ofpbuf) :=
  if (TCP_HEADER_LEN <=? size packet)%nat then
    ctl ← load (base packet) (data packet + o_tcp_ctl) 2;
    let tcp_len := Z.to_nat (TCP_OFFSET ctl * 4) in
    if (TCP_HEADER_LEN <=? tcp_len)%nat && (tcp_len <=? size packet)%nat then
      '(p, packet) ← ofpbuf_pull packet tcp_len; Ok (Some p, packet)
    else Ok (None, packet)
  else Ok (None, packet).

Definition pull_udp (packet : ofpbuf) := ofpbuf_try_pull packet UDP_HEADER_LEN.
Definition pull_icmp (packet : ofpbuf) := ofpbuf_try_pull packet ICMP_HEADER_LEN.
Definition pull_eth (packet : ofpbuf) := ofpbuf_try_pull packet ETH_HEADER_LEN.
Definition pull_vlan (packet : ofpbuf) := ofpbuf_try_pull packet VLAN_HEADER_LEN.

(** ** [flow_extract]

    [b] is the copy that is consumed, [packet] the caller's buffer. *)

(** The 802.2 case; [None] is the early return for a frame too short to have
    an LLC header. *)
Definition extract_llc (b : ofpbuf) (f : flow) : comp (option (flow * ofpbuf)) :=
  match ofpbuf_at b 0 LLC_HEADER_LEN with
  | None => Ok None
  | Some llc =>
      llc_bytes ← load_bytes (base b) llc LLC_HEADER_LEN;
      is_snap ←
        (match ofpbuf_at b LLC_HEADER_LEN SNAP_HEADER_LEN with
         | None => Ok false
         | Some snap =>
             org ← load_bytes (base b) snap 3;
             Ok (bool_decide (llc_bytes = [LLC_DSAP_SNAP; LLC_SSAP_SNAP; LLC_CNTL_SNAP])
                 && bool_decide (org = SNAP_ORG_ETHERNET))
         end);
      if is_snap : bool then
        snap_type ← load (base b) (data b + LLC_HEADER_LEN + 3) 2;
        '(_, b) ← ofpbuf_pull b LLC_SNAP_HEADER_LEN;
        Ok (Some (f <| dl_type := snap_type |>, b))
      else
        '(_, b) ← ofpbuf_pull b LLC_HEADER_LEN;
        Ok (Some (f <| dl_type := htons OFP_DL_TYPE_NOT_ETH_TYPE |>, b))
  end.

Definition extract_vlan (b : ofpbuf) (f : flow) : comp (flow * ofpbuf) :=
  if dl_type f =? htons ETH_TYPE_VLAN then
    '(vh, b) ← pull_vlan b;
    match vh with
    | Some vh =>
        tci ← load (base b) vh 2;
        next_type ← load (base b) (vh + 2) 2;
        Ok (f <| dl_type := next_type |>
              <| dl_vlan := tci .& htons VLAN_VID_MASK |>
              <| dl_vlan_pcp := u8 ((ntohs tci >> VLAN_PCP_SHIFT) .& VLAN_PCP_BITMASK) |>, b)
    | None => Ok (f, b)
    end
  else Ok (f, b).

Definition extract_l4 (b : ofpbuf) (packet : ofpbuf) (f : flow) : comp (flow * ofpbuf) :=
  if nw_proto f =? IP_TYPE_TCP then
    '(tcp, b) ← pull_tcp b;
    match tcp with
    | Some tcp =>
        src ← load (base b) (tcp + o_tcp_src) 2;
        dst ← load (base b) (tcp + o_tcp_dst) 2;
        Ok (f <| tp_src := src |> <| tp_dst := dst |>, packet <| l7 := Some (data b) |>)
    | None => Ok (f <| nw_proto := 0 |>, packet)
    end
  else if nw_proto f =? IP_TYPE_UDP then
    '(udp, b) ← pull_udp b;
    match udp with
    | Some udp =>
        src ← load (base b) (udp + o_udp_src) 2;
        dst ← load (base b) (udp + o_udp_dst) 2;
        Ok (f <| tp_src := src |> <| tp_dst := dst |>, packet <| l7 := Some (data b) |>)
    | None => Ok (f <| nw_proto := 0 |>, packet)
    end
  else if nw_proto f =? IP_TYPE_ICMP then
    '(icmp, b) ← pull_icmp b;
    match icmp with
    | Some icmp =>
        typ ← load (base b) icmp 1;
        code ← load (base b) (icmp + 1) 1;
        Ok (f <| tp_src := htons typ |> <| tp_dst := htons code |>,
            packet <| l7 := Some (data b) |>)
    | None => Ok (f <| nw_proto := 0 |>, packet)
    end
  else Ok (f, packet).

Definition extract_ip (b : ofpbuf) (packet : ofpbuf) (f : flow) : comp (Z * flow * ofpbuf) :=
  '(nh, b) ← pull_ip b;
  match nh with
  | Some nh =>
      tos ← load (base b) (nh + o_ip_tos) 1;
      proto ← load (base b) (nh + o_ip_proto) 1;
      src ← load (base b) (nh + o_ip_src) 4;
      dst ← load (base b) (nh + o_ip_dst) 4;
      frag_off ← load (base b) (nh + o_ip_frag_off) 2;
      let f := f <| nw_tos := tos .& 0xfc |> <| nw_proto := proto |>
                 <| nw_src := src |> <| nw_dst := dst |> in
      let packet := packet <| l4 := Some (data b) |> in
      if negb (IP_IS_FRAGMENT frag_off) then
        '(f, packet) ← extract_l4 b packet f; Ok (0, f, packet)
      else Ok (1, f, packet)
  | None => Ok (0, f, packet)
  end.

Definition extract_arp (b : ofpbuf) (packet : ofpbuf) (f : flow) : comp (Z * flow * ofpbuf) :=
  '(arp, b) ← pull_arp b;
  match arp with
  | Some arp =>
      pro ← load (base b) (arp + o_ar_pro) 2;
      pln ← load (base b) (arp + o_ar_pln) 1;
      spa ← load (base b) (arp + o_ar_spa) 4;
      tpa ← load (base b) (arp + o_ar_tpa) 4;
      op ← load (base b) (arp + o_ar_op) 2;
      let f := if (pro =? htons ARP_PRO_IP) && (pln =? IP_ADDR_LEN)
               then f <| nw_src := spa |> <| nw_dst := tpa |> else f in
      Ok (0, f <| nw_proto := ntohs op .& 0xff |>, packet)
  | None => Ok (0, f, packet)
  end.

(** The frame after its Ethernet type is known. *)
Definition extract_l3 (eth : nat) (b : ofpbuf) (packet : ofpbuf) (f : flow)
    : comp (Z * flow * ofpbuf) :=
  '(f, b) ← extract_vlan b f;
  src ← load_bytes (base b) (eth + o_eth_src) ETH_ADDR_LEN;
  dst ← load_bytes (base b) (eth + o_eth_dst) ETH_ADDR_LEN;
  let f := f <| dl_src := src |> <| dl_dst := dst |> in
  let packet := packet <| l3 := Some (data b) |> in
  if dl_type f =? htons ETH_TYPE_IP then extract_ip b packet f
  else if dl_type f =? htons ETH_TYPE_ARP then extract_arp b packet f
  else Ok (0, f, packet).

Definition flow_extract (packet : ofpbuf) (port : Z) : comp (Z * flow * ofpbuf) :=
  let b := packet in
  let f := zero_flow <| dl_vlan := htons OFP_VLAN_NONE |> <| in_port := htons port |> in
  let packet := packet <| l2 := Some (data b) |> <| l3 := None |> <| l4 := None |>
                       <| l7 := None |> in
  '(eth, b) ← pull_eth b;
  match eth with
  | None => Ok (0, f, packet)
  | Some eth =>
      eth_type ← load (base b) (eth + o_eth_type) 2;
      if OFP_DL_TYPE_ETH2_CUTOFF <=? ntohs eth_type then
        extract_l3 eth b packet (f <| dl_type := eth_type |>)
      else
        r ← extract_llc b f;
        match r with
        | None => Ok (0, f, packet)
        | Some (f, b) => extract_l3 eth b packet f
        end
  end.

(** [flow_fill_match] *)
Definition flow_fill_match (from : flow) (wildcards : Z) : ofp_match :=
  {| m_wildcards := htonl wildcards;
     m_in_port := in_port from;
     m_dl_vlan := dl_vlan from;
     m_dl_src := dl_src from;
     m_dl_dst := dl_dst from;
     m_dl_type := dl_type from;
     m_nw_tos := nw_tos from;
     m_nw_proto := nw_proto from;
     m_nw_src := nw_src from;
     m_nw_dst := nw_dst from;
     m_tp_src := tp_src from;
     m_tp_dst := tp_dst from;
     m_dl_vlan_pcp := dl_vlan_pcp from |}.

End Flow.
