(* ===== verification/FlowFacts.v ===== *)
(** * Flow extraction: safety and layout

    [flow_extract] terminates normally on every packet, whatever its bytes, and
    what it records about the headers is true of the packet: these are the facts
    on which the actions of udatapath/dp_act.c rely. *)

From S2P Require Import Prelude Ofp Ofpbuf Flow.
Import Ofp Ofpbuf Flow.

Module FlowFacts.

Definition pulled (b : ofpbuf) (n : nat) : ofpbuf :=
  b <| data := (data b + n)%nat |> <| size := (size b - n)%nat |>.

(** [b] is what remains of [p] after pulling some headers. *)
Record inside (p b : ofpbuf) : Prop := {
  in_base : base b = base p;
  in_data : (data p ≤ data b)%nat;
  in_end : (data b + size b = data p + size p)%nat;
}.

Lemma inside_pulled p b n : (n ≤ size b)%nat → inside p b → inside p (pulled b n).
Proof. intros Hn [H1 H2 H3]. split; simpl; [done|lia|lia]. Qed.

(** The fields fit their widths. *)
Record flow_range (f : flow) : Prop := {
  fr_nw_src : 0 <= nw_src f < 2 ^ 32;
  fr_nw_dst : 0 <= nw_dst f < 2 ^ 32;
  fr_in_port : 0 <= in_port f < 2 ^ 16;
  fr_dl_vlan : 0 <= dl_vlan f < 2 ^ 16;
  fr_dl_type : 0 <= dl_type f < 2 ^ 16;
  fr_tp_src : 0 <= tp_src f < 2 ^ 16;
  fr_tp_dst : 0 <= tp_dst f < 2 ^ 16;
  fr_dl_src : length (dl_src f) = 6%nat ∧ Forall is_byte (dl_src f);
  fr_dl_dst : length (dl_dst f) = 6%nat ∧ Forall is_byte (dl_dst f);
  fr_dl_vlan_pcp : 0 <= dl_vlan_pcp f < 2 ^ 8;
  fr_nw_tos : 0 <= nw_tos f < 2 ^ 8;
  fr_nw_proto : 0 <= nw_proto f < 2 ^ 8;
  fr_pad : pad f = replicate 3 0;
}.

(** What is known about a packet [p0] after [flow_extract] returned [r] and [f]
    and recorded the headers in [p]. *)
Record extracted (p0 p : ofpbuf) (r : Z) (f : flow) : Prop := {
  ex_base : base p = base p0;
  ex_data : data p = data p0;
  ex_size : size p = size p0;
  ex_l2 : l2 p = Some (data p0);
  ex_l3 : ∀ o, l3 p = Some o → (data p0 + 14 ≤ o ≤ data p0 + size p0)%nat;
  ex_l4 : ∀ o, l4 p = Some o → dl_type f = htons ETH_TYPE_IP ∧
            ∃ o3, l3 p = Some o3 ∧ (o3 + 20 ≤ o ≤ data p0 + size p0)%nat;
  ex_no_l4 : dl_type f = htons ETH_TYPE_IP → l4 p = None → nw_proto f = 0;
  ex_vlan : dl_vlan f ≠ htons OFP_VLAN_NONE → (18 ≤ size p0)%nat;
  ex_result : r = 0 ∨ r = 1 ∧ l4 p ≠ None;
  ex_l4_header : r = 0 → dl_type f = htons ETH_TYPE_IP →
    ∀ o, l4 p = Some o →
      (nw_proto f = IP_TYPE_TCP → (o + 20 ≤ data p0 + size p0)%nat) ∧
      (nw_proto f = IP_TYPE_UDP → (o + 8 ≤ data p0 + size p0)%nat) ∧
      (nw_proto f = IP_TYPE_ICMP → (o + 4 ≤ data p0 + size p0)%nat);
}.

(** ** Pulling *)

Lemma wp_pull b n Q :
  (n ≤ size b)%nat → Q (data b, pulled b n) → wp (ofpbuf_pull b n) Q.
Proof. intros Hn HQ. unfold ofpbuf_pull. by rewrite (proj2 (Nat.leb_le _ _)). Qed.

Lemma wp_try_pull b n Q :
  ((n ≤ size b)%nat → Q (Some (data b), pulled b n)) → ((size b < n)%nat → Q (None, b)) →
  wp (ofpbuf_try_pull b n) Q.
Proof.
  intros H1 H2. unfold ofpbuf_try_pull. destruct (Nat.leb_spec n (size b)).
  - apply wp_bind, wp_pull; [done|]. by apply H1.
  - by apply H2.
Qed.

Lemma wp_pull_arp b Q :
  ((28 ≤ size b)%nat → Q (Some (data b), pulled b 28)) → Q (None, b) → wp (pull_arp b) Q.
Proof.
  intros H1 H2. unfold pull_arp, ARP_ETH_HEADER_LEN. destruct (Nat.leb_spec 28 (size b)).
  - apply wp_bind, wp_pull; [done|]. by apply H1.
  - by apply H2.
Qed.

Lemma wp_pull_ip b Q :
  wf b → (∀ n, (20 ≤ n ≤ size b)%nat → Q (Some (data b), pulled b n)) → Q (None, b) →
  wp (pull_ip b) Q.
Proof.
  intros Hb H1 H2. unfold pull_ip, IP_HEADER_LEN, o_ip_ihl_ver, wf, allocated in *.
  destruct (Nat.leb_spec 20 (size b)); [|done].
  do 2 wp_step; [lia|].
  destruct (_ && _) eqn:E; [|done]. apply andb_true_iff in E as [E1%Nat.leb_le E2%Nat.leb_le].
  apply wp_bind, wp_pull; [done|]. by apply H1.
Qed.

Lemma wp_pull_tcp b Q :
  wf b → (∀ n, (20 ≤ n ≤ size b)%nat → Q (Some (data b), pulled b n)) → Q (None, b) →
  wp (pull_tcp b) Q.
Proof.
  intros Hb H1 H2. unfold pull_tcp, TCP_HEADER_LEN, o_tcp_ctl, wf, allocated in *.
  destruct (Nat.leb_spec 20 (size b)); [|done].
  do 2 wp_step; [lia|].
  destruct (_ && _) eqn:E; [|done]. apply andb_true_iff in E as [E1%Nat.leb_le E2%Nat.leb_le].
  apply wp_bind, wp_pull; [done|]. by apply H1.
Qed.

(** ** Layers *)

Section extraction.
Context (p0 : ofpbuf) (Hwf : wf p0) (Hbytes : Forall is_byte (base p0)).

Lemma inside_wf b : inside p0 b → wf b.
Proof. intros [H1 H2 H3]. unfold wf, allocated in *. rewrite H1. lia. Qed.

Lemma int_range b off n :
  inside p0 b → 0 <= int_at (base b) off n < 256 ^ Z.of_nat n.
Proof. intros [-> _ _]. by apply int_at_range. Qed.

Lemma land_range x y n : 0 <= n → 0 <= x < 2 ^ n → 0 <= x .& y < 2 ^ n.
Proof.
  intros Hn Hx. assert ((x .& y) mod 2 ^ n = x .& y) as <-.
  { rewrite <-Z.land_ones by lia. rewrite <-Z.land_assoc, (Z.land_comm y), Z.land_assoc.
    rewrite Z.land_ones by lia. by rewrite (Z.mod_small x). }
  apply Z.mod_pos_bound. lia.
Qed.

(** A VLAN identifier in network order is never the value for no VLAN. *)
Lemma vlan_id_not_none x : x .& htons VLAN_VID_MASK ≠ htons OFP_VLAN_NONE.
Proof.
  intros H. assert (Z.testbit (x .& htons VLAN_VID_MASK) 4 = true) as Hb by by rewrite H.
  rewrite Z.land_spec in Hb. change (Z.testbit (htons VLAN_VID_MASK) 4) with false in Hb.
  by rewrite andb_false_r in Hb.
Qed.

Definition same_l2 (f f' : flow) : Prop :=
  dl_vlan f' = dl_vlan f ∧ dl_type f' = dl_type f ∧ in_port f' = in_port f.

Lemma extract_l4_spec b packet f :
  inside p0 b → flow_range f →
  wp (extract_l4 b packet f) (λ '(f', packet'),
    flow_range f' ∧ same_l2 f f' ∧
    (∃ o7, packet' = packet <| l7 := o7 |>) ∧
    (nw_proto f' = IP_TYPE_TCP → (data b + 20 ≤ data p0 + size p0)%nat) ∧
    (nw_proto f' = IP_TYPE_UDP → (data b + 8 ≤ data p0 + size p0)%nat) ∧
    (nw_proto f' = IP_TYPE_ICMP → (data b + 4 ≤ data p0 + size p0)%nat)).
Proof.
  intros Hin Hf. pose proof (inside_wf b Hin) as Hb. pose proof (in_end _ _ Hin) as Hend.
  unfold wf, allocated in Hb. unfold extract_l4.
  assert (∃ o7, packet = packet <| l7 := o7 |>) as Hp by (exists (l7 packet); by destruct packet).
  destruct (Z.eqb_spec (nw_proto f) IP_TYPE_TCP) as [E|E1];
    [|destruct (Z.eqb_spec (nw_proto f) IP_TYPE_UDP) as [E|E2];
      [|destruct (Z.eqb_spec (nw_proto f) IP_TYPE_ICMP) as [E|E3]]].
  - wp_step. apply wp_pull_tcp; [by apply inside_wf|intros n Hn|].
    + assert (inside p0 (pulled b n)) as Hin' by (by apply inside_pulled; [lia|]).
      unfold o_tcp_src, o_tcp_dst. do 2 wp_step; [simpl; lia|]. do 2 wp_step; [simpl; lia|].
      wp_step. pose proof (int_range _ (data b + 0) 2 Hin').
      pose proof (int_range _ (data b + 2) 2 Hin').
      split_and!; [by destruct Hf; split|done|eauto|simpl; lia|simpl; rewrite E; done..].
    + wp_step. split_and!; [by destruct Hf; split|done|done|done..].
  - wp_step. apply wp_try_pull; intros Hn.
    + unfold UDP_HEADER_LEN, o_udp_src, o_udp_dst in *.
      assert (inside p0 (pulled b 8)) as Hin' by (by apply inside_pulled; [lia|]).
      do 2 wp_step; [simpl; lia|]. do 2 wp_step; [simpl; lia|].
      wp_step. pose proof (int_range _ (data b + 0) 2 Hin').
      pose proof (int_range _ (data b + 2) 2 Hin').
      split_and!; [by destruct Hf; split|done|eauto|simpl; rewrite E; try done..]; simpl; lia.
    + wp_step. split_and!; [by destruct Hf; split|done|done|done..].
  - wp_step. apply wp_try_pull; intros Hn.
    + unfold ICMP_HEADER_LEN in *. do 2 wp_step; [simpl; lia|]. do 2 wp_step; [simpl; lia|].
      wp_step. pose proof (htons_range (int_at (base (pulled b 4)) (data b) 1)).
      pose proof (htons_range (int_at (base (pulled b 4)) (data b + 1) 1)).
      split_and!; [by destruct Hf; split|done|eauto|simpl; rewrite E; try done..]; simpl; lia.
    + wp_step. split_and!; [by destruct Hf; split|done|done|done..].
  - wp_step. split_and!; done.
Qed.

Lemma extract_ip_spec b packet f :
  inside p0 b → flow_range f → nw_proto f = 0 → l4 packet = None →
  dl_type f = htons ETH_TYPE_IP →
  wp (extract_ip b packet f) (λ '(r, f', packet'),
    flow_range f' ∧ same_l2 f f' ∧
    (∃ o4 o7, packet' = packet <| l4 := o4 |> <| l7 := o7 |> ∧
     (o4 = None → nw_proto f' = 0) ∧ (r = 0 ∨ r = 1 ∧ o4 ≠ None) ∧
     ∀ o, o4 = Some o → (data b + 20 ≤ o ≤ data p0 + size p0)%nat ∧
       (r = 0 →
        (nw_proto f' = IP_TYPE_TCP → (o + 20 ≤ data p0 + size p0)%nat) ∧
        (nw_proto f' = IP_TYPE_UDP → (o + 8 ≤ data p0 + size p0)%nat) ∧
        (nw_proto f' = IP_TYPE_ICMP → (o + 4 ≤ data p0 + size p0)%nat)))).
Proof.
  intros Hin Hf Hproto Hl4 Htype. pose proof (inside_wf b Hin) as Hb.
  pose proof (in_end _ _ Hin) as Hend. unfold extract_ip. wp_step.
  apply wp_pull_ip; [done|intros n Hn|].
  2:{ wp_step. split_and!; [done|done|]. exists None, (l7 packet). split_and!; try done; [|by left].
      destruct packet; simpl in *; by subst. }
  unfold o_ip_tos, o_ip_proto, o_ip_src, o_ip_dst, o_ip_frag_off, wf, allocated in *.
  assert (inside p0 (pulled b n)) as Hin' by (by apply inside_pulled; [lia|]).
  do 5 (do 2 wp_step; [simpl; lia|]).
  pose proof (int_range _ (data b + 1) 1 Hin'). pose proof (int_range _ (data b + 9) 1 Hin').
  pose proof (int_range _ (data b + 12) 4 Hin'). pose proof (int_range _ (data b + 16) 4 Hin').
  set (f1 := f <| nw_tos := _ |> <| nw_proto := _ |> <| nw_src := _ |> <| nw_dst := _ |>).
  assert (flow_range f1) as Hf1.
  { destruct Hf; split; simpl; try done. apply land_range; done. }
  destruct (IP_IS_FRAGMENT _); simpl negb; cbv iota.
  - wp_step. split_and!; [done|done|]. exists (Some (data (pulled b n))), (l7 packet).
    split_and!; [by destruct packet|done|by right|].
    intros o [= <-]. simpl. split; [lia|done].
  - wp_step. eapply wp_mono; [by apply extract_l4_spec|].
    intros [f' packet'] (Hf' & Hl2 & (o7 & ->) & Htcp & Hudp & Hicmp). wp_step.
    split_and!; [done|by destruct Hl2 as (? & ? & ?)|]. exists (Some (data (pulled b n))), o7.
    split_and!; [by destruct packet|done|by left|].
    intros o [= <-]. simpl in *. split; [lia|]. intros _. done.
Qed.

Lemma extract_arp_spec b packet f :
  inside p0 b → flow_range f →
  wp (extract_arp b packet f) (λ '(r, f', packet'),
    flow_range f' ∧ same_l2 f f' ∧ packet' = packet ∧ r = 0).
Proof.
  intros Hin Hf. pose proof (inside_wf b Hin) as Hb. pose proof (in_end _ _ Hin) as Hend.
  unfold extract_arp. wp_step. apply wp_pull_arp; [intros Hn|by wp_step].
  unfold o_ar_pro, o_ar_pln, o_ar_spa, o_ar_tpa, o_ar_op, wf, allocated in *.
  assert (inside p0 (pulled b 28)) as Hin' by (by apply inside_pulled).
  do 5 (do 2 wp_step; [simpl; lia|]). wp_step.
  pose proof (int_range _ (data b + 14) 4 Hin'). pose proof (int_range _ (data b + 24) 4 Hin').
  assert (0 <= ntohs (int_at (base (pulled b 28)) (data b + 6) 2) .& 0xff < 2 ^ 8).
  { rewrite Z.land_comm. by apply land_range. }
  split_and!; [|by case_match|done|done].
  destruct Hf; case_match; split; done.
Qed.

Lemma extract_vlan_spec b f :
  inside p0 b → (data p0 + 14 ≤ data b)%nat → flow_range f →
  dl_vlan f = htons OFP_VLAN_NONE →
  wp (extract_vlan b f) (λ '(f', b'),
    inside p0 b' ∧ (data p0 + 14 ≤ data b')%nat ∧ flow_range f' ∧
    nw_proto f' = nw_proto f ∧ in_port f' = in_port f ∧
    (dl_vlan f' ≠ htons OFP_VLAN_NONE → (18 ≤ size p0)%nat)).
Proof.
  intros Hin Hd Hf Hv. pose proof (inside_wf b Hin) as Hb. pose proof (in_end _ _ Hin) as Hend.
  unfold extract_vlan. destruct (_ =? _); [|by wp_step].
  wp_step. apply wp_try_pull; intros Hn; [|by wp_step].
  unfold VLAN_HEADER_LEN, wf, allocated in *.
  assert (inside p0 (pulled b 4)) as Hin' by (by apply inside_pulled).
  do 2 (do 2 wp_step; [simpl; lia|]). wp_step.
  pose proof (int_range _ (data b) 2 Hin'). pose proof (int_range _ (data b + 2) 2 Hin').
  split_and!; [done|simpl; lia| |done|done|simpl; lia].
  destruct Hf; split; simpl; try done.
  - apply land_range; done.
  - unfold u8. zlia.
Qed.

Lemma extract_llc_spec b f :
  inside p0 b → flow_range f →
  wp (extract_llc b f) (λ r,
    match r with
    | None => True
    | Some (f', b') => inside p0 b' ∧ (data b ≤ data b')%nat ∧ flow_range f' ∧
        nw_proto f' = nw_proto f ∧ dl_vlan f' = dl_vlan f ∧ in_port f' = in_port f
    end).
Proof.
  intros Hin Hf. pose proof (inside_wf b Hin) as Hb.
  unfold extract_llc, ofpbuf_at, LLC_SNAP_HEADER_LEN, LLC_HEADER_LEN, SNAP_HEADER_LEN.
  unfold wf, allocated in Hb.
  destruct (Nat.leb_spec (0 + 3) (size b)) as [H3|H3]; [|by wp_step].
  do 2 wp_step; [lia|]. wp_step.
  destruct (Nat.leb_spec (3 + 5) (size b)) as [H8|H8]; cycle 1.
  { wp_step. apply wp_bind, wp_pull; [done|]. wp_step.
    split_and!; [by apply inside_pulled|simpl; lia|by destruct Hf; split|done..]. }
  do 2 wp_step; [lia|]. wp_step. destruct (_ && _).
  - do 2 wp_step; [lia|]. apply wp_bind, wp_pull; [done|]. wp_step.
    pose proof (int_range b (data b + 3 + 3) 2 Hin).
    split_and!; [by apply inside_pulled|simpl; lia|by destruct Hf; split|done..].
  - apply wp_bind, wp_pull; [done|]. wp_step.
    split_and!; [by apply inside_pulled|simpl; lia|by destruct Hf; split|done..].
Qed.

(** The caller's buffer when the link layer has been read. *)
Definition start_packet : ofpbuf :=
  p0 <| l2 := Some (data p0) |> <| l3 := None |> <| l4 := None |> <| l7 := None |>.

Lemma extract_l3_spec b f :
  inside p0 b → (data p0 + 14 ≤ data b)%nat → flow_range f → nw_proto f = 0 →
  dl_vlan f = htons OFP_VLAN_NONE →
  wp (extract_l3 (data p0) b start_packet f) (λ '(r, f', packet'),
    flow_range f' ∧ extracted p0 packet' r f' ∧ in_port f' = in_port f).
Proof.
  intros Hin0 Hd0 Hf0 Hproto0 Hv0. unfold extract_l3. wp_step.
  eapply wp_mono; [by apply extract_vlan_spec|]. rename f into f0. clear b Hin0 Hd0.
  intros [f b] (Hin & Hd & Hf & Hproto & Hport & Hv). rewrite Hproto0 in Hproto.
  pose proof (in_end _ _ Hin) as Hend. pose proof (in_base _ _ Hin) as Hbase.
  unfold wf, allocated, o_eth_src, o_eth_dst, ETH_ADDR_LEN in *.
  do 2 (do 2 wp_step; [rewrite Hbase; lia|]).
  set (f1 := f <| dl_src := _ |> <| dl_dst := _ |>).
  assert (flow_range f1) as Hf1.
  { destruct Hf; split; simpl; try done; rewrite Hbase;
      (split; [apply length_bytes_at; lia|by apply bytes_at_is_byte]). }
  destruct (Z.eqb_spec (dl_type f1) (htons ETH_TYPE_IP)) as [Hip|Hip].
  - eapply wp_mono; [by apply extract_ip_spec|].
    intros [[r f'] packet'] (Hf' & (Hl2v & Hl2t & Hl2p) & (o4 & o7 & -> & Hno4 & Hr & H4)).
    split_and!; [done| |by rewrite Hl2p]. split; try done; simpl.
    + intros o [= <-]. lia.
    + intros o ->. destruct (H4 o eq_refl) as [Ho _]. split; [by rewrite Hl2t|]. eauto.
    + by rewrite Hl2v.
    + intros -> _ o ->. by apply H4.
  - destruct (dl_type f1 =? htons ETH_TYPE_ARP).
    + eapply wp_mono; [by apply extract_arp_spec|].
      intros [[r f'] packet'] (Hf' & (Hl2v & Hl2t & Hl2p) & -> & ->).
      split_and!; [done| |by rewrite Hl2p]. split; try done; simpl.
      * intros o [= <-]. lia.
      * rewrite Hl2t. done.
      * by rewrite Hl2v.
      * by left.
    + wp_step. split_and!; [done| |done]. split; try done; simpl; [intros o [= <-]; lia|by left].
Qed.

Lemma start_extracted f : dl_type f = 0 → dl_vlan f = htons OFP_VLAN_NONE →
  extracted p0 start_packet 0 f.
Proof. intros Ht Hv. split; try done; try (rewrite Ht; done). by left. Qed.

Lemma flow_extract_spec port :
  0 <= port < 65536 →
  wp (flow_extract p0 port) (λ '(r, f, packet), flow_range f ∧ extracted p0 packet r f ∧
    in_port f = htons port).
Proof.
  intros Hport. pose proof (htons_range port). unfold flow_extract.
  set (f := zero_flow <| dl_vlan := _ |> <| in_port := _ |>).
  assert (flow_range f) as Hf.
  { split; simpl; try done; split; try done; repeat constructor; done. }
  fold start_packet. wp_step. unfold ETH_HEADER_LEN, pull_eth, ETH_HEADER_LEN.
  apply wp_try_pull; intros Hn.
  2:{ wp_step. split_and!; [done|by apply start_extracted|done]. }
  assert (inside p0 (pulled p0 14)) as Hin by (apply inside_pulled; done).
  unfold o_eth_type, wf, allocated in *. do 2 wp_step; [simpl; lia|].
  pose proof (int_range _ (data p0 + 12) 2 Hin).
  destruct (_ <=? _).
  - eapply wp_mono; [apply extract_l3_spec; [done|simpl; lia|by destruct Hf; split|done|done]|].
    intros [[r f'] packet'] (? & ? & ?). done.
  - wp_step. eapply wp_mono; [by apply extract_llc_spec|].
    intros [[f' b']|]; [|intros _; wp_step; split_and!; [done|by apply start_extracted|done]].
    intros (Hin' & Hd & Hf' & Hproto & Hv & Hp).
    eapply wp_mono; [apply extract_l3_spec; [done|simpl in *; lia|done|done|done]|].
    intros [[r f''] packet'] (? & ? & Hp'). split_and!; [done|done|]. by rewrite Hp', Hp.
Qed.

End extraction.

Lemma flow_extract_ok p port :
  wf p → Forall is_byte (base p) → 0 <= port < 65536 →
  ∃ r f p', flow_extract p port = Ok (r, f, p') ∧ flow_range f ∧ extracted p p' r f ∧
    in_port f = htons port.
Proof.
  intros Hwf Hb Hp. destruct (wp_inv _ _ (flow_extract_spec p Hwf Hb port Hp))
    as ([[r f] p'] & He & Hf & Hx & Hi). eauto 7.
Qed.

(** C26: flow extraction is total and memory safe: for every packet whose bytes
    lie in its buffer it returns, having read only inside the buffer; the packet
    itself is unchanged, the header pointers it records lie in the packet, a
    transport header it reports is complete, and every field of the flow is in
    range. *)
Theorem flow_extract_safe p port :
  wf p → Forall is_byte (base p) → 0 <= port < 65536 →
  ∃ r f p', flow_extract p port = Ok (r, f, p') ∧ flow_range f ∧ extracted p p' r f ∧
    in_port f = htons port.
Proof. apply flow_extract_ok. Qed.

Lemma flow_extract_safe_witness :
  ∃ r f p', flow_extract (mk_ofpbuf (replicate 60 8) 0 60 None None None None) 3 = Ok (r, f, p') ∧
    in_port f = htons 3.
Proof.
  destruct (flow_extract_safe (mk_ofpbuf (replicate 60 8) 0 60 None None None None) 3)
    as (r & f & p' & H1 & _ & _ & H2).
  - unfold wf, allocated. simpl. lia.
  - apply Forall_replicate. unfold is_byte. lia.
  - lia.
  - exists r, f, p'. exact (conj H1 H2).
Defined.

End FlowFacts.
