(* ===== verification/SwitchFlow.v ===== *)
(** * udatapath/switch-flow.c: flow keys, flow entries, matching

    A flow entry is a record; its actions are the bytes of the action list.
    The list links that tables thread through an entry are kept by the tables
    (TableLinear.v, TableHash.v), and the allocation of entries by the heap of
    Table.v. *)

From S2P Require Import Prelude Ofp Ofpbuf Flow.
Import Ofp Ofpbuf Flow.

Module SwitchFlow.

Record sw_flow_key := mk_sw_flow_key {
  kflow : flow;
  wildcards : Z;
  nw_src_mask : Z;
  nw_dst_mask : Z;
}.
#[export] Instance sw_flow_key_eta : Eta sw_flow_key := λ k,
  mk_sw_flow_key (kflow k) (wildcards k) (nw_src_mask k) (nw_dst_mask k).

Record sw_flow := mk_sw_flow {
  key : sw_flow_key;
  cookie : Z;
  priority : Z;
  idle_timeout : Z;
  hard_timeout : Z;
  used : Z;
  created : Z;
  packet_count : Z;
  byte_count : Z;
  reason : Z;
  send_flow_rem : Z;
  emerg_flow : Z;
  sf_acts : list Z;      (* [actions_len] bytes *)
  serial : Z;
}.
#[export] Instance sw_flow_eta : Eta sw_flow := λ f,
  mk_sw_flow (key f) (cookie f) (priority f) (idle_timeout f) (hard_timeout f) (used f)
    (created f) (packet_count f) (byte_count f) (reason f) (send_flow_rem f) (emerg_flow f)
    (sf_acts f) (serial f).

(** ** Matching *)

Definition flow_fields_match (a b : flow) (w src_mask dst_mask : Z) : bool :=
  (truth (w .& OFPFW_IN_PORT) || (in_port a =? in_port b))
  && (truth (w .& OFPFW_DL_VLAN) || (dl_vlan a =? dl_vlan b))
  && (truth (w .& OFPFW_DL_VLAN_PCP) || (dl_vlan_pcp a =? dl_vlan_pcp b))
  && (truth (w .& OFPFW_DL_SRC) || eth_addr_equals (dl_src a) (dl_src b))
  && (truth (w .& OFPFW_DL_DST) || eth_addr_equals (dl_dst a) (dl_dst b))
  && (truth (w .& OFPFW_DL_TYPE) || (dl_type a =? dl_type b))
  && (truth (w .& OFPFW_NW_TOS) || (nw_tos a =? nw_tos b))
  && (truth (w .& OFPFW_NW_PROTO) || (nw_proto a =? nw_proto b))
  && negb (truth ((nw_src a .^ nw_src b) .& src_mask))
  && negb (truth ((nw_dst a .^ nw_dst b) .& dst_mask))
  && (truth (w .& OFPFW_TP_SRC) || (tp_src a =? tp_src b))
  && (truth (w .& OFPFW_TP_DST) || (tp_dst a =? tp_dst b)).

Definition make_nw_mask (n_wild_bits : Z) : Z :=
  let n_wild_bits := n_wild_bits .& ((1 << OFPFW_NW_SRC_BITS) - 1) in
  if n_wild_bits <? 32 then htonl (u32 (Z.lnot ((1 << n_wild_bits) - 1))) else 0.

Definition flow_matches_1wild (a b : sw_flow_key) : bool :=
  flow_fields_match (kflow a) (kflow b) (wildcards b) (nw_src_mask b) (nw_dst_mask b).

Definition flow_matches_2wild (a b : sw_flow_key) : bool :=
  flow_fields_match (kflow a) (kflow b) (wildcards a .| wildcards b)
    (nw_src_mask a .& nw_src_mask b) (nw_dst_mask a .& nw_dst_mask b).

Definition flow_matches_desc (t d : sw_flow_key) (strict : bool) : bool :=
  if strict && negb (wildcards d =? wildcards t) then false
  else flow_matches_1wild t d.

Definition flow_matches_2desc (t d : sw_flow_key) (strict : bool) : bool :=
  if strict && negb (wildcards d =? wildcards t) then false
  else flow_matches_2wild t d.

(** ** [flow_extract_match]: the key that a match description stands for *)

Definition OFPFW_TP : Z := OFPFW_TP_SRC .| OFPFW_TP_DST.
Definition OFPFW_NW : Z :=
  OFPFW_NW_TOS .| OFPFW_NW_PROTO .| OFPFW_NW_SRC_MASK .| OFPFW_NW_DST_MASK.

Definition flow_extract_match (from : ofp_match) : sw_flow_key :=
  let w := ntohl (m_wildcards from) .& OFPFW_ALL in
  let f := zero_flow
             <| dl_vlan_pcp := m_dl_vlan_pcp from |>
             <| in_port := m_in_port from |>
             <| dl_vlan := m_dl_vlan from |>
             <| dl_src := m_dl_src from |>
             <| dl_dst := m_dl_dst from |>
             <| dl_type := m_dl_type from |> in
  let '(f, w) :=
    if truth (w .& OFPFW_DL_TYPE) then (f, w .| (OFPFW_NW .| OFPFW_TP))
    else if m_dl_type from =? htons ETH_TYPE_IP then
      let f := f <| nw_tos := m_nw_tos from .& 0xfc |>
                 <| nw_proto := m_nw_proto from |>
                 <| nw_src := m_nw_src from |>
                 <| nw_dst := m_nw_dst from |> in
      if truth (w .& OFPFW_NW_PROTO) then (f, w .| OFPFW_TP)
      else if (m_nw_proto from =? IP_TYPE_TCP) || (m_nw_proto from =? IP_TYPE_UDP)
              || (m_nw_proto from =? IP_TYPE_ICMP) then
        (f <| tp_src := m_tp_src from |> <| tp_dst := m_tp_dst from |>, w)
      else (f, w .& u32 (Z.lnot OFPFW_TP))
    else if m_dl_type from =? htons ETH_TYPE_ARP then
      (f <| nw_src := m_nw_src from |> <| nw_dst := m_nw_dst from |>
         <| nw_proto := m_nw_proto from |>, w .& u32 (Z.lnot OFPFW_TP))
    else (f, w .& u32 (Z.lnot (OFPFW_NW .| OFPFW_TP))) in
  mk_sw_flow_key f w (make_nw_mask (w >> OFPFW_NW_SRC_SHIFT))
    (make_nw_mask (w >> OFPFW_NW_DST_SHIFT)).

(** ** Flow entries *)

(** The entry [flow_alloc] returns, cleared and with room for the actions. *)
Definition new_flow (actions_len : nat) : sw_flow :=
  mk_sw_flow (mk_sw_flow_key zero_flow 0 0 0) 0 0 0 0 0 0 0 0 0 0 0
    (replicate actions_len 0) 0.

(** [flow_setup_actions] at time [now]; it exits the process if the allocation
    is too small. *)
Definition flow_setup_actions (now : Z) (actions : list Z) (f : sw_flow) : comp sw_flow :=
  assert_c (length actions <=? length (sf_acts f))%nat;;
  Ok (f <| used := now |> <| created := now |> <| byte_count := 0 |>
        <| packet_count := 0 |> <| sf_acts := actions |>).

(** [flow_timeout] at time [now]: whether the entry expires, and the entry with
    the reason recorded.  The timeouts are promoted to [int] before the
    multiplication, the sums are 64 bits wide. *)
Definition flow_timeout (now : Z) (f : sw_flow) : bool * sw_flow :=
  if negb (idle_timeout f =? OFP_FLOW_PERMANENT)
     && (u64 (used f + idle_timeout f * 1000) <? now)
  then (true, f <| reason := OFPRR_IDLE_TIMEOUT |>)
  else if negb (hard_timeout f =? OFP_FLOW_PERMANENT)
     && (u64 (created f + hard_timeout f * 1000) <? now)
  then (true, f <| reason := OFPRR_HARD_TIMEOUT |>)
  else (false, f).

(** [flow_has_out_port]: the loop over the action list.  The fuel is the number
    of bytes left, which suffices when every length is positive.  A length
    beyond the end, which would wrap the unsigned counter, aborts. *)
Fixpoint out_port_loop (fuel : nat) (acts : list Z) (p actions_len : nat) (out_port : Z)
    : comp bool :=
  if (actions_len =? 0)%nat then Ok false
  else match fuel with
  | O => NoFuel
  | S fuel =>
      typ ← load acts p 2;
      len ← load acts (p + 2) 2;
      let len := Z.to_nat (ntohs len) in
      found ← (if typ =? htons OFPAT_OUTPUT then
                 port ← load acts (p + 4) 2; Ok (port =? out_port)
               else Ok false);
      if found : bool then Ok true
      else
        assert_c (len <=? actions_len)%nat;;
        out_port_loop fuel acts (p + len) (actions_len - len) out_port
  end.

Definition flow_has_out_port (f : sw_flow) (out_port : Z) : comp bool :=
  if out_port =? htons OFPP_NONE then Ok true
  else out_port_loop (length (sf_acts f)) (sf_acts f) 0 (length (sf_acts f)) out_port.

(** [flow_used] at time [now] for a packet of [n] bytes. *)
Definition flow_used (now : Z) (n : nat) (f : sw_flow) : sw_flow :=
  f <| used := now |> <| packet_count := u64 (packet_count f + 1) |>
    <| byte_count := u64 (byte_count f + Z.of_nat n) |>.

End SwitchFlow.
