(* ===== verification/SwitchFlowFacts.v ===== *)
(** * Matching: what keys denote

    A key denotes the set of packets (flows) it matches.  The theorems say that
    the comparisons of switch-flow.c decide membership and overlap of these sets,
    that address wildcards are prefixes, and that a key without wildcards denotes
    a single flow, which is what lets the hash table compare bytes. *)

From S2P Require Import Prelude Ofp Ofpbuf Flow FlowFacts SwitchFlow.
Import Ofp Ofpbuf Flow FlowFacts SwitchFlow.

Module SwitchFlowFacts.

(** Address [x] agrees with [y] on the bits of [mask]. *)
Definition agrees (mask x y : Z) : Prop := (x .^ y) .& mask = 0.

Definition wild (w bit : Z) : Prop := w .& bit ≠ 0.

(** The flows that a key with wildcards [w] and address masks denotes. *)
Record fields_agree (w src_mask dst_mask : Z) (a b : flow) : Prop := {
  fa_in_port : wild w OFPFW_IN_PORT ∨ in_port a = in_port b;
  fa_dl_vlan : wild w OFPFW_DL_VLAN ∨ dl_vlan a = dl_vlan b;
  fa_dl_vlan_pcp : wild w OFPFW_DL_VLAN_PCP ∨ dl_vlan_pcp a = dl_vlan_pcp b;
  fa_dl_src : wild w OFPFW_DL_SRC ∨ dl_src a = dl_src b;
  fa_dl_dst : wild w OFPFW_DL_DST ∨ dl_dst a = dl_dst b;
  fa_dl_type : wild w OFPFW_DL_TYPE ∨ dl_type a = dl_type b;
  fa_nw_tos : wild w OFPFW_NW_TOS ∨ nw_tos a = nw_tos b;
  fa_nw_proto : wild w OFPFW_NW_PROTO ∨ nw_proto a = nw_proto b;
  fa_nw_src : agrees src_mask (nw_src a) (nw_src b);
  fa_nw_dst : agrees dst_mask (nw_dst a) (nw_dst b);
  fa_tp_src : wild w OFPFW_TP_SRC ∨ tp_src a = tp_src b;
  fa_tp_dst : wild w OFPFW_TP_DST ∨ tp_dst a = tp_dst b;
}.

Definition denotes (k : sw_flow_key) (f : flow) : Prop :=
  fields_agree (wildcards k) (nw_src_mask k) (nw_dst_mask k) f (kflow k).

Lemma truth_spec x : truth x = true ↔ x ≠ 0.
Proof. unfold truth. rewrite negb_true_iff, Z.eqb_neq. done. Qed.

Lemma wild_or w bit (b : bool) P :
  (b = true ↔ P) → (truth (w .& bit) || b = true ↔ wild w bit ∨ P).
Proof. intros H. rewrite orb_true_iff, truth_spec, H. done. Qed.

Lemma agrees_spec mask x y : negb (truth ((x .^ y) .& mask)) = true ↔ agrees mask x y.
Proof. unfold truth, agrees. rewrite negb_involutive, Z.eqb_eq. done. Qed.

Lemma eth_addr_equals_spec a b : eth_addr_equals a b = true ↔ a = b.
Proof. apply bool_decide_eq_true. Qed.

Lemma flow_fields_match_spec a b w sm dm :
  flow_fields_match a b w sm dm = true ↔ fields_agree w sm dm a b.
Proof.
  unfold flow_fields_match. rewrite !andb_true_iff, !agrees_spec.
  rewrite !(wild_or _ _ (_ =? _) _ (Z.eqb_eq _ _)).
  rewrite !(wild_or _ _ (eth_addr_equals _ _) _ (eth_addr_equals_spec _ _)).
  split; [|intros []; tauto].
  intros H. decompose [and] H. by split.
Qed.

(** ** Overlap *)

Lemma wild_lor w1 w2 bit : wild (w1 .| w2) bit ↔ wild w1 bit ∨ wild w2 bit.
Proof.
  unfold wild. rewrite Z.land_lor_distr_l.
  pose proof (Z.lor_eq_0_iff (w1 .& bit) (w2 .& bit)) as H.
  destruct (decide (w1 .& bit = 0)); destruct (decide (w2 .& bit = 0)); tauto.
Qed.
#[export] Instance wild_dec w bit : Decision (wild w bit).
Proof. unfold wild. apply _. Defined.

(** The address that has the bits of [a] under its mask and those of [b]
    elsewhere. *)
Definition merge_addr (ma a b : Z) : Z := (a .& ma) .| Z.ldiff b ma.

Lemma merge_addr_agrees ma mb a b :
  agrees (ma .& mb) a b → agrees ma (merge_addr ma a b) a ∧ agrees mb (merge_addr ma a b) b.
Proof.
  unfold agrees, merge_addr. intros H.
  assert (∀ n, 0 <= n → Z.testbit a n ≠ Z.testbit b n →
            Z.testbit ma n && Z.testbit mb n = false) as Hbit.
  { intros n Hn Hne. assert (Z.testbit ((a .^ b) .& (ma .& mb)) n = false) as Hz
      by (rewrite H; apply Z.bits_0).
    rewrite !Z.land_spec, Z.lxor_spec in Hz.
    by destruct (Z.testbit a n), (Z.testbit b n). }
  split; apply Z.bits_inj'; intros n Hn; specialize (Hbit n Hn);
    rewrite Z.bits_0, Z.land_spec, Z.lxor_spec, Z.lor_spec, Z.land_spec, Z.ldiff_spec;
    destruct (Z.testbit a n), (Z.testbit b n), (Z.testbit ma n), (Z.testbit mb n);
    simpl in *; try done; by exfalso; discriminate (Hbit ltac:(done)).
Qed.

Lemma agrees_common ma mb x a b : agrees ma x a → agrees mb x b → agrees (ma .& mb) a b.
Proof.
  unfold agrees. intros H1 H2. apply Z.bits_inj'. intros n Hn.
  assert (Z.testbit ((x .^ a) .& ma) n = false) as B1 by (rewrite H1; apply Z.bits_0).
  assert (Z.testbit ((x .^ b) .& mb) n = false) as B2 by (rewrite H2; apply Z.bits_0).
  rewrite !Z.land_spec, Z.lxor_spec in *. rewrite Z.bits_0.
  by destruct (Z.testbit x n), (Z.testbit a n), (Z.testbit b n), (Z.testbit ma n),
    (Z.testbit mb n).
Qed.

Definition pick {A} (w bit : Z) (wild_value fixed : A) : A :=
  if decide (wild w bit) then wild_value else fixed.

(** A flow in both keys, if there is one. *)
Definition merge_flow (a b : sw_flow_key) : flow :=
  let fa := kflow a in let fb := kflow b in let w := wildcards a in
  {| nw_src := merge_addr (nw_src_mask a) (nw_src fa) (nw_src fb);
     nw_dst := merge_addr (nw_dst_mask a) (nw_dst fa) (nw_dst fb);
     in_port := pick w OFPFW_IN_PORT (in_port fb) (in_port fa);
     dl_vlan := pick w OFPFW_DL_VLAN (dl_vlan fb) (dl_vlan fa);
     dl_type := pick w OFPFW_DL_TYPE (dl_type fb) (dl_type fa);
     tp_src := pick w OFPFW_TP_SRC (tp_src fb) (tp_src fa);
     tp_dst := pick w OFPFW_TP_DST (tp_dst fb) (tp_dst fa);
     dl_src := pick w OFPFW_DL_SRC (dl_src fb) (dl_src fa);
     dl_dst := pick w OFPFW_DL_DST (dl_dst fb) (dl_dst fa);
     dl_vlan_pcp := pick w OFPFW_DL_VLAN_PCP (dl_vlan_pcp fb) (dl_vlan_pcp fa);
     nw_tos := pick w OFPFW_NW_TOS (nw_tos fb) (nw_tos fa);
     nw_proto := pick w OFPFW_NW_PROTO (nw_proto fb) (nw_proto fa);
     pad := pad fa |}.

Lemma pick_l {A} w bit (x y : A) : wild w bit ∨ pick w bit x y = y.
Proof. unfold pick. case_decide; auto. Qed.

Lemma pick_r {A} w w' bit (x y : A) :
  wild (w .| w') bit ∨ y = x → wild w' bit ∨ pick w bit x y = x.
Proof. rewrite wild_lor. unfold pick. case_decide; tauto. Qed.

Lemma merge_flow_denoted a b :
  flow_matches_2wild a b = true → denotes a (merge_flow a b) ∧ denotes b (merge_flow a b).
Proof.
  unfold flow_matches_2wild. rewrite flow_fields_match_spec. intros H. destruct H.
  split; split; simpl; try apply pick_l; try by apply pick_r.
  all: by (eapply merge_addr_agrees; eassumption).
Qed.

Lemma wild_common {A} w1 w2 bit (x a b : A) :
  wild w1 bit ∨ x = a → wild w2 bit ∨ x = b → wild (w1 .| w2) bit ∨ a = b.
Proof. rewrite wild_lor. intros [?|<-] [?|<-]; tauto. Qed.

(** ** Theorems *)

(** The two-sided comparison, on which the overlap check of flow_mod rests,
    decides whether some packet is matched by both keys. *)
Theorem flow_matches_2wild_overlap a b :
  flow_matches_2wild a b = true ↔ ∃ f, denotes a f ∧ denotes b f.
Proof.
  split; [intros H; exists (merge_flow a b); by apply merge_flow_denoted|].
  intros (f & Ha & Hb). unfold flow_matches_2wild. rewrite flow_fields_match_spec.
  destruct Ha, Hb. split; try (by eapply agrees_common); by eapply wild_common.
Qed.

(** ** Address wildcards *)

Definition high_bits (k : Z) : Z := u32 (Z.lnot ((1 << k) - 1)).

Lemma testbit_high_bits k n :
  0 <= k → 0 <= n → Z.testbit (high_bits k) n = bool_decide (k <= n < 32).
Proof.
  intros Hk Hn. unfold high_bits, u32. destruct (decide (n < 32)).
  - rewrite Z.mod_pow2_bits_low, Z.lnot_spec by lia.
    rewrite Z.shiftl_1_l. replace (2 ^ k - 1) with (Z.ones k) by (rewrite Z.ones_equiv; lia).
    destruct (decide (n < k)).
    + rewrite Z.ones_spec_low by lia. by rewrite bool_decide_eq_false_2 by lia.
    + rewrite Z.ones_spec_high by lia. by rewrite bool_decide_eq_true_2 by lia.
  - rewrite Z.mod_pow2_bits_high by lia. by rewrite bool_decide_eq_false_2 by lia.
Qed.

Lemma prefix_agrees k x y :
  0 <= k → 0 <= x < 2 ^ 32 → 0 <= y < 2 ^ 32 →
  ((x .^ y) .& high_bits k = 0 ↔ x >> k = y >> k).
Proof.
  intros Hk Hx Hy. split; intros H; apply Z.bits_inj'; intros n Hn.
  - rewrite !Z.shiftr_spec by lia. destruct (decide (n + k < 32)).
    + assert (Z.testbit ((x .^ y) .& high_bits k) (n + k) = false) as Hb
        by (rewrite H; apply Z.bits_0).
      rewrite Z.land_spec, Z.lxor_spec, testbit_high_bits in Hb by lia.
      rewrite bool_decide_eq_true_2, andb_true_r in Hb by lia. by apply xorb_eq.
    + by rewrite !(testbit_high _ (n + k) 32) by (done || lia).
  - rewrite Z.land_spec, Z.lxor_spec, testbit_high_bits, Z.bits_0 by lia.
    case_bool_decide as Hr; [|apply andb_false_r].
    assert (Z.testbit (x >> k) (n - k) = Z.testbit (y >> k) (n - k)) as Hb by by rewrite H.
    rewrite !Z.shiftr_spec in Hb by lia. replace (n - k + k) with n in Hb by lia.
    by rewrite Hb, xorb_nilpotent.
Qed.

Lemma high_bits_range k : 0 <= high_bits k < 2 ^ 32.
Proof. apply u32_range. Qed.

(** An address mask built from a count of wildcarded bits compares exactly
    the prefix above those bits, in host order; a count of 32 or more (of the six
    bits of the field) compares nothing. *)
Theorem make_nw_mask_prefix n x y :
  0 <= n → 0 <= x < 2 ^ 32 → 0 <= y < 2 ^ 32 →
  (agrees (make_nw_mask n) x y ↔
   32 <= n mod 64 ∨ ntohl x >> (n mod 64) = ntohl y >> (n mod 64)).
Proof.
  intros Hn Hx Hy. unfold make_nw_mask. change ((1 << OFPFW_NW_SRC_BITS) - 1) with (Z.ones 6).
  rewrite Z.land_ones by lia. change (2 ^ 6) with 64. set (k := n mod 64).
  assert (0 <= k < 64) by (apply Z.mod_pos_bound; lia). fold (high_bits k).
  destruct (Z.ltb_spec k 32).
  - assert (agrees (htonl (high_bits k)) x y ↔ (ntohl x .^ ntohl y) .& high_bits k = 0) as ->.
    { unfold agrees. rewrite <-(ntohl_htonl x), <-(ntohl_htonl y) at 1 by done.
      unfold ntohl. rewrite <-htonl_lxor, <-htonl_land.
      split; [|by intros ->]. apply htonl_inj_0.
      rewrite Z.land_comm. apply land_range; [lia|apply high_bits_range]. }
    rewrite prefix_agrees by (apply htonl_range || lia). split; [by right|]. intros [|]; [lia|done].
  - split; [by left|]. intros _. unfold agrees. apply Z.land_0_r.
Qed.

Lemma make_nw_mask_prefix_witness :
  agrees (make_nw_mask 8) (htonl 0x0a000001) (htonl 0x0a0000ff).
Proof.
  apply (make_nw_mask_prefix 8).
  - lia.
  - vm_compute. split; [discriminate|reflexivity].
  - vm_compute. split; [discriminate|reflexivity].
  - right. vm_compute. reflexivity.
Defined.


(** ** Keys without wildcards *)

Lemma le_bytes_inj n x y l m :
  0 <= x < 256 ^ Z.of_nat n → 0 <= y < 256 ^ Z.of_nat n →
  le_bytes n x ++ l = le_bytes n y ++ m → x = y ∧ l = m.
Proof.
  intros Hx Hy H. apply app_inj_1 in H as [H1 H2]; [|by rewrite !length_le_bytes].
  split; [|done]. by rewrite <-(le_int_bytes n x), <-(le_int_bytes n y), H1.
Qed.

Lemma flow_bytes_inj a b :
  flow_range a → flow_range b → flow_bytes a = flow_bytes b → a = b.
Proof.
  intros Ha Hb H. destruct a, b, Ha as [], Hb as []; simpl in *. unfold flow_bytes in H.
  cbn [nw_src nw_dst in_port dl_vlan dl_type tp_src tp_dst dl_src dl_dst dl_vlan_pcp nw_tos
       nw_proto pad] in H.
  repeat match goal with
  | H : le_bytes _ _ ++ _ = le_bytes _ _ ++ _ |- _ =>
      apply le_bytes_inj in H as [-> H]; [|lia..]
  | H : _ ++ _ = _ ++ _ |- _ => apply app_inj_1 in H as [-> H]; [|lia]
  end. by subst.
Qed.

Lemma flow_equal_spec a b :
  flow_range a → flow_range b → (flow_equal a b = true ↔ a = b).
Proof.
  intros Ha Hb. unfold flow_equal. rewrite bool_decide_eq_true.
  split; [by apply flow_bytes_inj|by intros ->].
Qed.

(** A key as [flow_extract_match] makes them. *)
Record key_ok (k : sw_flow_key) : Prop := {
  ko_flow : flow_range (kflow k);
  ko_wildcards : 0 <= wildcards k <= OFPFW_ALL;
  ko_src_mask : nw_src_mask k = make_nw_mask (wildcards k >> OFPFW_NW_SRC_SHIFT);
  ko_dst_mask : nw_dst_mask k = make_nw_mask (wildcards k >> OFPFW_NW_DST_SHIFT);
}.

Lemma agrees_exact x y : 0 <= x < 2 ^ 32 → 0 <= y < 2 ^ 32 → agrees (make_nw_mask 0) x y ↔ x = y.
Proof.
  intros Hx Hy. unfold agrees. change (make_nw_mask 0) with (Z.ones 32).
  rewrite Z.land_ones, Z.mod_small by (done || by apply lxor_range). apply Z.lxor_eq_0_iff.
Qed.

Lemma not_wild_0 bit : ¬ wild 0 bit.
Proof. intros H. apply H, Z.land_0_l. Qed.

Lemma exact_field bit (P : Prop) : wild 0 bit ∨ P → P.
Proof. intros [H|H]; [by apply not_wild_0 in H|done]. Qed.

Lemma exact_denotes k f :
  key_ok k → flow_range f → wildcards k = 0 → (denotes k f ↔ f = kflow k).
Proof.
  intros [Hk _ Hs Hd] Hf Hw. unfold denotes. rewrite Hs, Hd, Hw. rewrite !Z.shiftr_0_l.
  split.
  - intros H. destruct H.
    rewrite agrees_exact in fa_nw_src0 by apply Hf || apply Hk.
    rewrite agrees_exact in fa_nw_dst0 by apply Hf || apply Hk.
    pose proof (fr_pad _ Hf). pose proof (fr_pad _ Hk). clear Hs Hd Hf Hk.
    destruct f, (kflow k); simpl in *. 
    f_equal; first [assumption | eapply exact_field; eassumption | congruence].
  - intros ->. split; try (by right); apply agrees_exact; (done || apply Hk).
Qed.

(** For a table entry without wildcards, comparing the bytes of the flow, as
    the hash table does, is the same as matching it, as the linear table does:
    the entry matches one flow. *)
Theorem exact_match_is_equality p k :
  key_ok k → flow_range (kflow p) → wildcards k = 0 →
  flow_matches_1wild p k = flow_equal (kflow p) (kflow k) ∧
  (flow_matches_1wild p k = true ↔ kflow p = kflow k).
Proof.
  intros Hk Hp Hw.
  assert (flow_matches_1wild p k = true ↔ kflow p = kflow k) as H1.
  { unfold flow_matches_1wild. rewrite flow_fields_match_spec. by apply exact_denotes. }
  split; [|done]. apply Bool.eq_iff_eq_true. rewrite H1.
  by rewrite flow_equal_spec by (done || apply Hk).
Qed.

Lemma zero_flow_range : flow_range zero_flow.
Proof. split; simpl; try done; split; try done; repeat constructor; done. Qed.

Lemma exact_match_is_equality_witness :
  let k := mk_sw_flow_key zero_flow 0 (make_nw_mask 0) (make_nw_mask 0) in
  flow_matches_1wild k k = flow_equal (kflow k) (kflow k).
Proof.
  intros k. destruct (exact_match_is_equality k k) as [H _].
  - split; [exact zero_flow_range|vm_compute; split; discriminate|reflexivity|reflexivity].
  - exact zero_flow_range.
  - reflexivity.
  - exact H.
Defined.


(** ** Match descriptions *)

Record match_range (m : ofp_match) : Prop := {
  mr_wildcards : 0 <= m_wildcards m < 2 ^ 32;
  mr_in_port : 0 <= m_in_port m < 2 ^ 16;
  mr_dl_src : length (m_dl_src m) = 6%nat ∧ Forall is_byte (m_dl_src m);
  mr_dl_dst : length (m_dl_dst m) = 6%nat ∧ Forall is_byte (m_dl_dst m);
  mr_dl_vlan : 0 <= m_dl_vlan m < 2 ^ 16;
  mr_dl_vlan_pcp : 0 <= m_dl_vlan_pcp m < 2 ^ 8;
  mr_dl_type : 0 <= m_dl_type m < 2 ^ 16;
  mr_nw_tos : 0 <= m_nw_tos m < 2 ^ 8;
  mr_nw_proto : 0 <= m_nw_proto m < 2 ^ 8;
  mr_nw_src : 0 <= m_nw_src m < 2 ^ 32;
  mr_nw_dst : 0 <= m_nw_dst m < 2 ^ 32;
  mr_tp_src : 0 <= m_tp_src m < 2 ^ 16;
  mr_tp_dst : 0 <= m_tp_dst m < 2 ^ 16;
}.

(** Adding bits to, and clearing bits of, the wildcards. *)
Lemma lor_all w x :
  x .& OFPFW_ALL = x → w .& OFPFW_ALL = w → (w .| x) .& OFPFW_ALL = w .| x.
Proof. intros Hx Hw. by rewrite Z.land_lor_distr_l, Hx, Hw. Qed.

Lemma land_all w x : w .& OFPFW_ALL = w → (w .& x) .& OFPFW_ALL = w .& x.
Proof.
  intros Hw. by rewrite <-Z.land_assoc, (Z.land_comm x), Z.land_assoc, Hw.
Qed.

Lemma lor_bit w x b : x .& b = 0 → (w .| x) .& b = w .& b.
Proof. intros H. by rewrite Z.land_lor_distr_l, H, Z.lor_0_r. Qed.

Lemma land_bit w x b : x .& b = b → (w .& x) .& b = w .& b.
Proof. intros H. by rewrite <-Z.land_assoc, H. Qed.

Lemma all_range w : w .& OFPFW_ALL = w → 0 <= w <= OFPFW_ALL.
Proof.
  intros <-. change OFPFW_ALL with (Z.ones 22). rewrite Z.land_ones by lia.
  change (Z.ones 22) with (2 ^ 22 - 1). zlia.
Qed.

Lemma lor_idem w x : (w .| x) .| x = w .| x.
Proof. by rewrite <-Z.lor_assoc, Z.lor_diag. Qed.

Lemma land_idem w x : (w .& x) .& x = w .& x.
Proof. by rewrite <-Z.land_assoc, Z.land_diag. Qed.

(** The key built from normalised wildcards and fields. *)
Definition make_key (f : flow) (w : Z) : sw_flow_key :=
  mk_sw_flow_key f w (make_nw_mask (w >> OFPFW_NW_SRC_SHIFT))
    (make_nw_mask (w >> OFPFW_NW_DST_SHIFT)).

Lemma fill_extract_wildcards f w :
  w .& OFPFW_ALL = w → ntohl (m_wildcards (flow_fill_match f w)) .& OFPFW_ALL = w.
Proof.
  intros Hw. simpl. pose proof (all_range w Hw) as Hr.
  change (ntohl (htonl w) .& OFPFW_ALL = w). rewrite ntohl_htonl; [done|].
  change OFPFW_ALL with 4194303 in Hr. lia.
Qed.

(** What [flow_extract_match] makes of a match, case by case. *)
Inductive extracted_match (f : flow) (w : Z) : Prop :=
| em_any : wild w OFPFW_DL_TYPE → w .| (OFPFW_NW .| OFPFW_TP) = w →
    nw_tos f = 0 → nw_proto f = 0 → nw_src f = 0 → nw_dst f = 0 → tp_src f = 0 → tp_dst f = 0 →
    extracted_match f w
| em_ip_any : ¬ wild w OFPFW_DL_TYPE → dl_type f = htons ETH_TYPE_IP →
    nw_tos f .& 0xfc = nw_tos f → wild w OFPFW_NW_PROTO → w .| OFPFW_TP = w →
    tp_src f = 0 → tp_dst f = 0 → extracted_match f w
| em_ip_ports : ¬ wild w OFPFW_DL_TYPE → dl_type f = htons ETH_TYPE_IP →
    nw_tos f .& 0xfc = nw_tos f → ¬ wild w OFPFW_NW_PROTO →
    nw_proto f = IP_TYPE_TCP ∨ nw_proto f = IP_TYPE_UDP ∨ nw_proto f = IP_TYPE_ICMP →
    extracted_match f w
| em_ip_other : ¬ wild w OFPFW_DL_TYPE → dl_type f = htons ETH_TYPE_IP →
    nw_tos f .& 0xfc = nw_tos f → ¬ wild w OFPFW_NW_PROTO →
    nw_proto f ≠ IP_TYPE_TCP → nw_proto f ≠ IP_TYPE_UDP → nw_proto f ≠ IP_TYPE_ICMP →
    w .& u32 (Z.lnot OFPFW_TP) = w → tp_src f = 0 → tp_dst f = 0 → extracted_match f w
| em_arp : ¬ wild w OFPFW_DL_TYPE → dl_type f = htons ETH_TYPE_ARP →
    w .& u32 (Z.lnot OFPFW_TP) = w → nw_tos f = 0 → tp_src f = 0 → tp_dst f = 0 →
    extracted_match f w
| em_other : ¬ wild w OFPFW_DL_TYPE → dl_type f ≠ htons ETH_TYPE_IP →
    dl_type f ≠ htons ETH_TYPE_ARP → w .& u32 (Z.lnot (OFPFW_NW .| OFPFW_TP)) = w →
    nw_tos f = 0 → nw_proto f = 0 → nw_src f = 0 → nw_dst f = 0 → tp_src f = 0 → tp_dst f = 0 →
    extracted_match f w.

Lemma truth_wild w b : truth (w .& b) = bool_decide (wild w b).
Proof.
  apply Bool.eq_iff_eq_true. rewrite truth_spec, bool_decide_eq_true. done.
Qed.

Lemma flow_extract_match_cases m :
  match_range m →
  ∃ f w, flow_extract_match m = make_key f w ∧ flow_range f ∧ w .& OFPFW_ALL = w ∧
    extracted_match f w.
Proof.
  intros Hm. unfold flow_extract_match. cbv zeta.
  set (w := ntohl (m_wildcards m) .& OFPFW_ALL).
  assert (w .& OFPFW_ALL = w) as Hw by apply land_idem. clearbody w.
  set (f := zero_flow <| dl_vlan_pcp := _ |> <| in_port := _ |> <| dl_vlan := _ |>
              <| dl_src := _ |> <| dl_dst := _ |> <| dl_type := _ |>).
  assert (flow_range f) as Hf by (destruct Hm; split; simpl; done || lia).
  assert (0 <= m_nw_tos m .& 0xfc < 2 ^ 8) by (apply land_range; [lia|apply Hm]).
  rewrite truth_wild. case_bool_decide as Hdl.
  { eexists _, _. split_and!; [reflexivity|done|by apply lor_all|].
    apply em_any; try done; [|apply lor_idem]. unfold wild. by rewrite lor_bit. }
  destruct (Z.eqb_spec (m_dl_type m) (htons ETH_TYPE_IP)) as [Hip|Hip].
  - rewrite truth_wild. case_bool_decide as Hpr;
      [|destruct ((_ =? IP_TYPE_TCP) || _ || _) eqn:Htp].
    + eexists _, _. split_and!; [reflexivity|destruct Hf, Hm; split; simpl in *; done || lia|by apply lor_all|].
      apply em_ip_any; simpl; try done; try apply land_idem; try apply lor_idem;
        unfold wild; rewrite lor_bit; done.
    + eexists _, _. split_and!; [reflexivity|destruct Hf, Hm; split; simpl in *; done || lia|done|].
      apply em_ip_ports; simpl; try done; [apply land_idem|]. lia.
    + eexists _, _. split_and!; [reflexivity|destruct Hf, Hm; split; simpl in *; done || lia|by apply land_all|].
      apply em_ip_other; simpl; try done; try apply land_idem; try lia;
        unfold wild; rewrite land_bit; done.
  - destruct (Z.eqb_spec (m_dl_type m) (htons ETH_TYPE_ARP)) as [Harp|Harp].
    + eexists _, _. split_and!; [reflexivity|destruct Hf, Hm; split; simpl in *; done || lia|by apply land_all|].
      apply em_arp; simpl; try done; try apply land_idem. unfold wild. by rewrite land_bit.
    + eexists _, _. split_and!; [reflexivity|done|by apply land_all|].
      apply em_other; simpl; try done; try apply land_idem. unfold wild. by rewrite land_bit.
Qed.


Lemma extract_fill_match f w :
  flow_range f → w .& OFPFW_ALL = w → extracted_match f w →
  flow_extract_match (flow_fill_match f w) = make_key f w.
Proof.
  intros Hf Hw Hc. unfold flow_extract_match. cbv zeta.
  rewrite (fill_extract_wildcards f w Hw). rewrite truth_wild.
  pose proof (fr_pad f Hf) as Hpad. unfold make_key.
  destruct f as [ns nd ip vl ty ts td ds dd pcp tos pr pd]; simpl in *. subst pd.
  destruct Hc; simpl in *; subst.
  - by rewrite bool_decide_eq_true_2, H0 by done.
  - rewrite bool_decide_eq_false_2 by done. simpl.
    rewrite truth_wild, bool_decide_eq_true_2 by done. by rewrite H1, H3.
  - rewrite bool_decide_eq_false_2 by done. simpl.
    rewrite truth_wild, bool_decide_eq_false_2 by done. rewrite H1.
    destruct H3 as [->|[->| ->]]; done.
  - rewrite bool_decide_eq_false_2 by done. simpl.
    rewrite truth_wild, bool_decide_eq_false_2 by done. rewrite H1.
    by rewrite !(proj2 (Z.eqb_neq _ _)), H6 by done.
  - rewrite bool_decide_eq_false_2 by done. simpl. by rewrite H1.
  - rewrite bool_decide_eq_false_2 by done. by rewrite !(proj2 (Z.eqb_neq _ _)), H2 by done.
Qed.

Lemma flow_extract_match_ok m : match_range m → key_ok (flow_extract_match m).
Proof.
  intros Hm. destruct (flow_extract_match_cases m Hm) as (f & w & -> & Hf & Hw & _).
  split; try done. by apply all_range.
Qed.

(** C27: the match that the switch reports for an entry (in flow removed and flow
    statistics messages) names the entry: extracting a key from it gives back
    the entry's key, with its wildcards and masks. *)
Theorem flow_match_round_trip m :
  match_range m →
  let k := flow_extract_match m in
  flow_extract_match (flow_fill_match (kflow k) (wildcards k)) = k ∧ key_ok k.
Proof.
  intros Hm. cbv zeta. split; [|by apply flow_extract_match_ok].
  destruct (flow_extract_match_cases m Hm) as (f & w & -> & Hf & Hw & Hc).
  by apply extract_fill_match.
Qed.

Lemma flow_match_round_trip_witness :
  let m := mk_ofp_match 0 (htons 1) (replicate 6 1) (replicate 6 2) (htons 5) 0
             (htons ETH_TYPE_IP) 0 6 (htonl 0x0a000001) (htonl 0x0a000002) (htons 80) (htons 81) in
  let k := flow_extract_match m in
  flow_extract_match (flow_fill_match (kflow k) (wildcards k)) = k.
Proof.
  intros m. apply (flow_match_round_trip m).
  split; simpl; try (vm_compute; split; [discriminate|reflexivity]);
    split; try reflexivity; repeat constructor; discriminate.
Defined.


End SwitchFlowFacts.
