(* ===== verification/Rconn.v ===== *)
(** * lib/rconn.c: reliable connections

    A connection is a state machine over the states VOID, BACKOFF, CONNECTING,
    ACTIVE and IDLE, driven by [rconn_run], [rconn_recv] and [rconn_send].  The
    transport below it ([vconn_open], [vconn_connect], [vconn_send],
    [vconn_recv]) and the random transaction ids are parameters of the state: a
    transport is the list of results its next calls will give.  The send queue is
    a list; each packet records whether it is counted in the queue counter that its
    sender passed, and there is one counter, the one of the connection's owner.
    Times are seconds, passed to each operation as [now].  Logging, the protocol
    statistics and waiting for events are left out. *)

From S2P Require Import Prelude Ofp.
Import Ofp.

Module Rconn.

Definition EAGAIN : Z := 11.
Definition ENOTCONN : Z := 107.
Definition ECONNREFUSED : Z := 111.
Definition EOF : Z := -1.
Definition UINT_MAX : Z := 2 ^ 32 - 1.
Definition TIME_MAX : Z := 2 ^ 63 - 1.
Definition TIME_MIN : Z := - 2 ^ 63.

(** The future of a transport, and what it has accepted.  A transport with no
    result left has nothing to do yet. *)
Record vconn := mk_vconn {
  vc_connect : list Z;
  vc_send : list Z;
  vc_recv : list (Z * list Z);
  vc_reconnectable : bool;
  vc_sent : list (list Z);
}.
#[export] Instance vconn_eta : Eta vconn := λ v,
  mk_vconn (vc_connect v) (vc_send v) (vc_recv v) (vc_reconnectable v) (vc_sent v).

Definition vconn_connect (v : vconn) : Z * vconn :=
  match vc_connect v with
  | [] => (EAGAIN, v)
  | r :: l => (r, v <| vc_connect := l |>)
  end.

Definition vconn_send (v : vconn) (b : list Z) : Z * vconn :=
  match vc_send v with
  | [] => (EAGAIN, v)
  | r :: l =>
      (r, if r =? 0 then v <| vc_send := l |> <| vc_sent := vc_sent v ++ [b] |>
          else v <| vc_send := l |>)
  end.

Definition vconn_recv (v : vconn) : Z * list Z * vconn :=
  match vc_recv v with
  | [] => (EAGAIN, [], v)
  | (r, b) :: l => (r, b, v <| vc_recv := l |>)
  end.

Inductive state := S_VOID | S_BACKOFF | S_CONNECTING | S_ACTIVE | S_IDLE.
#[export] Instance state_eq_dec : EqDecision state.
Proof. solve_decision. Defined.

(** A queued packet: its bytes, and whether its [private] counts it. *)
Record packet := mk_packet { p_data : list Z; p_counted : bool }.

Record rconn := mk_rconn {
  rc_state : state;
  state_entered : Z;
  rc_vconn : option vconn;
  rc_name : list Z;
  reliable : bool;
  txq : list packet;
  n_queued : Z;                      (* the owner's counter *)
  backoff : Z;
  max_backoff : Z;
  backoff_deadline : Z;
  last_received : Z;
  last_connected : Z;
  packets_sent : Z;
  seqno : Z;
  probably_admitted : bool;
  last_admitted : Z;
  packets_received : Z;
  n_attempted_connections : Z;
  n_successful_connections : Z;
  creation_time : Z;
  total_time_connected : Z;
  questionable_connectivity : bool;
  last_questioned : Z;
  probe_interval : Z;
  monitors : list vconn;
  idle_echo_xid : Z;
  rc_opens : list (Z * vconn);       (* results of the next [vconn_open] calls *)
  rc_xids : list Z;                  (* the next random transaction ids *)
}.
#[export] Instance rconn_eta : Eta rconn := λ r,
  mk_rconn (rc_state r) (state_entered r) (rc_vconn r) (rc_name r) (reliable r) (txq r)
    (n_queued r) (backoff r) (max_backoff r) (backoff_deadline r) (last_received r)
    (last_connected r) (packets_sent r) (seqno r) (probably_admitted r) (last_admitted r)
    (packets_received r) (n_attempted_connections r) (n_successful_connections r)
    (creation_time r) (total_time_connected r) (questionable_connectivity r)
    (last_questioned r) (probe_interval r) (monitors r) (idle_echo_xid r) (rc_opens r) (rc_xids r).

Definition void_name : list Z := [118; 111; 105; 100].

Definition MAX_MONITORS : nat := 8.

(** lib/sat-math.h *)
Definition sat_add (x y : Z) : Z := if x <=? u32 (x + y) then u32 (x + y) else UINT_MAX.
Definition sat_sub (x y : Z) : Z := if y <=? x then x - y else 0.
Definition sat_mul (x y : Z) : Z :=
  if y =? 0 then 0 else if x <=? UINT_MAX / y then x * y else UINT_MAX.

(** ** States and timeouts *)

Definition is_connected_state (s : state) : bool :=
  match s with S_ACTIVE | S_IDLE => true | _ => false end.

Definition rconn_is_connected (rc : rconn) : bool := is_connected_state (rc_state rc).

Definition rconn_is_alive (rc : rconn) : bool := negb (bool_decide (rc_state rc = S_VOID)).

Definition elapsed_in_this_state (now : Z) (rc : rconn) : Z := u32 (now - state_entered rc).

Definition timeout_VOID (rc : rconn) : Z := UINT_MAX.
Definition timeout_BACKOFF (rc : rconn) : Z := u32 (backoff rc).
Definition timeout_CONNECTING (rc : rconn) : Z := u32 (Z.max 1 (backoff rc)).
Definition timeout_ACTIVE (rc : rconn) : Z :=
  if truth (probe_interval rc) then
    let base := u32 (Z.max (last_received rc) (state_entered rc)) in
    u32 (u32 (base + probe_interval rc) - state_entered rc)
  else UINT_MAX.
Definition timeout_IDLE (rc : rconn) : Z := u32 (probe_interval rc).

Definition timeout (rc : rconn) : Z :=
  match rc_state rc with
  | S_VOID => timeout_VOID rc
  | S_BACKOFF => timeout_BACKOFF rc
  | S_CONNECTING => timeout_CONNECTING rc
  | S_ACTIVE => timeout_ACTIVE rc
  | S_IDLE => timeout_IDLE rc
  end.

Definition timed_out (now : Z) (rc : rconn) : bool :=
  sat_add (u32 (state_entered rc)) (timeout rc) <=? now.

Definition is_active (s : state) : bool := bool_decide (s = S_ACTIVE).

Definition state_transition (now : Z) (s : state) (rc : rconn) : rconn :=
  let rc := rc <| seqno :=
    u32 (seqno rc + if Bool.eqb (is_active (rc_state rc)) (is_active s) then 0 else 1) |> in
  let rc := if is_connected_state s && negb (is_connected_state (rc_state rc))
            then rc <| probably_admitted := false |> else rc in
  let rc := if rconn_is_connected rc
            then rc <| total_time_connected :=
                         u64 (total_time_connected rc + elapsed_in_this_state now rc) |>
            else rc in
  rc <| rc_state := s |> <| state_entered := now |>.

Definition question_connectivity (now : Z) (rc : rconn) : rconn :=
  if 60 <? now - last_questioned rc
  then rc <| questionable_connectivity := true |> <| last_questioned := now |> else rc.

(** ** Disconnecting *)

Definition counted (l : list packet) : Z := Z.of_nat (length (filter (λ p, p_counted p = true) l)).

(** Every packet dropped leaves its counter. *)
Definition flush_queue (rc : rconn) : rconn :=
  rc <| n_queued := n_queued rc - counted (txq rc) |> <| txq := [] |>.

Definition rconn_disconnect (now : Z) (rc : rconn) : rconn :=
  if bool_decide (rc_state rc = S_VOID) then rc
  else
    state_transition now S_VOID
      (rc <| rc_vconn := None |> <| rc_name := void_name |> <| reliable := false |>
          <| backoff := 0 |> <| backoff_deadline := TIME_MIN |>).

Definition has_transport (s : state) : bool :=
  match s with S_CONNECTING | S_ACTIVE | S_IDLE => true | _ => false end.

Definition disconnect (now : Z) (rc : rconn) : rconn :=
  if reliable rc then
    let rc := if has_transport (rc_state rc)
              then flush_queue (rc <| rc_vconn := None |>) else rc in
    let rc := rc <| backoff := if backoff_deadline rc <=? now then 1
                               else Z.min (max_backoff rc) (Z.max 1 (2 * backoff rc)) |> in
    let rc := state_transition now S_BACKOFF (rc <| backoff_deadline := now + backoff rc |>) in
    if 60 <? now - last_connected rc then question_connectivity now rc else rc
  else rconn_disconnect now rc.

(** ** Connecting *)

Definition vconn_open (rc : rconn) : Z * vconn * rconn :=
  match rc_opens rc with
  | [] => (ECONNREFUSED, mk_vconn [] [] [] false [], rc)
  | (r, v) :: l => (r, v, rc <| rc_opens := l |>)
  end.

Definition reconnect (now : Z) (rc : rconn) : Z * rconn :=
  let rc := rc <| n_attempted_connections := u32 (n_attempted_connections rc + 1) |> in
  let '(retval, v, rc) := vconn_open rc in
  if retval =? 0 then
    let rc := rc <| rc_vconn := Some v |> in
    let rc := if vc_reconnectable v then rc else rc <| reliable := false |> in
    (retval, state_transition now S_CONNECTING (rc <| backoff_deadline := now + backoff rc |>))
  else (retval, disconnect now (rc <| backoff_deadline := TIME_MAX |>)).

Definition rconn_create (now probe max : Z) (opens : list (Z * vconn)) (xids : list Z) : rconn :=
  {| rc_state := S_VOID; state_entered := now; rc_vconn := None; rc_name := void_name;
     reliable := false; txq := []; n_queued := 0; backoff := 0;
     max_backoff := if truth max then max else 60; backoff_deadline := TIME_MIN;
     last_received := now; last_connected := now; packets_sent := 0; seqno := 0;
     probably_admitted := false; last_admitted := now; packets_received := 0;
     n_attempted_connections := 0; n_successful_connections := 0; creation_time := now;
     total_time_connected := 0; questionable_connectivity := false; last_questioned := now;
     probe_interval := if truth probe then Z.max 1 probe else 0; monitors := [];
     idle_echo_xid := 0; rc_opens := opens; rc_xids := xids |}.

Definition rconn_connect (now : Z) (name : list Z) (rc : rconn) : Z * rconn :=
  let rc := rconn_disconnect now rc in
  reconnect now (rc <| rc_name := name |> <| reliable := true |>).

Definition rconn_connect_unreliably (now : Z) (name : list Z) (v : vconn) (rc : rconn) : rconn :=
  let rc := rconn_disconnect now rc in
  state_transition now S_ACTIVE
    (rc <| rc_name := name |> <| reliable := false |> <| rc_vconn := Some v |>
        <| last_connected := now |>).

Definition rconn_new (now : Z) (name : list Z) (probe max : Z) opens xids : rconn :=
  snd (rconn_connect now name (rconn_create now probe max opens xids)).

Definition rconn_new_from_vconn (now : Z) (name : list Z) (v : vconn) : rconn :=
  rconn_connect_unreliably now name v (rconn_create now 60 0 [] []).

(** What [rconn_destroy] leaves to the owner is its counter; the transports are
    closed. *)
Definition rconn_destroy (rc : rconn) : Z := n_queued (flush_queue rc).

(** ** Sending *)

(** Copies a packet to the monitors; one that fails is replaced by the last. *)
Fixpoint monitor_loop (fuel : nat) (i : nat) (b : list Z) (l : list vconn) : comp (list vconn) :=
  match l !! i with
  | None => Ok l
  | Some v =>
      match fuel with
      | O => NoFuel
      | S fuel =>
          let '(retval, v) := vconn_send v b in
          if truth retval && negb (retval =? EAGAIN) then
            last ← deref (last l);
            monitor_loop fuel i b (take (length l - 1) (<[i := last]> l))
          else monitor_loop fuel (S i) b (<[i := v]> l)
      end
  end.

Definition copy_to_monitor (b : list Z) (rc : rconn) : comp rconn :=
  l ← monitor_loop (length (monitors rc)) 0 b (monitors rc); Ok (rc <| monitors := l |>).

Definition rconn_add_monitor (v : vconn) (rc : rconn) : rconn :=
  if (length (monitors rc) <? MAX_MONITORS)%nat
  then rc <| monitors := monitors rc ++ [v] |> else rc.

(** Sends the head of the queue; without a transport, or without a packet, the
    process crashes. *)
Definition try_send (now : Z) (rc : rconn) : comp (Z * rconn) :=
  head ← deref (head (txq rc));
  xid ← load (p_data head) 4 4;
  v ← deref (rc_vconn rc);
  let '(retval, v) := vconn_send v (p_data head) in
  let rc := rc <| rc_vconn := Some v |> <| idle_echo_xid := xid |> in
  if truth retval then
    let rc := rc <| idle_echo_xid := 0 |> in
    Ok (retval, if retval =? EAGAIN then rc else disconnect now rc)
  else
    let rc := rc <| packets_sent := u32 (packets_sent rc + 1) |> in
    let rc := if p_counted head then rc <| n_queued := n_queued rc - 1 |> else rc in
    Ok (0, rc <| txq := tail (txq rc) |>).

Definition enqueue (b : list Z) (count : bool) (rc : rconn) : rconn :=
  let rc := if count then rc <| n_queued := n_queued rc + 1 |> else rc in
  rc <| txq := txq rc ++ [mk_packet b count] |>.

Definition rconn_send (now : Z) (b : list Z) (count : bool) (rc : rconn) : comp (Z * rconn) :=
  if rconn_is_connected rc then
    rc ← copy_to_monitor b rc;
    let rc := enqueue b count rc in
    if (length (txq rc) =? 1)%nat then '(_, rc) ← try_send now rc; Ok (0, rc) else Ok (0, rc)
  else Ok (ENOTCONN, rc).

Definition rconn_send_with_limit (now : Z) (b : list Z) (queue_limit : Z) (rc : rconn)
    : comp (Z * rconn) :=
  if queue_limit <=? n_queued rc then Ok (EAGAIN, rc) else rconn_send now b true rc.

Fixpoint tx_loop (fuel : nat) (now : Z) (rc : rconn) : comp rconn :=
  match txq rc with
  | [] => Ok rc
  | _ =>
      match fuel with
      | O => NoFuel
      | S fuel =>
          '(error, rc) ← try_send now rc;
          if truth error then Ok rc else tx_loop fuel now rc
      end
  end.

Definition do_tx_work (now : Z) (rc : rconn) : comp rconn := tx_loop (length (txq rc)) now rc.

(** ** Running *)

Definition make_echo_request (xid : Z) : list Z :=
  [OFP_VERSION; OFPT_ECHO_REQUEST] ++ le_bytes 2 (htons 8) ++ le_bytes 4 xid.

Definition alloc_xid (rc : rconn) : Z * rconn :=
  match rc_xids rc with
  | [] => (0, rc)
  | x :: l => (x, rc <| rc_xids := l |>)
  end.

Definition run_VOID (rc : rconn) : comp rconn := Ok rc.

Definition run_BACKOFF (now : Z) (rc : rconn) : comp rconn :=
  Ok (if timed_out now rc then snd (reconnect now rc) else rc).

Definition run_CONNECTING (now : Z) (rc : rconn) : comp rconn :=
  v ← deref (rc_vconn rc);
  let '(retval, v) := vconn_connect v in
  let rc := rc <| rc_vconn := Some v |> in
  if retval =? 0 then
    let rc := rc <| n_successful_connections := u32 (n_successful_connections rc + 1) |> in
    let rc := state_transition now S_ACTIVE rc in
    Ok (rc <| last_connected := state_entered rc |>)
  else if negb (retval =? EAGAIN) then Ok (disconnect now rc)
  else if timed_out now rc then Ok (disconnect now (rc <| backoff_deadline := TIME_MAX |>))
  else Ok rc.

Definition run_ACTIVE (now : Z) (rc : rconn) : comp rconn :=
  if timed_out now rc then
    let rc := state_transition now S_IDLE rc in
    let '(xid, rc) := alloc_xid rc in
    '(_, rc) ← rconn_send now (make_echo_request xid) false rc;
    Ok rc
  else do_tx_work now rc.

Definition run_IDLE (now : Z) (rc : rconn) : comp rconn :=
  if timed_out now rc then Ok (disconnect now (question_connectivity now rc))
  else do_tx_work now rc.

Definition run_state (now : Z) (rc : rconn) : comp rconn :=
  match rc_state rc with
  | S_VOID => run_VOID rc
  | S_BACKOFF => run_BACKOFF now rc
  | S_CONNECTING => run_CONNECTING now rc
  | S_ACTIVE => run_ACTIVE now rc
  | S_IDLE => run_IDLE now rc
  end.

(** The loop of [rconn_run], which runs until the state stops changing. *)
Fixpoint run_loop (fuel : nat) (now : Z) (rc : rconn) : comp rconn :=
  match fuel with
  | O => NoFuel
  | S fuel =>
      rc' ← run_state now rc;
      if bool_decide (rc_state rc' = rc_state rc) then Ok rc' else run_loop fuel now rc'
  end.

Definition rconn_run (now : Z) (rc : rconn) : comp rconn := run_loop 5 now rc.

Definition rconn_run_wait (now : Z) (rc : rconn) : option Z :=
  let timeo := timeout rc in
  if timeo =? UINT_MAX then None
  else Some (sat_mul (sat_sub (sat_add (u32 (state_entered rc)) timeo) (u32 now)) 1000).

(** ** Receiving *)

Definition admission_types : list Z :=
  [OFPT_HELLO; OFPT_ERROR; OFPT_ECHO_REQUEST; OFPT_ECHO_REPLY; OFPT_VENDOR;
   OFPT_FEATURES_REQUEST; OFPT_FEATURES_REPLY; OFPT_GET_CONFIG_REQUEST;
   OFPT_GET_CONFIG_REPLY; OFPT_SET_CONFIG].

Definition is_admitted_msg (type : Z) : bool :=
  negb ((type <? 32) && truth ((1 << type) .& foldl (λ m t, m .| (1 << t)) 0 admission_types)).

Definition rconn_recv (now : Z) (rc : rconn) : comp (option (list Z) * rconn) :=
  if rconn_is_connected rc then
    v ← deref (rc_vconn rc);
    let '(error, b, v) := vconn_recv v in
    let rc := rc <| rc_vconn := Some v |> in
    if error =? 0 then
      rc ← copy_to_monitor b rc;
      type ← load b 1 1;
      xid ← load b 4 4;
      let rc := if is_admitted_msg type || (30 <=? now - last_connected rc)
                then rc <| probably_admitted := true |> <| last_admitted := now |> else rc in
      let rc := rc <| last_received := now |>
                   <| packets_received := u32 (packets_received rc + 1) |> in
      let rc :=
        if bool_decide (rc_state rc = S_IDLE) then
          if type =? OFPT_ECHO_REPLY then
            if idle_echo_xid rc =? 0 then state_transition now S_ACTIVE rc
            else
              let rc' := if idle_echo_xid rc =? xid then state_transition now S_ACTIVE rc else rc in
              rc' <| idle_echo_xid := 0 |>
          else state_transition now S_ACTIVE rc
        else rc in
      Ok (Some b, rc)
    else Ok (None, if error =? EAGAIN then rc else disconnect now rc)
  else Ok (None, rc).

(** ** Queries *)

Definition rconn_failure_duration (now : Z) (rc : rconn) : Z :=
  if rconn_is_connected rc then 0 else now - last_admitted rc.

Definition rconn_is_connectivity_questionable (rc : rconn) : bool * rconn :=
  (questionable_connectivity rc, rc <| questionable_connectivity := false |>).

Definition rconn_get_total_time_connected (now : Z) (rc : rconn) : Z :=
  u64 (total_time_connected rc + if rconn_is_connected rc then elapsed_in_this_state now rc else 0).


End Rconn.
