(* ===== verification/RconnFacts.v ===== *)
(** * Properties of reliable connections

    An invariant of [rconn] that every operation keeps: there is a transport
    exactly in the states that use it, the owner's counter is the number of
    counted packets in the queue, and the backoff is within its bounds.  From it:
    no operation crashes, and [rconn_run] terminates. *)

From S2P Require Import Prelude Ofp Rconn.
Import Ofp Rconn.

Module RconnFacts.

(** A message has at least a header. *)
Definition has_header (b : list Z) : Prop := (8 ≤ length b)%nat.

(** What the transports deliver: complete messages. *)
Definition vconn_ok (v : vconn) : Prop := Forall (λ rb, rb.1 = 0 → has_header rb.2) (vc_recv v).

Record rconn_ok (rc : rconn) : Prop := {
  ro_transport : is_Some (rc_vconn rc) ↔ has_transport (rc_state rc) = true;
  ro_vconn : ∀ v, rc_vconn rc = Some v → vconn_ok v;
  ro_opens : Forall (λ rv, vconn_ok rv.2) (rc_opens rc);
  ro_backoff : 0 <= backoff rc <= max_backoff rc;
  ro_max : 1 <= max_backoff rc < 2 ^ 30;
  ro_waiting : rc_state rc = S_BACKOFF → reliable rc = true ∧ 1 <= backoff rc;
  ro_queue : Forall (λ p, has_header (p_data p)) (txq rc);
  ro_counter : n_queued rc = counted (txq rc);
  ro_probe : 0 <= probe_interval rc < 2 ^ 30;
}.

Lemma no_transport : is_Some (@None vconn) ↔ false = true.
Proof. split; [intros [v Hv]|]; done. Qed.

Lemma counted_nonneg l : 0 <= counted l.
Proof. unfold counted. lia. Qed.

Lemma counted_app l1 l2 : counted (l1 ++ l2) = counted l1 + counted l2.
Proof. unfold counted. rewrite filter_app, length_app. lia. Qed.

Lemma counted_cons p l : counted (p :: l) = (if p_counted p then 1 else 0) + counted l.
Proof. unfold counted. rewrite filter_cons. destruct (p_counted p); simpl; lia. Qed.

Lemma rconn_create_ok now probe max opens xids :
  0 <= probe < 2 ^ 30 → 0 <= max < 2 ^ 30 → Forall (λ rv, vconn_ok rv.2) opens →
  rconn_ok (rconn_create now probe max opens xids).
Proof.
  intros Hp Hm Ho. unfold rconn_create, truth. split; simpl; try done.
  - destruct (Z.eqb_spec max 0); simpl; lia.
  - destruct (Z.eqb_spec max 0); simpl; lia.
  - destruct (Z.eqb_spec probe 0); simpl; lia.
Qed.

(** What a change of state leaves alone. *)
Definition core (rc : rconn) :=
  (rc_vconn rc, rc_opens rc, backoff rc, max_backoff rc, reliable rc, txq rc, n_queued rc,
   probe_interval rc, last_received rc).

Lemma state_transition_core now s rc :
  core (state_transition now s rc) = core rc ∧
  rc_state (state_transition now s rc) = s ∧ state_entered (state_transition now s rc) = now.
Proof.
  unfold state_transition. set (rc1 := rc <| seqno := _ |>).
  assert (core rc1 = core rc) as <- by reflexivity. clearbody rc1.
  set (rc2 := if is_connected_state s && _ then _ else rc1).
  assert (core rc2 = core rc1) as <- by (subst rc2; destruct (_ && _); reflexivity). clearbody rc2.
  set (rc3 := if rconn_is_connected rc2 then _ else rc2).
  assert (core rc3 = core rc2) as <- by (subst rc3; destruct (rconn_is_connected _); reflexivity).
  clearbody rc3. split_and!; reflexivity.
Qed.

Lemma question_connectivity_core now rc :
  core (question_connectivity now rc) = core rc ∧
  rc_state (question_connectivity now rc) = rc_state rc ∧
  state_entered (question_connectivity now rc) = state_entered rc.
Proof. unfold question_connectivity. destruct (60 <? _); split_and!; reflexivity. Qed.

Lemma rconn_ok_core rc rc' :
  core rc' = core rc → rc_state rc' = rc_state rc → rconn_ok rc → rconn_ok rc'.
Proof.
  intros [= E1 E2 E3 E4 E5 E6 E7 E8 _] E []. split; rewrite ?E, ?E1, ?E2, ?E3, ?E4, ?E5, ?E6, ?E7, ?E8;
    assumption.
Qed.

(** A change of state that gives the transport the new state needs. *)
Lemma state_transition_ok now s rc :
  (is_Some (rc_vconn rc) ↔ has_transport s = true) →
  (s = S_BACKOFF → reliable rc = true ∧ 1 <= backoff rc) →
  rconn_ok (rc <| rc_state := s |>) → rconn_ok (state_transition now s rc).
Proof.
  intros _ _. destruct (state_transition_core now s rc) as (Ec & Es & _).
  apply rconn_ok_core; [exact Ec|exact Es].
Qed.

Lemma rconn_disconnect_ok now rc : rconn_ok rc → rconn_ok (rconn_disconnect now rc).
Proof.
  intros Hok. unfold rconn_disconnect. case_bool_decide as E; [done|]. destruct Hok.
  apply state_transition_ok; simpl.
  - by apply no_transport.
  - done.
  - split; simpl; try done; try lia.
Qed.

Lemma flush_queue_counter rc : n_queued rc = counted (txq rc) → n_queued (flush_queue rc) = 0.
Proof. intros H. unfold flush_queue. simpl. lia. Qed.

Lemma question_connectivity_ok now rc : rconn_ok rc → rconn_ok (question_connectivity now rc).
Proof. destruct (question_connectivity_core now rc) as (? & ? & _). by apply rconn_ok_core. Qed.

Lemma disconnect_ok now rc :
  rconn_ok rc → rconn_ok (disconnect now rc).
Proof.
  intros Hok. unfold disconnect. destruct (reliable rc) eqn:Er; [|by apply rconn_disconnect_ok].
  set (rc1 := if has_transport (rc_state rc) then _ else rc).
  assert (rc_vconn rc1 = None) as Ev.
  { subst rc1. destruct (has_transport (rc_state rc)) eqn:E; [done|].
    apply eq_None_not_Some. rewrite (ro_transport _ Hok). congruence. }
  assert (rconn_ok (rc1 <| rc_state := S_VOID |>) ∧ reliable rc1 = true ∧
          backoff rc1 = backoff rc ∧ max_backoff rc1 = max_backoff rc) as (Hok1 & Er1 & Eb & Em).
  { subst rc1. destruct Hok. destruct (has_transport (rc_state rc)) eqn:E; split_and!; try done;
      split; simpl; rewrite ?Ev; try done; try apply no_transport.
    change (counted []) with 0. lia. }
  set (rc2 := rc1 <| backoff := _ |>).
  assert (1 <= backoff rc2 <= max_backoff rc2) as Hb.
  { subst rc2. simpl. rewrite Em, Eb. destruct Hok. case_match; lia. }
  assert (rconn_ok (state_transition now S_BACKOFF (rc2 <| backoff_deadline := now + backoff rc2 |>))).
  { apply state_transition_ok.
    - subst rc2. simpl. rewrite Ev. by apply no_transport.
    - intros _. split; [done|]. apply Hb.
    - destruct Hok1. subst rc2. split; simpl in *; try done; try lia.
      intros _. split; [done|]. apply Hb. }
  case_match; [by apply question_connectivity_ok|done].
Qed.

(** ** Connecting *)

Lemma vconn_open_ok rc :
  rconn_ok rc → let '(_, v, rc') := vconn_open rc in vconn_ok v ∧ rconn_ok rc' ∧
    rc_state rc' = rc_state rc ∧ rc_vconn rc' = rc_vconn rc ∧ reliable rc' = reliable rc.
Proof.
  intros Hok. unfold vconn_open. destruct (rc_opens rc) as [|[r v] l] eqn:E.
  - split; [by constructor|done].
  - destruct Hok. rewrite E in *. inversion_clear ro_opens0. split; [done|].
    split; [|done]. split; simpl; auto.
Qed.

Lemma reconnect_ok now rc :
  rconn_ok rc → has_transport (rc_state rc) = false → reliable rc = true →
  rconn_ok (reconnect now rc).2.
Proof.
  intros Hok Hs Hr. unfold reconnect.
  set (rc1 := rc <| n_attempted_connections := _ |>).
  assert (rconn_ok rc1) as Hok1 by (destruct Hok; by split).
  pose proof (vconn_open_ok rc1 Hok1) as Hopen. destruct (vconn_open rc1) as [[r v] rc2].
  destruct Hopen as (Hv & Hok2 & Es & Ev & Er).
  assert (rc_vconn rc2 = None) as Evn.
  { rewrite Ev. apply eq_None_not_Some. change (rc_vconn rc1) with (rc_vconn rc).
    rewrite (ro_transport _ Hok). congruence. }
  destruct (Z.eqb_spec r 0); simpl.
  - apply state_transition_ok; [|done|].
    + destruct (vc_reconnectable v); simpl; split; eauto.
    + destruct Hok2. destruct (vc_reconnectable v); split; simpl; try done; try (split; by eauto);
        intros w [= <-]; done.
  - apply disconnect_ok. destruct Hok2. by split.
Qed.

Lemma rconn_connect_ok now name rc : rconn_ok rc → rconn_ok (rconn_connect now name rc).2.
Proof.
  intros Hok. pose proof (rconn_disconnect_ok now rc Hok) as Hd.
  assert (rc_state (rconn_disconnect now rc) = S_VOID) as Es.
  { unfold rconn_disconnect. by case_bool_decide. }
  unfold rconn_connect. apply reconnect_ok; simpl; [|by rewrite Es|done].
  destruct Hd. rewrite Es in *. by split; simpl; rewrite ?Es.
Qed.

Lemma rconn_connect_unreliably_ok now name v rc :
  rconn_ok rc → vconn_ok v → rconn_ok (rconn_connect_unreliably now name v rc).
Proof.
  intros Hok Hv. pose proof (rconn_disconnect_ok now rc Hok) as [].
  unfold rconn_connect_unreliably. apply state_transition_ok; [|done|].
  - split; simpl; eauto.
  - split; simpl; try done. by intros w [= <-].
Qed.

(** ** Sending *)

Lemma monitor_loop_total fuel i b l :
  (length l - i ≤ fuel)%nat → ∃ l', monitor_loop fuel i b l = Ok l'.
Proof.
  revert i l. induction fuel as [|fuel IH]; intros i l Hf; simpl.
  - destruct (l !! i) eqn:E; [|eauto]. apply lookup_lt_Some in E. lia.
  - destruct (l !! i) as [v|] eqn:E; [|eauto]. pose proof (lookup_lt_Some _ _ _ E) as Hi.
    destruct (vconn_send v b) as [r v']. case_match.
    + destruct (last l) as [w|] eqn:El; [simpl|by apply last_None in El; subst].
      apply IH. rewrite length_take, length_insert. lia.
    + apply IH. rewrite length_insert. lia.
Qed.

Lemma copy_to_monitor_spec b rc : ∃ l, copy_to_monitor b rc = Ok (rc <| monitors := l |>).
Proof.
  unfold copy_to_monitor. destruct (monitor_loop_total (length (monitors rc)) 0 b (monitors rc)) as [l ->];
    [lia|]. by exists l.
Qed.

Lemma rconn_ok_monitors rc l : rconn_ok rc → rconn_ok (rc <| monitors := l |>).
Proof. intros []. by split. Qed.

Lemma vconn_send_ok v b : vconn_ok v → vconn_ok (vconn_send v b).2.
Proof. unfold vconn_send, vconn_ok. by repeat case_match. Qed.

(** A step of sending: the packet goes to the transport, stays, or the connection
    is dropped. *)
Lemma try_send_spec now rc p q :
  rconn_ok rc → has_transport (rc_state rc) = true → txq rc = p :: q →
  wp (try_send now rc) (λ '(r, rc'), rconn_ok rc' ∧
    (r = 0 → txq rc' = q ∧ rc_state rc' = rc_state rc)).
Proof.
  intros Hok Hs Hq. pose proof (ro_queue _ Hok) as Hall. rewrite Hq in Hall.
  inversion_clear Hall as [|? ? Hp Hall']. unfold has_header in Hp.
  unfold try_send. rewrite Hq. simpl.
  apply wp_bind, wp_load; [lia|]. apply wp_bind.
  destruct (rc_vconn rc) as [v|] eqn:Ev; cycle 1.
  { apply (ro_transport _ Hok) in Hs as [v Hv]. congruence. }
  simpl. pose proof (vconn_send_ok v (p_data p) (ro_vconn _ Hok v Ev)) as Hv'.
  destruct (vconn_send v (p_data p)) as [r v']. simpl in Hv'.
  pose proof (ro_counter _ Hok) as Hc. rewrite Hq, counted_cons in Hc.
  unfold truth. destruct (Z.eqb_spec r 0) as [->|Hr]; simpl.
  - split; [|intros _; destruct (p_counted p); simpl; by rewrite Hq]. destruct Hok.
    destruct (p_counted p); split; simpl; rewrite ?Hq; simpl; try done;
      try (rewrite <-ro_transport0; split; by eauto); try (by intros w [= <-]); lia.
  - split; [|done]. assert (rconn_ok (rc <| rc_vconn := Some v' |> <| idle_echo_xid := 0 |>)) as Hok'.
    { destruct Hok. split; simpl; try done. by intros w [= <-]. }
    destruct (r =? EAGAIN); [exact Hok'|]. by apply disconnect_ok.
Qed.


Lemma enqueue_ok b count rc : rconn_ok rc → has_header b → rconn_ok (enqueue b count rc).
Proof.
  intros [] Hb. unfold enqueue. destruct count; split; simpl; try done;
    try (apply Forall_app; by repeat constructor); rewrite counted_app, counted_cons; simpl;
    change (counted []) with 0; lia.
Qed.

Lemma enqueue_fields b count rc :
  rc_state (enqueue b count rc) = rc_state rc ∧ rc_vconn (enqueue b count rc) = rc_vconn rc ∧
  txq (enqueue b count rc) = txq rc ++ [mk_packet b count].
Proof. unfold enqueue. by destruct count. Qed.

Lemma rconn_send_ok now b count rc :
  rconn_ok rc → has_header b → wp (rconn_send now b count rc) (λ '(_, rc'), rconn_ok rc').
Proof.
  intros Hok Hb. unfold rconn_send. destruct (rconn_is_connected rc) eqn:Hc; [|done].
  destruct (copy_to_monitor_spec b rc) as [l ->]. cbn [mbind comp_bind].
  pose proof (enqueue_ok b count _ (rconn_ok_monitors rc l Hok) Hb) as Hok2.
  destruct (enqueue_fields b count (rc <| monitors := l |>)) as (Es & _ & _).
  set (rc2 := enqueue b count _) in *.
  destruct (Nat.eqb_spec (length (txq rc2)) 1) as [Hl|Hl]; [|done].
  destruct (txq rc2) as [|p q] eqn:Hq; [done|]. apply wp_bind.
  eapply wp_mono; [eapply try_send_spec; [done| |exact Hq]|].
  - rewrite Es. simpl. unfold rconn_is_connected in Hc. by destruct (rc_state rc).
  - intros [r rc'] [H _]. done.
Qed.

Lemma rconn_send_with_limit_ok now b limit rc :
  rconn_ok rc → has_header b → wp (rconn_send_with_limit now b limit rc) (λ '(_, rc'), rconn_ok rc').
Proof.
  intros Hok Hb. unfold rconn_send_with_limit. case_match; [done|]. by apply rconn_send_ok.
Qed.

Lemma disconnect_state now rc :
  rc_state (disconnect now rc) = if reliable rc then S_BACKOFF else S_VOID.
Proof.
  unfold disconnect. destruct (reliable rc).
  - unfold question_connectivity. by repeat case_match.
  - unfold rconn_disconnect. by case_bool_decide.
Qed.

Lemma tx_loop_ok fuel now rc :
  rconn_ok rc → has_transport (rc_state rc) = true → (length (txq rc) ≤ fuel)%nat →
  wp (tx_loop fuel now rc) (λ rc', rconn_ok rc').
Proof.
  revert rc. induction fuel as [|fuel IH]; intros rc Hok Hs Hf; cbn [tx_loop].
  - destruct (txq rc); [done|simpl in Hf; lia].
  - destruct (txq rc) as [|p q] eqn:Hq; [done|]. apply wp_bind.
    eapply wp_mono; [by eapply try_send_spec|]. intros [r rc'] [Hok' H0].
    unfold truth. destruct (Z.eqb_spec r 0) as [->|]; simpl; [|done].
    destruct H0 as [Hq' Hs']; [done|]. apply IH; [done|by rewrite Hs'|]. rewrite Hq'. simpl in Hf. lia.
Qed.

Lemma do_tx_work_ok now rc :
  rconn_ok rc → has_transport (rc_state rc) = true → wp (do_tx_work now rc) rconn_ok.
Proof. intros. by apply tx_loop_ok. Qed.

(** ** Running and receiving *)

Lemma vconn_recv_ok v : vconn_ok v →
  let '(r, b, v') := vconn_recv v in vconn_ok v' ∧ (r = 0 → has_header b).
Proof.
  unfold vconn_recv, vconn_ok. destruct (vc_recv v) as [|[r b] l] eqn:E; [by rewrite E|].
  inversion_clear 1. simpl. auto.
Qed.

Lemma set_vconn_ok rc v v' :
  rconn_ok rc → rc_vconn rc = Some v → vconn_ok v' → rconn_ok (rc <| rc_vconn := Some v' |>).
Proof.
  intros [] Hv Hv'. split; simpl; try done; [|by intros w [= <-]].
  rewrite <-ro_transport0, Hv. split; eauto.
Qed.

Lemma transport_some rc :
  rconn_ok rc → has_transport (rc_state rc) = true → ∃ v, rc_vconn rc = Some v ∧ vconn_ok v.
Proof. intros Hok Hs. apply (ro_transport _ Hok) in Hs as [v Hv]. exists v. split; [done|]. by apply Hok. Qed.

Lemma make_echo_request_header xid : has_header (make_echo_request xid).
Proof. unfold has_header, make_echo_request. rewrite !length_app, !length_le_bytes. simpl. lia. Qed.

Lemma run_state_ok now rc : rconn_ok rc → wp (run_state now rc) rconn_ok.
Proof.
  intros Hok. unfold run_state. destruct (rc_state rc) eqn:Es.
  - done.
  - unfold run_BACKOFF. simpl. case_match; [|done]. apply reconnect_ok; [done|by rewrite Es|].
    by apply (ro_waiting _ Hok).
  - unfold run_CONNECTING. destruct (transport_some rc Hok) as (v & Hv & Hvok); [by rewrite Es|].
    rewrite Hv. apply wp_bind. simpl.
    assert (vconn_ok (vconn_connect v).2) as Hv' by (unfold vconn_connect; by case_match).
    destruct (vconn_connect v) as [r v']. pose proof (set_vconn_ok rc v v' Hok Hv Hv') as Hok'.
    destruct (Z.eqb_spec r 0); simpl.
    + assert (rconn_ok (state_transition now S_ACTIVE (rc <| rc_vconn := Some v' |>
        <| n_successful_connections := u32 (n_successful_connections rc + 1) |>))) as [].
      { apply state_transition_ok; [|done|]; [split; simpl; eauto|]. destruct Hok'. split; simpl in *; done. }
      split; done.
    + repeat case_match; simpl; try done; apply disconnect_ok; destruct Hok'; by split.
  - unfold run_ACTIVE. case_match; [|apply do_tx_work_ok; [done|by rewrite Es]].
    set (rc1 := state_transition now S_IDLE rc).
    assert (rconn_ok rc1) as Hok1.
    { apply state_transition_ok; [|done|].
      - rewrite (ro_transport _ Hok), Es. done.
      - destruct Hok. split; simpl; rewrite ?Es in *; done. }
    assert (rconn_ok (alloc_xid rc1).2) as Hok2.
    { unfold alloc_xid. destruct (rc_xids rc1); [done|]. destruct Hok1. by split. }
    destruct (alloc_xid rc1) as [xid rc2]. apply wp_bind.
    eapply wp_mono; [apply rconn_send_ok; [done|apply make_echo_request_header]|]. by intros [].
  - unfold run_IDLE. case_match; [|apply do_tx_work_ok; [done|by rewrite Es]].
    by apply disconnect_ok, question_connectivity_ok.
Qed.


Lemma rconn_recv_ok now rc :
  rconn_ok rc → wp (rconn_recv now rc) (λ '(r, rc'), rconn_ok rc' ∧ ∀ b, r = Some b → has_header b).
Proof.
  intros Hok. unfold rconn_recv. destruct (rconn_is_connected rc) eqn:Hc; [|by split].
  assert (has_transport (rc_state rc) = true) as Hs.
  { unfold rconn_is_connected in Hc. by destruct (rc_state rc). }
  destruct (transport_some rc Hok Hs) as (v & Hv & Hvok). rewrite Hv. cbn [deref mbind comp_bind].
  pose proof (vconn_recv_ok v Hvok) as Hr. destruct (vconn_recv v) as [[r b] v'].
  destruct Hr as [Hv' Hb]. pose proof (set_vconn_ok rc v v' Hok Hv Hv') as Hok'.
  destruct (Z.eqb_spec r 0) as [->|Hr0].
  2:{ split; [|done]. destruct (r =? EAGAIN); [done|]. by apply disconnect_ok. }
  specialize (Hb eq_refl). destruct (copy_to_monitor_spec b (rc <| rc_vconn := Some v' |>)) as [l ->].
  unfold has_header in *. cbn [mbind comp_bind]. apply wp_bind, wp_load; [lia|].
  apply wp_bind, wp_load; [lia|]. apply wp_ok. split; [|by intros ? [= <-]].
  set (rc1 := upd packets_received _ _). 
  assert (rconn_ok rc1 ∧ rc_state rc1 = rc_state rc) as [Hok1 Es1].
  { subst rc1. destruct Hok'. case_match; split; try done; split; simpl; done. }
  assert (rconn_ok (state_transition now S_ACTIVE rc1)) as Hact.
  { apply state_transition_ok; [|done|].
    - rewrite (ro_transport _ Hok1), Es1, Hs. done.
    - destruct Hok1. rewrite Es1, Hs in *. split; simpl; try done. }
  case_bool_decide; [|done]. case_match; [|done]. case_match; [done|].
  case_match; [destruct Hact|destruct Hok1]; by split.
Qed.

(** ** Termination of [rconn_run] *)

Record clock_ok (now : Z) (rc : rconn) : Prop := {
  ck_entered : 0 <= state_entered rc <= now;
  ck_received : 0 <= last_received rc <= now;
  ck_now : now < 2 ^ 31;
}.

Lemma not_timed_out now rc :
  clock_ok now rc → state_entered rc = now → 1 <= timeout rc <= UINT_MAX → timed_out now rc = false.
Proof.
  intros [He _ Hn] Hf Ht. unfold timed_out. apply Z.leb_gt. rewrite Hf. unfold sat_add, UINT_MAX in *.
  assert (u32 now = now) as -> by (unfold u32; apply Z.mod_small; lia).
  destruct (Z.leb_spec now (u32 (now + timeout rc))) as [H|H]; [|lia].
  unfold u32 in *. destruct (decide (now + timeout rc < 2 ^ 32)).
  - rewrite Z.mod_small by lia. lia.
  - assert ((now + timeout rc) mod 2 ^ 32 = now + timeout rc - 2 ^ 32) as E.
    { symmetry. apply (Z.mod_unique _ _ 1); lia. }
    lia.
Qed.

Lemma fresh_active now rc :
  rconn_ok rc → clock_ok now rc → rc_state rc = S_ACTIVE → state_entered rc = now →
  timed_out now rc = false.
Proof.
  intros Hok Hc Hs He. apply not_timed_out; [done..|]. unfold timeout. rewrite Hs.
  unfold timeout_ACTIVE, truth. destruct Hc, (ro_probe _ Hok). rewrite He in *.
  destruct (Z.eqb_spec (probe_interval rc) 0); simpl; [unfold UINT_MAX; lia|].
  rewrite Z.max_r by lia. unfold u32, UINT_MAX. rewrite (Z.mod_small now) by lia.
  rewrite (Z.mod_small (now + _)) by lia. rewrite Z.mod_small; lia.
Qed.

Lemma fresh_backoff now rc :
  rconn_ok rc → clock_ok now rc → rc_state rc = S_BACKOFF → state_entered rc = now →
  timed_out now rc = false.
Proof.
  intros Hok Hc Hs He. apply not_timed_out; [done..|]. unfold timeout. rewrite Hs.
  unfold timeout_BACKOFF. destruct (ro_waiting _ Hok Hs), (ro_backoff _ Hok), (ro_max _ Hok).
  unfold u32, UINT_MAX. rewrite Z.mod_small by lia. lia.
Qed.

(** How many more times the loop can run from a state. *)
Definition rank (now : Z) (rc : rconn) : nat :=
  match rc_state rc with
  | S_VOID => 1
  | S_BACKOFF => if decide (state_entered rc = now) then 1 else 4
  | S_CONNECTING => 3
  | S_ACTIVE => if decide (state_entered rc = now) then 2 else 3
  | S_IDLE => 2
  end.

(** The times that the operations leave alone. *)
Definition times (rc : rconn) : state * Z * Z := (rc_state rc, state_entered rc, last_received rc).

Lemma clock_times now rc rc' : times rc' = times rc → clock_ok now rc → clock_ok now rc'.
Proof. intros [= E1 E2 E3] []. split; congruence. Qed.

Lemma state_transition_times now s rc : times (state_transition now s rc) = (s, now, last_received rc).
Proof.
  destruct (state_transition_core now s rc) as (Ec & Es & En). unfold times.
  rewrite Es, En. f_equal. exact (f_equal snd Ec).
Qed.

Lemma question_connectivity_times now rc : times (question_connectivity now rc) = times rc.
Proof.
  destruct (question_connectivity_core now rc) as (Ec & Es & En). unfold times.
  rewrite Es, En. f_equal. exact (f_equal snd Ec).
Qed.

(** The connection moves to [s] at time [now]. *)
Definition moves (now : Z) (rc rc' : rconn) (s : state) : Prop := times rc' = (s, now, last_received rc).

Definition dropped (s : state) : Prop := s = S_BACKOFF ∨ s = S_VOID.

(** After a step of sending, the connection is where it was or has been dropped. *)
Definition stays_or_drops (now : Z) (rc rc' : rconn) : Prop :=
  times rc' = times rc ∨ ∃ s, dropped s ∧ moves now rc rc' s.

Lemma disconnect_moves now rc :
  rc_state rc ≠ S_VOID → ∃ s, dropped s ∧ moves now rc (disconnect now rc) s.
Proof.
  intros Hs. unfold disconnect, moves. destruct (reliable rc).
  - exists S_BACKOFF. split; [by left|].
    set (rc1 := if has_transport _ then _ else rc).
    assert (last_received rc1 = last_received rc) as <- by (subst rc1; by destruct (has_transport _)).
    destruct (60 <? _); rewrite ?question_connectivity_times; exact (state_transition_times _ _ _).
  - exists S_VOID. split; [by right|]. unfold rconn_disconnect.
    rewrite bool_decide_eq_false_2 by done. by rewrite state_transition_times.
Qed.

Lemma moves_times now rc1 rc2 rc3 s :
  last_received rc2 = last_received rc1 → moves now rc2 rc3 s → moves now rc1 rc3 s.
Proof. unfold moves. by intros ->. Qed.

Lemma try_send_times now rc :
  rc_state rc ≠ S_VOID → ∀ r rc', try_send now rc = Ok (r, rc') →
  stays_or_drops now rc rc' ∧ (r = 0 → times rc' = times rc).
Proof.
  intros Hs r rc'. unfold try_send. destruct (head (txq rc)) as [p|]; [|done]. simpl.
  destruct (load (p_data p) 4 4) as [xid| |]; [|done..]. simpl.
  destruct (rc_vconn rc) as [v|]; [|done]. simpl. destruct (vconn_send v (p_data p)) as [e v'].
  unfold truth. destruct (Z.eqb_spec e 0); simpl; intros [= <- <-].
  - assert (∀ b : bool, times (if b then rc else rc) = times rc) by by intros [].
    split; [left|intros _]; by destruct (p_counted p).
  - split; [|done]. destruct (e =? EAGAIN); [by left|]. right.
    
    destruct (disconnect_moves now (rc <| rc_vconn := Some v' |> <| idle_echo_xid := 0 |>))
      as (s & Hd & Hm); [exact Hs|]. exists s. split; [done|exact Hm].
Qed.

Lemma stays_or_drops_trans now rc1 rc2 rc3 :
  times rc2 = times rc1 → stays_or_drops now rc2 rc3 → stays_or_drops now rc1 rc3.
Proof.
  unfold stays_or_drops, moves. intros E. pose proof E as [= E1 E2 E3]. rewrite E, E3. done.
Qed.

Lemma tx_loop_times fuel now rc rc' :
  rc_state rc ≠ S_VOID → tx_loop fuel now rc = Ok rc' → stays_or_drops now rc rc'.
Proof.
  revert rc. induction fuel as [|fuel IH]; intros rc Hs; cbn [tx_loop].
  - destruct (txq rc); [|done]. intros [= <-]. by left.
  - destruct (txq rc); [intros [= <-]; by left|].
    destruct (try_send now rc) as [[r rc1]| |] eqn:E; [|done..]. simpl.
    apply try_send_times in E as [H1 H2]; [|done]. unfold truth.
    destruct (Z.eqb_spec r 0) as [->|]; simpl; [|by intros [= <-]].
    specialize (H2 eq_refl). intros H. eapply stays_or_drops_trans; [exact H2|].
    apply IH; [|done]. unfold times in H2. congruence.
Qed.

Lemma rconn_send_times now b count rc r rc' :
  rc_state rc ≠ S_VOID → rconn_send now b count rc = Ok (r, rc') → stays_or_drops now rc rc'.
Proof.
  intros Hs. unfold rconn_send. destruct (rconn_is_connected rc); [|intros [= _ <-]; by left].
  destruct (copy_to_monitor_spec b rc) as [l ->]. cbn [mbind comp_bind].
  assert (times (enqueue b count (rc <| monitors := l |>)) = times rc) as Ee
    by (unfold enqueue; by destruct count).
  set (rc2 := enqueue b count _) in *. case_match; [|intros [= _ <-]; by left].
  destruct (try_send now rc2) as [[r1 rc3]| |] eqn:E; [|done..]. simpl. intros [= _ <-].
  eapply stays_or_drops_trans; [exact Ee|]. eapply try_send_times; [|exact E].
  unfold times in Ee. congruence.
Qed.

(** Where a run of the state's handler leads. *)
Lemma run_state_times now rc rc' :
  rconn_ok rc → clock_ok now rc → run_state now rc = Ok rc' →
  times rc' = times rc ∨ ∃ s, moves now rc rc' s ∧
    match rc_state rc with
    | S_VOID => False
    | S_BACKOFF => state_entered rc ≠ now ∧ (dropped s ∨ s = S_CONNECTING)
    | S_CONNECTING => dropped s ∨ s = S_ACTIVE
    | S_ACTIVE => dropped s ∨ s = S_IDLE ∧ state_entered rc ≠ now
    | S_IDLE => dropped s
    end.
Proof.
  intros Hok Hc. unfold run_state. destruct (rc_state rc) eqn:Es.
  - intros [= <-]. by left.
  - unfold run_BACKOFF. intros [= <-]. destruct (timed_out now rc) eqn:Et; [|by left].
    right. assert (state_entered rc ≠ now) as Hold.
    { intros E. rewrite fresh_backoff in Et; done. }
    unfold reconnect. destruct (vconn_open _) as [[r v] rc1] eqn:Eo.
    assert (times rc1 = times rc) as [= Es1 Ee1 El1].
    { unfold vconn_open in Eo. simpl in Eo. by destruct (rc_opens rc) as [|[]]; simplify_eq. }
    destruct (r =? 0); cbn [snd].
    + exists S_CONNECTING. split; [|auto]. unfold moves. rewrite state_transition_times.
      destruct (vc_reconnectable v); simpl; congruence.
    + destruct (disconnect_moves now (rc1 <| backoff_deadline := TIME_MAX |>)) as (s & Hs & Hm);
        [simpl; congruence|]. exists s. split; [|auto]. by eapply moves_times.
  - unfold run_CONNECTING. destruct (rc_vconn rc) as [v|]; [|done]. cbn [deref mbind comp_bind].
    destruct (vconn_connect v) as [r v']. intros H.
    assert (∀ rc1, times rc1 = times rc → ∃ s, moves now rc (disconnect now rc1) s ∧
              (dropped s ∨ s = S_ACTIVE)) as Hd.
    { intros rc1 [= E1 _ E3]. destruct (disconnect_moves now rc1) as (s & Hs & Hm); [congruence|].
      exists s. split; [by eapply moves_times|auto]. }
    destruct (r =? 0).
    + cbv zeta in H. set (rc1 := rc <| rc_vconn := Some v' |> <| n_successful_connections := _ |>) in H.
      set (rc2 := state_transition now S_ACTIVE rc1) in H.
      assert (moves now rc rc2 S_ACTIVE) as E by exact (state_transition_times now S_ACTIVE rc1).
      clearbody rc2. injection H as <-. right. exists S_ACTIVE. split; [exact E|auto].
    + destruct (negb (r =? EAGAIN)); [injection H as <-; right; by apply Hd|].
      case_match; injection H as <-; [right; by apply Hd|by left].
  - unfold run_ACTIVE. destruct (timed_out now rc) eqn:Et.
    + assert (state_entered rc ≠ now) as Hold.
      { intros E. rewrite fresh_active in Et; done. }
      pose proof (state_transition_times now S_IDLE rc) as E1. set (rc1 := state_transition now S_IDLE rc) in *.
      assert (times (alloc_xid rc1).2 = times rc1) as E2 by (unfold alloc_xid; by case_match).
      destruct (alloc_xid rc1) as [xid rc2]. simpl in E2.
      destruct (rconn_send now (make_echo_request xid) false rc2) as [[r rc3]| |] eqn:E; [|done..].
      simpl. intros [= <-]. apply rconn_send_times in E; [|unfold times in *; congruence].
      right. destruct E as [E|(s & Hs & Hm)].
      * exists S_IDLE. split; [|auto]. unfold moves. congruence.
      * exists s. split; [|auto]. eapply moves_times; [|exact Hm]. unfold times in *. congruence.
    + intros H. apply tx_loop_times in H as [H|(s & Hs & Hm)]; [by left| |congruence].
      right. exists s. auto.
  - unfold run_IDLE. destruct (timed_out now rc) eqn:Et.
    + intros [= <-]. right. assert (times (question_connectivity now rc) = times rc) as [= E1 _ E3].
      { unfold question_connectivity. by case_match. }
      destruct (disconnect_moves now (question_connectivity now rc)) as (s & Hs & Hm); [congruence|].
      exists s. split; [by eapply moves_times|done].
    + intros H. apply tx_loop_times in H as [H|(s & Hs & Hm)]; [by left| |congruence].
      right. exists s. auto.
Qed.

Lemma run_state_rank now rc rc' :
  rconn_ok rc → clock_ok now rc → run_state now rc = Ok rc' →
  clock_ok now rc' ∧ (rc_state rc' ≠ rc_state rc → (rank now rc' < rank now rc)%nat).
Proof.
  intros Hok Hc Hrun. destruct (run_state_times now rc rc' Hok Hc Hrun) as [H|(s & Hm & Hs)].
  - split; [by eapply clock_times|]. injection H as E _ _. congruence.
  - pose proof Hm as [= E1 E2 E3]. split; [destruct Hc; split; lia|].
    intros _. unfold rank. rewrite E1, E2. unfold dropped in Hs.
    destruct (rc_state rc), s; repeat case_decide; intuition (lia || congruence).
Qed.

Lemma run_loop_total fuel now rc :
  rconn_ok rc → clock_ok now rc → (rank now rc ≤ fuel)%nat → wp (run_loop fuel now rc) rconn_ok.
Proof.
  revert rc. induction fuel as [|fuel IH]; intros rc Hok Hc Hr; cbn [run_loop].
  - exfalso. unfold rank in Hr. destruct (rc_state rc); repeat case_decide; lia.
  - pose proof (run_state_ok now rc Hok) as Hw. apply wp_inv in Hw as (rc' & E & Hok').
    rewrite E. cbn [mbind comp_bind]. destruct (run_state_rank now rc rc' Hok Hc E) as [Hc' Hlt].
    case_bool_decide; [done|]. apply IH; [done|done|]. specialize (Hlt ltac:(done)). lia.
Qed.

Lemma rank_le now rc : (rank now rc ≤ 4)%nat.
Proof. unfold rank. destruct (rc_state rc); repeat case_decide; lia. Qed.

(** ** Theorems *)

(** Calls on a connection, at times that the caller supplies. *)
Inductive rconn_call :=
| CConnect (now : Z) (name : list Z)
| CConnectUnreliably (now : Z) (name : list Z) (v : vconn)
| CDisconnect (now : Z)
| CRun (now : Z)
| CRecv (now : Z)
| CSend (now : Z) (b : list Z) (limit : Z)
| CMonitor (v : vconn).

Definition run_call (c : rconn_call) (rc : rconn) : comp rconn :=
  match c with
  | CConnect now name => Ok (rconn_connect now name rc).2
  | CConnectUnreliably now name v => Ok (rconn_connect_unreliably now name v rc)
  | CDisconnect now => Ok (rconn_disconnect now rc)
  | CRun now => rconn_run now rc
  | CRecv now => '(_, rc) ← rconn_recv now rc; Ok rc
  | CSend now b limit => '(_, rc) ← rconn_send_with_limit now b limit rc; Ok rc
  | CMonitor v => Ok (rconn_add_monitor v rc)
  end.

Definition call_ok (c : rconn_call) (rc : rconn) : Prop :=
  match c with
  | CConnectUnreliably _ _ v => vconn_ok v
  | CRun now => clock_ok now rc
  | CSend _ b _ => has_header b
  | _ => True
  end.

(** C7: no operation on a connection crashes (uses a transport it does not have,
    takes a packet from an empty queue, or loops for ever): from any connection
    that satisfies the invariant, every call terminates and leaves one that does.
    The invariant says that there is a transport exactly while connecting, active or
    idle, that the owner's counter is the number of its packets in the queue, and
    that the backoff is between 1 s and the maximum while waiting. *)
Theorem rconn_calls_safe c rc :
  rconn_ok rc → call_ok c rc → wp (run_call c rc) rconn_ok.
Proof.
  intros Hok Hc. destruct c; simpl in *.
  - by apply rconn_connect_ok.
  - by apply rconn_connect_unreliably_ok.
  - by apply rconn_disconnect_ok.
  - apply run_loop_total; [done..|]. pose proof (rank_le now rc). lia.
  - apply wp_bind. eapply wp_mono; [by apply rconn_recv_ok|]. by intros [r rc'] [H _].
  - apply wp_bind. eapply wp_mono; [by apply rconn_send_with_limit_ok|]. by intros [r rc'].
  - unfold rconn_add_monitor. case_match; [|done]. by apply rconn_ok_monitors.
Qed.

Lemma run_loop_mono n m now rc rc' :
  (n ≤ m)%nat → run_loop n now rc = Ok rc' → run_loop m now rc = Ok rc'.
Proof.
  revert m rc. induction n as [|n IH]; intros [|m] rc Hm H; [done|done|lia|]. cbn [run_loop] in *.
  destruct (run_state now rc) as [rc1| |]; [|done..]. cbn [mbind comp_bind] in *.
  case_bool_decide; [done|]. apply IH; [lia|done].
Qed.

(** C24: [rconn_run]'s loop ends after at most four rounds, whatever the transport
    answers, provided the clock has not gone back since the state was entered:
    a state that was just entered does not time out at once. *)
Theorem rconn_run_terminates now rc :
  rconn_ok rc → clock_ok now rc →
  ∃ rc', rconn_run now rc = Ok rc' ∧ ∀ fuel, (4 ≤ fuel)%nat → run_loop fuel now rc = Ok rc'.
Proof.
  intros Hok Hc. pose proof (rank_le now rc) as Hr.
  destruct (wp_inv _ _ (run_loop_total 4 now rc Hok Hc Hr)) as (rc' & E & _). exists rc'.
  split; [|intros fuel Hf]; (eapply run_loop_mono; [|exact E]); lia.
Qed.

(** The abstract channel: what has been handed to the current transport, followed
    by what waits in the queue. *)
Definition stream (rc : rconn) : list (list Z) :=
  (match rc_vconn rc with Some v => vc_sent v | None => [] end) ++ (p_data <$> txq rc).

Lemma state_transition_vconn now s rc : rc_vconn (state_transition now s rc) = rc_vconn rc.
Proof. exact (f_equal (λ c, c.1.1.1.1.1.1.1.1) (proj1 (state_transition_core now s rc))). Qed.

Lemma question_connectivity_vconn now rc : rc_vconn (question_connectivity now rc) = rc_vconn rc.
Proof. exact (f_equal (λ c, c.1.1.1.1.1.1.1.1) (proj1 (question_connectivity_core now rc))). Qed.

Lemma disconnect_no_vconn now rc :
  has_transport (rc_state rc) = true → rc_vconn (disconnect now rc) = None.
Proof.
  intros Hs. unfold disconnect. destruct (reliable rc).
  - rewrite Hs. destruct (60 <? _); rewrite ?question_connectivity_vconn;
      exact (state_transition_vconn _ _ _).
  - unfold rconn_disconnect. case_bool_decide as E; [by rewrite E in Hs|].
    exact (state_transition_vconn _ _ _).
Qed.

Lemma try_send_stream now rc r rc' :
  has_transport (rc_state rc) = true → try_send now rc = Ok (r, rc') →
  is_Some (rc_vconn rc') → stream rc' = stream rc.
Proof.
  intros Hs. unfold try_send. destruct (txq rc) as [|p q] eqn:Hq; [done|]. cbn [head deref mbind comp_bind].
  destruct (load (p_data p) 4 4) as [xid| |]; [|done..]. cbn [mbind comp_bind].
  destruct (rc_vconn rc) as [v|] eqn:Hv; [|done]. cbn [deref mbind comp_bind].
  unfold vconn_send. destruct (vc_send v) as [|e l]; unfold truth.
  - cbn. intros [= <- <-] _. unfold stream. cbn. by rewrite Hv, Hq.
  - destruct (Z.eqb_spec e 0) as [->|]; cbn [negb].
    + intros [= <- <-] _. unfold stream. rewrite Hv, Hq. destruct (p_counted p); simpl; rewrite ?Hq; simpl;
        by rewrite <-app_assoc.
    + intros [= <- <-]. destruct (e =? EAGAIN).
      * intros _. unfold stream. cbn. by rewrite Hv, Hq.
      * rewrite disconnect_no_vconn by done. intros []. done.
Qed.

Lemma try_send_dropped now rc r rc' :
  rc_state rc ≠ S_VOID → try_send now rc = Ok (r, rc') → is_Some (rc_vconn rc') → rconn_ok rc' →
  rc_state rc' = rc_state rc.
Proof.
  intros Hs E Hv Hok. apply try_send_times in E as [[E|(s & [->| ->] & Hm)] _]; [|..|done].
  - by injection E.
  - injection Hm as E1 _ _. apply (ro_transport _ Hok) in Hv. by rewrite E1 in Hv.
  - injection Hm as E1 _ _. apply (ro_transport _ Hok) in Hv. by rewrite E1 in Hv.
Qed.

Lemma tx_loop_stream fuel now rc rc' :
  rconn_ok rc → has_transport (rc_state rc) = true → tx_loop fuel now rc = Ok rc' →
  is_Some (rc_vconn rc') → stream rc' = stream rc.
Proof.
  revert rc. induction fuel as [|fuel IH]; intros rc Hok Hs; cbn [tx_loop].
  - destruct (txq rc); [|done]. by intros [= <-].
  - destruct (txq rc) as [|p q] eqn:Hq; [by intros [= <-]|].
    pose proof (try_send_spec now rc p q Hok Hs Hq) as Hw. apply wp_inv in Hw as ([r rc1] & E & Hok1 & H0).
    rewrite E. cbn [mbind comp_bind]. unfold truth. destruct (Z.eqb_spec r 0) as [->|]; cbn [negb].
    + intros H Hv. destruct H0 as [_ Es]; [done|]. rewrite (IH rc1); [|done|by rewrite Es|done..].
      eapply try_send_stream; [done|exact E|]. apply (ro_transport _ Hok1). by rewrite Es.
    + intros [= <-] Hv. by eapply try_send_stream.
Qed.

Lemma rconn_send_stream now b count rc r rc' :
  rconn_is_connected rc = true → rconn_send now b count rc = Ok (r, rc') → is_Some (rc_vconn rc') →
  r = 0 ∧ stream rc' = stream rc ++ [b].
Proof.
  intros Hc. assert (has_transport (rc_state rc) = true) as Hs.
  { unfold rconn_is_connected in Hc. by destruct (rc_state rc). }
  unfold rconn_send. rewrite Hc.
  destruct (copy_to_monitor_spec b rc) as [l ->]. cbn [mbind comp_bind].
  destruct (enqueue_fields b count (rc <| monitors := l |>)) as (Es & Ev & Eq).
  set (rc2 := enqueue b count _) in *.
  assert (stream rc2 = stream rc ++ [b]) as Hst.
  { unfold stream. rewrite Ev, Eq, fmap_app. simpl. by rewrite app_assoc. }
  case_match; [|by intros [= <- <-]].
  destruct (try_send now rc2) as [[r1 rc3]| |] eqn:E; [|done..]. cbn. intros [= <- <-] Hv.
  split; [done|]. rewrite <-Hst. eapply try_send_stream; [by rewrite Es|exact E|done].
Qed.

(** C25: while the connection is up, it is a FIFO channel: sending appends the
    message to the stream of messages handed to the transport or waiting, and
    the transmission of queued messages leaves that stream alone.  Messages are
    neither lost, duplicated nor reordered unless the connection drops. *)
Theorem rconn_is_fifo now b count rc :
  rconn_ok rc → rconn_is_connected rc = true → has_header b →
  wp (rconn_send now b count rc) (λ '(r, rc'), is_Some (rc_vconn rc') →
    r = 0 ∧ stream rc' = stream rc ++ [b]) ∧
  wp (do_tx_work now rc) (λ rc', is_Some (rc_vconn rc') → stream rc' = stream rc).
Proof.
  intros Hok Hc Hb.
  assert (has_transport (rc_state rc) = true) as Hs.
  { unfold rconn_is_connected in Hc. by destruct (rc_state rc). }
  split.
  - destruct (wp_inv _ _ (rconn_send_ok now b count rc Hok Hb)) as ([r rc'] & E & _). rewrite E.
    intros Hv. by eapply rconn_send_stream.
  - destruct (wp_inv _ _ (do_tx_work_ok now rc Hok Hs)) as (rc' & E & _). rewrite E.
    intros Hv. by eapply tx_loop_stream.
Qed.

(** What is queued, and how much of it is counted. *)
Definition queue (rc : rconn) : list packet * Z := (txq rc, n_queued rc).

Lemma state_transition_queue now s rc : queue (state_transition now s rc) = queue rc.
Proof. exact (f_equal (λ c, (c.1.1.1.2, c.1.1.2)) (proj1 (state_transition_core now s rc))). Qed.

Lemma question_connectivity_queue now rc : queue (question_connectivity now rc) = queue rc.
Proof. exact (f_equal (λ c, (c.1.1.1.2, c.1.1.2)) (proj1 (question_connectivity_core now rc))). Qed.

Lemma disconnect_queue now rc :
  queue (disconnect now rc) =
    if reliable rc && has_transport (rc_state rc) then ([], n_queued rc - counted (txq rc))
    else queue rc.
Proof.
  unfold disconnect. destruct (reliable rc); cbn [andb].
  - set (rc1 := if has_transport _ then _ else rc).
    assert (queue rc1 = if has_transport (rc_state rc) then ([], n_queued rc - counted (txq rc))
                        else queue rc) as <- by (subst rc1; by destruct (has_transport _)).
    destruct (60 <? _); rewrite ?question_connectivity_queue; exact (state_transition_queue _ _ _).
  - unfold rconn_disconnect. destruct (bool_decide _); [done|]. exact (state_transition_queue _ _ _).
Qed.

Lemma disconnect_counted now rc : counted (txq (disconnect now rc)) <= counted (txq rc).
Proof.
  pose proof (f_equal fst (disconnect_queue now rc)) as E. cbn [queue fst] in E. rewrite E.
  destruct (_ && _); [apply counted_nonneg|reflexivity].
Qed.

Lemma try_send_counted now rc r rc' :
  try_send now rc = Ok (r, rc') → counted (txq rc') <= counted (txq rc).
Proof.
  unfold try_send. destruct (txq rc) as [|p q] eqn:Hq; [done|]. cbn [head deref mbind comp_bind].
  destruct (load (p_data p) 4 4) as [xid| |]; [|done..]. cbn [mbind comp_bind].
  destruct (rc_vconn rc) as [v|]; [|done]. cbn [deref mbind comp_bind].
  destruct (vconn_send v (p_data p)) as [e v']. pose proof (counted_nonneg q).
  destruct (truth e); intros [= <- <-].
  - destruct (e =? EAGAIN); [cbn; by rewrite Hq|]. 
    rewrite <-Hq. etrans; [apply disconnect_counted|reflexivity].
  - rewrite counted_cons. destruct (p_counted p); cbn; rewrite Hq; cbn; lia.
Qed.

(** The number of packets an owner has in flight never exceeds the limit it
    sends with (or what it was before, if that was more), and a reliable
    connection that drops has none left. *)
Theorem rconn_queue_bounded now b limit rc :
  rconn_ok rc → has_header b →
  wp (rconn_send_with_limit now b limit rc) (λ '(_, rc'),
    0 <= n_queued rc' <= Z.max limit (n_queued rc)) ∧
  (reliable rc = true → has_transport (rc_state rc) = true → n_queued (disconnect now rc) = 0).
Proof.
  intros Hok Hb. split.
  - pose proof (rconn_send_with_limit_ok now b limit rc Hok Hb) as Hw. revert Hw.
    unfold rconn_send_with_limit. destruct (Z.leb_spec limit (n_queued rc)).
    { intros _. simpl. rewrite (ro_counter _ Hok). pose proof (counted_nonneg (txq rc)). lia. }
    unfold rconn_send. destruct (rconn_is_connected rc) eqn:Hc.
    2:{ intros _. simpl. rewrite (ro_counter _ Hok). pose proof (counted_nonneg (txq rc)). lia. }
    destruct (copy_to_monitor_spec b rc) as [l ->]. cbn [mbind comp_bind].
    set (rc2 := enqueue b true _). assert (n_queued rc2 = n_queued rc + 1) as Hn by done.
    case_match.
    2:{ simpl. intros Hok2. rewrite (ro_counter _ Hok2) in *. pose proof (counted_nonneg (txq rc2)). lia. }
    destruct (try_send now rc2) as [[r rc3]| |] eqn:E; [|done..]. cbn. intros Hok3.
    rewrite (ro_counter _ Hok3). pose proof (counted_nonneg (txq rc3)). split; [done|].
    apply try_send_counted in E. assert (counted (txq rc2) = n_queued rc2); [|lia].
    symmetry. by apply (enqueue_ok b true _ (rconn_ok_monitors rc l Hok) Hb).
  - intros Hr Hs. pose proof (disconnect_queue now rc) as E. rewrite Hr, Hs in E.
    injection E as _ ->. rewrite (ro_counter _ Hok). lia.
Qed.

End RconnFacts.
