(* ===== verification/RconnProps.v ===== *)
(** * Behaviour of reliable connections over time

    How the backoff grows, what becomes of the queue when a connection drops, and
    what the inactivity probe does, with concrete connections on which the
    properties of [RconnFacts] are instantiated. *)

From S2P Require Import Prelude Ofp Rconn RconnFacts.
Import Ofp Rconn RconnFacts.

Module RconnProps.

(** What a connection is configured with. *)
Definition settings (rc : rconn) : Z * list (Z * vconn) * bool * Z * state :=
  (backoff rc, rc_opens rc, reliable rc, max_backoff rc, rc_state rc).

Lemma state_transition_settings now s rc :
  settings (state_transition now s rc) = (backoff rc, rc_opens rc, reliable rc, max_backoff rc, s).
Proof.
  destruct (state_transition_core now s rc) as (Ec & Es & _). unfold settings. rewrite Es.
  exact (f_equal (λ c, (c.1.1.1.1.1.1.2, c.1.1.1.1.1.1.1.2, c.1.1.1.1.2, c.1.1.1.1.1.2, _)) Ec).
Qed.

Lemma question_connectivity_settings now rc : settings (question_connectivity now rc) = settings rc.
Proof.
  destruct (question_connectivity_core now rc) as (Ec & Es & _). unfold settings. rewrite Es.
  exact (f_equal (λ c, (c.1.1.1.1.1.1.2, c.1.1.1.1.1.1.1.2, c.1.1.1.1.2, c.1.1.1.1.1.2, _)) Ec).
Qed.

Lemma disconnect_reliable now rc :
  reliable rc = true →
  settings (disconnect now rc) =
    (if backoff_deadline rc <=? now then 1 else Z.min (max_backoff rc) (Z.max 1 (2 * backoff rc)),
     rc_opens rc, true, max_backoff rc, S_BACKOFF).
Proof.
  intros Hr. unfold disconnect. rewrite Hr.
  set (rc1 := if has_transport (rc_state rc) then _ else rc).
  assert (settings rc1 = settings rc ∧ backoff_deadline rc1 = backoff_deadline rc) as [E1 E2]
    by (subst rc1; by case_match).
  injection E1 as Eb Eo Er Em Es.
  set (rc2 := rc1 <| backoff := _ |>).
  assert (backoff rc2 = if backoff_deadline rc <=? now then 1
                        else Z.min (max_backoff rc) (Z.max 1 (2 * backoff rc))) as Eb2.
  { unfold rc2. rewrite <-E2, <-Eb, <-Em. reflexivity. }
  rewrite <-Hr, <-Eb2, <-Er, <-Em, <-Eo.
  destruct (60 <? _); [rewrite question_connectivity_settings|]; by rewrite state_transition_settings.
Qed.

Lemma reconnect_refused now rc :
  rc_opens rc = [] → reliable rc = true →
  settings (reconnect now rc).2 =
    (if TIME_MAX <=? now then 1 else Z.min (max_backoff rc) (Z.max 1 (2 * backoff rc)),
     [], true, max_backoff rc, S_BACKOFF).
Proof.
  intros Ho Hr. unfold reconnect, vconn_open.
  set (rc1 := rc <| n_attempted_connections := _ |>). change (rc_opens rc1) with (rc_opens rc).
  rewrite Ho. change (ECONNREFUSED =? 0) with false. cbv iota beta. cbn [snd].
  rewrite disconnect_reliable by exact Hr. rewrite <-Ho. reflexivity.
Qed.

(** Against a peer that refuses every connection, the wait between attempts
    starts at one second and doubles with every attempt up to the maximum. *)
Theorem backoff_doubles n now rc :
  rconn_ok rc → reliable rc = true → rc_opens rc = [] → backoff rc = 0 → now < TIME_MAX →
  let rc' := Nat.iter (S n) (λ rc, (reconnect now rc).2) rc in
  backoff rc' = Z.min (max_backoff rc) (2 ^ Z.of_nat n) ∧ rc_state rc' = S_BACKOFF.
Proof.
  intros Hok Hr Ho Hb Hn. cbv zeta. pose proof (ro_max _ Hok) as Hm.
  assert (∀ n, let rc' := Nat.iter n (λ rc, (reconnect now rc).2) rc in
    rc_opens rc' = [] ∧ reliable rc' = true ∧ max_backoff rc' = max_backoff rc ∧
    backoff rc' = if decide (n = 0%nat) then 0 else Z.min (max_backoff rc) (2 ^ (Z.of_nat n - 1))) as IH.
  { intros m. induction m as [|m (E1 & E2 & E3 & E4)]; [done|]. simpl Nat.iter. cbv zeta.
    pose proof (reconnect_refused now _ E1 E2) as [= H1 H2 H3 H4 _].
    rewrite (proj2 (Z.leb_gt _ _) Hn), E3, E4 in H1. split_and!; [done|done|congruence|].
    rewrite H1. destruct (decide (S m = 0%nat)) as [|_]; [lia|]. case_decide as Em.
    - subst. simpl. lia.
    - replace (Z.of_nat (S m) - 1) with (Z.succ (Z.of_nat m - 1)) by lia.
      rewrite Z.pow_succ_r by lia. pose proof (Z.pow_pos_nonneg 2 (Z.of_nat m - 1)). lia. }
  destruct (IH (S n)) as (_ & _ & _ & E). rewrite E, decide_False by done.
  split; [f_equal; f_equal; lia|]. destruct (IH n) as (E1 & E2 & _). simpl Nat.iter.
  by pose proof (reconnect_refused now _ E1 E2) as [= _ _ _ _ ->].
Qed.

(** An unreliable connection that drops keeps its queue: the packets stay
    counted in their owner's counter although they will not be sent, unlike what
    the comment of [rconn_send] says. *)
Theorem unreliable_drop_keeps_queue now rc :
  reliable rc = false → rc_state rc ≠ S_VOID →
  rc_state (disconnect now rc) = S_VOID ∧ txq (disconnect now rc) = txq rc ∧
  n_queued (disconnect now rc) = n_queued rc.
Proof.
  intros Hr Hs. rewrite disconnect_state. pose proof (disconnect_queue now rc) as E.
  rewrite Hr in *. injection E as -> ->. done.
Qed.

(** ** Concrete runs *)

Definition message (type xid : Z) : list Z :=
  [OFP_VERSION; type] ++ le_bytes 2 (htons 8) ++ le_bytes 4 xid.

(** A peer that accepts every message and answers the probe with id 7. *)
Definition polite_peer : vconn :=
  mk_vconn [] (replicate 9 0) [(0, message OFPT_ECHO_REPLY 7)] true [].

Definition probing : rconn :=
  rconn_connect_unreliably 0 [] polite_peer (rconn_create 0 60 0 [] [7]).

(** A peer that answers the inactivity probe is taken for dead if any other
    message with its own transaction id was sent after the probe: the answer is
    compared with the id of the last message sent. *)
Theorem probe_answer_ignored :
  ∃ rc, (rc ← rconn_run 60 probing;
         '(_, rc) ← rconn_send 61 (message OFPT_BARRIER_REPLY 9) true rc;
         '(_, rc) ← rconn_recv 62 rc;
         rconn_run 130 rc) = Ok rc ∧
    rc_state rc = S_VOID ∧
    (rc ← rconn_run 60 probing;
     '(_, rc) ← rconn_recv 62 rc;
     rc ← rconn_run 119 rc; Ok (rc_state rc)) = Ok S_ACTIVE.
Proof. eexists. split; [vm_compute; reflexivity|]. split; reflexivity. Qed.

Lemma polite_peer_ok : vconn_ok polite_peer.
Proof. constructor; [|constructor]. intros _. vm_compute. lia. Qed.

Lemma probing_ok : rconn_ok probing.
Proof.
  apply rconn_connect_unreliably_ok; [|apply polite_peer_ok].
  apply rconn_create_ok; [lia|lia|constructor].
Qed.

Lemma rconn_calls_safe_witness : wp (run_call (CRun 60) probing) rconn_ok.
Proof. apply rconn_calls_safe; [apply probing_ok|]. split; simpl; lia. Defined.

Lemma rconn_run_terminates_witness :
  ∃ rc', rconn_run 60 probing = Ok rc' ∧ ∀ fuel, (4 ≤ fuel)%nat → run_loop fuel 60 probing = Ok rc'.
Proof. apply rconn_run_terminates; [apply probing_ok|]. split; simpl; lia. Defined.

Lemma rconn_is_fifo_witness :
  wp (rconn_send 1 (message OFPT_HELLO 1) true probing) (λ '(r, rc'), is_Some (rc_vconn rc') →
    r = 0 ∧ stream rc' = stream probing ++ [message OFPT_HELLO 1]).
Proof.
  destruct (rconn_is_fifo 1 (message OFPT_HELLO 1) true probing probing_ok) as [H _];
    [reflexivity|vm_compute; lia|exact H].
Defined.

Lemma rconn_queue_bounded_witness :
  wp (rconn_send_with_limit 1 (message OFPT_HELLO 1) 128 probing) (λ '(_, rc'),
    0 <= n_queued rc' <= Z.max 128 (n_queued probing)).
Proof. apply (rconn_queue_bounded 1); [apply probing_ok|vm_compute; lia]. Defined.

Definition waiting : rconn := (rconn_create 0 60 8 [] []) <| reliable := true |>.

Lemma backoff_doubles_witness : backoff (Nat.iter 5 (λ rc, (reconnect 100 rc).2) waiting) = 8.
Proof.
  destruct (backoff_doubles 4 100 waiting) as [H _]; [|reflexivity..|exact H].
  destruct (rconn_create_ok 0 60 8 [] []); [lia|lia|constructor|]. by split.
Defined.

Lemma unreliable_drop_keeps_queue_witness : n_queued (disconnect 5 probing) = 0.
Proof.
  destruct (unreliable_drop_keeps_queue 5 probing) as (_ & _ & H); [reflexivity|discriminate|exact H].
Defined.


End RconnProps.
