(* ===== verification/Env.v ===== *)
(** * The state that tables and datapath share

    An [env] holds the flow entries that are allocated, the clock, the outcome of
    the allocations to come, and the connections to the controllers.  Pointers to
    flow entries are positive numbers; dereferencing one that is not allocated
    aborts, which is how use after free and double free show.  Operations are
    computations in a state and abort monad.

    The connection of a remote is a reliable connection of Rconn.v, whose counter
    of queued packets is the remote's [n_txq]; a remote also holds the multi-part
    reply in progress, if there is one.  Flow removed messages, which tables send,
    are built here as the bytes of udatapath's [dp_send_flow_end]. *)

From S2P Require Import Prelude Ofp Ofpbuf Flow SwitchFlow Rconn.
Import Ofp Flow SwitchFlow.

Module Env.

Definition ENOMEM : Z := 12.
Definition ENOBUFS : Z := 105.
Definition ESRCH : Z := 3.
Definition EINVAL : Z := 22.
Definition ENODEV : Z := 19.
Definition EFAULT : Z := 14.

Definition TXQ_LIMIT : Z := 128.

(** [struct sw_table_position]: four machine words, all zero at the start. *)
Definition sw_table_position := list Z.
Definition zero_position : sw_table_position := replicate 4 0.

(** The progress of a multi-part reply to a statistics request: the private state
    of each kind of statistics.  Requests are kept as their bytes. *)
Inductive stats_state :=
| no_stats_state
| flow_stats_state (table_idx : Z) (position : sw_table_position) (rq : list Z)
| aggregate_stats_state (rq : list Z)
| port_stats_state (start_port port_no : Z)
| queue_stats_state (port queue_id : Z).

(** [struct stats_dump_cb]: the kind of statistics is its index in [stats]; the
    sender's remote is the one that holds the callback. *)
Record stats_dump_cb := mk_stats_dump_cb {
  cb_finished : bool;
  cb_xid : Z;
  cb_s : nat;
  cb_state : stats_state;
}.
#[export] Instance stats_dump_cb_eta : Eta stats_dump_cb := λ c,
  mk_stats_dump_cb (cb_finished c) (cb_xid c) (cb_s c) (cb_state c).

(** A connection to a secure channel. *)
Record remote := mk_remote {
  r_rconn : Rconn.rconn;
  r_dump : option stats_dump_cb;
}.
#[export] Instance remote_eta : Eta remote := λ r, mk_remote (r_rconn r) (r_dump r).

(** The origin of a received message: a remote, by its place in the list. *)
Record sender := mk_sender {
  s_remote : nat;
  s_xid : Z;
}.

Definition ptr := positive.

Record env := mk_env {
  heap : gmap ptr sw_flow;
  now_msec : Z;
  now_sec : Z;
  mem : list bool;           (* outcomes of the next fallible allocations *)
  remotes : list remote;
}.
#[export] Instance env_eta : Eta env := λ e,
  mk_env (heap e) (now_msec e) (now_sec e) (mem e) (remotes e).

(** ** The monad *)

Definition M (S A : Type) : Type := S → comp (A * S).

#[export] Instance M_ret S : MRet (M S) := λ A a s, Ok (a, s).
#[export] Instance M_bind S : MBind (M S) := λ A B f m s,
  match m s with
  | Ok (a, s) => f a s
  | Abort => Abort
  | NoFuel => NoFuel
  end.

Definition get {S} : M S S := λ s, Ok (s, s).
Definition modify {S} (f : S → S) : M S unit := λ s, Ok (tt, f s).
Definition lift {S A} (c : comp A) : M S A := λ s,
  match c with Ok a => Ok (a, s) | Abort => Abort | NoFuel => NoFuel end.

(** ** Flow entries in memory *)

Definition read_flow (p : ptr) : M env sw_flow :=
  e ← get; lift (deref (heap e !! p)).

(** Assigns to fields of the entry at [p]. *)
Definition write_flow (p : ptr) (f : sw_flow → sw_flow) : M env unit :=
  x ← read_flow p; modify (λ e, e <| heap := <[p := f x]> (heap e) |>).

(** The outcome of a fallible allocation. *)
Definition malloc_ok : M env bool :=
  e ← get;
  match mem e with
  | [] => mret true
  | b :: l => modify (λ e, e <| mem := l |>);; mret b
  end.

Definition flow_alloc (actions_len : nat) : M env (option ptr) :=
  ok ← malloc_ok;
  if ok : bool then
    ok ← malloc_ok;
    if ok : bool then
      e ← get;
      let p := fresh (dom (heap e)) in
      modify (λ e, e <| heap := <[p := new_flow actions_len]> (heap e) |>);;
      mret (Some p)
    else mret None
  else mret None.

Definition flow_free (p : ptr) : M env unit :=
  _ ← read_flow p; modify (λ e, e <| heap := delete p (heap e) |>).

(** When the allocation fails the entry keeps its old actions. *)
Definition flow_replace_acts (p : ptr) (actions : list Z) : M env unit :=
  ok ← malloc_ok;
  if ok : bool then write_flow p (λ f, f <| sf_acts := actions |>) else mret tt.

(** ** Sending to controllers *)

Definition send_openflow_buffer_to_remote (now : Z) (b : list Z) (r : remote) : comp (Z * remote) :=
  '(retval, rc) ← Rconn.rconn_send_with_limit now b TXQ_LIMIT (r_rconn r);
  Ok (retval, r <| r_rconn := rc |>).

(** [update_openflow_length]: the length field of the header. *)
Definition update_openflow_length (b : list Z) : comp (list Z) :=
  assert_c (8 <=? length b)%nat;;
  store b 2 2 (htons (u16 (Z.of_nat (length b)))).

Fixpoint send_all (now : Z) (b : list Z) (rs : list remote) : comp (list remote) :=
  match rs with
  | [] => Ok []
  | r :: rs =>
      '(_, r) ← send_openflow_buffer_to_remote now b r;
      rs ← send_all now b rs;
      Ok (r :: rs)
  end.

(** Back to the sender, or to all remotes. *)
Definition send_openflow_buffer (b : list Z) (to : option sender) : M env Z :=
  b ← lift (update_openflow_length b);
  e ← get;
  match to with
  | Some s =>
      r ← lift (deref (remotes e !! s_remote s));
      '(retval, r) ← lift (send_openflow_buffer_to_remote (now_sec e) b r);
      modify (λ e, e <| remotes := <[s_remote s := r]> (remotes e) |>);;
      mret retval
  | None =>
      rs ← lift (send_all (now_sec e) b (remotes e));
      modify (λ e, e <| remotes := rs |>);;
      mret 0
  end.

(** ** Flow removed messages *)

Definition ofp_header_bytes (type : Z) (len : nat) (xid : Z) : list Z :=
  [OFP_VERSION; u8 type] ++ le_bytes 2 (htons (u16 (Z.of_nat len))) ++ le_bytes 4 xid.

Definition flow_removed_bytes (now : Z) (f : sw_flow) (why : Z) : list Z :=
  let tdiff := u64 (now - created f) in
  let sec := u32 (tdiff / 1000) in
  ofp_header_bytes OFPT_FLOW_REMOVED 88 0
  ++ match_bytes (flow_fill_match (kflow (key f)) (wildcards (key f)))
  ++ le_bytes 8 (htonll (cookie f)) ++ le_bytes 2 (htons (priority f)) ++ [u8 why; 0]
  ++ le_bytes 4 (htonl sec)
  ++ le_bytes 4 (htonl (u32 (u64 ((tdiff - u32 (sec * 1000)) * 1000000))))
  ++ le_bytes 2 (htons (idle_timeout f)) ++ [0; 0]
  ++ le_bytes 8 (htonll (packet_count f)) ++ le_bytes 8 (htonll (byte_count f)).

Definition dp_send_flow_end (p : ptr) (why : Z) : M env unit :=
  f ← read_flow p;
  e ← get;
  if negb (truth (send_flow_rem f)) then mret tt
  else if truth (emerg_flow f) then mret tt
  else _ ← send_openflow_buffer (flow_removed_bytes (now_msec e) f why) None; mret tt.

End Env.
