(* ===== verification/EnvFacts.v ===== *)
(** * Rules for computations on the shared state

    Weakest preconditions of the operations of Env.v, the tactic [run] that
    applies them, and the effect of freeing a list of entries. *)

From S2P Require Import Prelude Ofp Ofpbuf Flow SwitchFlow Rconn RconnFacts Env.
Import Ofp Flow SwitchFlow Env.

Module EnvFacts.

Section monad.
  Context {S A B : Type}.

Lemma wp_M_ret (a : A) (s : S) Q : Q (a, s) → wp ((mret a : M S A) s) Q.
Proof. done. Qed.

Lemma wp_M_bind (m : M S A) (k : A → M S B) (s : S) Q :
  wp (m s) (λ r, wp (k r.1 r.2) Q) → wp ((m ≫= k) s) Q.
Proof. unfold mbind, M_bind. by destruct (m s) as [[a s']| |]. Qed.

Lemma wp_lift (c : comp A) (s : S) Q : wp c (λ a, Q (a, s)) → wp (lift c s) Q.
Proof. by destruct c. Qed.

Lemma wp_lift_deref (o : option A) (a : A) (s : S) Q :
  o = Some a → Q (a, s) → wp (lift (deref o) s) Q.
Proof. by intros ->. Qed.

Lemma wp_lift_assert (b : bool) (s : S) (Q : unit * S → Prop) :
  b = true → Q (tt, s) → wp (lift (assert_c b) s) Q.
Proof. by intros ->. Qed.
End monad.

(** A first step whose result is known. *)
Lemma bind_ok {S A B} (m : M S A) (f : A → M S B) s a s' :
  m s = Ok (a, s') → (m ≫= f) s = f a s'.
Proof. unfold mbind, M_bind. by intros ->. Qed.

Lemma lift_ok {S A} (c : comp A) (s : S) a : c = Ok a → lift c s = Ok (a, s).
Proof. by intros ->. Qed.

Lemma wp_get {S} (s : S) Q : Q (s, s) → wp (get s) Q.
Proof. done. Qed.

Lemma wp_modify {S} (f : S → S) (s : S) Q : Q (tt, f s) → wp (modify f s) Q.
Proof. done. Qed.

Lemma wp_read_flow p f e Q : heap e !! p = Some f → Q (f, e) → wp (read_flow p e) Q.
Proof. intros H HQ. unfold read_flow. apply wp_M_bind, wp_get, wp_lift. simpl. by rewrite H. Qed.

Lemma wp_write_flow p g f e Q :
  heap e !! p = Some f → Q (tt, e <| heap := <[p := g f]> (heap e) |>) → wp (write_flow p g e) Q.
Proof. intros H HQ. unfold write_flow. by eapply wp_M_bind, wp_read_flow. Qed.

Lemma wp_flow_free p f e Q :
  heap e !! p = Some f → Q (tt, e <| heap := delete p (heap e) |>) → wp (flow_free p e) Q.
Proof. intros H HQ. unfold flow_free. by eapply wp_M_bind, wp_read_flow. Qed.

Lemma wp_malloc_ok e Q :
  (∀ b m, (mem e = [] → b = true ∧ m = []) → Q (b, e <| mem := m |>)) → wp (malloc_ok e) Q.
Proof.
  intros H. unfold malloc_ok. apply wp_M_bind, wp_get. destruct e as [h n s [|b l] r]; simpl.
  - by apply (H true []).
  - apply (H b l). done.
Qed.

(** The replaced actions, or the old ones if memory runs out. *)
Lemma wp_flow_replace_acts p acts f e Q :
  heap e !! p = Some f →
  (∀ acts' m, (mem e = [] → m = [] ∧ acts' = acts) → acts' = acts ∨ acts' = sf_acts f →
     Q (tt, e <| mem := m |> <| heap := <[p := f <| sf_acts := acts' |>]> (heap e) |>)) →
  wp (flow_replace_acts p acts e) Q.
Proof.
  intros H HQ. unfold flow_replace_acts. apply wp_M_bind, wp_malloc_ok. intros b m Hm.
  destruct b; simpl.
  - eapply wp_write_flow; [exact H|]. apply HQ; [naive_solver|auto].
  - apply wp_M_ret.
    assert (e <| mem := m |> =
      e <| mem := m |> <| heap := <[p := f <| sf_acts := sf_acts f |>]> (heap e) |>) as E
      by (destruct e, f; simpl in *; by rewrite insert_id).
    refine (eq_ind_r (λ x, Q ((), x)) _ E). apply HQ; [|auto]. intros Hl. by destruct (Hm Hl).
Qed.

Lemma wp_update_openflow_length b Q :
  (8 ≤ length b)%nat → (∀ b', length b' = length b → Q b') → wp (update_openflow_length b) Q.
Proof.
  intros H HQ. unfold update_openflow_length. rewrite (proj2 (Nat.leb_le _ _)) by done.
  apply wp_bind. simpl. apply wp_store; [lia|]. apply HQ. rewrite length_put_at; [done|].
  rewrite length_le_bytes. lia.
Qed.

(** ** Sending *)

Definition remotes_ok (rs : list remote) : Prop := Forall (λ r, RconnFacts.rconn_ok (r_rconn r)) rs.

Lemma wp_send_to_remote now b r :
  RconnFacts.rconn_ok (r_rconn r) → (8 ≤ length b)%nat →
  wp (send_openflow_buffer_to_remote now b r) (λ '(_, r'),
    RconnFacts.rconn_ok (r_rconn r') ∧ r_dump r' = r_dump r).
Proof.
  intros Hok Hb. unfold send_openflow_buffer_to_remote. apply wp_bind.
  eapply wp_mono; [by apply RconnFacts.rconn_send_with_limit_ok|]. by intros [retval rc] Hrc.
Qed.

Lemma wp_send_all now b rs :
  remotes_ok rs → (8 ≤ length b)%nat →
  wp (send_all now b rs) (λ rs', remotes_ok rs' ∧ r_dump <$> rs' = r_dump <$> rs).
Proof.
  intros Hok Hb. induction Hok as [|r rs Hr Hrs IH]; cbn [send_all]; [split; [constructor|done]|].
  apply wp_bind. eapply wp_mono; [by apply wp_send_to_remote|]. intros [v r'] [Hr' Hd].
  apply wp_bind. eapply wp_mono; [exact IH|]. intros rs' [Hrs' Hds]. split; [by constructor|].
  cbn [fmap list_fmap]. by rewrite Hd, Hds.
Qed.

Definition sender_ok (e : env) (to : option sender) : Prop :=
  match to with Some s => (s_remote s < length (remotes e))%nat | None => True end.

(** Sending changes nothing but the connections, and the replies in progress stay. *)
Lemma wp_send_openflow_buffer b to e Q :
  (8 ≤ length b)%nat → remotes_ok (remotes e) → sender_ok e to →
  (∀ v rs, remotes_ok rs → r_dump <$> rs = r_dump <$> remotes e → Q (v, e <| remotes := rs |>)) →
  wp (send_openflow_buffer b to e) Q.
Proof.
  intros Hb Hok Hto HQ. unfold send_openflow_buffer. apply wp_M_bind, wp_lift.
  apply wp_update_openflow_length; [done|]. intros b' Hl. rewrite <-Hl in Hb. apply wp_M_bind, wp_get.
  cbn [fst snd]. destruct to as [s|].
  - destruct (lookup_lt_is_Some_2 (remotes e) (s_remote s) Hto) as [r Hr].
    apply wp_M_bind, wp_lift. rewrite Hr. cbn [deref wp fst snd]. apply wp_M_bind, wp_lift.
    eapply wp_mono; [apply wp_send_to_remote; [|done]; by apply (Forall_lookup_1 _ _ _ _ Hok Hr)|].
    intros [v r'] [Hr' Hd]. cbn [fst snd]. apply wp_M_bind, wp_modify, wp_M_ret, HQ.
    + by apply Forall_insert.
    + rewrite list_fmap_insert. apply list_insert_id. by rewrite list_lookup_fmap, Hr, Hd.
  - apply wp_M_bind, wp_lift. eapply wp_mono; [by apply wp_send_all|]. intros rs [Hrs Hds].
    cbn [fst snd]. apply wp_M_bind, wp_modify, wp_M_ret. by apply HQ.
Qed.

Lemma flow_removed_bytes_length now f why : (8 ≤ length (flow_removed_bytes now f why))%nat.
Proof.
  unfold flow_removed_bytes, ofp_header_bytes. rewrite !length_app, !length_le_bytes. simpl. lia.
Qed.

(** Reporting the end of an entry changes nothing but the connections. *)
Lemma wp_dp_send_flow_end p why f e Q :
  heap e !! p = Some f → remotes_ok (remotes e) →
  (∀ rs, remotes_ok rs → Q (tt, e <| remotes := rs |>)) → wp (dp_send_flow_end p why e) Q.
Proof.
  intros H Hok HQ. unfold dp_send_flow_end. eapply wp_M_bind, wp_read_flow; [exact H|]. cbn [fst snd].
  apply wp_M_bind, wp_get. cbn [fst snd].
  assert (Q (tt, e)) by (specialize (HQ (remotes e) Hok); by destruct e).
  destruct (truth (send_flow_rem f)); cbn [negb]; [|done].
  destruct (truth (emerg_flow f)); [done|].
  apply wp_M_bind, wp_send_openflow_buffer; [apply flow_removed_bytes_length|done..|].
  intros v rs Hrs _. by apply HQ.
Qed.

(** One step of a computation; side conditions on the heap by assumption. *)
Ltac run_step :=
  lazymatch goal with
  | |- wp ((_ ≫= _) _) _ => apply wp_M_bind
  | |- wp (mret _ _) _ => apply wp_M_ret
  | |- wp (lift _ _) _ => apply wp_lift
  | |- wp (get _) _ => apply wp_get
  | |- wp (modify _ _) _ => apply wp_modify
  | |- wp (read_flow _ _) _ => eapply wp_read_flow; [eassumption|]
  | |- wp (write_flow _ _ _) _ => eapply wp_write_flow; [eassumption|]
  | |- wp (flow_free _ _) _ => eapply wp_flow_free; [eassumption|]
  | |- wp (dp_send_flow_end _ _ _) _ => eapply wp_dp_send_flow_end; [eassumption|try eassumption|intros ?rs ?Hrs]
  end; cbn beta iota delta [fst snd].
Ltac run := repeat run_step.

(** Reading through a pointer known to be valid. *)
Ltac run_deref H :=
  run_step; eapply wp_lift_deref; [exact H|]; cbn beta iota delta [fst snd].

(** ** Freeing entries *)

Definition free_all (dead : list ptr) (h : gmap ptr sw_flow) : gmap ptr sw_flow :=
  foldr delete h dead.

Lemma lookup_free_all dead h p :
  free_all dead h !! p = if decide (p ∈ dead) then None else h !! p.
Proof.
  induction dead as [|q dead IH]; simpl.
  - destruct (decide (p ∈ [])) as [H|]; [by apply not_elem_of_nil in H|done].
  - destruct (decide (p = q)) as [->|Hpq].
    + rewrite lookup_delete_eq. by rewrite decide_True by left.
    + rewrite lookup_delete_ne, IH by done. apply decide_ext. rewrite elem_of_cons. tauto.
Qed.

Lemma lookup_free_all_in dead h p : p ∈ dead → free_all dead h !! p = None.
Proof. intros. by rewrite lookup_free_all, decide_True. Qed.

Lemma lookup_free_all_out dead h p : p ∉ dead → free_all dead h !! p = h !! p.
Proof. intros. by rewrite lookup_free_all, decide_False. Qed.

Lemma free_all_app d1 d2 h : free_all (d1 ++ d2) h = free_all d2 (free_all d1 h).
Proof.
  apply map_eq. intros p. rewrite !lookup_free_all. repeat case_decide; set_solver.
Qed.

Lemma free_all_cons p d h : free_all (p :: d) h = free_all d (delete p h).
Proof. apply (free_all_app [p] d). Qed.

Lemma free_all_perm d1 d2 h : d1 ≡ₚ d2 → free_all d1 h = free_all d2 h.
Proof.
  intros H. apply map_eq. intros p. rewrite !lookup_free_all. apply decide_ext. by rewrite H.
Qed.

(** The entries of [dead] were reported and freed. *)
Definition reported (dead : list ptr) (e e' : env) : Prop :=
  ∃ rs, remotes_ok rs ∧ e' = e <| heap := free_all dead (heap e) |> <| remotes := rs |>.

Lemma reported_nil e : remotes_ok (remotes e) → reported [] e e.
Proof. intros H. exists (remotes e). split; [done|]. by destruct e. Qed.

Lemma reported_app d1 d2 e e1 e2 : reported d1 e e1 → reported d2 e1 e2 → reported (d1 ++ d2) e e2.
Proof.
  intros (rs1 & H1 & ->) (rs2 & H2 & ->). exists rs2. split; [done|]. simpl. by rewrite free_all_app.
Qed.

Lemma reported_heap dead e e' : reported dead e e' → heap e' = free_all dead (heap e).
Proof. by intros (rs & _ & ->). Qed.

Lemma reported_remotes dead e e' : reported dead e e' → remotes_ok (remotes e').
Proof. by intros (rs & H & ->). Qed.

(** The entries of [l] at [e] that satisfy a test. *)
Definition holds_at (e : env) (P : sw_flow → bool) (p : ptr) : bool :=
  match heap e !! p with Some f => P f | None => false end.

Definition select (e : env) (P : sw_flow → bool) (l : list ptr) : list ptr :=
  filter (λ p, holds_at e P p = true) l.

Definition reject (e : env) (P : sw_flow → bool) (l : list ptr) : list ptr :=
  filter (λ p, holds_at e P p = false) l.

Definition allocated (e : env) (l : list ptr) : Prop := ∀ p, p ∈ l → is_Some (heap e !! p).

Lemma holds_at_some e P p f : heap e !! p = Some f → holds_at e P p = P f.
Proof. unfold holds_at. by intros ->. Qed.

Lemma select_cons e P p f l :
  heap e !! p = Some f → select e P (p :: l) = if P f then p :: select e P l else select e P l.
Proof. 
  intros H. unfold select. rewrite filter_cons, (holds_at_some e P p f H). by destruct (P f).
Qed.

Lemma reject_cons e P p f l :
  heap e !! p = Some f → reject e P (p :: l) = if P f then reject e P l else p :: reject e P l.
Proof. 
  intros H. unfold reject. rewrite filter_cons, (holds_at_some e P p f H). by destruct (P f).
Qed.

Lemma select_reject_perm e P l : select e P l ++ reject e P l ≡ₚ l.
Proof.
  unfold select, reject. induction l as [|p l IH]; [done|]. rewrite !filter_cons.
  destruct (holds_at e P p); simpl; rewrite <-?Permutation_middle, IH; done.
Qed.

Lemma length_reject e P l : (length (reject e P l) + length (select e P l) = length l)%nat.
Proof. rewrite Nat.add_comm, <-length_app. by rewrite select_reject_perm. Qed.

(** Tests only look at the entries of the list. *)
Lemma holds_at_ext e e' P (l : list ptr) :
  (∀ p, p ∈ l → heap e' !! p = heap e !! p) → ∀ p, p ∈ l → holds_at e' P p = holds_at e P p.
Proof. intros H p Hp. unfold holds_at. by rewrite H. Qed.

Lemma filter_ext_in {A} (P Q : A → Prop) `{∀ x, Decision (P x)} `{∀ x, Decision (Q x)} (l : list A) :
  (∀ x, x ∈ l → P x ↔ Q x) → filter P l = filter Q l.
Proof. intros Hl. induction l as [|x l IH]; [done|]. rewrite !filter_cons, IH by set_solver.
  apply decide_ext, Hl. left. Qed.

Lemma filter_id {A} (P : A → Prop) `{∀ x, Decision (P x)} (l : list A) :
  (∀ x, x ∈ l → P x) → filter P l = l.
Proof.
  intros Hl. induction l as [|x l IH]; [done|]. rewrite filter_cons_True, IH; [done|..]; [set_solver|].
  apply Hl. left.
Qed.

Lemma filter_none {A} (P : A → Prop) `{∀ x, Decision (P x)} (l : list A) :
  (∀ x, x ∈ l → ¬ P x) → filter P l = [].
Proof.
  intros Hl. induction l as [|x l IH]; [done|]. rewrite filter_cons_False, IH; [done|..]; [set_solver|].
  apply Hl. left.
Qed.

Lemma select_ext e e' P l :
  (∀ p, p ∈ l → heap e' !! p = heap e !! p) → select e' P l = select e P l.
Proof. intros H. apply filter_ext_in. intros p Hp. by rewrite (holds_at_ext e e' P l). Qed.

Lemma reject_ext e e' P l :
  (∀ p, p ∈ l → heap e' !! p = heap e !! p) → reject e' P l = reject e P l.
Proof. intros H. apply filter_ext_in. intros p Hp. by rewrite (holds_at_ext e e' P l). Qed.

Lemma select_elem e P l p : p ∈ select e P l ↔ holds_at e P p = true ∧ p ∈ l.
Proof. unfold select, reject. by rewrite list_elem_of_filter. Qed.

Lemma reject_elem e P l p : p ∈ reject e P l ↔ holds_at e P p = false ∧ p ∈ l.
Proof. unfold select, reject. by rewrite list_elem_of_filter. Qed.

End EnvFacts.
