(* ===== verification/OfpMsg.v ===== *)
(** * lib/vconn.c: building and checking OpenFlow messages

    The constructors of messages that controllers and switches send, and the
    iterator over the flow statistics of a reply.  A message is the list of its
    bytes; a store to a field of the structure is a [put_at]. *)

From S2P Require Import Prelude Ofp Ofpbuf Flow SwitchFlow Rconn Env.
Import Ofp Flow Env.

Module OfpMsg.

(** A message of [len] bytes, zero after the header. *)
Definition make_openflow_xid (len : nat) (type xid : Z) : comp (list Z) :=
  assert_c (8 <=? len)%nat;;
  assert_c (Z.of_nat len <=? UINT16_MAX);;
  Ok (ofp_header_bytes type len xid ++ replicate (len - 8) 0).

Definition make_flow_mod (command : Z) (f : flow) (actions_len : nat) : list Z :=
  let size := (72 + actions_len)%nat in
  let m := {| m_wildcards := htonl 0; m_in_port := in_port f; m_dl_src := dl_src f; m_dl_dst := dl_dst f;
              m_dl_vlan := dl_vlan f; m_dl_vlan_pcp := dl_vlan_pcp f; m_dl_type := dl_type f;
              m_nw_tos := 0; m_nw_proto := nw_proto f; m_nw_src := nw_src f; m_nw_dst := nw_dst f;
              m_tp_src := tp_src f; m_tp_dst := tp_dst f |} in
  let ofm := replicate 72 0 in
  let ofm := put_at ofm 0 (ofp_header_bytes OFPT_FLOW_MOD size 0) in
  let ofm := put_at ofm 8 (match_bytes m) in
  put_at ofm 56 (le_bytes 2 (htons command)).

Definition make_add_flow (f : flow) (buffer_id idle_timeout : Z) (actions_len : nat) : list Z :=
  let ofm := make_flow_mod OFPFC_ADD f actions_len in
  let ofm := put_at ofm 58 (le_bytes 2 (htons idle_timeout)) in
  let ofm := put_at ofm 60 (le_bytes 2 (htons OFP_FLOW_PERMANENT)) in
  put_at ofm 64 (le_bytes 4 (htonl buffer_id)).

Definition make_del_flow (f : flow) : list Z :=
  put_at (make_flow_mod OFPFC_DELETE_STRICT f 0) 68 (le_bytes 2 (htons OFPP_NONE)).

(** [struct ofp_action_output] *)
Definition output_action_bytes (port max_len : Z) : list Z :=
  le_bytes 2 (htons OFPAT_OUTPUT) ++ le_bytes 2 (htons 8) ++ le_bytes 2 (htons port)
  ++ le_bytes 2 (htons max_len).

Definition make_add_simple_flow (f : flow) (buffer_id out_port idle_timeout : Z) : list Z :=
  make_add_flow f buffer_id idle_timeout 8
  ++ output_action_bytes out_port
       (if htons out_port =? htons OFPP_CONTROLLER then UINT16_MAX else 0).

(** [struct ofp_packet_out] with one output action. *)
Definition packet_out_bytes (size : nat) (buffer_id in_port out_port : Z) : list Z :=
  ofp_header_bytes OFPT_PACKET_OUT size 0 ++ le_bytes 4 (htonl buffer_id)
  ++ le_bytes 2 (htons in_port) ++ le_bytes 2 (htons 8) ++ output_action_bytes out_port 0.

Definition make_unbuffered_packet_out (packet : list Z) (in_port out_port : Z) : list Z :=
  packet_out_bytes (24 + length packet) UINT32_MAX in_port out_port ++ packet.

Definition make_buffered_packet_out (buffer_id in_port out_port : Z) : list Z :=
  packet_out_bytes 24 buffer_id in_port out_port.

(** [rq] is the memory that starts with the request. *)
Definition make_echo_reply (rq : list Z) : comp (list Z) :=
  len ← load rq 2 2;
  reply ← load_bytes rq 0 (Z.to_nat (ntohs len));
  memcpy reply 1 [OFPT_ECHO_REPLY].

(** ** Checking messages *)

Definition check_ofp_message (msg : list Z) (type size : Z) : comp Z :=
  got_type ← load msg 1 1;
  if negb (got_type =? type) then Ok EINVAL
  else
    len ← load msg 2 2;
    Ok (if negb (ntohs len =? size) then EINVAL else 0).

(** The error code, and the number of elements if there is no error. *)
Definition check_ofp_message_array (msg : list Z) (type min_size array_elt_size : Z)
    : comp (Z * option Z) :=
  assert_c (truth array_elt_size);;
  got_type ← load msg 1 1;
  if negb (got_type =? type) then Ok (EINVAL, None)
  else
    len ← load msg 2 2;
    let got_size := ntohs len in
    if got_size <? min_size then Ok (EINVAL, None)
    else if truth ((got_size - min_size) mod array_elt_size) then Ok (EINVAL, None)
    else Ok (0, Some ((got_size - min_size) / array_elt_size)).

(** ** Flow statistics *)

(** [struct flow_stats_iterator]: offsets in the reply. *)
Record flow_stats_iterator := mk_iterator { it_pos : Z; it_end : Z }.

Definition sizeof_flow_stats : Z := 88.

(** The offset of the next element, and the iterator after it. *)
Definition flow_stats_next (osr : list Z) (iter : flow_stats_iterator)
    : comp (option (Z * flow_stats_iterator)) :=
  let bytes_left := it_end iter - it_pos iter in
  if u64 bytes_left <? sizeof_flow_stats then Ok None
  else
    len ← load osr (Z.to_nat (it_pos iter)) 2;
    let length := ntohs len in
    if length <? sizeof_flow_stats then Ok None
    else if u64 bytes_left <? length then Ok None
    else if truth ((length - sizeof_flow_stats) mod 8) then Ok None
    else Ok (Some (it_pos iter, mk_iterator (it_pos iter + length) (it_end iter))).

Definition flow_stats_first (osr : list Z) : comp (option (Z * flow_stats_iterator)) :=
  len ← load osr 2 2;
  flow_stats_next osr (mk_iterator 12 (12 + (ntohs len - 12))).

End OfpMsg.
