(* ===== verification/Table.v ===== *)
(** * udatapath/table.h: the interface of flow tables

    [Table] is the table of operations of [struct sw_table]; [TableLaws] states
    what a table promises to its clients.  A table owns a set of entries.  The
    laws say, for each operation, which entries it returns, frees, takes over or
    changes, so that a client can account for every allocated entry.  They hold in
    every state that satisfies the table's invariant, and include that the
    operation terminates and touches no freed entry.  TableLinearFacts.v and
    TableHashFacts.v discharge the laws; ChainFacts.v uses nothing else. *)

From S2P Require Import Prelude Ofp Ofpbuf Flow FlowFacts SwitchFlow SwitchFlowFacts Env EnvFacts.
Import Ofp Flow FlowFacts SwitchFlow SwitchFlowFacts Env EnvFacts.

Module Table.

(** [struct sw_table_stats], without the packet counters, which the chain keeps
    in [struct sw_table]. *)
Record sw_table_stats := mk_sw_table_stats {
  st_name : list Z;
  st_wildcards : Z;
  st_n_flows : Z;
  st_max_flows : Z;
}.

(** A callback gets an entry and its private data, and returns an error code and
    the data. *)
Definition callback (A : Type) : Type := ptr → A → M env (Z * A).

Class Table (T : Type) := {
  t_lookup : T → sw_flow_key → M env (option ptr);
  t_insert : T → ptr → M env (Z * T);
  t_modify : T → sw_flow_key → Z → bool → list Z → M env Z;
  t_has_conflict : T → sw_flow_key → Z → bool → M env bool;
  t_delete : T → sw_flow_key → Z → Z → bool → M env (Z * T);
  t_timeout : T → list ptr → M env (T * list ptr);
  t_destroy : T → M env unit;
}.

(** The operations that statistics requests use. *)
Class TableDump (T : Type) := {
  t_iterate : ∀ A : Type, T → sw_flow_key → Z → sw_table_position → callback A → A →
    M env (Z * sw_table_position * A);
  t_stats : T → sw_table_stats;
}.

(** ** Entries *)

(** The scan for an output port terminates inside the list of actions. *)
Definition acts_ok (acts : list Z) : Prop :=
  ∀ out_port, ∃ b, out_port_loop (length acts) acts 0 (length acts) out_port = Ok b.

(** An entry as [add_flow] makes it. *)
Record entry_ok (f : sw_flow) : Prop := {
  eo_key : key_ok (key f);
  eo_exact : wildcards (key f) = 0 → priority f = 65535;
  eo_actions : acts_ok (sf_acts f);
}.

(** Changes of an entry that its table need not know about. *)
Record same_entry (f f' : sw_flow) : Prop := {
  se_key : key f' = key f;
  se_priority : priority f' = priority f;
  se_serial : serial f' = serial f;
  se_actions : acts_ok (sf_acts f) → acts_ok (sf_acts f');
}.

(** Every entry of [l] is still there, up to such changes. *)
Definition same_entries (l : list ptr) (e e' : env) : Prop :=
  ∀ p f, p ∈ l → heap e !! p = Some f → ∃ f', heap e' !! p = Some f' ∧ same_entry f f'.

Lemma fields_agree_sym w ms md a b : fields_agree w ms md a b → fields_agree w ms md b a.
Proof.
  intros []. split; unfold agrees in *; rewrite 1?Z.lxor_comm; try done;
    match goal with H : ?A ∨ ?x = ?y |- ?A ∨ ?y = ?x => destruct H; auto end.
Qed.

Lemma flow_matches_2wild_sym a b : flow_matches_2wild a b = flow_matches_2wild b a.
Proof.
  unfold flow_matches_2wild.
  rewrite (Z.lor_comm (wildcards b)), (Z.land_comm (nw_src_mask b)), (Z.land_comm (nw_dst_mask b)).
  apply Bool.eq_iff_eq_true. rewrite !flow_fields_match_spec. split; apply fields_agree_sym.
Qed.

(** ** The tests of the operations *)

Definition matches (k : sw_flow_key) (f : sw_flow) : bool := flow_matches_1wild k (key f).

Definition described (k : sw_flow_key) (prio : Z) (strict : bool) (f : sw_flow) : bool :=
  flow_matches_desc (key f) k strict && (negb strict || (priority f =? prio)).

Definition has_out_port (out_port : Z) (f : sw_flow) : bool :=
  match flow_has_out_port f out_port with Ok b => b | _ => false end.

(** The scan of a well-formed entry gives a result. *)
Lemma has_out_port_ok f out_port :
  entry_ok f → flow_has_out_port f out_port = Ok (has_out_port out_port f).
Proof.
  intros Hf. unfold has_out_port, flow_has_out_port. destruct (out_port =? htons OFPP_NONE); [done|].
  by destruct (eo_actions _ Hf out_port) as [b ->].
Qed.

Definition doomed (k : sw_flow_key) (out_port prio : Z) (strict : bool) (f : sw_flow) : bool :=
  described k prio strict f && has_out_port out_port f.

Definition conflicting (k : sw_flow_key) (prio : Z) (strict : bool) (f : sw_flow) : bool :=
  flow_matches_2desc (key f) k strict && (priority f =? prio).

Definition expired (now : Z) (f : sw_flow) : bool := (flow_timeout now f).1.

Definition dumped (k : sw_flow_key) (out_port : Z) (f : sw_flow) : bool :=
  flow_matches_2wild k (key f) && has_out_port out_port f.

(** Two entries of which a table keeps only the later. *)
Definition duplicates (f g : sw_flow) : bool :=
  (priority f =? priority g) && (wildcards (key f) =? wildcards (key g))
  && flow_matches_2wild (key f) (key g).

(** A strict description of a single flow has the priority of exact entries. *)
Definition desc_ok (k : sw_flow_key) (prio : Z) (strict : bool) : Prop :=
  key_ok k ∧ (strict = true → wildcards k = 0 → prio = 65535).

Definition entries_ok (e : env) (l : list ptr) : Prop :=
  ∀ p, p ∈ l → ∃ f, heap e !! p = Some f ∧ entry_ok f.

Lemma entries_ok_cons e p l :
  entries_ok e (p :: l) → (∃ f, heap e !! p = Some f ∧ entry_ok f) ∧ entries_ok e l.
Proof. unfold entries_ok. set_solver. Qed.

Lemma entries_ok_ext e e' l :
  (∀ p, p ∈ l → heap e' !! p = heap e !! p) → entries_ok e l → entries_ok e' l.
Proof. intros H He p Hp. rewrite H by done. auto. Qed.

(** ** Replacing actions *)

(** From [e] to [e'] the entries of [hits] got the actions [acts], or, if memory
    ran out, kept their own; nothing else changed but the memory. *)
Record modified (acts : list Z) (hits : list ptr) (e e' : env) : Prop := {
  mo_frame : ∀ p, p ∉ hits → heap e' !! p = heap e !! p;
  mo_hit : ∀ p f, p ∈ hits → heap e !! p = Some f →
    ∃ a, heap e' !! p = Some (f <| sf_acts := a |>) ∧
      (a = acts ∨ a = sf_acts f) ∧ (mem e = [] → a = acts);
  mo_rest : ∃ m, e' = e <| mem := m |> <| heap := heap e' |> ∧ (mem e = [] → m = []);
}.

Lemma modified_nil acts e : modified acts [] e e.
Proof.
  split; [done|by intros p f Hp%not_elem_of_nil|]. exists (mem e). by destruct e.
Qed.

Lemma modified_app acts h1 h2 e e1 e2 :
  (∀ p, p ∈ h1 → p ∉ h2) →
  modified acts h1 e e1 → modified acts h2 e1 e2 → modified acts (h1 ++ h2) e e2.
Proof.
  intros Hd [K1 C1 (m1 & E1 & M1)] [K2 C2 (m2 & E2 & M2)].
  assert (mem e = [] → mem e1 = []) as Hm by (intros; rewrite E1; simpl; auto). split.
  - intros p [Hp1 Hp2]%not_elem_of_app. by rewrite K2, K1.
  - intros p f Hp Hf. destruct (decide (p ∈ h2)) as [Hp2|Hp2].
    + destruct (C2 p f Hp2) as (a & Ha1 & Ha2 & Ha3); [|eauto 10].
      rewrite K1; [done|]. intros Hp1. by eapply Hd.
    + rewrite K2 by done. apply C1; [set_solver|done].
  - exists m2. split; [by rewrite E2, E1|auto].
Qed.

Lemma flow_replace_acts_modified p acts f e Q :
  heap e !! p = Some f → (∀ e', modified acts [p] e e' → Q (tt, e')) →
  wp (flow_replace_acts p acts e) Q.
Proof.
  intros Hf HQ. eapply wp_flow_replace_acts; [exact Hf|]. intros a m Hm Ha. apply HQ. split; simpl.
  - intros q Hq. apply lookup_insert_ne. set_solver.
  - intros q g Hq Hg. apply list_elem_of_singleton in Hq as ->. assert (g = f) as -> by congruence.
    exists a. rewrite lookup_insert_eq. split_and!; [done|done|]. intros. by apply Hm.
  - exists m. split; [done|]. intros. by apply Hm.
Qed.

(** ** Expiry *)

Lemma flow_timeout_same now f : same_entry f (flow_timeout now f).2.
Proof. unfold flow_timeout. by repeat case_match; simpl; split. Qed.

(** The heap after the entries of [l] have been checked at time [now]. *)
Definition timed_out (now : Z) (l : list ptr) (h h' : gmap ptr sw_flow) : Prop :=
  ∀ p, h' !! p = if decide (p ∈ l) then (λ f, (flow_timeout now f).2) <$> h !! p else h !! p.

Lemma timed_out_cons now p f l h h' :
  h !! p = Some f → p ∉ l →
  timed_out now l (<[p := (flow_timeout now f).2]> h) h' → timed_out now (p :: l) h h'.
Proof.
  intros Hf Hp H q. rewrite H. destruct (decide (q = p)) as [->|Hqp].
  - rewrite decide_False, decide_True by (done || left). by rewrite lookup_insert_eq, Hf.
  - rewrite lookup_insert_ne by done. apply decide_ext. rewrite elem_of_cons. tauto.
Qed.

Lemma timed_out_same now l e e' l' :
  timed_out now l (heap e) (heap e') → same_entries l' e e'.
Proof.
  intros H p f _ Hf. rewrite H, Hf. case_decide; simpl; eexists; (split; [done|]).
  - apply flow_timeout_same.
  - done.
Qed.

(** ** The laws *)

Class TableLaws (T : Type) `{Table T} := {
  owned : T → list ptr;
  table_ok : env → T → Prop;

  owned_NoDup e t : table_ok e t → NoDup (owned t);
  owned_entry e t p :
    table_ok e t → p ∈ owned t → ∃ f, heap e !! p = Some f ∧ entry_ok f;
  table_ok_frame e e' t :
    table_ok e t → same_entries (owned t) e e' → table_ok e' t;

  (* the entry returned is a match, and there is none if nothing is returned *)
  lookup_law e t k :
    table_ok e t → flow_range (kflow k) → wildcards k = 0 →
    wp (t_lookup t k e) (λ '(r, e'), e' = e ∧
      match r with
      | Some p => p ∈ owned t ∧ holds_at e (matches k) p = true
      | None => select e (matches k) (owned t) = []
      end);

  (* an accepted entry belongs to the table, and one duplicate may be freed *)
  insert_law e t p f :
    table_ok e t → heap e !! p = Some f → p ∉ owned t → entry_ok f →
    wp (t_insert t p e) (λ '((r, t'), e'),
      (r = 0 ∧ t' = t ∧ e' = e) ∨
      (r = 1 ∧ table_ok e' t' ∧ ∃ old rest s,
         (length old ≤ 1)%nat ∧ owned t ≡ₚ old ++ rest ∧ owned t' ≡ₚ p :: rest ∧
         select e (λ g, duplicates g f) old = old ∧
         e' = e <| heap := <[p := f <| serial := s |>]> (free_all old (heap e)) |>));

  (* the described entries get the new actions unless memory runs out *)
  modify_law e t k prio strict acts :
    table_ok e t → key_ok k → acts_ok acts →
    wp (t_modify t k prio strict acts e) (λ '(n, e'),
      n = Z.of_nat (length (select e (described k prio strict) (owned t))) ∧
      modified acts (select e (described k prio strict) (owned t)) e e');

  has_conflict_law e t k prio strict :
    table_ok e t → key_ok k →
    wp (t_has_conflict t k prio strict e) (λ '(b, e'), e' = e ∧
      (b = true ↔ select e (conflicting k prio strict) (owned t) ≠ []));

  (* exactly the described entries leave, and are freed *)
  delete_law e t k out_port prio strict :
    table_ok e t → remotes_ok (remotes e) → desc_ok k prio strict →
    wp (t_delete t k out_port prio strict e) (λ '((n, t'), e'),
      let dead := select e (doomed k out_port prio strict) (owned t) in
      n = Z.of_nat (length dead) ∧ table_ok e' t' ∧
      owned t' = reject e (doomed k out_port prio strict) (owned t) ∧
      reported dead e e');

  (* exactly the expired entries leave, and are handed to the caller *)
  timeout_law e t deleted :
    table_ok e t →
    wp (t_timeout t deleted e) (λ '((t', deleted'), e'),
      let dead := select e (expired (now_msec e)) (owned t) in
      deleted' = deleted ++ dead ∧ table_ok e' t' ∧
      owned t' = reject e (expired (now_msec e)) (owned t) ∧
      timed_out (now_msec e) (owned t) (heap e) (heap e') ∧ e' = e <| heap := heap e' |>);

  destroy_law e t :
    table_ok e t →
    wp (t_destroy t e) (λ '(_, e'), e' = e <| heap := free_all (owned t) (heap e) |>);
}.

Class TableDumpLaws (T : Type) `{TableLaws T, !TableDump T} := {
  (* a dump from the start gets each entry asked for once *)
  iterate_law e t k out_port :
    table_ok e t → key_ok k →
    wp (t_iterate (list ptr) t k out_port zero_position (λ p l, mret (0, l ++ [p])) [] e)
      (λ '((r, _, l), e'), r = 0 ∧ e' = e ∧ l ≡ₚ select e (dumped k out_port) (owned t));
}.

(** ** Example entries, for concrete runs *)

Definition any_key : sw_flow_key :=
  mk_sw_flow_key zero_flow OFPFW_ALL (make_nw_mask (OFPFW_ALL >> OFPFW_NW_SRC_SHIFT))
    (make_nw_mask (OFPFW_ALL >> OFPFW_NW_DST_SHIFT)).

Definition exact_key (port : Z) : sw_flow_key :=
  mk_sw_flow_key (zero_flow <| in_port := port |>) 0 (make_nw_mask 0) (make_nw_mask 0).

Definition any_entry (prio : Z) : sw_flow :=
  (new_flow 0) <| key := any_key |> <| priority := prio |>.

Definition exact_entry (port : Z) : sw_flow :=
  (new_flow 0) <| key := exact_key port |> <| priority := 65535 |>.

Definition env_of (h : gmap ptr sw_flow) : env := mk_env h 0 0 [] [].

Lemma acts_ok_nil : acts_ok [].
Proof. intros out_port. by exists false. Qed.

Lemma any_key_ok : key_ok any_key.
Proof. split; try done. apply zero_flow_range. Qed.

Lemma any_entry_ok prio : entry_ok (any_entry prio).
Proof. split; [apply any_key_ok|done|apply acts_ok_nil]. Qed.

Lemma exact_key_ok port : 0 <= port < 65536 → key_ok (exact_key port).
Proof. intros Hp. split; try done. by destruct zero_flow_range. Qed.

Lemma exact_entry_ok port : 0 <= port < 65536 → entry_ok (exact_entry port).
Proof. intros Hp. split; [by apply exact_key_ok|done|apply acts_ok_nil]. Qed.


End Table.
