(* ===== verification/TableLinear.v ===== *)
(** * udatapath/table-linear.c: the wildcard table

    A table keeps its entries on two lists: [flows] in decreasing order of
    priority, which lookups scan, and [iter_flows] in decreasing order of serial
    number, which dumps scan.  The doubly linked lists are lists of pointers. *)

From S2P Require Import Prelude Ofp Ofpbuf Flow SwitchFlow Env Table.
Import Ofp Flow SwitchFlow Env Table.

Module TableLinear.

Record sw_table_linear := mk_sw_table_linear {
  max_flows : Z;
  n_flows : Z;
  flows : list ptr;
  iter_flows : list ptr;
  next_serial : Z;
}.
#[export] Instance sw_table_linear_eta : Eta sw_table_linear := λ t,
  mk_sw_table_linear (max_flows t) (n_flows t) (flows t) (iter_flows t) (next_serial t).

Fixpoint lookup_loop (l : list ptr) (k : sw_flow_key) : M env (option ptr) :=
  match l with
  | [] => mret None
  | p :: l =>
      f ← read_flow p;
      if flow_matches_1wild k (key f) then mret (Some p) else lookup_loop l k
  end.

Definition table_linear_lookup (tl : sw_table_linear) (k : sw_flow_key) : M env (option ptr) :=
  lookup_loop (flows tl) k.

(** Where the loop of [table_linear_insert] stops: at an entry to replace, or in
    front of the rest of the list. *)
Inductive insert_point :=
| Replace (before : list ptr) (f : ptr) (after : list ptr)
| Before (before after : list ptr).

Fixpoint insert_loop (flow : sw_flow) (before l : list ptr) : M env insert_point :=
  match l with
  | [] => mret (Before before [])
  | f :: l' =>
      x ← read_flow f;
      if (priority x =? priority flow)
         && (wildcards (key x) =? wildcards (key flow))
         && flow_matches_2wild (key x) (key flow)
      then mret (Replace before f l')
      else if priority x <? priority flow then mret (Before before l)
      else insert_loop flow (before ++ [f]) l'
  end.

(** [list_replace] *)
Definition list_replace (new old : ptr) (l : list ptr) : list ptr :=
  (λ q, if decide (q = old) then new else q) <$> l.

Definition table_linear_insert (tl : sw_table_linear) (flow : ptr)
    : M env (Z * sw_table_linear) :=
  x ← read_flow flow;
  point ← insert_loop x [] (flows tl);
  match point with
  | Replace before f after =>
      old ← read_flow f;
      write_flow flow (λ x, x <| serial := serial old |>);;
      flow_free f;;
      mret (1, tl <| flows := before ++ flow :: after |>
                  <| iter_flows := list_replace flow f (iter_flows tl) |>)
  | Before before after =>
      if max_flows tl <=? n_flows tl then mret (0, tl)
      else
        write_flow flow (λ x, x <| serial := next_serial tl |>);;
        mret (1, tl <| n_flows := u32 (n_flows tl + 1) |>
                    <| next_serial := u64 (next_serial tl + 1) |>
                    <| flows := before ++ flow :: after |>
                    <| iter_flows := flow :: iter_flows tl |>)
  end.

Fixpoint modify_loop (l : list ptr) (k : sw_flow_key) (prio : Z) (strict : bool)
    (actions : list Z) (count : Z) : M env Z :=
  match l with
  | [] => mret count
  | p :: l =>
      f ← read_flow p;
      if flow_matches_desc (key f) k strict && (negb strict || (priority f =? prio)) then
        flow_replace_acts p actions;;
        modify_loop l k prio strict actions (count + 1)
      else modify_loop l k prio strict actions count
  end.

Definition table_linear_modify (tl : sw_table_linear) (k : sw_flow_key) (prio : Z)
    (strict : bool) (actions : list Z) : M env Z :=
  modify_loop (flows tl) k prio strict actions 0.

Fixpoint conflict_loop (l : list ptr) (k : sw_flow_key) (prio : Z) (strict : bool)
    : M env bool :=
  match l with
  | [] => mret false
  | p :: l =>
      f ← read_flow p;
      if flow_matches_2desc (key f) k strict && (priority f =? prio) then mret true
      else conflict_loop l k prio strict
  end.

Definition table_linear_has_conflict (tl : sw_table_linear) (k : sw_flow_key) (prio : Z)
    (strict : bool) : M env bool :=
  conflict_loop (flows tl) k prio strict.

(** [list_remove] from both lists. *)
Definition unlink (p : ptr) (tl : sw_table_linear) : sw_table_linear :=
  tl <| flows := filter (λ q, q ≠ p) (flows tl) |>
     <| iter_flows := filter (λ q, q ≠ p) (iter_flows tl) |>.

Definition do_delete (p : ptr) (tl : sw_table_linear) : M env sw_table_linear :=
  flow_free p;; mret (unlink p tl).

Fixpoint delete_loop (l : list ptr) (k : sw_flow_key) (out_port prio : Z) (strict : bool)
    (tl : sw_table_linear) (count : Z) : M env (sw_table_linear * Z) :=
  match l with
  | [] => mret (tl, count)
  | p :: l =>
      f ← read_flow p;
      hit ← (if flow_matches_desc (key f) k strict then
               has_port ← lift (flow_has_out_port f out_port);
               mret ((has_port : bool) && (negb strict || (priority f =? prio)))
             else mret false);
      if hit : bool then
        dp_send_flow_end p OFPRR_DELETE;;
        tl ← do_delete p tl;
        delete_loop l k out_port prio strict tl (count + 1)
      else delete_loop l k out_port prio strict tl count
  end.

Definition table_linear_delete (tl : sw_table_linear) (k : sw_flow_key) (out_port prio : Z)
    (strict : bool) : M env (Z * sw_table_linear) :=
  '(tl, count) ← delete_loop (flows tl) k out_port prio strict tl 0;
  mret (count, tl <| n_flows := u32 (n_flows tl - count) |>).

Fixpoint timeout_loop (l : list ptr) (tl : sw_table_linear) (deleted : list ptr)
    : M env (sw_table_linear * list ptr) :=
  match l with
  | [] => mret (tl, deleted)
  | p :: l =>
      f ← read_flow p;
      e ← get;
      let '(expired, f) := flow_timeout (now_msec e) f in
      write_flow p (λ _, f);;
      if expired then
        timeout_loop l ((unlink p tl) <| n_flows := u32 (n_flows tl - 1) |>) (deleted ++ [p])
      else timeout_loop l tl deleted
  end.

Definition table_linear_timeout (tl : sw_table_linear) (deleted : list ptr)
    : M env (sw_table_linear * list ptr) :=
  timeout_loop (flows tl) tl deleted.

Fixpoint destroy_loop (l : list ptr) : M env unit :=
  match l with
  | [] => mret tt
  | p :: l => flow_free p;; destroy_loop l
  end.

Definition table_linear_destroy (tl : sw_table_linear) : M env unit :=
  destroy_loop (flows tl).

Fixpoint iterate_loop {A} (l : list ptr) (k : sw_flow_key) (out_port start : Z)
    (cb : callback A) (pos : sw_table_position) (a : A)
    : M env (Z * sw_table_position * A) :=
  match l with
  | [] => mret (0, pos, a)
  | p :: l =>
      f ← read_flow p;
      hit ← (if (serial f <=? start) && flow_matches_2wild k (key f)
             then lift (flow_has_out_port f out_port) else mret false);
      if hit : bool then
        '(error, a) ← cb p a;
        if truth error then
          mret (error, <[0%nat := u64 (Z.lnot (u64 (serial f - 1)))]> pos, a)
        else iterate_loop l k out_port start cb pos a
      else iterate_loop l k out_port start cb pos a
  end.

Definition table_linear_iterate {A} (tl : sw_table_linear) (k : sw_flow_key) (out_port : Z)
    (pos : sw_table_position) (cb : callback A) (a : A)
    : M env (Z * sw_table_position * A) :=
  let start := u64 (Z.lnot (pos !!! 0%nat)) in
  iterate_loop (iter_flows tl) k out_port start cb pos a.

Definition table_linear_stats (tl : sw_table_linear) : sw_table_stats :=
  mk_sw_table_stats [108; 105; 110; 101; 97; 114] OFPFW_ALL (n_flows tl) (max_flows tl).

(** [calloc] may fail. *)
Definition table_linear_create (max : Z) : M env (option sw_table_linear) :=
  ok ← malloc_ok;
  if ok : bool then mret (Some (mk_sw_table_linear max 0 [] [] 0)) else mret None.

#[export] Instance linear_table : Table sw_table_linear := {
  t_lookup := table_linear_lookup;
  t_insert := table_linear_insert;
  t_modify := table_linear_modify;
  t_has_conflict := table_linear_has_conflict;
  t_delete := table_linear_delete;
  t_timeout := table_linear_timeout;
  t_destroy := table_linear_destroy;
}.

#[export] Instance linear_table_dump : TableDump sw_table_linear := {
  t_iterate := @table_linear_iterate;
  t_stats := table_linear_stats;
}.

End TableLinear.
