(* ===== verification/TableLinearFacts.v ===== *)
(** * The wildcard table keeps its order and its entries

    The invariant of a wildcard table, and the laws of Table.v for it: entries
    are in decreasing order of priority and no entry duplicates another, so a
    lookup, which takes the first match, finds one of the highest priority. *)

From stdpp Require Import sorting.
From S2P Require Import Prelude Ofp Ofpbuf Flow FlowFacts SwitchFlow SwitchFlowFacts Env EnvFacts.
From S2P Require Import Table TableLinear.
Import Ofp Flow FlowFacts SwitchFlow SwitchFlowFacts Env EnvFacts Table TableLinear.

Module TableLinearFacts.

(** ** Sorted lists *)

Lemma StronglySorted_impl_in {A} (R R' : relation A) (l : list A) :
  (∀ x y, x ∈ l → y ∈ l → R x y → R' x y) → StronglySorted R l → StronglySorted R' l.
Proof.
  intros Himp Hs. induction Hs as [|x l Hs IH Hall]; constructor.
  - apply IH. intros; apply Himp; [right|right|]; done.
  - rewrite Forall_forall in *. intros y Hy. apply Himp; [left|by right|by apply Hall].
Qed.

Lemma StronglySorted_filter_in {A} (R : relation A) P `{∀ x, Decision (P x)} (l : list A) :
  StronglySorted R l → StronglySorted R (filter P l).
Proof.
  induction 1 as [|x l Hs IH Hall]; [constructor|]. rewrite filter_cons. case_decide; [|done].
  constructor; [done|]. rewrite Forall_forall in *. intros y Hy.
  apply list_elem_of_filter in Hy as [_ Hy]. by apply Hall.
Qed.

(** ** Duplicates *)

Lemma duplicates_sym f g : duplicates f g = duplicates g f.
Proof.
  unfold duplicates. rewrite flow_matches_2wild_sym, (Z.eqb_sym (priority f)).
  by rewrite (Z.eqb_sym (wildcards (key f))).
Qed.

(** ** The invariant *)

Definition precedes (e : env) (p q : ptr) : Prop :=
  match heap e !! p, heap e !! q with
  | Some f, Some g => priority g <= priority f ∧ duplicates f g = false
  | _, _ => False
  end.

Definition word64 (x : Z) : Prop := 0 <= x < 2 ^ 64.

Record linear_ok (e : env) (t : sw_table_linear) : Prop := {
  lo_nodup : NoDup (flows t);
  lo_iter : iter_flows t ≡ₚ flows t;
  lo_entry : ∀ p, p ∈ flows t → ∃ f, heap e !! p = Some f ∧ entry_ok f ∧ word64 (serial f);
  lo_sorted : StronglySorted (precedes e) (flows t);
  lo_count : n_flows t = Z.of_nat (length (flows t));
  lo_room : n_flows t <= max_flows t < 2 ^ 32;
  lo_serial : word64 (next_serial t);
}.

Lemma same_entry_duplicates f f' g g' :
  same_entry f f' → same_entry g g' → duplicates f' g' = duplicates f g.
Proof. intros [Hk Hp _ _] [Hk' Hp' _ _]. unfold duplicates. congruence. Qed.

Lemma precedes_frame e e' l :
  same_entries l e e' → StronglySorted (precedes e) l → StronglySorted (precedes e') l.
Proof.
  intros Hs. apply StronglySorted_impl_in. intros p q Hp Hq. unfold precedes.
  destruct (heap e !! p) as [f|] eqn:Ef; [|done]. destruct (heap e !! q) as [g|] eqn:Eg; [|done].
  destruct (Hs p f Hp Ef) as (f' & -> & Hf). destruct (Hs q g Hq Eg) as (g' & -> & Hg).
  rewrite (se_priority _ _ Hf), (se_priority _ _ Hg), (same_entry_duplicates _ _ _ _ Hf Hg). done.
Qed.

Lemma linear_ok_frame e e' t : linear_ok e t → same_entries (flows t) e e' → linear_ok e' t.
Proof.
  intros Ht Hs. destruct Ht. split; try done.
  - intros p Hp. destruct (lo_entry0 p Hp) as (f & Hf & [Hk He Ha] & Hw).
    destruct (Hs p f Hp Hf) as (f' & Hf' & [S1 S2 S3 S4]). exists f'. split; [done|].
    split; [split|]; rewrite ?S1, ?S2, ?S3; auto.
  - by eapply precedes_frame.
Qed.

(** Removing entries. *)
Lemma linear_ok_filter e t P `{∀ p, Decision (P p)} :
  linear_ok e t →
  linear_ok e (t <| flows := filter P (flows t) |> <| iter_flows := filter P (iter_flows t) |>
                 <| n_flows := Z.of_nat (length (filter P (flows t))) |>).
Proof.
  intros []. pose proof (length_filter P (flows t)). split; simpl; try done.
  - by apply NoDup_filter.
  - by apply filter_Permutation.
  - intros p Hp. apply list_elem_of_filter in Hp as [_ Hp]. auto.
  - by apply StronglySorted_filter_in.
  - lia.
Qed.

Lemma allocated_cons e p l : allocated e (p :: l) → is_Some (heap e !! p) ∧ allocated e l.
Proof. unfold allocated. set_solver. Qed.

Lemma linear_allocated e t : linear_ok e t → allocated e (flows t).
Proof. intros Ht p Hp. destruct (lo_entry _ _ Ht p Hp) as (f & -> & _). eauto. Qed.

(** ** Loops that only read *)

Lemma lookup_loop_spec e k l :
  allocated e l →
  wp (lookup_loop l k e) (λ '(r, e'), e' = e ∧
    match r with
    | Some p => ∃ l1 l2, l = l1 ++ p :: l2 ∧ holds_at e (matches k) p = true
        ∧ select e (matches k) l1 = []
    | None => select e (matches k) l = []
    end).
Proof.
  induction l as [|p l IH]; simpl; intros Ha; [done|].
  apply allocated_cons in Ha as [[f Hf] Ha]. run.
  rewrite (select_cons _ _ _ _ _ Hf). fold (matches k f). destruct (matches k f) eqn:E; run.
  - split; [done|]. exists [], l. split; [done|]. by rewrite (holds_at_some _ _ _ _ Hf).
  - eapply wp_mono; [by apply IH|]. intros [[q|] e'] [-> H]; [|done].
    split; [done|]. destruct H as (l1 & l2 & -> & Hq & H1). exists (p :: l1), l2.
    split; [done|]. split; [done|]. by rewrite (select_cons _ _ _ _ _ Hf), E.
Qed.

Lemma linear_lookup_law e t k :
  linear_ok e t →
  wp (table_linear_lookup t k e) (λ '(r, e'), e' = e ∧
    match r with
    | Some p => ∃ f, p ∈ flows t ∧ heap e !! p = Some f ∧ matches k f = true ∧
        ∀ q g, q ∈ flows t → heap e !! q = Some g → matches k g = true → priority g <= priority f
    | None => select e (matches k) (flows t) = []
    end).
Proof.
  intros Ht. eapply wp_mono; [apply lookup_loop_spec, linear_allocated, Ht|].
  intros [[p|] e'] [-> H]; [|done]. split; [done|].
  destruct H as (l1 & l2 & Hl & Hp & H1). unfold holds_at in Hp.
  destruct (heap e !! p) as [f|] eqn:Hf; [|done]. exists f.
  split; [rewrite Hl; set_solver|]. split; [done|]. split; [done|]. intros q g Hq Hg Hm.
  rewrite Hl in Hq. apply elem_of_app in Hq as [Hq|Hq].
  - assert (q ∈ select e (matches k) l1) as Hin
      by (apply select_elem; by rewrite (holds_at_some _ _ _ _ Hg)).
    rewrite H1 in Hin. by apply not_elem_of_nil in Hin.
  - apply elem_of_cons in Hq as [->|Hq]; [naive_solver lia|].
    pose proof (lo_sorted _ _ Ht) as Hs. rewrite Hl in Hs. apply StronglySorted_app_1_r in Hs.
    apply StronglySorted_inv in Hs as [_ Hs]. rewrite Forall_forall in Hs.
    specialize (Hs q Hq). unfold precedes in Hs. rewrite Hf, Hg in Hs. tauto.
Qed.

Lemma conflict_loop_spec e k prio strict l :
  allocated e l →
  wp (conflict_loop l k prio strict e) (λ '(b, e'), e' = e ∧
    (b = true ↔ select e (conflicting k prio strict) l ≠ [])).
Proof.
  induction l as [|p l IH]; simpl; intros Ha; [done|].
  apply allocated_cons in Ha as [[f Hf] Ha]. run.
  rewrite (select_cons _ _ _ _ _ Hf). fold (conflicting k prio strict f).
  destruct (conflicting k prio strict f); run; [done|]. by apply IH.
Qed.

(** ** Modify *)

Lemma modify_loop_spec k prio strict acts l e n :
  NoDup l → allocated e l →
  wp (modify_loop l k prio strict acts n e) (λ '(n', e'),
    n' = n + Z.of_nat (length (select e (described k prio strict) l)) ∧
    modified acts (select e (described k prio strict) l) e e').
Proof.
  revert e n. induction l as [|p l IH]; intros e n Hnd Ha; cbn [modify_loop].
  { run. split; [cbn; lia|apply modified_nil]. }
  apply allocated_cons in Ha as [[f Hf] Ha]. apply NoDup_cons in Hnd as [Hp Hnd].
  run. rewrite (select_cons _ _ _ _ _ Hf). fold (described k prio strict f).
  destruct (described k prio strict f); [|by apply IH]. run.
  eapply flow_replace_acts_modified; [exact Hf|]. intros e1 Hm. cbn beta iota delta [fst snd].
  assert (∀ q, q ∈ l → heap e1 !! q = heap e !! q) as Heq.
  { intros q Hq. apply Hm. rewrite list_elem_of_singleton. by intros ->. }
  eapply wp_mono; [apply IH; [done|]|].
  { intros q Hq. rewrite Heq by done. auto. }
  intros [n' e']. rewrite (select_ext e e1) by done. intros [-> Hm'].
  split; [cbn [length]; lia|]. apply (modified_app acts [p]) with e1; [|done..].
  intros q ->%list_elem_of_singleton. rewrite select_elem. tauto.
Qed.

(** ** Delete *)

Lemma linear_entries_ok e t : linear_ok e t → entries_ok e (flows t).
Proof. intros Ht p Hp. destruct (lo_entry _ _ Ht p Hp) as (f & ? & ? & _). eauto. Qed.

(** A table without the entries of [dead]. *)
Definition without (dead : list ptr) (t : sw_table_linear) : sw_table_linear :=
  t <| flows := filter (λ p, p ∉ dead) (flows t) |>
    <| iter_flows := filter (λ p, p ∉ dead) (iter_flows t) |>.

Lemma without_nil t : without [] t = t.
Proof.
  unfold without. destruct t; simpl. f_equal; apply filter_id; intros; apply not_elem_of_nil.
Qed.

Lemma without_unlink p dead t : without dead (unlink p t) = without (p :: dead) t.
Proof.
  unfold without, unlink. destruct t; simpl. f_equal;
    rewrite list_filter_filter; apply filter_ext_in; intros; rewrite not_elem_of_cons; tauto.
Qed.

Lemma without_unlink_n p dead t n :
  without dead ((unlink p t) <| n_flows := n |>) = (without (p :: dead) t) <| n_flows := n |>.
Proof. rewrite <-without_unlink. done. Qed.

Lemma delete_loop_spec k out_port prio strict l e t n :
  NoDup l → entries_ok e l → remotes_ok (remotes e) →
  wp (delete_loop l k out_port prio strict t n e) (λ '((t', n'), e'),
    let dead := select e (doomed k out_port prio strict) l in
    n' = n + Z.of_nat (length dead) ∧ t' = without dead t ∧
    reported dead e e').
Proof.
  revert e t n. induction l as [|p l IH]; intros e t n Hnd He Hr; simpl.
  { run. split; [simpl; lia|]. split; [by rewrite without_nil|by apply reported_nil]. }
  apply entries_ok_cons in He as [(f & Hf & Hok) He]. apply NoDup_cons in Hnd as [Hp Hnd].
  rewrite (select_cons _ _ _ _ _ Hf). run.
  assert (wp ((if flow_matches_desc (key f) k strict
               then has_port ← lift (flow_has_out_port f out_port);
                    mret ((has_port : bool) && (negb strict || (priority f =? prio)))
               else mret false) e)
            (λ '(b, e'), b = doomed k out_port prio strict f ∧ e' = e)) as Hhit.
  { unfold doomed, described. destruct (flow_matches_desc (key f) k strict); run; [|done].
    rewrite (has_out_port_ok _ _ Hok). simpl. run. split; [|done]. apply andb_comm. }
  eapply wp_mono; [exact Hhit|]. intros [b e1] [-> ->]. cbn beta iota delta [fst snd].
  destruct (doomed k out_port prio strict f); [|by apply IH]. unfold do_delete. run.
  set (e1 := e <| remotes := rs |> <| heap := delete p (heap e) |>).
  assert (∀ q, q ∈ l → heap e1 !! q = heap e !! q) as Heq.
  { intros q Hq. apply lookup_delete_ne. intros ->. done. }
  eapply wp_mono; [apply (IH e1); [done|by eapply entries_ok_ext|done]|].
  intros [[t' n'] e']. rewrite (select_ext e e1) by done. intros (-> & -> & H).
  split; [cbn [length]; lia|]. split; [apply without_unlink|].
  refine (reported_app [p] _ e e1 e' _ H). by exists rs.
Qed.

Lemma filter_not_selected e P l : filter (λ p, p ∉ select e P l) l = reject e P l.
Proof.
  apply filter_ext_in. intros p Hp. rewrite select_elem. destruct (holds_at e P p); naive_solver.
Qed.

(** Taking the selected entries out of a table leaves a table. *)
Lemma linear_ok_without e t P :
  linear_ok e t →
  linear_ok e ((without (select e P (flows t)) t)
                 <| n_flows := u32 (n_flows t - Z.of_nat (length (select e P (flows t)))) |>).
Proof.
  intros Ht. pose proof (linear_ok_filter e t (λ p, p ∉ select e P (flows t)) Ht) as Hf.
  assert (u32 (n_flows t - Z.of_nat (length (select e P (flows t))))
          = Z.of_nat (length (filter (λ p, p ∉ select e P (flows t)) (flows t)))) as ->.
  { rewrite filter_not_selected. pose proof (length_reject e P (flows t)).
    rewrite (lo_count _ _ Ht). pose proof (lo_room _ _ Ht). rewrite (lo_count _ _ Ht) in *.
    unfold u32. rewrite Z.mod_small; lia. }
  exact Hf.
Qed.

Lemma linear_delete_law e t k out_port prio strict :
  linear_ok e t → remotes_ok (remotes e) →
  wp (table_linear_delete t k out_port prio strict e) (λ '((n, t'), e'),
    let dead := select e (doomed k out_port prio strict) (flows t) in
    n = Z.of_nat (length dead) ∧ linear_ok e' t' ∧
    flows t' = reject e (doomed k out_port prio strict) (flows t) ∧
    reported dead e e').
Proof.
  intros Ht Hr. unfold table_linear_delete. run.
  eapply wp_mono; [apply delete_loop_spec; [apply Ht|by apply linear_entries_ok|done]|].
  intros [[t' n] e'] (-> & -> & rs & Hrs & ->). run. rewrite Z.add_0_l. split; [done|].
  split; [|split; [apply filter_not_selected|by exists rs]].
  refine (linear_ok_frame e _ _ (linear_ok_without e t _ Ht) _).
  intros p f Hp Hf. simpl in Hp. rewrite filter_not_selected, reject_elem in Hp.
  exists f. split; [|by split]. simpl. rewrite lookup_free_all_out; [done|].
  rewrite select_elem. destruct Hp as [-> _]. naive_solver.
Qed.


(** ** Timeout *)

Lemma timeout_loop_spec l e t deleted :
  NoDup l → allocated e l → Z.of_nat (length l) <= n_flows t < 2 ^ 32 →
  wp (timeout_loop l t deleted e) (λ '((t', deleted'), e'),
    let dead := select e (expired (now_msec e)) l in
    deleted' = deleted ++ dead ∧
    t' = (without dead t) <| n_flows := n_flows t - Z.of_nat (length dead) |> ∧
    timed_out (now_msec e) l (heap e) (heap e') ∧ e' = e <| heap := heap e' |>).
Proof.
  revert e t deleted. induction l as [|p l IH]; intros e t deleted Hnd Ha Hn; cbn [timeout_loop].
  { run. change (select e (expired (now_msec e)) []) with (@nil ptr). rewrite app_nil_r. split; [done|]. split; [rewrite without_nil; destruct t; cbn; f_equal; lia|].
    split; [|by destruct e]. intros p. by rewrite decide_False by apply not_elem_of_nil. }
  apply allocated_cons in Ha as [[f Hf] Ha]. apply NoDup_cons in Hnd as [Hp Hnd].
  cbn [length] in Hn. rewrite (select_cons _ _ _ _ _ Hf). run.
  destruct (flow_timeout (now_msec e) f) as [x g] eqn:Eg. run.
  assert (expired (now_msec e) f = x) as -> by (unfold expired; by rewrite Eg).
  set (e1 := e <| heap := <[p:=g]> (heap e) |>).
  assert (∀ q, q ∈ l → heap e1 !! q = heap e !! q) as Heq.
  { intros q Hq. apply lookup_insert_ne. intros ->. done. }
  assert (allocated e1 l) by (intros q Hq; rewrite Heq by done; auto).
  destruct x; (eapply wp_mono; [apply (IH e1); [done|done|]|]).
  - simpl. unfold u32. rewrite Z.mod_small; lia.
  - intros [[t' d'] e']. rewrite (select_ext e e1) by done. intros (-> & -> & H1 & ->).
    rewrite <-app_assoc. split; [done|]. split; [|split; [|done]].
    + rewrite without_unlink_n. simpl. cbn [length].
      unfold u32. rewrite Z.mod_small by lia. f_equal. lia.
    + eapply timed_out_cons; [done|done|]. by rewrite Eg.
  - lia.
  - intros [[t' d'] e']. rewrite (select_ext e e1) by done. intros (-> & -> & H1 & ->).
    split; [done|]. split; [done|]. split; [|done]. eapply timed_out_cons; [done|done|]. by rewrite Eg.
Qed.

Lemma linear_timeout_law e t deleted :
  linear_ok e t →
  wp (table_linear_timeout t deleted e) (λ '((t', deleted'), e'),
    let dead := select e (expired (now_msec e)) (flows t) in
    deleted' = deleted ++ dead ∧ linear_ok e' t' ∧
    flows t' = reject e (expired (now_msec e)) (flows t) ∧
    timed_out (now_msec e) (flows t) (heap e) (heap e') ∧ e' = e <| heap := heap e' |>).
Proof.
  intros Ht. pose proof (lo_count _ _ Ht). pose proof (lo_room _ _ Ht).
  eapply wp_mono; [apply timeout_loop_spec; [apply Ht|by apply linear_allocated|lia]|].
  intros [[t' d'] e'] (-> & -> & H1 & H2). split; [done|].
  split; [|split; [apply filter_not_selected|done]].
  pose proof (linear_ok_without e t (expired (now_msec e)) Ht) as Hw.
  pose proof (length_reject e (expired (now_msec e)) (flows t)).
  unfold u32 in Hw. rewrite Z.mod_small in Hw by lia.
  eapply linear_ok_frame; [exact Hw|by eapply timed_out_same].
Qed.

(** ** Destroy *)

Lemma destroy_loop_spec l e :
  NoDup l → allocated e l →
  wp (destroy_loop l e) (λ '(_, e'), e' = e <| heap := free_all l (heap e) |>).
Proof.
  revert e. induction l as [|p l IH]; intros e Hnd Ha; cbn [destroy_loop]; [run; by destruct e|].
  apply allocated_cons in Ha as [[f Hf] Ha]. apply NoDup_cons in Hnd as [Hp Hnd]. run.
  eapply wp_mono; [apply IH; [done|]|].
  - intros q Hq. simpl. rewrite lookup_delete_ne; [by apply Ha|]. intros ->. done.
  - intros [[] e'] ->. by rewrite free_all_cons.
Qed.


(** ** Insert *)

Lemma insert_loop_spec e x before l :
  allocated e l →
  wp (insert_loop x before l e) (λ '(pt, e'), e' = e ∧
    match pt with
    | Replace b f a => ∃ l1, b = before ++ l1 ∧ l = l1 ++ f :: a
        ∧ holds_at e (λ g, duplicates g x) f = true
    | Before b a => ∃ l1, b = before ++ l1 ∧ l = l1 ++ a
        ∧ (∀ p g, p ∈ l1 → heap e !! p = Some g → priority x <= priority g ∧ duplicates g x = false)
        ∧ (∀ p g, head a = Some p → heap e !! p = Some g → priority g < priority x)
    end).
Proof.
  revert before. induction l as [|p l IH]; intros before Ha; cbn [insert_loop].
  { run. split; [done|]. exists []. rewrite app_nil_r. split_and!; try done.
    by intros p g Hp%not_elem_of_nil. }
  apply allocated_cons in Ha as [[f Hf] Ha]. run. fold (duplicates f x).
  destruct (duplicates f x) eqn:Ed; run.
  { split; [done|]. exists []. rewrite app_nil_r. split_and!; try done.
    by rewrite (holds_at_some _ _ _ _ Hf). }
  destruct (Z.ltb_spec (priority f) (priority x)) as [Hlt|Hge]; run.
  { split; [done|]. exists []. rewrite app_nil_r. split_and!; try done.
    - by intros q g Hq%not_elem_of_nil.
    - intros q g Hq Hg. simpl in Hq. naive_solver. }
  eapply wp_mono; [by apply IH|]. intros [[b q a|b a] e'] [-> H]; (split; [done|]).
  - destruct H as (l1 & -> & -> & H). exists (p :: l1). by rewrite <-app_assoc.
  - destruct H as (l1 & -> & -> & H1 & H2). exists (p :: l1). rewrite <-app_assoc.
    split_and!; try done. intros q g Hq Hg. apply elem_of_cons in Hq as [->|Hq]; [|eauto].
    naive_solver.
Qed.

Lemma insert_heap_same l e p f old s :
  p ∉ l → (∀ q, q ∈ l → q ∉ old) →
  same_entries l e (e <| heap := <[p := f <| serial := s |>]> (free_all old (heap e)) |>).
Proof.
  intros Hp Hold q g Hq Hg. exists g. split; [|by split]. simpl.
  rewrite lookup_insert_ne by (intros ->; done). by rewrite lookup_free_all_out by auto.
Qed.

(** Entries before and after a new one, when the order stays right. *)
Lemma precedes_insert e p l1 l2 :
  StronglySorted (precedes e) (l1 ++ l2) →
  (∀ q, q ∈ l1 → precedes e q p) → (∀ q, q ∈ l2 → precedes e p q) →
  StronglySorted (precedes e) (l1 ++ p :: l2).
Proof.
  intros Hs H1 H2. apply StronglySorted_app in Hs as (H12 & Hs1 & Hs2).
  apply StronglySorted_app. split_and!; [|done|].
  - intros x y Hx Hy. apply elem_of_cons in Hy as [->|Hy]; auto.
  - constructor; [done|]. by apply Forall_forall.
Qed.

(** The first entry of lower priority bounds all that follow. *)
Lemma sorted_tail_below e l2 n :
  StronglySorted (precedes e) l2 → allocated e l2 →
  (∀ p g, head l2 = Some p → heap e !! p = Some g → priority g < n) →
  ∀ p g, p ∈ l2 → heap e !! p = Some g → priority g < n.
Proof.
  intros Hs Ha Hh p g Hp Hg. destruct l2 as [|q l2]; [by apply not_elem_of_nil in Hp|].
  apply elem_of_cons in Hp as [->|Hp]; [by eapply Hh|].
  apply StronglySorted_inv in Hs as [_ Hs]. rewrite Forall_forall in Hs. specialize (Hs p Hp).
  destruct (Ha q) as [f Hf]; [left|]. specialize (Hh q f eq_refl Hf).
  unfold precedes in Hs. rewrite Hf, Hg in Hs. lia.
Qed.

Lemma duplicates_priority f g : priority f ≠ priority g → duplicates f g = false.
Proof. intros H. unfold duplicates. by rewrite (proj2 (Z.eqb_neq _ _) H). Qed.


(** Having the same priority, the same wildcards and a flow in common is an
    equivalence on entries. *)
Lemma agrees_trans m x y z : agrees m x y → agrees m y z → agrees m x z.
Proof.
  unfold agrees. intros H1 H2. apply Z.bits_inj'. intros n Hn.
  apply (f_equal (λ v, Z.testbit v n)) in H1, H2.
  rewrite Z.land_spec, Z.lxor_spec, Z.bits_0 in *.
  destruct (Z.testbit x n), (Z.testbit y n), (Z.testbit z n), (Z.testbit m n); done.
Qed.

Lemma fields_agree_trans w ms md a b c :
  fields_agree w ms md a b → fields_agree w ms md b c → fields_agree w ms md a c.
Proof.
  intros [] []. split;
    try match goal with |- agrees _ _ _ => by eapply agrees_trans end;
    match goal with |- ?A ∨ ?x = ?z =>
      match goal with H1 : A ∨ x = ?y, H2 : A ∨ ?y = z |- _ => destruct H1, H2; auto; right; congruence end
    end.
Qed.

Lemma duplicates_spec f g :
  entry_ok f → entry_ok g →
  duplicates f g = true ↔ priority f = priority g ∧ wildcards (key f) = wildcards (key g) ∧
    fields_agree (wildcards (key f)) (nw_src_mask (key f)) (nw_dst_mask (key f))
      (kflow (key f)) (kflow (key g)).
Proof.
  intros [[_ _ Hs Hd] _ _] [[_ _ Hs' Hd'] _ _]. unfold duplicates, flow_matches_2wild.
  rewrite !andb_true_iff, !Z.eqb_eq, flow_fields_match_spec.
  split; [intros [[Hp Hw] H]|intros (Hp & Hw & H)]; split_and!; try done;
    rewrite Hs, Hd, ?Hs', ?Hd', Hw, ?Z.lor_diag, ?Z.land_diag in *; done.
Qed.

Lemma duplicates_trans f g h :
  entry_ok f → entry_ok g → entry_ok h →
  duplicates f g = true → duplicates g h = true → duplicates f h = true.
Proof.
  intros Hf Hg Hh. rewrite !duplicates_spec by done. intros (P1 & W1 & A1) (P2 & W2 & A2).
  split_and!; [congruence..|]. eapply fields_agree_trans; [exact A1|].
  destruct Hf as [[_ _ -> ->] _ _], Hg as [[_ _ Hs Hd] _ _]. rewrite Hs, Hd in A2. by rewrite W1.
Qed.

Lemma duplicates_replace f g h :
  entry_ok f → entry_ok g → entry_ok h →
  duplicates g f = true → duplicates h g = false → duplicates h f = false.
Proof.
  intros Hf Hg Hh H1 H2. apply not_true_is_false. intros H3. apply not_true_iff_false in H2.
  apply H2. eapply (duplicates_trans h f g); [done..|]. by rewrite duplicates_sym.
Qed.

(** A new entry in its place. *)
Lemma linear_ok_add e t p f s old l1 l2 t' :
  linear_ok e t → flows t ≡ₚ old ++ (l1 ++ l2) → StronglySorted (precedes e) (l1 ++ l2) →
  p ∉ flows t → entry_ok f → word64 s →
  (∀ q g, q ∈ l1 → heap e !! q = Some g → priority f <= priority g ∧ duplicates g f = false) →
  (∀ q g, q ∈ l2 → heap e !! q = Some g → priority g <= priority f ∧ duplicates g f = false) →
  flows t' = l1 ++ p :: l2 → iter_flows t' ≡ₚ l1 ++ p :: l2 →
  n_flows t' = Z.of_nat (length (flows t')) → n_flows t' <= max_flows t' < 2 ^ 32 →
  word64 (next_serial t') →
  linear_ok (e <| heap := <[p := f <| serial := s |>]> (free_all old (heap e)) |>) t'.
Proof.
  intros Ht Hperm Hs Hp Hf Hser H1 H2 Ef Ei En Hroom Hns.
  set (e' := e <| heap := _ |>).
  assert (Hp' := Hp). rewrite Hperm in Hp'. apply not_elem_of_app in Hp' as [_ Hp'].
  pose proof (lo_nodup _ _ Ht) as Hnd. rewrite Hperm in Hnd.
  apply NoDup_app in Hnd as (_ & Hold & Hnd).
  assert (same_entries (l1 ++ l2) e e') as Hsame.
  { apply insert_heap_same; [done|]. intros q Hq Ho. by eapply Hold. }
  assert (heap e' !! p = Some (f <| serial := s |>)) as Hpe by apply lookup_insert_eq.
  assert (∀ q, q ∈ l1 ++ l2 → ∃ g, heap e !! q = Some g ∧ entry_ok g ∧ word64 (serial g)) as Hent.
  { intros q Hq. apply (lo_entry _ _ Ht). rewrite Hperm. set_solver. }
  split; rewrite ?Ef; try done.
  - rewrite <-Permutation_middle. by constructor.
  - intros q Hq. rewrite <-Permutation_middle in Hq. apply elem_of_cons in Hq as [->|Hq].
    + exists (f <| serial := s |>). split; [done|]. split; [|done]. by destruct Hf.
    + destruct (Hent q Hq) as (g & Hg & [] & ?).
      destruct (Hsame q g Hq Hg) as (g' & Hg' & [E1 E2 E3 E4]). exists g'. split; [done|].
      split; [split|]; rewrite ?E1, ?E2, ?E3; auto.
  - apply precedes_insert; [by eapply precedes_frame|..]; intros q Hq;
      (destruct (Hent q) as (g & Hg & _ & _); [set_solver|]);
      (destruct (Hsame q g) as (g' & Hg' & [E1 E2 E3 E4]); [set_solver|done|]);
      unfold precedes; rewrite Hg', Hpe; unfold duplicates; simpl; rewrite E1, E2.
    + apply (H1 q g); done.
    + destruct (H2 q g Hq Hg) as [? <-]. split; [done|]. rewrite duplicates_sym. done.
  - by rewrite <-Ef.
Qed.


Lemma list_replace_perm new old l rest :
  NoDup l → l ≡ₚ old :: rest → list_replace new old l ≡ₚ new :: rest.
Proof.
  intros Hnd Hl. unfold list_replace. rewrite Hl. rewrite Hl in Hnd.
  apply NoDup_cons in Hnd as [Hold _]. rewrite fmap_cons, decide_True by done. constructor.
  assert ((λ q, if decide (q = old) then new else q) <$> rest = id <$> rest) as ->.
  { apply Forall_fmap_ext_1, Forall_forall. intros q Hq.
    rewrite decide_False; [done|]. intros ->. done. }
  by rewrite list_fmap_id.
Qed.

Lemma linear_insert_replace e t p f q g l1 l2 :
  linear_ok e t → heap e !! p = Some f → p ∉ flows t → entry_ok f →
  flows t = l1 ++ q :: l2 → heap e !! q = Some g → duplicates g f = true →
  linear_ok (e <| heap := <[p := f <| serial := serial g |>]> (free_all [q] (heap e)) |>)
    (t <| flows := l1 ++ p :: l2 |> <| iter_flows := list_replace p q (iter_flows t) |>).
Proof.
  intros Ht Hp Hpt Hf El Hq Hdup. pose proof (lo_sorted _ _ Ht) as Hs. rewrite El in Hs.
  destruct (lo_entry _ _ Ht q) as (g' & Hg' & Hg & Hw); [rewrite El; set_solver|].
  assert (g' = g) as -> by congruence.
  assert (priority g = priority f) as Hprio by (apply duplicates_spec in Hdup; tauto).
  assert (∀ x, x ∈ l1 ++ l2 → ∃ h, heap e !! x = Some h ∧ entry_ok h) as Hent.
  { intros x Hx. apply (linear_entries_ok e t Ht). rewrite El. set_solver. }
  apply StronglySorted_app in Hs as (Hb & Hs1 & Hs2).
  assert (Hs2' := Hs2). apply StronglySorted_inv in Hs2 as [Hs2 Ha]. rewrite Forall_forall in Ha.
  eapply (linear_ok_add e t p f (serial g) [q] l1 l2); simpl; try done.
  - by rewrite El, <-Permutation_middle.
  - apply StronglySorted_app. split_and!; [|done..]. intros x y Hx Hy. apply Hb; [done|by right].
  - intros x h Hx Hh. destruct (Hent x) as (h' & Hh' & Hok); [set_solver|].
    assert (h' = h) as -> by congruence.
    specialize (Hb x q Hx). unfold precedes in Hb. rewrite Hh, Hq in Hb.
    destruct Hb as [? Hd]; [left|]. split; [lia|]. by apply (duplicates_replace f g h).
  - intros x h Hx Hh. destruct (Hent x) as (h' & Hh' & Hok); [set_solver|].
    assert (h' = h) as -> by congruence.
    specialize (Ha x Hx). unfold precedes in Ha. rewrite Hh, Hq in Ha. destruct Ha as [? Hd].
    split; [lia|]. rewrite duplicates_sym in Hd. by apply (duplicates_replace f g h).
  - rewrite <-Permutation_middle. apply list_replace_perm.
    + rewrite (lo_iter _ _ Ht). apply Ht.
    + rewrite (lo_iter _ _ Ht), El. by rewrite <-Permutation_middle.
  - rewrite (lo_count _ _ Ht), El, !length_app. done.
  - apply Ht.
  - apply Ht.
Qed.

Lemma linear_insert_new e t p f l1 l2 :
  linear_ok e t → heap e !! p = Some f → p ∉ flows t → entry_ok f →
  flows t = l1 ++ l2 → n_flows t < max_flows t →
  (∀ q g, q ∈ l1 → heap e !! q = Some g → priority f <= priority g ∧ duplicates g f = false) →
  (∀ q g, head l2 = Some q → heap e !! q = Some g → priority g < priority f) →
  linear_ok (e <| heap := <[p := f <| serial := next_serial t |>]> (free_all [] (heap e)) |>)
    (t <| n_flows := u32 (n_flows t + 1) |> <| next_serial := u64 (next_serial t + 1) |>
       <| flows := l1 ++ p :: l2 |> <| iter_flows := p :: iter_flows t |>).
Proof.
  intros Ht Hp Hpt Hf El Hn H1 H2. pose proof (lo_sorted _ _ Ht) as Hs. rewrite El in Hs.
  pose proof (linear_allocated _ _ Ht) as Hal. rewrite El in Hal.
  pose proof (lo_count _ _ Ht) as Hc. pose proof (lo_room _ _ Ht) as Hr.
  assert (u32 (n_flows t + 1) = n_flows t + 1) as Eu by (unfold u32; rewrite Z.mod_small; lia).
  eapply (linear_ok_add e t p f (next_serial t) [] l1 l2); simpl; rewrite ?Eu; try done.
  - by rewrite El.
  - apply Ht.
  - intros q g Hq Hg. assert (priority g < priority f).
    { eapply (sorted_tail_below e l2); [by eapply StronglySorted_app_1_r| |done|done|done].
      intros x Hx. apply Hal. set_solver. }
    split; [lia|]. apply duplicates_priority. lia.
  - rewrite (lo_iter _ _ Ht), El. apply Permutation_middle.
  - rewrite Hc, El, !length_app. cbn [length]. lia.
  - lia.
  - apply Z.mod_pos_bound; lia.
Qed.

Lemma linear_insert_law e t p f :
  linear_ok e t → heap e !! p = Some f → p ∉ flows t → entry_ok f →
  wp (table_linear_insert t p e) (λ '((r, t'), e'),
    (r = 0 ∧ t' = t ∧ e' = e ∧ max_flows t <= n_flows t) ∨
    (r = 1 ∧ linear_ok e' t' ∧ ∃ old rest s,
       (length old ≤ 1)%nat ∧ flows t ≡ₚ old ++ rest ∧ flows t' ≡ₚ p :: rest ∧
       select e (λ g, duplicates g f) old = old ∧
       e' = e <| heap := <[p := f <| serial := s |>]> (free_all old (heap e)) |>)).
Proof.
  intros Ht Hp Hpt Hf. unfold table_linear_insert. run.
  eapply wp_mono; [by apply insert_loop_spec, linear_allocated|].
  intros [[b q a|b a] e'] [-> H]; cbn beta iota delta [fst snd].
  - destruct H as (l1 & -> & El & Hd). unfold holds_at in Hd.
    destruct (heap e !! q) as [g|] eqn:Hq; [|done].
    assert (q ≠ p) as Hqp by (intros ->; apply Hpt; rewrite El; set_solver).
    run. eapply (wp_flow_free q g); [simpl; by rewrite lookup_insert_ne|]. run. right. split; [done|].
    cbn [heap upd]. assert (∀ h, delete q (<[p := f <| serial := serial g |>]> h) =
      <[p := f <| serial := serial g |>]> (free_all [q] h)) as E
      by (intros h; simpl; by rewrite delete_insert_ne).
    split.
    + simpl. rewrite E. by apply (linear_insert_replace e t p f q g l1 a).
    + exists [q], (l1 ++ a), (serial g). split_and!.
      * done.
      * by rewrite El, <-Permutation_middle.
      * simpl. by rewrite <-Permutation_middle.
      * by rewrite (select_cons _ _ _ _ _ Hq), Hd.
      * simpl. by rewrite E.
  - destruct H as (l1 & -> & El & H1 & H2). destruct (Z.leb_spec (max_flows t) (n_flows t)); run.
    { left. done. }
    right. split; [done|]. split; [by apply linear_insert_new|].
    exists [], (l1 ++ a), (next_serial t). split_and!; [simpl; lia|by rewrite El| |done|done].
    simpl. by rewrite <-Permutation_middle.
Qed.


(** ** Dumps *)

(** A callback that collects entries, and stops the dump when it has [budget] of
    them. *)
Definition collect (budget : nat) : callback (list ptr) := λ p l,
  let l := l ++ [p] in mret (if (length l =? budget)%nat then 1 else 0, l).

Definition wanted (k : sw_flow_key) (out_port start : Z) (f : sw_flow) : bool :=
  (serial f <=? start) && dumped k out_port f.

Lemma iterate_hit {A} k out_port start f (e : env) (kont : bool → M env A) Q :
  entry_ok f →
  wp (kont (wanted k out_port start f) e) Q →
  wp ((hit ← (if (serial f <=? start) && flow_matches_2wild k (key f)
              then lift (flow_has_out_port f out_port) else mret false); kont hit) e) Q.
Proof.
  intros Hf HQ. unfold wanted, dumped in HQ. run. destruct (serial f <=? start); simpl in *; [|by run].
  destruct (flow_matches_2wild k (key f)); simpl in *; [|by run]. run.
  by rewrite (has_out_port_ok _ _ Hf).
Qed.

(** A dump collects the wanted entries up to the budget.  If it stops, the
    position names the serial number before the last entry collected. *)
Lemma iterate_loop_spec k out_port start budget l e pos acc :
  entries_ok e l → (length acc < budget)%nat →
  wp (iterate_loop l k out_port start (collect budget) pos acc e) (λ '((r, pos', l'), e'), e' = e ∧
    let hits := select e (wanted k out_port start) l in
    l' = acc ++ take (budget - length acc) hits ∧
    if decide (budget ≤ length acc + length hits)%nat then
      ∃ p f, last l' = Some p ∧ heap e !! p = Some f ∧
        r = 1 ∧ pos' = <[0%nat := u64 (Z.lnot (u64 (serial f - 1)))]> pos
    else r = 0 ∧ pos' = pos).
Proof.
  revert acc. induction l as [|p l IH]; intros acc He Hb; cbn [iterate_loop].
  { run. change (select e (wanted k out_port start) []) with (@nil ptr).
    rewrite take_nil, app_nil_r. split; [done|]. split; [done|].
    rewrite decide_False by (simpl; lia). done. }
  apply entries_ok_cons in He as [(f & Hf & Hok) He]. rewrite (select_cons _ _ _ _ _ Hf).
  run_step. run_step. apply iterate_hit; [done|].
  destruct (wanted k out_port start f); [|by apply IH].
  run_step. unfold collect at 1. cbv beta zeta. run. rewrite length_app. cbn [length].
  destruct (Nat.eqb_spec (length acc + 1) budget) as [<-|Hne]; run.
  - split; [done|]. replace (length acc + 1 - length acc)%nat with 1%nat by lia.
    split; [done|]. rewrite decide_True by lia. exists p, f.
    split; [by rewrite last_snoc|]. done.
  - eapply wp_mono; [apply IH; [done|rewrite length_app; simpl; lia]|].
    intros [[[r pos'] l'] e'] (-> & -> & H). split; [done|].
    rewrite length_app in *. cbn [length] in *.
    replace (budget - length acc)%nat with (S (budget - (length acc + 1))) by lia.
    split; [by rewrite <-app_assoc|].
    cbn [take]. rewrite (decide_ext _ (budget ≤ length acc + 1 +
      length (select e (wanted k out_port start) l))%nat) by lia.
    exact H.
Qed.

Lemma iterate_all_spec k out_port start l e pos acc :
  entries_ok e l →
  wp (iterate_loop l k out_port start (λ p l, mret (0, l ++ [p])) pos acc e)
    (λ '((r, pos', l'), e'), r = 0 ∧ e' = e ∧ l' = acc ++ select e (wanted k out_port start) l).
Proof.
  revert acc. induction l as [|p l IH]; intros acc He; cbn [iterate_loop].
  { run. by rewrite app_nil_r. }
  apply entries_ok_cons in He as [(f & Hf & Hok) He]. rewrite (select_cons _ _ _ _ _ Hf).
  run_step. run_step. apply iterate_hit; [done|].
  destruct (wanted k out_port start f); [|by apply IH]. run.
  eapply wp_mono; [by apply IH|]. intros [[[r pos'] l'] e'] (-> & -> & ->). by rewrite <-app_assoc.
Qed.

Lemma linear_iter_entries e t : linear_ok e t → entries_ok e (iter_flows t).
Proof. intros Ht p Hp. rewrite (lo_iter _ _ Ht) in Hp. by apply (linear_entries_ok e t). Qed.

(** From the start, every serial number is in range. *)
Lemma wanted_from_start e t k out_port :
  linear_ok e t →
  select e (wanted k out_port (u64 (Z.lnot 0))) (iter_flows t) =
  select e (dumped k out_port) (iter_flows t).
Proof.
  intros Ht. apply filter_ext_in. intros p Hp. rewrite (lo_iter _ _ Ht) in Hp.
  destruct (lo_entry _ _ Ht p Hp) as (f & Hf & _ & Hs).
  rewrite !(holds_at_some _ _ _ _ Hf). unfold wanted. rewrite (proj2 (Z.leb_le _ _)); [done|].
  change (u64 (Z.lnot 0)) with (2 ^ 64 - 1). unfold word64 in Hs. lia.
Qed.

Lemma linear_iterate_law e t k out_port :
  linear_ok e t →
  wp (table_linear_iterate t k out_port zero_position (λ p l, mret (0, l ++ [p])) [] e)
    (λ '((r, _, l), e'), r = 0 ∧ e' = e ∧ l ≡ₚ select e (dumped k out_port) (flows t)).
Proof.
  intros Ht. unfold table_linear_iterate.
  eapply wp_mono; [by apply iterate_all_spec, linear_iter_entries|].
  intros [[[r pos'] l] e'] (-> & -> & ->). split; [done|]. split; [done|].
  change (zero_position !!! 0%nat) with 0. rewrite wanted_from_start by done.
  apply filter_Permutation, Ht.
Qed.


(** ** The laws hold *)

#[export] Instance linear_table_laws : TableLaws sw_table_linear.
Proof.
  refine {| owned := flows; table_ok := linear_ok |}; simpl.
  - intros e t. apply lo_nodup.
  - intros e t p Ht. by apply (linear_entries_ok e t).
  - apply linear_ok_frame.
  - intros e t k Ht _ _. eapply wp_mono; [by apply linear_lookup_law|].
    intros [[p|] e'] [-> H]; (split; [done|]); [|done]. destruct H as (f & Hp & Hf & Hm & _).
    by rewrite (holds_at_some _ _ _ _ Hf).
  - intros e t p f Ht Hp Hpt Hf. eapply wp_mono; [by apply linear_insert_law|].
    intros [[r t'] e']. naive_solver.
  - intros e t k prio strict acts Ht _ _. eapply wp_mono; [apply modify_loop_spec|].
    + apply Ht.
    + by apply linear_allocated.
    + by intros [n e'].
  - intros e t k prio strict Ht _. by apply conflict_loop_spec, linear_allocated.
  - intros e t k out_port prio strict Ht Hr _. by apply linear_delete_law.
  - intros e t deleted Ht. by apply linear_timeout_law.
  - intros e t Ht. apply destroy_loop_spec; [apply Ht|by apply linear_allocated].
Defined.

#[export] Instance linear_table_dump_laws : TableDumpLaws sw_table_linear.
Proof. split. intros e t k out_port Ht _. by apply linear_iterate_law. Defined.

(** ** Theorems *)

(** From any state that satisfies the table's invariant (entries allocated,
    sorted by priority, free of duplicates), inserting an entry either refuses it
    because the table is full, changing nothing, or succeeds: the invariant holds
    again and the entry is found with priority over every entry of lower priority,
    at most one duplicate having been replaced and freed. *)
Theorem table_linear_insert_ok e t p f :
  linear_ok e t → heap e !! p = Some f → p ∉ flows t → entry_ok f →
  wp (table_linear_insert t p e) (λ '((r, t'), e'),
    (r = 0 ∧ t' = t ∧ e' = e ∧ max_flows t <= n_flows t) ∨
    (r = 1 ∧ linear_ok e' t' ∧ ∃ old rest s,
       (length old ≤ 1)%nat ∧ flows t ≡ₚ old ++ rest ∧ flows t' ≡ₚ p :: rest ∧
       select e (λ g, duplicates g f) old = old ∧
       e' = e <| heap := <[p := f <| serial := s |>]> (free_all old (heap e)) |>)).
Proof. apply linear_insert_law. Qed.

(** C18: a lookup returns an entry of the highest priority among those that match
    the packet, and a null pointer only if none does; it changes nothing. *)
Theorem table_linear_lookup_best e t k :
  linear_ok e t →
  wp (table_linear_lookup t k e) (λ '(r, e'), e' = e ∧
    match r with
    | Some p => ∃ f, p ∈ flows t ∧ heap e !! p = Some f ∧ matches k f = true ∧
        ∀ q g, q ∈ flows t → heap e !! q = Some g → matches k g = true → priority g <= priority f
    | None => select e (matches k) (flows t) = []
    end).
Proof. apply linear_lookup_law. Qed.

(** Entries in the order of a dump. *)
Definition younger (e : env) (p q : ptr) : Prop :=
  match heap e !! p, heap e !! q with
  | Some f, Some g => serial g < serial f
  | _, _ => False
  end.

Lemma resume_rest e k out_port l l1 p l2 f start :
  StronglySorted (younger e) l → heap e !! p = Some f → l = l1 ++ p :: l2 →
  (∀ q g, q ∈ l → heap e !! q = Some g → serial g <= start) →
  select e (wanted k out_port (serial f - 1)) l = select e (wanted k out_port start) l2.
Proof.
  intros Hs Hf -> Hstart. unfold select. rewrite filter_app, filter_cons.
  apply StronglySorted_app in Hs as (Hb & _ & Hs). apply StronglySorted_inv in Hs as [_ Hs].
  rewrite Forall_forall in Hs.
  assert (filter (λ q, holds_at e (wanted k out_port (serial f - 1)) q = true) l1 = []) as ->.
  { apply filter_none. intros q Hq. specialize (Hb q p Hq). unfold younger in Hb.
    unfold holds_at, wanted. destruct (heap e !! q) as [g|]; [|done]. rewrite Hf in Hb.
    destruct (Z.leb_spec (serial g) (serial f - 1)); [|done]. specialize (Hb ltac:(left)). lia. }
  rewrite decide_False; cycle 1.
  { unfold holds_at, wanted. rewrite Hf. destruct (Z.leb_spec (serial f) (serial f - 1)); [lia|done]. }
  simpl. apply filter_ext_in. intros q Hq. specialize (Hs q Hq). unfold younger in Hs.
  rewrite Hf in Hs. unfold holds_at. destruct (heap e !! q) as [g|] eqn:Hg; [|done].
  unfold wanted. rewrite !(proj2 (Z.leb_le _ _)); [done| |lia].
  apply (Hstart q g); [set_solver|done].
Qed.


Lemma filter_split {A} (P : A → Prop) `{∀ x, Decision (P x)} (l h1 h2 : list A) x :
  filter P l = h1 ++ x :: h2 → ∃ l1 l2, l = l1 ++ x :: l2 ∧ filter P l2 = h2.
Proof.
  revert h1. induction l as [|y l IH]; intros h1 E; [by destruct h1|].
  rewrite filter_cons in E. case_decide.
  - destruct h1 as [|z h1]; injection E as -> E; [by exists [], l|].
    destruct (IH h1 E) as (l1 & l2 & -> & E2). by exists (z :: l1), l2.
  - destruct (IH h1 E) as (l1 & l2 & -> & E2). by exists (y :: l1), l2.
Qed.

Lemma resume_position s :
  word64 s → u64 (Z.lnot (u64 (Z.lnot (u64 (s - 1))))) = if decide (s = 0) then 2 ^ 64 - 1 else s - 1.
Proof.
  unfold word64, u64, Z.lnot. intros Hs. case_decide as E.
  - subst. done.
  - rewrite (Z.mod_small (s - 1)) by lia.
    assert (Z.pred (- (s - 1)) mod 2 ^ 64 = 2 ^ 64 - s) as ->.
    { symmetry. apply (Z.mod_unique _ _ (-1)); lia. }
    symmetry. apply (Z.mod_unique _ _ (-1)); lia.
Qed.

(** A dump stopped by its callback after some entries, and resumed at the
    position it left, continues with exactly the entries that are left, unless
    the last entry it showed has serial number 0: then it starts again from the
    first entry. *)
Theorem table_linear_dump_resume e t k out_port b :
  let hits := select e (dumped k out_port) (iter_flows t) in
  linear_ok e t → StronglySorted (younger e) (iter_flows t) → (0 < b ≤ length hits)%nat →
  wp (table_linear_iterate t k out_port zero_position (collect b) [] e) (λ '((r, pos, l), e'),
    e' = e ∧ r = 1 ∧ l = take b hits ∧ ∃ p f, last l = Some p ∧ heap e !! p = Some f ∧
    wp (table_linear_iterate t k out_port pos (λ p l, mret (0, l ++ [p])) [] e)
      (λ '((_, _, l'), _), l' = if decide (serial f = 0) then hits else drop b hits)).
Proof.
  intros hits Ht Hy Hb. unfold table_linear_iterate at 1.
  eapply wp_mono; [apply iterate_loop_spec; [by apply linear_iter_entries|simpl; lia]|].
  intros [[[r pos] l] e'] (-> & -> & H). change (zero_position !!! 0%nat) with 0 in *.
  rewrite wanted_from_start in * by done. fold hits in H |- *. cbn [length app Nat.sub] in *.
  rewrite Nat.sub_0_r in *. rewrite decide_True in H by lia.
  destruct H as (p & f & Hlast & Hf & -> & ->). split_and!; [done..|]. exists p, f.
  split_and!; [done..|]. unfold table_linear_iterate.
  eapply wp_mono; [by apply iterate_all_spec, linear_iter_entries|].
  intros [[[r' pos'] l'] e'] (_ & _ & ->). cbn [app].
  assert (∀ x, <[0%nat:=x]> zero_position !!! 0%nat = x) as -> by done.
  assert (p ∈ iter_flows t) as Hp.
  { apply last_Some_elem_of, elem_of_take in Hlast as (i & Hi & _).
    apply list_elem_of_lookup_2, select_elem in Hi. tauto. }
  assert (∀ q g, q ∈ iter_flows t → heap e !! q = Some g → word64 (serial g)) as Hw.
  { intros q g Hq Hg. rewrite (lo_iter _ _ Ht) in Hq.
    destruct (lo_entry _ _ Ht q Hq) as (g' & Hg' & _ & Hs). congruence. }
  rewrite resume_position by by eapply Hw. case_decide as Hs.
  { change (2 ^ 64 - 1) with (u64 (Z.lnot 0)). by apply wanted_from_start. }
  apply last_Some in Hlast as [h1 Hh1].
  assert (hits = h1 ++ p :: drop b hits) as Hsplit.
  { rewrite <-(take_drop b hits) at 1. rewrite Hh1, <-app_assoc. done. }
  apply filter_split in Hsplit as (l1 & l2 & El & E2).
  rewrite (resume_rest e k out_port _ l1 p l2 f (u64 (Z.lnot 0)) Hy Hf El).
  - rewrite <-E2. apply filter_ext_in. intros q Hq.
    assert (q ∈ iter_flows t) as Hq' by (rewrite El; set_solver).
    unfold holds_at. destruct (heap e !! q) as [g|] eqn:Hg; [|done]. unfold wanted.
    rewrite (proj2 (Z.leb_le _ _)); [done|]. specialize (Hw q g Hq' Hg).
    change (u64 (Z.lnot 0)) with (2 ^ 64 - 1). unfold word64 in Hw. lia.
  - intros q g Hq Hg. specialize (Hw q g Hq Hg). change (u64 (Z.lnot 0)) with (2 ^ 64 - 1).
    unfold word64 in Hw. lia.
Qed.


(** ** Concrete runs *)

Definition two_entries : env := env_of {[1%positive := any_entry 5; 2%positive := any_entry 7]}.
Definition one_flow_table : sw_table_linear := mk_sw_table_linear 10 1 [1%positive] [1%positive] 1.

Lemma one_flow_table_ok : linear_ok two_entries one_flow_table.
Proof.
  split; try done.
  - apply NoDup_singleton.
  - intros p Hp. apply list_elem_of_singleton in Hp as ->. exists (any_entry 5).
    split; [done|]. split; [apply any_entry_ok|done].
  - repeat constructor.
Qed.

Lemma table_linear_insert_ok_witness :
  wp (table_linear_insert one_flow_table 2%positive two_entries) (λ '((r, t'), e'),
    (r = 0 ∧ t' = one_flow_table ∧ e' = two_entries ∧ 10 <= 1) ∨
    (r = 1 ∧ linear_ok e' t' ∧ ∃ old rest s,
       (length old ≤ 1)%nat ∧ [1%positive] ≡ₚ old ++ rest ∧ flows t' ≡ₚ 2%positive :: rest ∧
       select two_entries (λ g, duplicates g (any_entry 7)) old = old ∧
       e' = two_entries <| heap := <[2%positive := (any_entry 7) <| serial := s |>]>
                                      (free_all old (heap two_entries)) |>)).
Proof.
  apply (table_linear_insert_ok two_entries one_flow_table 2%positive (any_entry 7)).
  - apply one_flow_table_ok.
  - reflexivity.
  - by intros H%list_elem_of_singleton.
  - apply any_entry_ok.
Defined.

Lemma table_linear_lookup_best_witness :
  wp (table_linear_lookup one_flow_table (exact_key 3) two_entries) (λ '(r, e'),
    e' = two_entries ∧ match r with Some p => p ∈ [1%positive] | None => False end).
Proof.
  eapply wp_mono; [apply table_linear_lookup_best, one_flow_table_ok|].
  intros [[p|] e'] [-> H]; (split; [done|]).
  - destruct H as (f & Hp & _). exact Hp.
  - vm_compute in H. discriminate H.
Defined.

Lemma table_linear_dump_resume_witness :
  let hits := [1%positive] in
  wp (table_linear_iterate one_flow_table any_key (htons OFPP_NONE) zero_position (collect 1) []
        two_entries) (λ '((r, pos, l), e'),
    e' = two_entries ∧ r = 1 ∧ l = take 1 hits ∧ ∃ p f, last l = Some p ∧
    heap two_entries !! p = Some f ∧
    wp (table_linear_iterate one_flow_table any_key (htons OFPP_NONE) pos
          (λ p l, mret (0, l ++ [p])) [] two_entries)
      (λ '((_, _, l'), _), l' = if decide (serial f = 0) then hits else drop 1 hits)).
Proof.
  apply (table_linear_dump_resume two_entries one_flow_table any_key (htons OFPP_NONE) 1).
  - apply one_flow_table_ok.
  - repeat constructor.
  - vm_compute. lia.
Defined.


End TableLinearFacts.
