(* ===== verification/TableSeq.v ===== *)
(** * Tables searched one after the other

    The laws of Table.v for two tables used in turn, as the double-hashing table
    uses its subtables, and for a list of tables, as a chain uses its tables.  The
    two tables own disjoint sets of entries; each operation frames the entries of
    the other table. *)

From S2P Require Import Prelude Ofp Ofpbuf Flow FlowFacts SwitchFlow SwitchFlowFacts Env EnvFacts Table.
Import Ofp Flow FlowFacts SwitchFlow SwitchFlowFacts Env EnvFacts Table.

Module TableSeq.

(** ** Two tables *)

#[export] Instance pair_table A B `{Table A, Table B} : Table (A * B) := {
  t_lookup t k :=
    r ← t_lookup t.1 k;
    match r with Some p => mret (Some p) | None => t_lookup t.2 k end;
  t_insert t p :=
    '(r, a) ← t_insert t.1 p;
    if truth r then mret (1, (a, t.2)) else '(r, b) ← t_insert t.2 p; mret (r, (a, b));
  t_modify t k prio strict acts :=
    n ← t_modify t.1 k prio strict acts; m ← t_modify t.2 k prio strict acts; mret (n + m);
  t_has_conflict t k prio strict :=
    c ← t_has_conflict t.1 k prio strict;
    if c : bool then mret true else t_has_conflict t.2 k prio strict;
  t_delete t k out_port prio strict :=
    '(n, a) ← t_delete t.1 k out_port prio strict;
    '(m, b) ← t_delete t.2 k out_port prio strict;
    mret (n + m, (a, b));
  t_timeout t deleted :=
    '(a, deleted) ← t_timeout t.1 deleted;
    '(b, deleted) ← t_timeout t.2 deleted;
    mret ((a, b), deleted);
  t_destroy t := t_destroy t.1;; t_destroy t.2;
}.

Section pair.
  Context {A B} `{TA : Table A, !TableLaws A, TB : Table B, !TableLaws B}.
  Implicit Types t : (A * B)%type.

Definition pair_owned t : list ptr := owned t.1 ++ owned t.2.

Record pair_ok (e : env) t : Prop := {
  po_fst : table_ok e t.1;
  po_snd : table_ok e t.2;
  po_disj : ∀ p, p ∈ owned t.1 → p ∉ owned t.2;
}.

(** Entries untouched are unchanged. *)
Lemma same_entries_eq l e e' :
  (∀ p, p ∈ l → heap e' !! p = heap e !! p) → same_entries l e e'.
Proof. intros Heq p f Hp Hf. exists f. rewrite Heq by done. by split. Qed.

Lemma select_app e P l1 l2 : select e P (l1 ++ l2) = select e P l1 ++ select e P l2.
Proof. apply filter_app. Qed.

Lemma reject_app e P l1 l2 : reject e P (l1 ++ l2) = reject e P l1 ++ reject e P l2.
Proof. apply filter_app. Qed.

Lemma pair_NoDup e t : pair_ok e t → NoDup (pair_owned t).
Proof. intros [H1 H2 Hd]. apply NoDup_app. eauto using owned_NoDup. Qed.

Lemma pair_entry e t p :
  pair_ok e t → p ∈ pair_owned t → ∃ f, heap e !! p = Some f ∧ entry_ok f.
Proof. intros [H1 H2 _] [Hp|Hp]%elem_of_app; [by eapply (owned_entry e t.1)|by eapply (owned_entry e t.2)]. Qed.

Lemma pair_frame e e' t : pair_ok e t → same_entries (pair_owned t) e e' → pair_ok e' t.
Proof.
  intros [H1 H2 Hd] Hs. split; [| |done]; eapply table_ok_frame; try done;
    intros p f Hp; apply Hs, elem_of_app; auto.
Qed.

Lemma pair_lookup_law e t k :
  pair_ok e t → flow_range (kflow k) → wildcards k = 0 →
  wp (t_lookup t k e) (λ '(r, e'), e' = e ∧
    match r with
    | Some p => p ∈ pair_owned t ∧ holds_at e (matches k) p = true
    | None => select e (matches k) (pair_owned t) = []
    end).
Proof.
  intros [H1 H2 _] Hk Hw. simpl. run_step. eapply wp_mono; [by apply lookup_law|].
  unfold pair_owned. intros [[p|] e'] [-> Hr]; cbn beta iota delta [fst snd].
  - run. split; [done|]. rewrite elem_of_app. tauto.
  - eapply wp_mono; [by apply lookup_law|]. intros [[p|] e'] [-> Hr']; (split; [done|]).
    + rewrite elem_of_app. tauto.
    + by rewrite select_app, Hr, Hr'.
Qed.

Lemma pair_conflict_law e t k prio strict :
  pair_ok e t → key_ok k →
  wp (t_has_conflict t k prio strict e) (λ '(b, e'), e' = e ∧
    (b = true ↔ select e (conflicting k prio strict) (pair_owned t) ≠ [])).
Proof.
  intros [H1 H2 _] Hk. simpl. run_step. eapply wp_mono; [by apply has_conflict_law|].
  unfold pair_owned. intros [c e'] [-> Hc]; cbn beta iota delta [fst snd]. rewrite select_app.
  destruct c.
  - run. split; [done|]. destruct (select e _ (owned t.1)); naive_solver.
  - eapply wp_mono; [by apply has_conflict_law|]. intros [c e'] [-> Hc']. split; [done|].
    rewrite Hc'. destruct (select e _ (owned t.1)) eqn:E; [done|]. naive_solver.
Qed.

Lemma pair_destroy_law e t :
  pair_ok e t →
  wp (t_destroy t e) (λ '(_, e'), e' = e <| heap := free_all (pair_owned t) (heap e) |>).
Proof.
  intros [H1 H2 Hd]. simpl. run_step. eapply wp_mono; [by apply destroy_law|].
  intros [[] e1] ->. cbn beta iota delta [fst snd]. eapply wp_mono; [apply destroy_law|].
  - eapply table_ok_frame; [exact H2|]. apply same_entries_eq. intros p Hp. simpl.
    rewrite lookup_free_all_out; [done|]. intros Hp'. by eapply Hd.
  - intros [[] e2] ->. unfold pair_owned. by rewrite free_all_app.
Qed.

Lemma pair_modify_law e t k prio strict acts :
  pair_ok e t → key_ok k → acts_ok acts →
  wp (t_modify t k prio strict acts e) (λ '(n, e'),
    n = Z.of_nat (length (select e (described k prio strict) (pair_owned t))) ∧
    modified acts (select e (described k prio strict) (pair_owned t)) e e').
Proof.
  intros [H1 H2 Hd] Hk Ha. simpl. run_step. eapply wp_mono; [by apply modify_law|].
  intros [n e1] [-> M1]. cbn beta iota delta [fst snd]. run_step.
  set (P := described k prio strict) in *.
  assert (∀ p, p ∈ owned t.2 → heap e1 !! p = heap e !! p) as Heq.
  { intros p Hp. apply M1. rewrite select_elem. intros [_ Hp']. by eapply Hd. }
  eapply wp_mono; [apply modify_law; [|done|done]|].
  { eapply table_ok_frame; [exact H2|by apply same_entries_eq]. }
  intros [n' e2] [-> M2]. cbn beta iota delta [fst snd]. run.
  fold P in M2 |- *. rewrite (select_ext e e1) in * by done.
  unfold pair_owned. rewrite select_app. split; [rewrite length_app; lia|].
  eapply modified_app; [|done..]. intros p. rewrite !select_elem. intros [_ Hp] [_ Hp'].
  by eapply Hd.
Qed.

(** The heap after an insertion, away from the entries concerned. *)
Lemma inserted_same e p f s old (l : list ptr) :
  p ∉ l → (∀ q, q ∈ old → q ∉ l) →
  same_entries l e (e <| heap := <[p := f <| serial := s |>]> (free_all old (heap e)) |>).
Proof.
  intros Hp Hold. apply same_entries_eq. intros q Hq. simpl.
  rewrite lookup_insert_ne by (intros ->; done). rewrite lookup_free_all_out; [done|].
  intros Ho. by eapply Hold.
Qed.

Lemma pair_insert_law e t p f :
  pair_ok e t → heap e !! p = Some f → p ∉ pair_owned t → entry_ok f →
  wp (t_insert t p e) (λ '((r, t'), e'),
    (r = 0 ∧ t' = t ∧ e' = e) ∨
    (r = 1 ∧ pair_ok e' t' ∧ ∃ old rest s,
       (length old ≤ 1)%nat ∧ pair_owned t ≡ₚ old ++ rest ∧ pair_owned t' ≡ₚ p :: rest ∧
       select e (λ g, duplicates g f) old = old ∧
       e' = e <| heap := <[p := f <| serial := s |>]> (free_all old (heap e)) |>)).
Proof.
  intros [H1 H2 Hd] Hp Hpt Hf. destruct t as [a b]. unfold pair_owned in *. simpl in *.
  apply not_elem_of_app in Hpt as [Hpa Hpb].
  run_step. eapply wp_mono; [by apply insert_law|].
  intros [[r a'] e1] [(-> & -> & ->)|(-> & Hok & old & rest & s & Hl & Hold & Hnew & Hdup & ->)];
    cbn beta iota delta [fst snd truth negb Z.eqb].
  - run_step. eapply wp_mono; [by apply insert_law|].
    intros [[r b'] e1] [(-> & -> & ->)|(-> & Hok & old & rest & s & Hl & Hold & Hnew & Hdup & ->)];
      cbn beta iota delta [fst snd]; run; [by left|right].
    assert (∀ q, q ∈ old → q ∈ owned b) as Hob by (intros q Hq; rewrite Hold; set_solver).
    split; [done|]. split; [split; simpl; [|done|]|].
    + eapply table_ok_frame; [exact H1|]. apply inserted_same; [done|]. intros q Hq Hqa.
      by eapply Hd, Hob.
    + intros q Hq. rewrite Hnew. apply not_elem_of_cons. split; [by intros ->|].
      intros Hr. apply (Hd q Hq). rewrite Hold. set_solver.
    + exists old, (owned a ++ rest), s. split_and!; try done; simpl.
      * rewrite Hold. solve_Permutation.
      * rewrite Hnew. solve_Permutation.
  - run. right.
    assert (∀ q, q ∈ old → q ∈ owned a) as Hoa by (intros q Hq; rewrite Hold; set_solver).
    split; [done|]. split; [split; simpl; [done| |]|].
    + eapply table_ok_frame; [exact H2|]. apply inserted_same; [done|]. intros q Hq. auto.
    + intros q Hq. rewrite Hnew in Hq. apply elem_of_cons in Hq as [->|Hq]; [done|].
      apply Hd. rewrite Hold. set_solver.
    + exists old, (rest ++ owned b), s. split_and!; try done; simpl.
      * rewrite Hold. by rewrite app_assoc.
      * rewrite Hnew. done.
Qed.

Lemma pair_delete_law e t k out_port prio strict :
  pair_ok e t → remotes_ok (remotes e) → desc_ok k prio strict →
  wp (t_delete t k out_port prio strict e) (λ '((n, t'), e'),
    let dead := select e (doomed k out_port prio strict) (pair_owned t) in
    n = Z.of_nat (length dead) ∧ pair_ok e' t' ∧
    pair_owned t' = reject e (doomed k out_port prio strict) (pair_owned t) ∧
    reported dead e e').
Proof.
  intros [H1 H2 Hd] Hr Hk. destruct t as [a b]. unfold pair_owned in *. simpl in *.
  set (P := doomed k out_port prio strict) in *.
  run_step. eapply wp_mono; [by apply delete_law|].
  intros [[n a'] e1] (-> & Hok1 & Ho1 & E1). cbn beta iota delta [fst snd]. fold P in Ho1, E1 |- *.
  assert (∀ p, p ∈ owned b → heap e1 !! p = heap e !! p) as Heq.
  { intros p Hp. rewrite (reported_heap _ _ _ E1). apply lookup_free_all_out. rewrite select_elem.
    intros [_ Hp']. by eapply Hd. }
  run_step. eapply wp_mono; [apply delete_law; [|by eapply reported_remotes|done]|].
  { eapply table_ok_frame; [exact H2|by apply same_entries_eq]. }
  intros [[m b'] e2] (-> & Hok2 & Ho2 & E2). cbn beta iota delta [fst snd]. fold P in Ho2, E2 |- *.
  run. rewrite (select_ext e e1) in * by done. rewrite (reject_ext e e1) in Ho2 by done.
  rewrite select_app, reject_app. split_and!.
  - rewrite length_app. lia.
  - split; simpl; [|done|].
    + eapply table_ok_frame; [exact Hok1|]. apply same_entries_eq. intros p Hp.
      rewrite (reported_heap _ _ _ E2). apply lookup_free_all_out. rewrite select_elem. intros [_ Hp'].
      rewrite Ho1 in Hp. apply reject_elem in Hp as [_ Hp]. by eapply Hd.
    + intros p Hp Hp'. rewrite Ho1 in Hp. rewrite Ho2 in Hp'.
      apply reject_elem in Hp as [_ Hp], Hp' as [_ Hp']. by eapply Hd.
  - by rewrite Ho1, Ho2.
  - by eapply reported_app.
Qed.

Lemma pair_timeout_law e t deleted :
  pair_ok e t →
  wp (t_timeout t deleted e) (λ '((t', deleted'), e'),
    let dead := select e (expired (now_msec e)) (pair_owned t) in
    deleted' = deleted ++ dead ∧ pair_ok e' t' ∧
    pair_owned t' = reject e (expired (now_msec e)) (pair_owned t) ∧
    timed_out (now_msec e) (pair_owned t) (heap e) (heap e') ∧
    e' = e <| heap := heap e' |>).
Proof.
  intros [H1 H2 Hd]. destruct t as [a b]. unfold pair_owned in *. simpl in *.
  run_step. eapply wp_mono; [by apply timeout_law|].
  intros [[a' d1] e1] (-> & Hok1 & Ho1 & T1 & E1). cbn beta iota delta [fst snd].
  assert (∀ p, p ∈ owned b → heap e1 !! p = heap e !! p) as Heq.
  { intros p Hp. rewrite T1. rewrite decide_False; [done|]. intros Hp'. by eapply Hd. }
  assert (now_msec e1 = now_msec e) as Enow by (by rewrite E1).
  run_step. eapply wp_mono; [apply timeout_law|].
  { eapply table_ok_frame; [exact H2|by apply same_entries_eq]. }
  intros [[b' d2] e2] (-> & Hok2 & Ho2 & T2 & E2). cbn beta iota delta [fst snd].
  run. rewrite Enow in *. rewrite (select_ext e e1) in * by done.
  rewrite (reject_ext e e1) in Ho2 by done.
  rewrite select_app, reject_app. split_and!.
  - by rewrite app_assoc.
  - split; simpl; [|done|].
    + eapply table_ok_frame; [exact Hok1|by eapply timed_out_same].
    + intros p Hp Hp'. rewrite Ho1 in Hp. rewrite Ho2 in Hp'.
      apply reject_elem in Hp as [_ Hp], Hp' as [_ Hp']. by eapply Hd.
  - by rewrite Ho1, Ho2.
  - intros p. rewrite T2, T1. destruct (decide (p ∈ owned b)) as [Hb|Hb].
    + rewrite decide_False, decide_True; [done|set_solver|]. intros Ha. by eapply Hd.
    + apply decide_ext. set_solver.
  - rewrite E2, E1. done.
Qed.


End pair.
#[export] Instance pair_laws A B `{TableLaws A, TableLaws B} : TableLaws (A * B).
Proof.
  refine {| owned := pair_owned; table_ok := pair_ok |}.
  - apply pair_NoDup.
  - apply pair_entry.
  - apply pair_frame.
  - apply pair_lookup_law.
  - apply pair_insert_law.
  - apply pair_modify_law.
  - apply pair_conflict_law.
  - apply pair_delete_law.
  - apply pair_timeout_law.
  - apply pair_destroy_law.
Defined.

(** ** Lists of tables *)

Section list_operations.
  Context {T} `{Table T}.

Fixpoint lookup_all (ts : list T) (k : sw_flow_key) : M env (option ptr) :=
  match ts with
  | [] => mret None
  | t :: ts =>
      r ← t_lookup t k;
      match r with Some p => mret (Some p) | None => lookup_all ts k end
  end.

Fixpoint insert_first (ts : list T) (p : ptr) : M env (Z * list T) :=
  match ts with
  | [] => mret (0, [])
  | t :: ts =>
      '(r, t) ← t_insert t p;
      if truth r then mret (1, t :: ts)
      else '(r, ts) ← insert_first ts p; mret (r, t :: ts)
  end.

Fixpoint modify_all (ts : list T) (k : sw_flow_key) (prio : Z) (strict : bool) (acts : list Z)
    : M env Z :=
  match ts with
  | [] => mret 0
  | t :: ts =>
      n ← t_modify t k prio strict acts; m ← modify_all ts k prio strict acts; mret (n + m)
  end.

Fixpoint conflict_any (ts : list T) (k : sw_flow_key) (prio : Z) (strict : bool) : M env bool :=
  match ts with
  | [] => mret false
  | t :: ts =>
      c ← t_has_conflict t k prio strict;
      if c : bool then mret true else conflict_any ts k prio strict
  end.

Fixpoint delete_all (ts : list T) (k : sw_flow_key) (out_port prio : Z) (strict : bool)
    : M env (Z * list T) :=
  match ts with
  | [] => mret (0, [])
  | t :: ts =>
      '(n, t) ← t_delete t k out_port prio strict;
      '(m, ts) ← delete_all ts k out_port prio strict;
      mret (n + m, t :: ts)
  end.

Fixpoint timeout_all (ts : list T) (deleted : list ptr) : M env (list T * list ptr) :=
  match ts with
  | [] => mret ([], deleted)
  | t :: ts =>
      '(t, deleted) ← t_timeout t deleted;
      '(ts, deleted) ← timeout_all ts deleted;
      mret (t :: ts, deleted)
  end.

Fixpoint destroy_all (ts : list T) : M env unit :=
  match ts with
  | [] => mret tt
  | t :: ts => t_destroy t;; destroy_all ts
  end.

#[export] Instance list_table : Table (list T) := {
  t_lookup := lookup_all;
  t_insert := insert_first;
  t_modify := modify_all;
  t_has_conflict := conflict_any;
  t_delete := delete_all;
  t_timeout := timeout_all;
  t_destroy := destroy_all;
}.
End list_operations.


(** Runs a computation and maps its result. *)
Definition rmap {A B} (g : A → B) (c : comp (A * env)) : comp (B * env) :=
  match c with Ok (a, e) => Ok (g a, e) | Abort => Abort | NoFuel => NoFuel end.

Lemma wp_rmap {A B} (g : A → B) c (Q : B * env → Prop) :
  wp c (λ r, Q (g r.1, r.2)) → wp (rmap g c) Q.
Proof. by destruct c as [[a e]| |]. Qed.

(** Follows the same calls on both sides. *)
Ltac same_calls IH :=
  repeat (simpl; unfold mbind, M_bind, rmap; simpl;
    match goal with
    | _ => rewrite IH
    | |- context [match ?c with Ok _ => _ | Abort => _ | NoFuel => _ end] =>
        lazymatch c with context [match _ with _ => _ end] => fail | _ => idtac end;
        destruct c as [[? ?]| |]; try done
    | |- context [match ?c with (_, _) => _ end] => destruct c; try done
    | |- context [match ?c with Some _ => _ | None => _ end] => destruct c; try done
    | |- context [if ?b then _ else _] => destruct b; try done
    end);
  rewrite ?IH; try done.

(** The laws for lists come from those for pairs: a list of [n] tables is a
    nested pair, and the operations agree. *)
Section list_laws.
  Context {T} `{TT : Table T, !TableLaws T}.

Fixpoint tuple (n : nat) : Type :=
  match n with O => unit | S n => (T * tuple n)%type end.

#[local] Instance unit_table : Table unit := {
  t_lookup t k := mret None;
  t_insert t p := mret (0, t);
  t_modify t k prio strict acts := mret 0;
  t_has_conflict t k prio strict := mret false;
  t_delete t k out_port prio strict := mret (0, t);
  t_timeout t deleted := mret (t, deleted);
  t_destroy t := mret tt;
}.

#[local] Instance unit_laws : TableLaws unit.
Proof.
  refine {| owned := λ _, []; table_ok := λ _ _, True |}; simpl.
  - constructor.
  - intros e t p _ Hp. by apply not_elem_of_nil in Hp.
  - done.
  - done.
  - intros e [] p f _ _ _ _. by left.
  - intros e t k prio strict acts _ _ _. split; [done|apply modified_nil].
  - done.
  - intros e t k out_port prio strict _ Hr _. split_and!; try done. by apply reported_nil.
  - intros e t deleted _. split; [by rewrite app_nil_r|]. split; [done|]. split; [done|].
    split; [|by destruct e]. intros p. by rewrite decide_False by apply not_elem_of_nil.
  - intros e t _. by destruct e.
Defined.

Fixpoint tuple_table (n : nat) : Table (tuple n) :=
  match n with O => unit_table | S n => @pair_table T (tuple n) TT (tuple_table n) end.

Fixpoint tuple_laws (n : nat) : @TableLaws (tuple n) (tuple_table n) :=
  match n with
  | O => unit_laws
  | S n => @pair_laws T (tuple n) TT _ (tuple_table n) (tuple_laws n)
  end.
#[local] Existing Instances tuple_table tuple_laws.

Fixpoint to_list (n : nat) : tuple n → list T :=
  match n with O => λ _, [] | S n => λ v, v.1 :: to_list n v.2 end.

Fixpoint of_list (ts : list T) : tuple (length ts) :=
  match ts with [] => tt | t :: ts => (t, of_list ts) end.

Lemma to_of_list ts : to_list (length ts) (of_list ts) = ts.
Proof. induction ts as [|t ts IH]; simpl; [done|by rewrite IH]. Qed.

Lemma lookup_all_tuple n (v : tuple n) k e : lookup_all (to_list n v) k e = t_lookup v k e.
Proof. revert e. induction n as [|n IH]; intros e; [done|]. destruct v as [t v]. same_calls IH. Qed.

Lemma modify_all_tuple n (v : tuple n) k prio strict acts e :
  modify_all (to_list n v) k prio strict acts e = t_modify v k prio strict acts e.
Proof. revert e. induction n as [|n IH]; intros e; [done|]. destruct v as [t v]. same_calls IH. Qed.

Lemma conflict_any_tuple n (v : tuple n) k prio strict e :
  conflict_any (to_list n v) k prio strict e = t_has_conflict v k prio strict e.
Proof. revert e. induction n as [|n IH]; intros e; [done|]. destruct v as [t v]. same_calls IH. Qed.

Lemma destroy_all_tuple n (v : tuple n) e : destroy_all (to_list n v) e = t_destroy v e.
Proof. revert e. induction n as [|n IH]; intros e; [done|]. destruct v as [t v]. same_calls IH. Qed.

Lemma insert_first_tuple n (v : tuple n) p e :
  insert_first (to_list n v) p e = rmap (λ r, (r.1, to_list n r.2)) (t_insert v p e).
Proof. revert e. induction n as [|n IH]; intros e; [by destruct v|]. destruct v as [t v]. same_calls IH. Qed.

Lemma delete_all_tuple n (v : tuple n) k out_port prio strict e :
  delete_all (to_list n v) k out_port prio strict e =
  rmap (λ r, (r.1, to_list n r.2)) (t_delete v k out_port prio strict e).
Proof. revert e. induction n as [|n IH]; intros e; [by destruct v|]. destruct v as [t v]. same_calls IH. Qed.

Lemma timeout_all_tuple n (v : tuple n) deleted e :
  timeout_all (to_list n v) deleted e =
  rmap (λ r, (to_list n r.1, r.2)) (t_timeout v deleted e).
Proof. revert e deleted. induction n as [|n IH]; intros e deleted; [by destruct v|]. destruct v as [t v]. same_calls IH. Qed.
Definition list_owned (ts : list T) : list ptr := concat (owned <$> ts).

Fixpoint list_ok (e : env) (ts : list T) : Prop :=
  match ts with
  | [] => True
  | t :: ts => table_ok e t ∧ list_ok e ts ∧ ∀ p, p ∈ owned t → p ∉ list_owned ts
  end.

Lemma to_list_owned n (v : tuple n) : list_owned (to_list n v) = owned v.
Proof.
  induction n as [|n IH]; [done|]. destruct v as [t v].
  change (owned t ++ list_owned (to_list n v) = owned t ++ owned v). by rewrite IH.
Qed.

Lemma to_list_ok e n (v : tuple n) : list_ok e (to_list n v) ↔ table_ok e v.
Proof.
  induction n as [|n IH]; [done|]. destruct v as [t v]. simpl. rewrite IH, to_list_owned.
  split; [intros (H1 & H2 & H3); by split|by intros []].
Qed.

End list_laws.
#[local] Existing Instances tuple_table tuple_laws.

Ltac as_tuple ts :=
  rewrite <-(to_of_list ts); generalize (of_list ts); generalize (length ts); clear ts; intros n ts.

#[export] Instance list_table_laws T `{TableLaws T} : TableLaws (list T).
Proof.
  refine {| owned := list_owned; table_ok := list_ok |}; simpl.
  - intros e ts. as_tuple ts. rewrite to_list_ok, to_list_owned. apply owned_NoDup.
  - intros e ts p. as_tuple ts. rewrite to_list_ok, to_list_owned. apply owned_entry.
  - intros e e' ts. as_tuple ts. rewrite !to_list_ok, to_list_owned. apply table_ok_frame.
  - intros e ts k. as_tuple ts. rewrite to_list_ok, to_list_owned, lookup_all_tuple.
    apply lookup_law.
  - intros e ts p f. as_tuple ts. rewrite to_list_ok, to_list_owned, insert_first_tuple.
    intros Hok Hp Hpt Hf. apply wp_rmap. eapply wp_mono; [by apply insert_law|].
    intros [[r v] e']. cbn [fst snd]. rewrite to_list_ok, to_list_owned. naive_solver.
  - intros e ts k prio strict acts. as_tuple ts. rewrite to_list_ok, to_list_owned, modify_all_tuple.
    apply modify_law.
  - intros e ts k prio strict. as_tuple ts. rewrite to_list_ok, to_list_owned, conflict_any_tuple.
    apply has_conflict_law.
  - intros e ts k out_port prio strict. as_tuple ts.
    rewrite to_list_ok, to_list_owned, delete_all_tuple. intros Hok Hr Hk.
    apply wp_rmap. eapply wp_mono; [by apply delete_law|].
    intros [[r v] e']. cbn [fst snd]. rewrite to_list_ok, to_list_owned. done.
  - intros e ts deleted. as_tuple ts. rewrite to_list_ok, to_list_owned, timeout_all_tuple.
    intros Hok. apply wp_rmap. eapply wp_mono; [by apply timeout_law|].
    intros [[v d] e']. cbn [fst snd]. rewrite to_list_ok, to_list_owned. done.
  - intros e ts. as_tuple ts. rewrite to_list_ok, to_list_owned, destroy_all_tuple.
    apply destroy_law.
Defined.

End TableSeq.
