(* ===== verification/TableHash.v ===== *)
(** * udatapath/table-hash.c: the hash tables for exact entries

    A hash table is an array of buckets that hold one entry each, indexed by a CRC
    of the flow.  The loops over the array are recursions over the list of
    buckets, which has [bucket_mask] + 1 elements, and return the buckets with
    the changes made.  The double-hashing table tries two such tables in turn. *)

From S2P Require Import Prelude Ofp Ofpbuf Csum Flow SwitchFlow Env Table.
Import Ofp Csum Flow SwitchFlow Env Table.

Module TableHash.

Abbreviation bucket := (option ptr).

Record sw_table_hash := mk_sw_table_hash {
  crc32 : list Z;
  n_flows : Z;
  bucket_mask : Z;
  buckets : list bucket;
}.
#[export] Instance sw_table_hash_eta : Eta sw_table_hash := λ t,
  mk_sw_table_hash (crc32 t) (n_flows t) (bucket_mask t) (buckets t).

(** The index of the bucket; the CRC is over the flow, which is the part of the
    key before the wildcards. *)
Definition find_bucket (th : sw_table_hash) (k : sw_flow_key) : nat :=
  Z.to_nat (crc32_calculate (crc32 th) (flow_bytes (kflow k)) .& bucket_mask th).

Definition read_bucket (th : sw_table_hash) (k : sw_flow_key) : M env bucket :=
  lift (deref (buckets th !! find_bucket th k)).

Definition table_hash_lookup (th : sw_table_hash) (k : sw_flow_key) : M env (option ptr) :=
  b ← read_bucket th k;
  match b with
  | None => mret None
  | Some p => f ← read_flow p; mret (if flow_equal (kflow (key f)) (kflow k) then Some p else None)
  end.

Definition table_hash_insert (th : sw_table_hash) (flow : ptr) : M env (Z * sw_table_hash) :=
  f ← read_flow flow;
  if negb (wildcards (key f) =? 0) then mret (0, th)
  else
    let i := find_bucket th (key f) in
    b ← read_bucket th (key f);
    match b with
    | None =>
        mret (1, th <| n_flows := u32 (n_flows th + 1) |> <| buckets := <[i := Some flow]> (buckets th) |>)
    | Some old =>
        old_flow ← read_flow old;
        if flow_equal (kflow (key old_flow)) (kflow (key f)) then
          flow_free old;;
          mret (1, th <| buckets := <[i := Some flow]> (buckets th) |>)
        else mret (0, th)
    end.

(** The body of the loop of [table_hash_modify]: the number of entries changed. *)
Definition modify_bucket (b : bucket) (k : sw_flow_key) (prio : Z) (strict : bool)
    (actions : list Z) : M env Z :=
  match b with
  | None => mret 0
  | Some p =>
      f ← read_flow p;
      if flow_matches_desc (key f) k strict && (negb strict || (priority f =? prio)) then
        flow_replace_acts p actions;; mret 1
      else mret 0
  end.

Fixpoint modify_loop (l : list bucket) (k : sw_flow_key) (prio : Z) (strict : bool)
    (actions : list Z) (count : Z) : M env Z :=
  match l with
  | [] => mret count
  | b :: l =>
      n ← modify_bucket b k prio strict actions;
      modify_loop l k prio strict actions (count + n)
  end.

Definition table_hash_modify (th : sw_table_hash) (k : sw_flow_key) (prio : Z) (strict : bool)
    (actions : list Z) : M env Z :=
  if wildcards k =? 0 then
    b ← read_bucket th k; modify_bucket b k prio strict actions
  else modify_loop (buckets th) k prio strict actions 0.

Definition conflict_bucket (b : bucket) (k : sw_flow_key) (prio : Z) (strict : bool) : M env bool :=
  match b with
  | None => mret false
  | Some p => f ← read_flow p; mret (flow_matches_2desc (key f) k strict && (priority f =? prio))
  end.

Fixpoint conflict_loop (l : list bucket) (k : sw_flow_key) (prio : Z) (strict : bool) : M env bool :=
  match l with
  | [] => mret false
  | b :: l =>
      c ← conflict_bucket b k prio strict;
      if c : bool then mret true else conflict_loop l k prio strict
  end.

Definition table_hash_has_conflict (th : sw_table_hash) (k : sw_flow_key) (prio : Z) (strict : bool)
    : M env bool :=
  if wildcards k =? 0 then b ← read_bucket th k; conflict_bucket b k prio strict
  else conflict_loop (buckets th) k prio strict.

(** Frees the entry and empties the bucket. *)
Definition do_delete (p : ptr) : M env bucket := flow_free p;; mret None.

(** Deletes the entry of a bucket if it passes [test] and has the output port. *)
Definition delete_bucket (b : bucket) (test : sw_flow → bool) (out_port : Z)
    : M env (bucket * Z) :=
  match b with
  | None => mret (None, 0)
  | Some p =>
      f ← read_flow p;
      hit ← (if test f then lift (flow_has_out_port f out_port) else mret false);
      if hit : bool then
        dp_send_flow_end p OFPRR_DELETE;;
        b ← do_delete p;
        mret (b, 1)
      else mret (Some p, 0)
  end.

Fixpoint delete_loop (l : list bucket) (test : sw_flow → bool) (out_port : Z)
    : M env (list bucket * Z) :=
  match l with
  | [] => mret ([], 0)
  | b :: l =>
      '(b, n) ← delete_bucket b test out_port;
      '(l, m) ← delete_loop l test out_port;
      mret (b :: l, n + m)
  end.

(** The priority is ignored: exact entries have the highest one. *)
Definition table_hash_delete (th : sw_table_hash) (k : sw_flow_key) (out_port prio : Z)
    (strict : bool) : M env (Z * sw_table_hash) :=
  '(l, count) ←
    (if wildcards k =? 0 then
       b ← read_bucket th k;
       '(b, n) ← delete_bucket b (λ f, flow_equal (kflow (key f)) (kflow k)) out_port;
       mret (<[find_bucket th k := b]> (buckets th), n)
     else delete_loop (buckets th) (λ f, flow_matches_desc (key f) k strict) out_port);
  mret (count, th <| buckets := l |> <| n_flows := u32 (n_flows th - count) |>).

Fixpoint timeout_loop (l : list bucket) (n : Z) (deleted : list ptr)
    : M env (list bucket * Z * list ptr) :=
  match l with
  | [] => mret ([], n, deleted)
  | None :: l =>
      '(l, n, deleted) ← timeout_loop l n deleted; mret (None :: l, n, deleted)
  | Some p :: l =>
      f ← read_flow p;
      e ← get;
      let '(expired, f) := flow_timeout (now_msec e) f in
      write_flow p (λ _, f);;
      if expired then
        '(l, n, deleted) ← timeout_loop l (u32 (n - 1)) (deleted ++ [p]);
        mret (None :: l, n, deleted)
      else
        '(l, n, deleted) ← timeout_loop l n deleted;
        mret (Some p :: l, n, deleted)
  end.

Definition table_hash_timeout (th : sw_table_hash) (deleted : list ptr)
    : M env (sw_table_hash * list ptr) :=
  '(l, n, deleted) ← timeout_loop (buckets th) (n_flows th) deleted;
  mret (th <| buckets := l |> <| n_flows := n |>, deleted).

Fixpoint destroy_loop (l : list bucket) : M env unit :=
  match l with
  | [] => mret tt
  | None :: l => destroy_loop l
  | Some p :: l => flow_free p;; destroy_loop l
  end.

Definition table_hash_destroy (th : sw_table_hash) : M env unit := destroy_loop (buckets th).

(** The loop of [table_hash_iterate] from bucket [i] on. *)
Fixpoint iterate_loop {A} (l : list bucket) (i : Z) (k : sw_flow_key) (out_port : Z)
    (pos : sw_table_position) (cb : callback A) (a : A) : M env (Z * sw_table_position * A) :=
  match l with
  | [] => mret (0, pos, a)
  | None :: l => iterate_loop l (i + 1) k out_port pos cb a
  | Some p :: l =>
      f ← read_flow p;
      hit ← (if flow_matches_1wild (key f) k then lift (flow_has_out_port f out_port) else mret false);
      if hit : bool then
        '(error, a) ← cb p a;
        if truth error then mret (error, <[0%nat := i + 1]> pos, a)
        else iterate_loop l (i + 1) k out_port pos cb a
      else iterate_loop l (i + 1) k out_port pos cb a
  end.

Definition table_hash_iterate {A} (th : sw_table_hash) (k : sw_flow_key) (out_port : Z)
    (pos : sw_table_position) (cb : callback A) (a : A) : M env (Z * sw_table_position * A) :=
  let start := pos !!! 0%nat in
  if bucket_mask th <? start then mret (0, pos, a)
  else if wildcards k =? 0 then
    r ← table_hash_lookup th k;
    let pos := <[0%nat := u64 (-1)]> pos in
    match r with
    | None => mret (0, pos, a)
    | Some p =>
        f ← read_flow p;
        hit ← lift (flow_has_out_port f out_port);
        if hit : bool then '(error, a) ← cb p a; mret (error, pos, a) else mret (0, pos, a)
    end
  else iterate_loop (drop (Z.to_nat start) (buckets th)) start k out_port pos cb a.

Definition table_hash_stats (th : sw_table_hash) : sw_table_stats :=
  mk_sw_table_stats [104; 97; 115; 104] 0 (n_flows th) (u32 (bucket_mask th + 1)).

Definition table_hash_create (polynomial n_buckets : Z) : M env (option sw_table_hash) :=
  ok ← malloc_ok;
  if negb ok then mret None
  else
    lift (assert_c (negb (truth (n_buckets .& u32 (n_buckets - 1)))));;
    ok ← malloc_ok;
    if negb ok then mret None
    else mret (Some (mk_sw_table_hash (crc32_init polynomial) 0 (u32 (n_buckets - 1))
                       (replicate (Z.to_nat n_buckets) None))).

#[export] Instance hash_table : Table sw_table_hash := {
  t_lookup := table_hash_lookup;
  t_insert := table_hash_insert;
  t_modify := table_hash_modify;
  t_has_conflict := table_hash_has_conflict;
  t_delete := table_hash_delete;
  t_timeout := table_hash_timeout;
  t_destroy := table_hash_destroy;
}.

#[export] Instance hash_table_dump : TableDump sw_table_hash := {
  t_iterate := @table_hash_iterate;
  t_stats := table_hash_stats;
}.

(** ** The double-hashing table *)

Record sw_table_hash2 := mk_sw_table_hash2 {
  subtable0 : sw_table_hash;
  subtable1 : sw_table_hash;
}.

Definition table_hash2_lookup (t2 : sw_table_hash2) (k : sw_flow_key) : M env (option ptr) :=
  r ← table_hash_lookup (subtable0 t2) k;
  match r with
  | Some p => mret (Some p)
  | None => table_hash_lookup (subtable1 t2) k
  end.

Definition table_hash2_insert (t2 : sw_table_hash2) (flow : ptr) : M env (Z * sw_table_hash2) :=
  '(r, t0) ← table_hash_insert (subtable0 t2) flow;
  if truth r then mret (1, mk_sw_table_hash2 t0 (subtable1 t2))
  else '(r, t1) ← table_hash_insert (subtable1 t2) flow; mret (r, mk_sw_table_hash2 t0 t1).

Definition table_hash2_modify (t2 : sw_table_hash2) (k : sw_flow_key) (prio : Z) (strict : bool)
    (actions : list Z) : M env Z :=
  n ← table_hash_modify (subtable0 t2) k prio strict actions;
  m ← table_hash_modify (subtable1 t2) k prio strict actions;
  mret (n + m).

Definition table_hash2_has_conflict (t2 : sw_table_hash2) (k : sw_flow_key) (prio : Z)
    (strict : bool) : M env bool :=
  c ← table_hash_has_conflict (subtable0 t2) k prio strict;
  if c : bool then mret true else table_hash_has_conflict (subtable1 t2) k prio strict.

Definition table_hash2_delete (t2 : sw_table_hash2) (k : sw_flow_key) (out_port prio : Z)
    (strict : bool) : M env (Z * sw_table_hash2) :=
  '(n, t0) ← table_hash_delete (subtable0 t2) k out_port prio strict;
  '(m, t1) ← table_hash_delete (subtable1 t2) k out_port prio strict;
  mret (n + m, mk_sw_table_hash2 t0 t1).

Definition table_hash2_timeout (t2 : sw_table_hash2) (deleted : list ptr)
    : M env (sw_table_hash2 * list ptr) :=
  '(t0, deleted) ← table_hash_timeout (subtable0 t2) deleted;
  '(t1, deleted) ← table_hash_timeout (subtable1 t2) deleted;
  mret (mk_sw_table_hash2 t0 t1, deleted).

Definition table_hash2_destroy (t2 : sw_table_hash2) : M env unit :=
  table_hash_destroy (subtable0 t2);; table_hash_destroy (subtable1 t2).

(** The loop of [table_hash2_iterate] over the remaining subtables, which ends a
    subtable by advancing the second word of the position. *)
Fixpoint iterate2_loop {A} (l : list sw_table_hash) (k : sw_flow_key) (out_port : Z)
    (pos : sw_table_position) (cb : callback A) (a : A) : M env (Z * sw_table_position * A) :=
  match l with
  | [] => mret (0, pos, a)
  | t :: l =>
      '(error, pos, a) ← table_hash_iterate t k out_port pos cb a;
      if truth error then mret (error, pos, a)
      else
        iterate2_loop l k out_port (<[1%nat := u64 (pos !!! 1%nat + 1)]> (<[0%nat := 0]> pos)) cb a
  end.

Definition table_hash2_iterate {A} (t2 : sw_table_hash2) (k : sw_flow_key) (out_port : Z)
    (pos : sw_table_position) (cb : callback A) (a : A) : M env (Z * sw_table_position * A) :=
  iterate2_loop (drop (Z.to_nat (pos !!! 1%nat)) [subtable0 t2; subtable1 t2]) k out_port pos cb a.

Definition table_hash2_stats (t2 : sw_table_hash2) : sw_table_stats :=
  let s0 := table_hash_stats (subtable0 t2) in
  let s1 := table_hash_stats (subtable1 t2) in
  mk_sw_table_stats [104; 97; 115; 104; 50] 0 (u32 (st_n_flows s0 + st_n_flows s1))
    (u32 (st_max_flows s0 + st_max_flows s1)).

Definition table_hash2_create (poly0 buckets0 poly1 buckets1 : Z) : M env (option sw_table_hash2) :=
  ok ← malloc_ok;
  if negb ok then mret None
  else
    t0 ← table_hash_create poly0 buckets0;
    match t0 with
    | None => mret None
    | Some t0 =>
        t1 ← table_hash_create poly1 buckets1;
        match t1 with
        | None => table_hash_destroy t0;; mret None
        | Some t1 => mret (Some (mk_sw_table_hash2 t0 t1))
        end
    end.

#[export] Instance hash2_table : Table sw_table_hash2 := {
  t_lookup := table_hash2_lookup;
  t_insert := table_hash2_insert;
  t_modify := table_hash2_modify;
  t_has_conflict := table_hash2_has_conflict;
  t_delete := table_hash2_delete;
  t_timeout := table_hash2_timeout;
  t_destroy := table_hash2_destroy;
}.

#[export] Instance hash2_table_dump : TableDump sw_table_hash2 := {
  t_iterate := @table_hash2_iterate;
  t_stats := table_hash2_stats;
}.


End TableHash.
