(* ===== verification/TableHashFacts.v ===== *)
(** * The hash tables keep each entry in the bucket of its flow

    The invariant of a hash table says that every entry is exact and sits in the
    bucket its flow hashes to.  It makes the shortcuts for exact keys, which look
    at one bucket only, agree with a search of the whole table, and so gives the
    laws of Table.v. *)

From S2P Require Import Prelude Ofp Ofpbuf Csum Flow FlowFacts SwitchFlow SwitchFlowFacts.
From S2P Require Import Env EnvFacts Table TableSeq TableHash.
Import Ofp Csum Flow FlowFacts SwitchFlow SwitchFlowFacts Env EnvFacts Table TableSeq TableHash.

Module TableHashFacts.

(** ** Matching against exact keys *)

Lemma exact_matches k f :
  flow_range (kflow k) → wildcards k = 0 → entry_ok f → wildcards (key f) = 0 →
  matches k f = true ↔ kflow (key f) = kflow k.
Proof.
  intros Hk Hw Hf Hwf. unfold matches, flow_matches_1wild. rewrite flow_fields_match_spec.
  change (denotes (key f) (kflow k) ↔ kflow (key f) = kflow k).
  rewrite exact_denotes; [done|apply Hf|done|done].
Qed.

Lemma exact_1wild a k :
  key_ok a → key_ok k → wildcards k = 0 → flow_matches_1wild a k = true ↔ kflow a = kflow k.
Proof.
  intros Ha Hk Hw. unfold flow_matches_1wild. rewrite flow_fields_match_spec.
  change (denotes k (kflow a) ↔ kflow a = kflow k). apply exact_denotes; [done|apply Ha|done].
Qed.

Lemma make_nw_mask_range n : 0 <= make_nw_mask n < 2 ^ 32.
Proof.
  unfold make_nw_mask. cbv zeta. case_match; [|done]. apply htonl_range.
Qed.

(** Against an exact key only the other key's wildcards count. *)
Lemma exact_2wild a k :
  key_ok a → key_ok k → wildcards a = 0 → flow_matches_2wild a k = flow_matches_1wild a k.
Proof.
  intros [_ _ Hs Hd] [_ _ Hs' Hd'] Hw. unfold flow_matches_2wild, flow_matches_1wild.
  rewrite Hs, Hd, Hs', Hd', Hw, Z.lor_0_l, !Z.shiftr_0_l. change (make_nw_mask 0) with (Z.ones 32).
  rewrite !(Z.land_comm (Z.ones 32)), !Z.land_ones by lia.
  by rewrite !Z.mod_small by apply make_nw_mask_range.
Qed.

(** ** The invariant *)

Definition hash_owned (t : sw_table_hash) : list ptr := omap id (buckets t).

Record hash_ok (e : env) (t : sw_table_hash) : Prop := {
  ho_length : length (buckets t) = Z.to_nat (bucket_mask t + 1);
  ho_mask : ∃ n, 0 <= n < 32 ∧ bucket_mask t = Z.ones n;
  ho_entry : ∀ i p, buckets t !! i = Some (Some p) → ∃ f, heap e !! p = Some f ∧ entry_ok f ∧
    wildcards (key f) = 0 ∧ find_bucket t (key f) = i;
  ho_nodup : NoDup (hash_owned t);
  ho_count : n_flows t = Z.of_nat (length (hash_owned t));
}.

Lemma find_bucket_range e t k : hash_ok e t → (find_bucket t k < length (buckets t))%nat.
Proof.
  intros Ht. destruct (ho_mask _ _ Ht) as (n & Hn & Em). rewrite (ho_length _ _ Ht).
  unfold find_bucket. rewrite Em, Z.land_ones by lia. rewrite Z.ones_equiv.
  pose proof (Z.mod_pos_bound (crc32_calculate (crc32 t) (flow_bytes (kflow k))) (2 ^ n)). lia.
Qed.

Lemma owned_bucket t p : p ∈ hash_owned t ↔ ∃ i, buckets t !! i = Some (Some p).
Proof.
  unfold hash_owned. rewrite list_elem_of_omap. setoid_rewrite list_elem_of_lookup.
  split; [intros (b & [i Hi] & E)|intros [i Hi]]; [simpl in E; subst; eauto|].
  exists (Some p). eauto.
Qed.

Lemma hash_entry e t p :
  hash_ok e t → p ∈ hash_owned t → ∃ f, heap e !! p = Some f ∧ entry_ok f ∧ wildcards (key f) = 0.
Proof.
  intros Ht [i Hi]%owned_bucket. destruct (ho_entry _ _ Ht i p Hi) as (f & ? & ? & ? & _). eauto.
Qed.

(** In a list of buckets without repetition, a test that only the entry of
    bucket [i] can pass selects that entry alone. *)
Lemma omap_select_one e P (l : list bucket) i :
  (∀ j p, l !! j = Some (Some p) → holds_at e P p = true → j = i) →
  select e P (omap id l) =
    match l !! i with
    | Some (Some p) => if holds_at e P p then [p] else []
    | _ => []
    end.
Proof.
  revert i. induction l as [|b l IH]; intros i H; [done|].
  assert (i ≠ O → ∀ p, b = Some p → holds_at e P p = false) as Hb.
  { intros Hi p ->. apply not_true_is_false. intros Hp. apply Hi. symmetry. by apply (H O p). }
  destruct i as [|i].
  - assert (select e P (omap id l) = []) as Hl.
    { apply filter_none. intros p Hp Hh. apply list_elem_of_omap in Hp as (c & Hc & E).
      apply list_elem_of_lookup in Hc as [j Hj]. simpl in E. subst.
      specialize (H (S j) p Hj Hh). done. }
    destruct b as [p|]; [|exact Hl]. change (omap id (Some p :: l)) with (p :: omap id l).
    unfold select in *. rewrite filter_cons, Hl. simpl. by destruct (holds_at e P p).
  - transitivity (select e P (omap id l)); [|apply IH].
    + destruct b as [p|]; [|done]. change (omap id (Some p :: l)) with (p :: omap id l).
      unfold select. by rewrite filter_cons, Hb by done.
    + intros j p Hj Hp. apply Nat.succ_inj. by apply (H (S j) p).
Qed.

(** A test for one flow only needs the flow's bucket. *)
Lemma select_exact e t k P :
  hash_ok e t →
  (∀ f, entry_ok f → wildcards (key f) = 0 → P f = true → kflow (key f) = kflow k) →
  select e P (hash_owned t) =
    match buckets t !! find_bucket t k with
    | Some (Some p) => if holds_at e P p then [p] else []
    | _ => []
    end.
Proof.
  intros Ht HP. apply omap_select_one. intros j p Hj Hp.
  destruct (ho_entry _ _ Ht j p Hj) as (f & Hf & Hok & Hw & <-).
  rewrite (holds_at_some _ _ _ _ Hf) in Hp. unfold find_bucket.
  by rewrite (HP f Hok Hw Hp).
Qed.

Lemma hash_frame e e' t : hash_ok e t → same_entries (hash_owned t) e e' → hash_ok e' t.
Proof.
  intros Ht Hs. destruct Ht. split; try done. intros i p Hi.
  destruct (ho_entry0 i p Hi) as (f & Hf & [Hk He Ha] & Hw & Hb).
  destruct (Hs p f) as (f' & Hf' & [S1 S2 S3 S4]); [apply owned_bucket; eauto|done|].
  exists f'. split; [done|]. split; [split|]; rewrite ?S1, ?S2; auto.
Qed.

(** ** Lookup and insert *)

Lemma wp_read_bucket e t k Q :
  hash_ok e t → (∀ b, buckets t !! find_bucket t k = Some b → Q (b, e)) →
  wp (read_bucket t k e) Q.
Proof.
  intros Ht HQ. unfold read_bucket. apply wp_lift.
  destruct (lookup_lt_is_Some_2 _ _ (find_bucket_range e t k Ht)) as [b Hb]. rewrite Hb. by apply HQ.
Qed.

Lemma flow_equal_exact e t p f k :
  hash_ok e t → p ∈ hash_owned t → heap e !! p = Some f → flow_range (kflow k) →
  flow_equal (kflow (key f)) (kflow k) = true ↔ kflow (key f) = kflow k.
Proof.
  intros Ht Hp Hf Hk. destruct (hash_entry e t p Ht Hp) as (g & Hg & Hok & _).
  assert (g = f) as -> by congruence. apply flow_equal_spec; [apply Hok|done].
Qed.

Lemma hash_lookup_law e t k :
  hash_ok e t → flow_range (kflow k) → wildcards k = 0 →
  wp (table_hash_lookup t k e) (λ '(r, e'), e' = e ∧
    match r with
    | Some p => p ∈ hash_owned t ∧ holds_at e (matches k) p = true
    | None => select e (matches k) (hash_owned t) = []
    end).
Proof.
  intros Ht Hk Hw. unfold table_hash_lookup. run. eapply wp_read_bucket; [done|].
  intros b Hb. cbn beta iota delta [fst snd].
  rewrite (select_exact e t k); [|done|intros; by apply exact_matches]. rewrite Hb.
  destruct b as [p|]; run; [|done].
  assert (p ∈ hash_owned t) as Hp by (apply owned_bucket; eauto).
  destruct (hash_entry e t p Ht Hp) as (f & Hf & Hok & Hwf). run. split; [done|].
  rewrite (holds_at_some _ _ _ _ Hf).
  assert (flow_equal (kflow (key f)) (kflow k) = matches k f) as ->.
  { apply Bool.eq_iff_eq_true. rewrite (flow_equal_exact e t p) by done. by rewrite exact_matches. }
  destruct (matches k f) eqn:E; [|done]. split; [done|]. by rewrite (holds_at_some _ _ _ _ Hf).
Qed.

Lemma omap_insert_perm (l : list bucket) i b c :
  l !! i = Some b →
  ∃ rest, omap id l ≡ₚ option_list b ++ rest ∧ omap id (<[i := c]> l) ≡ₚ option_list c ++ rest.
Proof.
  intros Hb. exists (omap id (take i l ++ drop (S i) l)).
  assert (∀ d, omap id (take i l ++ d :: drop (S i) l) ≡ₚ
               option_list d ++ omap id (take i l ++ drop (S i) l)) as H.
  { intros d. rewrite !omap_app. destruct d; simpl; [by rewrite <-Permutation_middle|done]. }
  split; [rewrite <-H, take_drop_middle; done|].
  rewrite <-H, insert_take_drop; [done|]. by apply lookup_lt_is_Some; eauto.
Qed.

(** Storing an entry in its bucket, in place of the one freed. *)
Lemma hash_ok_store e t p f s b n :
  hash_ok e t → entry_ok f → wildcards (key f) = 0 → p ∉ hash_owned t →
  buckets t !! find_bucket t (key f) = Some b →
  n = Z.of_nat (length (hash_owned t)) + 1 - Z.of_nat (length (option_list b)) →
  let e' := e <| heap := <[p := f <| serial := s |>]> (free_all (option_list b) (heap e)) |> in
  let t' := t <| n_flows := n |> <| buckets := <[find_bucket t (key f) := Some p]> (buckets t) |> in
  hash_ok e' t' ∧ ∃ rest, hash_owned t ≡ₚ option_list b ++ rest ∧ hash_owned t' ≡ₚ p :: rest.
Proof.
  intros Ht Hf Hw Hp Hb Hn e' t'. pose proof (ho_nodup _ _ Ht) as Hnd.
  destruct (omap_insert_perm _ _ b (Some p) Hb) as (rest & Hold & Hnew).
  fold (hash_owned t) in Hold. change (hash_owned t' ≡ₚ p :: rest) in Hnew.
  rewrite Hold in Hnd. apply NoDup_app in Hnd as (_ & Hbr & Hnd).
  assert (p ∉ rest) as Hpr by (rewrite Hold, elem_of_app in Hp; intros H; by destruct Hp; right).
  split; [|by exists rest]. split; try apply Ht.
  - simpl. rewrite length_insert. apply Ht.
  - intros i q Hi. simpl in Hi.
    assert (q ∈ hash_owned t') as Hq by (apply owned_bucket; eauto).
    destruct (decide (i = find_bucket t (key f))) as [->|Hne].
    + rewrite list_lookup_insert_eq in Hi by eauto using lookup_lt_Some. injection Hi as <-.
      exists (f <| serial := s |>). split; [apply lookup_insert_eq|]. split_and!; try done. by destruct Hf.
    + rewrite list_lookup_insert_ne in Hi by done.
      assert (q ∈ hash_owned t) as Hq' by (apply owned_bucket; eauto).
      destruct (ho_entry _ _ Ht i q Hi) as (g & Hg & Hok & Hwg & Hi').
      exists g. split; [|done]. simpl. rewrite lookup_insert_ne by (intros ->; done).
      rewrite lookup_free_all_out; [done|]. intros Hqb.
      rewrite Hnew in Hq. apply elem_of_cons in Hq as [->|Hq]; [done|]. by eapply Hbr.
  - rewrite Hnew. by apply NoDup_cons.
  - simpl. rewrite Hnew, Hn, Hold, length_app. cbn [length]. lia.
Qed.


Lemma hash_count_range e t : hash_ok e t → 0 <= n_flows t <= 2 ^ 31.
Proof.
  intros Ht. rewrite (ho_count _ _ Ht). destruct (ho_mask _ _ Ht) as (n & Hn & Em).
  assert (length (hash_owned t) ≤ length (buckets t))%nat.
  { unfold hash_owned. generalize (buckets t). induction l as [|[p|] l IH]; [done|..].
    - change (omap id (Some p :: l)) with (p :: omap id l). cbn [length]. lia.
    - change (omap id (None :: l)) with (omap id l). cbn [length]. lia. }
  pose proof (ho_length _ _ Ht) as Hl. rewrite Em, Z.ones_equiv in Hl.
  pose proof (Z.pow_le_mono_r 2 n 31). lia.
Qed.

Lemma duplicates_exact f g :
  entry_ok f → entry_ok g → wildcards (key f) = 0 → wildcards (key g) = 0 →
  kflow (key f) = kflow (key g) → duplicates f g = true.
Proof.
  intros Hf Hg Wf Wg Hk. unfold duplicates.
  rewrite (eo_exact _ Hf Wf), (eo_exact _ Hg Wg), Wf, Wg. simpl.
  rewrite exact_2wild by (done || apply Hf || apply Hg). by apply exact_1wild; try apply Hf; try apply Hg.
Qed.

Lemma hash_insert_law e t p f :
  hash_ok e t → heap e !! p = Some f → p ∉ hash_owned t → entry_ok f →
  wp (table_hash_insert t p e) (λ '((r, t'), e'),
    (r = 0 ∧ t' = t ∧ e' = e) ∨
    (r = 1 ∧ hash_ok e' t' ∧ ∃ old rest s,
       (length old ≤ 1)%nat ∧ hash_owned t ≡ₚ old ++ rest ∧ hash_owned t' ≡ₚ p :: rest ∧
       select e (λ g, duplicates g f) old = old ∧
       e' = e <| heap := <[p := f <| serial := s |>]> (free_all old (heap e)) |>)).
Proof.
  intros Ht Hp Hpt Hf. unfold table_hash_insert. run.
  destruct (Z.eqb_spec (wildcards (key f)) 0) as [Hw|Hw]; cbn [negb]; run; [|by left].
  eapply wp_read_bucket; [done|]. intros b Hb. cbn beta iota delta [fst snd].
  assert (f <| serial := serial f |> = f) as Es by by destruct f.
  pose proof (hash_count_range e t Ht) as Hn. pose proof (ho_count _ _ Ht) as Hc.
  destruct b as [q|].
  - assert (q ∈ hash_owned t) as Hq by (apply owned_bucket; eauto).
    destruct (hash_entry e t q Ht Hq) as (g & Hg & Hok & Hwg). run.
    destruct (flow_equal (kflow (key g)) (kflow (key f))) eqn:E; run; [|by left].
    apply (flow_equal_exact e t q) in E; [|done|done|done|apply Hf].
    destruct (hash_ok_store e t p f (serial f) (Some q) (n_flows t)) as (Hok' & rest & Hold & Hnew);
      [done..|simpl; lia|]. right. split; [done|].
    assert (delete q (heap e) = <[p := f <| serial := serial f |>]> (free_all [q] (heap e))) as Eh.
    { rewrite Es. symmetry. apply insert_id. simpl. rewrite lookup_delete_ne; [done|]. by intros ->. }
    rewrite Eh.
    split; [exact Hok'|]. exists [q], rest, (serial f). split_and!; try done.
    rewrite (select_cons _ _ _ _ _ Hg). rewrite duplicates_exact by done. done.
  - assert (u32 (n_flows t + 1) = n_flows t + 1) as Eu by (unfold u32; rewrite Z.mod_small; lia).
    destruct (hash_ok_store e t p f (serial f) None (u32 (n_flows t + 1)))
      as (Hok' & rest & Hold & Hnew); [done..|rewrite Eu; simpl; lia|]. right. split; [done|].
    assert (e = e <| heap := <[p := f <| serial := serial f |>]> (free_all [] (heap e)) |>) as Ee.
    { rewrite Es, insert_id by done. by destruct e. }
    simpl in Hok'. cbn in Ee. rewrite <-Ee in Hok'. split; [exact Hok'|].
    exists [], rest, (serial f). split_and!; try done. simpl; lia.
Qed.


(** ** Modify and conflicts *)

Lemma hash_entries_ok e t : hash_ok e t → entries_ok e (hash_owned t).
Proof. intros Ht p Hp. destruct (hash_entry e t p Ht Hp) as (f & ? & ? & _). eauto. Qed.

Lemma bucket_entries e t i b :
  hash_ok e t → buckets t !! i = Some b → entries_ok e (option_list b).
Proof.
  intros Ht Hb p Hp. destruct b as [q|]; [|by apply not_elem_of_nil in Hp].
  apply list_elem_of_singleton in Hp as ->. apply (hash_entries_ok e t Ht), owned_bucket. eauto.
Qed.

Lemma modify_bucket_spec k prio strict acts b e :
  entries_ok e (option_list b) →
  wp (modify_bucket b k prio strict acts e) (λ '(n, e'),
    n = Z.of_nat (length (select e (described k prio strict) (option_list b))) ∧
    modified acts (select e (described k prio strict) (option_list b)) e e').
Proof.
  intros He. destruct b as [p|]; cbn [modify_bucket].
  - change (option_list (Some p)) with [p] in *.
    destruct (He p) as (f & Hf & _); [by apply list_elem_of_singleton|]. run.
    rewrite (select_cons _ _ _ _ _ Hf). fold (described k prio strict f).
    destruct (described k prio strict f); run; [|split; [done|apply modified_nil]].
    eapply flow_replace_acts_modified; [exact Hf|]. intros e1 Hm. by run.
  - run. split; [done|apply modified_nil].
Qed.

Lemma omap_cons (b : bucket) l : omap id (b :: l) = option_list b ++ omap id l.
Proof. by destruct b. Qed.

Lemma entries_ok_app e l1 l2 : entries_ok e (l1 ++ l2) ↔ entries_ok e l1 ∧ entries_ok e l2.
Proof. unfold entries_ok. set_solver. Qed.

Lemma hash_modify_loop_spec k prio strict acts l e n :
  NoDup (omap id l) → entries_ok e (omap id l) →
  wp (modify_loop l k prio strict acts n e) (λ '(n', e'),
    n' = n + Z.of_nat (length (select e (described k prio strict) (omap id l))) ∧
    modified acts (select e (described k prio strict) (omap id l)) e e').
Proof.
  revert e n. induction l as [|b l IH]; intros e n Hnd He; cbn [modify_loop].
  { run. split; [cbn; lia|apply modified_nil]. }
  rewrite omap_cons in *. rewrite entries_ok_app in He. destruct He as [Hb He].
  apply NoDup_app in Hnd as (_ & Hd & Hnd). rewrite select_app.
  run. eapply wp_mono; [by apply modify_bucket_spec|]. intros [m e1] [-> M1].
  cbn beta iota delta [fst snd].
  assert (∀ q, q ∈ omap id l → heap e1 !! q = heap e !! q) as Heq.
  { intros q Hq. apply M1. rewrite select_elem. intros [_ Hq']. by eapply Hd. }
  eapply wp_mono; [apply IH; [done|by eapply entries_ok_ext]|].
  intros [n' e'] [-> M2]. rewrite (select_ext e e1) in * by done.
  split; [rewrite length_app; lia|]. eapply modified_app; [|done..].
  intros p. rewrite !select_elem. intros [_ Hp] [_ Hp']. by eapply Hd.
Qed.

(** A description without wildcards selects in the bucket of its flow. *)
Lemma described_exact k prio strict f :
  key_ok k → wildcards k = 0 → entry_ok f → described k prio strict f = true →
  kflow (key f) = kflow k.
Proof.
  intros Hk Hw Hf. unfold described, flow_matches_desc. case_match; [done|].
  rewrite andb_true_iff. intros [Hm _]. by apply exact_1wild in Hm; try apply Hf.
Qed.

Lemma conflicting_exact k prio strict f :
  key_ok k → wildcards k = 0 → entry_ok f → wildcards (key f) = 0 →
  conflicting k prio strict f = true → kflow (key f) = kflow k.
Proof.
  intros Hk Hw Hf Hwf. unfold conflicting, flow_matches_2desc. case_match; [done|].
  rewrite exact_2wild by (done || apply Hf). rewrite andb_true_iff. intros [Hm _].
  by apply exact_1wild in Hm; try apply Hf.
Qed.

Lemma select_option_list e P (b : bucket) :
  select e P (option_list b) = match b with Some p => if holds_at e P p then [p] else [] | None => [] end.
Proof. destruct b as [p|]; [|done]. unfold select. simpl. rewrite filter_cons. by destruct (holds_at e P p). Qed.

Lemma select_bucket e t k P b :
  hash_ok e t → buckets t !! find_bucket t k = Some b →
  (∀ f, entry_ok f → wildcards (key f) = 0 → P f = true → kflow (key f) = kflow k) →
  select e P (hash_owned t) = select e P (option_list b).
Proof. intros Ht Hb HP. rewrite (select_exact e t k) by done. rewrite Hb, select_option_list. by destruct b. Qed.

Lemma hash_modify_law e t k prio strict acts :
  hash_ok e t → key_ok k →
  wp (table_hash_modify t k prio strict acts e) (λ '(n, e'),
    n = Z.of_nat (length (select e (described k prio strict) (hash_owned t))) ∧
    modified acts (select e (described k prio strict) (hash_owned t)) e e').
Proof.
  intros Ht Hk. unfold table_hash_modify. destruct (Z.eqb_spec (wildcards k) 0) as [Hw|Hw].
  - run. eapply wp_read_bucket; [done|]. intros b Hb. cbn beta iota delta [fst snd].
    rewrite (select_bucket e t k _ b) by eauto using described_exact.
    by eapply modify_bucket_spec, bucket_entries.
  - apply (hash_modify_loop_spec k prio strict acts _ e 0); [apply Ht|by apply hash_entries_ok].
Qed.

Lemma conflict_bucket_spec k prio strict b e :
  entries_ok e (option_list b) →
  wp (conflict_bucket b k prio strict e) (λ '(c, e'), e' = e ∧
    (c = true ↔ select e (conflicting k prio strict) (option_list b) ≠ [])).
Proof.
  intros He. destruct b as [p|]; cbn [conflict_bucket]; [|by run].
  change (option_list (Some p)) with [p] in *.
  destruct (He p) as (f & Hf & _); [by apply list_elem_of_singleton|]. run.
  rewrite (select_cons _ _ _ _ _ Hf). fold (conflicting k prio strict f).
  by destruct (conflicting k prio strict f).
Qed.

Lemma hash_conflict_loop_spec k prio strict l e :
  entries_ok e (omap id l) →
  wp (conflict_loop l k prio strict e) (λ '(c, e'), e' = e ∧
    (c = true ↔ select e (conflicting k prio strict) (omap id l) ≠ [])).
Proof.
  induction l as [|b l IH]; intros He; cbn [conflict_loop]; [by run|].
  rewrite omap_cons in *. rewrite entries_ok_app in He. destruct He as [Hb He]. rewrite select_app.
  run. eapply wp_mono; [by apply conflict_bucket_spec|]. intros [c e1] [-> Hc].
  cbn beta iota delta [fst snd]. destruct c; run.
  - split; [done|]. destruct (select e _ (option_list b)); naive_solver.
  - eapply wp_mono; [by apply IH|]. intros [c e1] [-> Hc']. split; [done|]. rewrite Hc'.
    destruct (select e _ (option_list b)); naive_solver.
Qed.

Lemma hash_conflict_law e t k prio strict :
  hash_ok e t → key_ok k →
  wp (table_hash_has_conflict t k prio strict e) (λ '(c, e'), e' = e ∧
    (c = true ↔ select e (conflicting k prio strict) (hash_owned t) ≠ [])).
Proof.
  intros Ht Hk. unfold table_hash_has_conflict. destruct (Z.eqb_spec (wildcards k) 0) as [Hw|Hw].
  - run. eapply wp_read_bucket; [done|]. intros b Hb. cbn beta iota delta [fst snd].
    rewrite (select_bucket e t k _ b) by eauto using conflicting_exact.
    by eapply conflict_bucket_spec, bucket_entries.
  - by apply hash_conflict_loop_spec, hash_entries_ok.
Qed.


(** ** Emptying buckets *)

Definition clear1 (e : env) (P : sw_flow → bool) (b : bucket) : bucket :=
  match b with
  | Some p => if holds_at e P p then None else Some p
  | None => None
  end.

Definition clear (e : env) (P : sw_flow → bool) (l : list bucket) : list bucket :=
  clear1 e P <$> l.

Lemma clear_ext e e' P P' (l : list bucket) :
  (∀ p, p ∈ omap id l → holds_at e' P' p = holds_at e P p) → clear e' P' l = clear e P l.
Proof.
  intros H. apply list_fmap_ext. intros i b Hb. destruct b as [p|]; [|done]. simpl.
  rewrite H; [done|]. apply list_elem_of_omap. exists (Some p).
  split; [by eapply list_elem_of_lookup_2|done].
Qed.

Lemma clear_omap e P l : omap id (clear e P l) = reject e P (omap id l).
Proof.
  induction l as [|b l IH]; [done|]. change (clear e P (b :: l)) with (clear1 e P b :: clear e P l).
  rewrite !omap_cons, reject_app, IH. f_equal. destruct b as [p|]; [|done]. simpl.
  unfold reject. simpl. rewrite filter_cons. by destruct (holds_at e P p).
Qed.

(** A table with the buckets emptied whose entries pass a test. *)
Lemma hash_ok_clear e t P :
  hash_ok e t →
  hash_ok e (t <| buckets := clear e P (buckets t) |>
               <| n_flows := n_flows t - Z.of_nat (length (select e P (hash_owned t))) |>).
Proof.
  intros Ht. split; try apply Ht; simpl.
  - unfold clear. rewrite length_fmap. apply Ht.
  - intros i p Hi. unfold clear in Hi. rewrite list_lookup_fmap_Some in Hi.
    destruct Hi as (b & Hb & Hi). apply (ho_entry _ _ Ht i p). rewrite Hi. f_equal.
    destruct b as [q|]; [|done]. simpl in *. by destruct (holds_at e P q).
  - unfold hash_owned. simpl. rewrite clear_omap. apply NoDup_filter, Ht.
  - rewrite (ho_count _ _ Ht). unfold hash_owned at 3. simpl. rewrite clear_omap.
    fold (hash_owned t). pose proof (length_reject e P (hash_owned t)). lia.
Qed.

(** ** Delete *)

Definition passes (test : sw_flow → bool) (out_port : Z) (f : sw_flow) : bool :=
  test f && has_out_port out_port f.

Lemma delete_bucket_spec test out_port b e :
  entries_ok e (option_list b) → remotes_ok (remotes e) →
  wp (delete_bucket b test out_port e) (λ '((b', n), e'),
    let dead := select e (passes test out_port) (option_list b) in
    b' = clear1 e (passes test out_port) b ∧ n = Z.of_nat (length dead) ∧
    reported dead e e').
Proof.
  intros He Hr. rewrite select_option_list. destruct b as [p|]; cbn [delete_bucket clear1].
  2:{ run. split; [done|]. split; [done|by apply reported_nil]. }
  destruct (He p) as (f & Hf & Hok); [by apply list_elem_of_singleton|]. run.
  rewrite (holds_at_some _ _ _ _ Hf).
  assert (wp ((if test f then lift (flow_has_out_port f out_port) else mret false) e)
            (λ '(b, e'), b = passes test out_port f ∧ e' = e)) as Hhit.
  { unfold passes. destruct (test f); run; [|done]. by rewrite (has_out_port_ok _ _ Hok). }
  eapply wp_mono; [exact Hhit|]. intros [b e1] [-> ->]. cbn beta iota delta [fst snd].
  destruct (passes test out_port f); run.
  - unfold do_delete. run. split; [done|]. split; [done|]. by exists rs.
  - split; [done|]. split; [done|by apply reported_nil].
Qed.

Lemma hash_delete_loop_spec test out_port l e :
  NoDup (omap id l) → entries_ok e (omap id l) → remotes_ok (remotes e) →
  wp (delete_loop l test out_port e) (λ '((l', n), e'),
    let dead := select e (passes test out_port) (omap id l) in
    l' = clear e (passes test out_port) l ∧ n = Z.of_nat (length dead) ∧
    reported dead e e').
Proof.
  revert e. induction l as [|b l IH]; intros e Hnd He Hr; cbn [delete_loop].
  { run. split; [done|]. split; [done|by apply reported_nil]. }
  rewrite omap_cons in *. rewrite entries_ok_app in He. destruct He as [Hb He].
  apply NoDup_app in Hnd as (_ & Hd & Hnd). rewrite select_app.
  run. eapply wp_mono; [by apply delete_bucket_spec|].
  intros [[b' n] e1] (-> & -> & E1). cbn beta iota delta [fst snd]. run.
  assert (∀ q, q ∈ omap id l → heap e1 !! q = heap e !! q) as Heq.
  { intros q Hq. rewrite (reported_heap _ _ _ E1). apply lookup_free_all_out. rewrite select_elem.
    intros [_ Hq']. by eapply Hd. }
  eapply wp_mono; [apply IH; [done|by eapply entries_ok_ext|by eapply reported_remotes]|].
  intros [[l' m] e2] (-> & -> & E2). cbn beta iota delta [fst snd]. run.
  rewrite (select_ext e e1) in * by done. split; [|split].
  - rewrite (clear_ext e e1 (passes test out_port) (passes test out_port)); [done|].
    by apply holds_at_ext.
  - rewrite length_app. lia.
  - by eapply reported_app.
Qed.

(** Both ways of [table_hash_delete] test for the described entries. *)
Lemma doomed_passes k out_port prio strict f :
  desc_ok k prio strict → entry_ok f → wildcards (key f) = 0 →
  doomed k out_port prio strict f =
    passes (if wildcards k =? 0 then λ f, flow_equal (kflow (key f)) (kflow k)
            else λ f, flow_matches_desc (key f) k strict) out_port f.
Proof.
  intros [Hk Hp] Hf Hw. unfold doomed, passes, described. f_equal.
  destruct (Z.eqb_spec (wildcards k) 0) as [Hwk|Hwk].
  - assert (flow_matches_desc (key f) k strict = flow_equal (kflow (key f)) (kflow k)) as ->.
    { unfold flow_matches_desc. rewrite Hwk, Hw. simpl. rewrite andb_false_r.
      apply Bool.eq_iff_eq_true. rewrite exact_1wild by (done || apply Hf).
      symmetry. apply flow_equal_spec; [apply Hf|apply Hk]. }
    destruct strict; simpl; [|apply andb_true_r].
    rewrite (eo_exact _ Hf Hw), Hp by done. apply andb_true_r.
  - unfold flow_matches_desc. rewrite Hw. rewrite (proj2 (Z.eqb_neq _ _) Hwk).
    destruct strict; simpl; [done|apply andb_true_r].
Qed.


Lemma filter_select_ext e P P' (l : list ptr) :
  (∀ p, p ∈ l → holds_at e P p = holds_at e P' p) → select e P l = select e P' l.
Proof. intros H. apply filter_ext_in. intros p Hp. by rewrite H. Qed.

Lemma filter_reject_ext e P P' (l : list ptr) :
  (∀ p, p ∈ l → holds_at e P p = holds_at e P' p) → reject e P l = reject e P' l.
Proof. intros H. apply filter_ext_in. intros p Hp. by rewrite H. Qed.

(** Emptying the only bucket that can pass a test. *)
Lemma clear_exact e t k P b :
  hash_ok e t → buckets t !! find_bucket t k = Some b →
  (∀ f, entry_ok f → wildcards (key f) = 0 → P f = true → kflow (key f) = kflow k) →
  <[find_bucket t k := clear1 e P b]> (buckets t) = clear e P (buckets t).
Proof.
  intros Ht Hb HP. apply list_eq. intros j. unfold clear. rewrite list_lookup_fmap.
  destruct (decide (j = find_bucket t k)) as [->|Hne].
  - rewrite list_lookup_insert_eq by eauto using lookup_lt_Some. by rewrite Hb.
  - rewrite list_lookup_insert_ne by done. destruct (buckets t !! j) as [[p|]|] eqn:Hj; [|done..].
    destruct (ho_entry _ _ Ht j p Hj) as (f & Hf & Hok & Hw & <-).
    simpl. rewrite (holds_at_some _ _ _ _ Hf). destruct (P f) eqn:E; [|done].
    destruct Hne. unfold find_bucket. by rewrite (HP f Hok Hw E).
Qed.

Lemma hash_delete_law e t k out_port prio strict :
  hash_ok e t → remotes_ok (remotes e) → desc_ok k prio strict →
  wp (table_hash_delete t k out_port prio strict e) (λ '((n, t'), e'),
    let dead := select e (doomed k out_port prio strict) (hash_owned t) in
    n = Z.of_nat (length dead) ∧ hash_ok e' t' ∧
    hash_owned t' = reject e (doomed k out_port prio strict) (hash_owned t) ∧
    reported dead e e').
Proof.
  intros Ht Hr Hd. unfold table_hash_delete.
  set (test := if wildcards k =? 0 then λ f, flow_equal (kflow (key f)) (kflow k)
               else λ f, flow_matches_desc (key f) k strict).
  set (P := passes test out_port).
  assert (∀ p, p ∈ hash_owned t →
    holds_at e (doomed k out_port prio strict) p = holds_at e P p) as HP.
  { intros p Hp. destruct (hash_entry e t p Ht Hp) as (f & Hf & Hok & Hw).
    rewrite !(holds_at_some _ _ _ _ Hf). by apply doomed_passes. }
  rewrite (filter_select_ext e _ P), (filter_reject_ext e _ P) by done. cbv zeta.
  run_step. apply (wp_mono _ (λ '((l, n), e'), l = clear e P (buckets t) ∧
    n = Z.of_nat (length (select e P (hash_owned t))) ∧
    reported (select e P (hash_owned t)) e e')).
  - subst P test. destruct (Z.eqb_spec (wildcards k) 0) as [Hw|Hw].
    + run. eapply wp_read_bucket; [done|]. intros b Hb. cbn beta iota delta [fst snd]. run.
      set (P := passes _ out_port).
      assert (∀ f, entry_ok f → wildcards (key f) = 0 → P f = true → kflow (key f) = kflow k) as Hone.
      { intros f Hf Hwf. unfold P, passes. rewrite andb_true_iff. intros [E _].
        apply flow_equal_spec in E; [done|apply Hf|apply Hd]. }
      eapply wp_mono; [apply delete_bucket_spec; [by eapply bucket_entries|done]|].
      intros [[b' n] e1] (-> & -> & H). cbn beta iota delta [fst snd]. run.
      fold P. rewrite (select_bucket e t k P b) by done. by split; [apply clear_exact|].
    + apply hash_delete_loop_spec; [apply Ht|by apply hash_entries_ok|done].
  - intros [[l n] e1] (-> & -> & rs & Hrs & ->). cbn beta iota delta [fst snd]. run.
    split; [done|]. split; [|split; [apply clear_omap|by exists rs]].
    pose proof (hash_count_range e t Ht) as Hn. pose proof (ho_count _ _ Ht).
    pose proof (length_reject e P (hash_owned t)).
    assert (u32 (n_flows t - Z.of_nat (length (select e P (hash_owned t)))) =
            n_flows t - Z.of_nat (length (select e P (hash_owned t)))) as Eu.
    { unfold u32. rewrite Z.mod_small; lia. }
    simpl. rewrite Eu. apply (hash_frame e); [by apply hash_ok_clear|].
    apply same_entries_eq. intros p Hp. simpl. apply lookup_free_all_out.
    unfold hash_owned in Hp. simpl in Hp. rewrite clear_omap, reject_elem in Hp.
    rewrite select_elem. destruct Hp as [-> _]. naive_solver.
Qed.

(** ** Timeout and destroy *)

Lemma hash_timeout_loop_spec l e n deleted :
  NoDup (omap id l) → entries_ok e (omap id l) → Z.of_nat (length (omap id l)) <= n <= 2 ^ 31 →
  wp (timeout_loop l n deleted e) (λ '((l', n', deleted'), e'),
    let dead := select e (expired (now_msec e)) (omap id l) in
    l' = clear e (expired (now_msec e)) l ∧ n' = n - Z.of_nat (length dead) ∧
    deleted' = deleted ++ dead ∧
    timed_out (now_msec e) (omap id l) (heap e) (heap e') ∧ e' = e <| heap := heap e' |>).
Proof.
  revert e n deleted. induction l as [|[p|] l IH]; intros e n deleted Hnd He Hn; cbn [timeout_loop].
  { run. change (omap id []) with (@nil ptr). change (select e (expired (now_msec e)) []) with (@nil ptr).
    rewrite app_nil_r. split_and!; [done|simpl; lia|done| |by destruct e].
    intros p. by rewrite decide_False by apply not_elem_of_nil. }
  2:{ run. eapply wp_mono; [by apply IH|]. intros [[[l' n'] d'] e'] (-> & -> & -> & H). by run. }
  change (omap id (Some p :: l)) with (p :: omap id l) in *.
  change (clear e (expired (now_msec e)) (Some p :: l)) with
    (clear1 e (expired (now_msec e)) (Some p) :: clear e (expired (now_msec e)) l).
  apply entries_ok_cons in He as [(f & Hf & Hok) He]. apply NoDup_cons in Hnd as [Hp Hnd].
  cbn [length] in Hn. rewrite (select_cons _ _ _ _ _ Hf). cbn [clear1].
  rewrite (holds_at_some _ _ _ _ Hf). run.
  destruct (flow_timeout (now_msec e) f) as [x g] eqn:Eg. run.
  assert (expired (now_msec e) f = x) as -> by (unfold expired; by rewrite Eg).
  set (e1 := e <| heap := <[p:=g]> (heap e) |>).
  assert (∀ q, q ∈ omap id l → heap e1 !! q = heap e !! q) as Heq.
  { intros q Hq. apply lookup_insert_ne. intros ->. done. }
  assert (∀ h', timed_out (now_msec e) (omap id l) (heap e1) h' →
    timed_out (now_msec e) (p :: omap id l) (heap e) h') as Htime.
  { intros h' Hh. eapply timed_out_cons; [done|done|]. by rewrite Eg. }
  destruct x; run; (eapply wp_mono; [apply (IH e1); [done|by eapply entries_ok_ext|]|]).
  - unfold u32. rewrite Z.mod_small; lia.
  - intros [[[l' n'] d'] e'] (-> & -> & -> & Ht & ->). cbn beta iota delta [fst snd]. run.
    change (now_msec e1) with (now_msec e). rewrite (select_ext e e1) by done. split_and!.
    + f_equal. apply clear_ext. by apply (holds_at_ext e e1).
    + cbn [length]. unfold u32. rewrite Z.mod_small; lia.
    + by rewrite <-app_assoc.
    + by apply Htime.
    + done.
  - lia.
  - intros [[[l' n'] d'] e'] (-> & -> & -> & Ht & ->). cbn beta iota delta [fst snd]. run.
    change (now_msec e1) with (now_msec e). rewrite (select_ext e e1) by done. split_and!; [|done|done|by apply Htime|done].
    f_equal. apply clear_ext. by apply (holds_at_ext e e1).
Qed.


Lemma hash_timeout_law e t deleted :
  hash_ok e t →
  wp (table_hash_timeout t deleted e) (λ '((t', deleted'), e'),
    let dead := select e (expired (now_msec e)) (hash_owned t) in
    deleted' = deleted ++ dead ∧ hash_ok e' t' ∧
    hash_owned t' = reject e (expired (now_msec e)) (hash_owned t) ∧
    timed_out (now_msec e) (hash_owned t) (heap e) (heap e') ∧ e' = e <| heap := heap e' |>).
Proof.
  intros Ht. unfold table_hash_timeout. run.
  pose proof (hash_count_range e t Ht). pose proof (ho_count _ _ Ht) as Hc.
  eapply wp_mono; [apply hash_timeout_loop_spec; [apply Ht|by apply hash_entries_ok|]|].
  { fold (hash_owned t). lia. }
  intros [[[l' n'] d'] e'] (-> & -> & -> & H1 & H2). run. fold (hash_owned t).
  split; [done|]. split; [|split; [apply clear_omap|done]].
  apply (hash_frame e); [by apply (hash_ok_clear e t (expired (now_msec e)))|by eapply timed_out_same].
Qed.

Lemma hash_destroy_loop_spec l e :
  NoDup (omap id l) → entries_ok e (omap id l) →
  wp (destroy_loop l e) (λ '(_, e'), e' = e <| heap := free_all (omap id l) (heap e) |>).
Proof.
  revert e. induction l as [|[p|] l IH]; intros e Hnd He; cbn [destroy_loop].
  - run. by destruct e.
  - change (omap id (Some p :: l)) with (p :: omap id l) in *.
    apply entries_ok_cons in He as [(f & Hf & Hok) He]. apply NoDup_cons in Hnd as [Hp Hnd]. run.
    eapply wp_mono; [apply IH; [done|]|].
    + eapply entries_ok_ext; [|exact He]. intros q Hq. simpl. apply lookup_delete_ne. by intros ->.
    + intros [[] e'] ->. by rewrite free_all_cons.
  - by apply IH.
Qed.

(** ** Dumps *)

Definition collect_all : callback (list ptr) := λ p l, mret (0, l ++ [p]).

Lemma length_position (pos : sw_table_position) i x : length (<[i := x]> pos) = length pos.
Proof. apply length_insert. Qed.

Lemma iterate_loop_all l i k out_port pos acc e :
  entries_ok e (omap id l) → key_ok k →
  (∀ p f, p ∈ omap id l → heap e !! p = Some f → wildcards (key f) = 0) →
  wp (iterate_loop l i k out_port pos collect_all acc e) (λ '((r, pos', l'), e'),
    r = 0 ∧ pos' = pos ∧ e' = e ∧ l' = acc ++ select e (dumped k out_port) (omap id l)).
Proof.
  intros He Hk. revert i acc He. induction l as [|[p|] l IH]; intros i acc He Hx; cbn [iterate_loop].
  - run. by rewrite app_nil_r.
  - change (omap id (Some p :: l)) with (p :: omap id l) in *.
    apply entries_ok_cons in He as [(f & Hf & Hok) He].
    assert (wildcards (key f) = 0) as Hw by (eapply Hx; [left|done]).
    rewrite (select_cons _ _ _ _ _ Hf). run.
    assert (wp ((if flow_matches_1wild (key f) k then lift (flow_has_out_port f out_port)
                 else mret false) e) (λ '(b, e'), b = dumped k out_port f ∧ e' = e)) as Hhit.
    { unfold dumped. rewrite flow_matches_2wild_sym, exact_2wild by (done || apply Hok).
      destruct (flow_matches_1wild (key f) k); run; [|done]. by rewrite (has_out_port_ok _ _ Hok). }
    eapply wp_mono; [exact Hhit|]. intros [b e1] [-> ->]. cbn beta iota delta [fst snd].
    assert (∀ q g, q ∈ omap id l → heap e !! q = Some g → wildcards (key g) = 0) as Hx'
      by (intros; eapply Hx; [right|]; done).
    destruct (dumped k out_port f); [|by apply IH].
    run_step. unfold collect_all at 1. run. change (truth 0) with false. cbv iota.
    eapply wp_mono; [by apply IH|]. intros [[[r pos'] l'] e'] (-> & -> & -> & ->).
    by rewrite <-app_assoc.
  - by apply IH.
Qed.

Lemma dumped_exact k out_port f :
  key_ok k → wildcards k = 0 → entry_ok f → wildcards (key f) = 0 →
  dumped k out_port f = matches k f && has_out_port out_port f.
Proof.
  intros Hk Hw Hf Hwf. unfold dumped, matches. f_equal. apply exact_2wild; [done|apply Hf|done].
Qed.

Lemma hash_iterate_all t k out_port (pos : sw_table_position) acc e :
  hash_ok e t → key_ok k → length pos = 4%nat → pos !!! 0%nat = 0 →
  wp (table_hash_iterate t k out_port pos collect_all acc e) (λ '((r, pos', l'), e'),
    r = 0 ∧ e' = e ∧ l' = acc ++ select e (dumped k out_port) (hash_owned t) ∧ length pos' = 4%nat).
Proof.
  intros Ht Hk Hpos H0. unfold table_hash_iterate. cbv zeta. rewrite H0.
  destruct (ho_mask _ _ Ht) as (n & Hn & Em).
  assert ((bucket_mask t <? 0) = false) as ->.
  { rewrite Em, Z.ones_equiv. apply Z.ltb_ge. pose proof (Z.pow_pos_nonneg 2 n). lia. }
  destruct (Z.eqb_spec (wildcards k) 0) as [Hw|Hw].
  - unfold table_hash_lookup. run. eapply wp_read_bucket; [done|]. intros b Hb.
    cbn beta iota delta [fst snd].
    rewrite (select_bucket e t k (dumped k out_port) b); [|done|done|].
    2:{ intros f Hf Hwf. rewrite dumped_exact, andb_true_iff by done. intros [Hm _].
        apply exact_matches in Hm; [done|apply Hk|done..]. }
    rewrite select_option_list. destruct b as [p|]; run.
    2:{ rewrite app_nil_r, length_position. done. }
    assert (p ∈ hash_owned t) as Hp by (apply owned_bucket; eauto).
    destruct (hash_entry e t p Ht Hp) as (f & Hf & Hok & Hwf). run.
    rewrite (holds_at_some _ _ _ _ Hf), dumped_exact by done.
    assert (flow_equal (kflow (key f)) (kflow k) = matches k f) as ->.
    { pose proof (ko_flow _ Hk). apply Bool.eq_iff_eq_true. rewrite (flow_equal_exact e t p) by done.
      by rewrite exact_matches. }
    destruct (matches k f); simpl; run; [|rewrite app_nil_r, length_position; done].
    rewrite (has_out_port_ok _ _ Hok). simpl.
    destruct (has_out_port out_port f); run; [|rewrite app_nil_r, length_position; done].
    unfold collect_all. run. by rewrite length_position.
  - change (Z.to_nat 0) with O. rewrite drop_0.
    eapply wp_mono; [apply iterate_loop_all; [by apply hash_entries_ok|done|]|].
    + intros p f Hp Hf. destruct (hash_entry e t p Ht Hp) as (g & Hg & _ & Hwg). congruence.
    + intros [[[r pos'] l'] e'] (-> & -> & -> & ->). done.
Qed.

#[export] Instance hash_table_laws : TableLaws sw_table_hash.
Proof.
  refine {| owned := hash_owned; table_ok := hash_ok |}; simpl.
  - intros e t. apply ho_nodup.
  - intros e t p Ht. by apply (hash_entries_ok e t).
  - apply hash_frame.
  - apply hash_lookup_law.
  - apply hash_insert_law.
  - intros e t k prio strict acts Ht Hk _. by apply hash_modify_law.
  - apply hash_conflict_law.
  - apply hash_delete_law.
  - apply hash_timeout_law.
  - intros e t Ht. apply hash_destroy_loop_spec; [apply Ht|by apply hash_entries_ok].
Defined.


(** ** The double-hashing table *)

Definition subtables (t : sw_table_hash2) : sw_table_hash * sw_table_hash :=
  (subtable0 t, subtable1 t).
Definition of_subtables (t : sw_table_hash * sw_table_hash) : sw_table_hash2 :=
  mk_sw_table_hash2 t.1 t.2.

Ltac unfold_pair :=
  cbn [t_insert t_delete t_timeout pair_table hash_table subtables fst snd subtable0 subtable1];
  unfold mbind, M_bind, rmap.

Lemma hash2_insert_pair t p e :
  table_hash2_insert t p e = rmap (λ r, (r.1, of_subtables r.2)) (t_insert (subtables t) p e).
Proof.
  destruct t as [t0 t1]. unfold table_hash2_insert. unfold_pair.
  destruct (table_hash_insert t0 p e) as [[[r a] e1]| |]; [|done..]. destruct (truth r); [done|].
  by destruct (table_hash_insert t1 p e1) as [[[r' b] e2]| |].
Qed.

Lemma hash2_delete_pair t k out_port prio strict e :
  table_hash2_delete t k out_port prio strict e =
  rmap (λ r, (r.1, of_subtables r.2)) (t_delete (subtables t) k out_port prio strict e).
Proof.
  destruct t as [t0 t1]. unfold table_hash2_delete. unfold_pair.
  destruct (table_hash_delete t0 k out_port prio strict e) as [[[r a] e1]| |]; [|done..].
  by destruct (table_hash_delete t1 k out_port prio strict e1) as [[[r' b] e2]| |].
Qed.

Lemma hash2_timeout_pair t deleted e :
  table_hash2_timeout t deleted e =
  rmap (λ r, (of_subtables r.1, r.2)) (t_timeout (subtables t) deleted e).
Proof.
  destruct t as [t0 t1]. unfold table_hash2_timeout. unfold_pair.
  destruct (table_hash_timeout t0 deleted e) as [[[a d] e1]| |]; [|done..].
  by destruct (table_hash_timeout t1 d e1) as [[[b d'] e2]| |].
Qed.

#[export] Instance hash2_table_laws : TableLaws sw_table_hash2.
Proof.
  refine {| owned := λ t, owned (subtables t); table_ok := λ e t, table_ok e (subtables t) |}.
  - intros e t. apply owned_NoDup.
  - intros e t. apply owned_entry.
  - intros e e' t. apply table_ok_frame.
  - intros e t k. exact (lookup_law e (subtables t) k).
  - intros e t p f Ht Hp Hpt Hf. change (t_insert t p e) with (table_hash2_insert t p e).
    rewrite hash2_insert_pair. apply wp_rmap. eapply wp_mono; [by apply insert_law|].
    intros [[r [a b]] e'] [(-> & E & ->)|H]; [left|right; exact H].
    split_and!; [done| |done]. destruct t. by injection E as -> ->.
  - intros e t k prio strict acts. exact (modify_law e (subtables t) k prio strict acts).
  - intros e t k prio strict. exact (has_conflict_law e (subtables t) k prio strict).
  - intros e t k out_port prio strict Ht Hr Hk.
    change (t_delete t k out_port prio strict e) with (table_hash2_delete t k out_port prio strict e).
    rewrite hash2_delete_pair. apply wp_rmap. eapply wp_mono; [by apply delete_law|].
    intros [[r [a b]] e']. done.
  - intros e t deleted Ht. change (t_timeout t deleted e) with (table_hash2_timeout t deleted e).
    rewrite hash2_timeout_pair. apply wp_rmap. eapply wp_mono; [by apply timeout_law|].
    intros [[[a b] d] e']. done.
  - intros e t. exact (destroy_law e (subtables t)).
Defined.

Lemma iterate2_all l k out_port (pos : sw_table_position) acc e :
  Forall (hash_ok e) l → key_ok k → length pos = 4%nat → pos !!! 0%nat = 0 →
  wp (iterate2_loop l k out_port pos collect_all acc e) (λ '((r, _, l'), e'),
    r = 0 ∧ e' = e ∧ l' = acc ++ select e (dumped k out_port) (concat (hash_owned <$> l))).
Proof.
  intros Hl Hk. revert pos acc.
  induction Hl as [|t l Ht Hl IH]; intros pos acc Hlen H0; cbn [iterate2_loop].
  - run. by rewrite app_nil_r.
  - run_step. eapply wp_mono; [by apply hash_iterate_all|].
    intros [[[r pos'] l'] e'] (-> & -> & -> & Hlen'). change (truth 0) with false. cbv iota.
    eapply wp_mono; [apply IH|].
    + by rewrite !length_position.
    + by destruct pos' as [|x [|y l']].
    + intros [[[r' pos''] l''] e''] (-> & -> & ->). split; [done|]. split; [done|].
      by rewrite fmap_cons, concat_cons, select_app, app_assoc.
Qed.

#[export] Instance hash2_table_dump_laws : TableDumpLaws sw_table_hash2.
Proof.
  split. intros e t k out_port [H1 H2 _] Hk.
  change (wp (table_hash2_iterate t k out_port zero_position collect_all [] e)
      (λ '((r, _, l), e'), r = 0 ∧ e' = e ∧ l ≡ₚ select e (dumped k out_port) (owned t))).
  unfold table_hash2_iterate. change (zero_position !!! 1%nat) with 0.
  change (drop (Z.to_nat 0) [subtable0 t; subtable1 t]) with [subtable0 t; subtable1 t].
  eapply wp_mono; [apply iterate2_all; [|done..]|].
  - constructor; [exact H1|]. constructor; [exact H2|]. by constructor.
  - intros [[[r pos] l] e'] (-> & -> & ->). split; [done|]. split; [done|].
    simpl. by rewrite app_nil_r.
Qed.


End TableHashFacts.
