(* ===== verification/Chain.v ===== *)
(** * udatapath/chain.c: the chain of flow tables

    A chain searches its tables in order and keeps one more table for emergency
    entries.  It is written over any type of tables; the switch uses a double hash
    table for entries without wildcards and two linear tables.  [struct sw_table]
    adds the counters of lookups and matches to a table. *)

From S2P Require Import Prelude Ofp Ofpbuf Flow SwitchFlow Env Table TableLinear TableHash TableSeq.
Import Ofp Flow SwitchFlow Env Table TableSeq.

Module Chain.

Definition TABLE_LINEAR_MAX_FLOWS : Z := 100.
Definition TABLE_HASH_MAX_FLOWS : Z := 65536.
Definition CHAIN_MAX_TABLES : nat := 4.

Record sw_table (T : Type) := mk_sw_table {
  impl : T;
  n_lookup : Z;
  n_matched : Z;
}.
Arguments mk_sw_table {T}.
Arguments impl {T}.
Arguments n_lookup {T}.
Arguments n_matched {T}.
#[export] Instance sw_table_eta T : Eta (sw_table T) := λ t, mk_sw_table (impl t) (n_lookup t) (n_matched t).

(** The calls through the function pointers of [struct sw_table]. *)
#[export] Instance sw_table_table T `{Table T} : Table (sw_table T) := {
  t_lookup t k := t_lookup (impl t) k;
  t_insert t p := '(r, i) ← t_insert (impl t) p; mret (r, t <| impl := i |>);
  t_modify t k prio strict acts := t_modify (impl t) k prio strict acts;
  t_has_conflict t k prio strict := t_has_conflict (impl t) k prio strict;
  t_delete t k out_port prio strict :=
    '(n, i) ← t_delete (impl t) k out_port prio strict; mret (n, t <| impl := i |>);
  t_timeout t deleted :=
    '(i, deleted) ← t_timeout (impl t) deleted; mret (t <| impl := i |>, deleted);
  t_destroy t := t_destroy (impl t);
}.

Record sw_chain (T : Type) := mk_sw_chain {
  tables : list (sw_table T);
  emerg_table : option (sw_table T);
}.
Arguments mk_sw_chain {T}.
Arguments tables {T}.
Arguments emerg_table {T}.
#[export] Instance sw_chain_eta T : Eta (sw_chain T) := λ c, mk_sw_chain (tables c) (emerg_table c).

Section operations.
  Context {T : Type} `{Table T}.
  Implicit Types c : sw_chain T.

Definition add_table c (table : option T) (emerg : bool) : M env (Z * sw_chain T) :=
  match table with
  | None => mret (- ENOMEM, c)
  | Some t =>
      if (CHAIN_MAX_TABLES <=? length (tables c))%nat then t_destroy t;; mret (- ENOBUFS, c)
      else if emerg then mret (0, c <| emerg_table := Some (mk_sw_table t 0 0) |>)
      else mret (0, c <| tables := tables c ++ [mk_sw_table t 0 0] |>)
  end.

Definition lookup_table (t : sw_table T) (k : sw_flow_key) : M env (option ptr * sw_table T) :=
  flow ← t_lookup t k;
  let t := t <| n_lookup := u64 (n_lookup t + 1) |> in
  mret (flow, match flow with
              | Some _ => t <| n_matched := u64 (n_matched t + 1) |>
              | None => t
              end).

Fixpoint lookup_tables (ts : list (sw_table T)) (k : sw_flow_key)
    : M env (option ptr * list (sw_table T)) :=
  match ts with
  | [] => mret (None, [])
  | t :: ts =>
      '(flow, t) ← lookup_table t k;
      match flow with
      | Some p => mret (Some p, t :: ts)
      | None => '(flow, ts) ← lookup_tables ts k; mret (flow, t :: ts)
      end
  end.

Definition chain_lookup c (k : sw_flow_key) (emerg : bool) : M env (option ptr * sw_chain T) :=
  lift (assert_c (wildcards k =? 0));;
  if emerg then
    t ← lift (deref (emerg_table c));
    '(flow, t) ← lookup_table t k;
    mret (flow, c <| emerg_table := Some t |>)
  else
    '(flow, ts) ← lookup_tables (tables c) k;
    mret (flow, c <| tables := ts |>).

(** The loops over the tables are the operations of the list of tables
    (TableSeq.v). *)
Definition chain_insert c (p : ptr) (emerg : bool) : M env (Z * sw_chain T) :=
  if emerg then
    t ← lift (deref (emerg_table c));
    '(r, t) ← t_insert t p;
    mret (if truth r then 0 else - ENOBUFS, c <| emerg_table := Some t |>)
  else
    '(r, ts) ← t_insert (tables c) p;
    mret (if truth r then 0 else - ENOBUFS, c <| tables := ts |>).

Definition chain_modify c (k : sw_flow_key) (prio : Z) (strict : bool) (actions : list Z)
    (emerg : bool) : M env Z :=
  if emerg then
    t ← lift (deref (emerg_table c));
    t_modify t k prio strict actions
  else t_modify (tables c) k prio strict actions.

Definition chain_has_conflict c (k : sw_flow_key) (prio : Z) (strict : bool) : M env bool :=
  t_has_conflict (tables c) k prio strict.

Definition chain_delete c (k : sw_flow_key) (out_port prio : Z) (strict emerg : bool)
    : M env (Z * sw_chain T) :=
  if emerg then
    t ← lift (deref (emerg_table c));
    '(n, t) ← t_delete t k out_port prio strict;
    mret (n, c <| emerg_table := Some t |>)
  else
    '(n, ts) ← t_delete (tables c) k out_port prio strict;
    mret (n, c <| tables := ts |>).

Definition chain_timeout c (deleted : list ptr) : M env (sw_chain T * list ptr) :=
  '(ts, deleted) ← t_timeout (tables c) deleted;
  mret (c <| tables := ts |>, deleted).

Definition chain_destroy c : M env unit :=
  t_destroy (tables c);;
  t ← lift (deref (emerg_table c));
  t_destroy t.
End operations.

(** ** The tables of the switch *)

#[local] Existing Instances TableHash.hash2_table TableHash.hash2_table_dump
  TableLinear.linear_table TableLinear.linear_table_dump.

Inductive switch_table :=
| hash2_impl (t : TableHash.sw_table_hash2)
| linear_impl (t : TableLinear.sw_table_linear).

#[export] Instance switch_table_table : Table switch_table := {
  t_lookup t k :=
    match t with hash2_impl t => t_lookup t k | linear_impl t => t_lookup t k end;
  t_insert t p :=
    match t with
    | hash2_impl t => '(r, t) ← t_insert t p; mret (r, hash2_impl t)
    | linear_impl t => '(r, t) ← t_insert t p; mret (r, linear_impl t)
    end;
  t_modify t k prio strict acts :=
    match t with
    | hash2_impl t => t_modify t k prio strict acts
    | linear_impl t => t_modify t k prio strict acts
    end;
  t_has_conflict t k prio strict :=
    match t with
    | hash2_impl t => t_has_conflict t k prio strict
    | linear_impl t => t_has_conflict t k prio strict
    end;
  t_delete t k out_port prio strict :=
    match t with
    | hash2_impl t => '(n, t) ← t_delete t k out_port prio strict; mret (n, hash2_impl t)
    | linear_impl t => '(n, t) ← t_delete t k out_port prio strict; mret (n, linear_impl t)
    end;
  t_timeout t deleted :=
    match t with
    | hash2_impl t => '(t, deleted) ← t_timeout t deleted; mret (hash2_impl t, deleted)
    | linear_impl t => '(t, deleted) ← t_timeout t deleted; mret (linear_impl t, deleted)
    end;
  t_destroy t := match t with hash2_impl t => t_destroy t | linear_impl t => t_destroy t end;
}.

#[export] Instance switch_table_dump : TableDump switch_table := {
  t_iterate A t k out_port pos cb a :=
    match t with
    | hash2_impl t => t_iterate A t k out_port pos cb a
    | linear_impl t => t_iterate A t k out_port pos cb a
    end;
  t_stats t := match t with hash2_impl t => t_stats t | linear_impl t => t_stats t end;
}.

(** The process crashes if a table cannot be allocated: [chain_destroy]
    dereferences the emergency table, which does not exist yet. *)
Definition chain_create : M env (option (sw_chain switch_table)) :=
  ok ← malloc_ok;
  if negb ok then mret None
  else
    let c := mk_sw_chain [] None in
    t ← TableHash.table_hash2_create 0x1EDC6F41 TABLE_HASH_MAX_FLOWS
                                     0x741B8CD7 TABLE_HASH_MAX_FLOWS;
    '(err, c) ← add_table c (hash2_impl <$> t) false;
    '(err, c) ←
      (if truth err then mret (err, c)
       else t ← TableLinear.table_linear_create TABLE_LINEAR_MAX_FLOWS;
            add_table c (linear_impl <$> t) false);
    '(err, c) ←
      (if truth err then mret (err, c)
       else t ← TableLinear.table_linear_create TABLE_LINEAR_MAX_FLOWS;
            add_table c (linear_impl <$> t) true);
    if truth err then chain_destroy c;; mret None
    else mret (Some c).

End Chain.
