(* ===== verification/ChainFacts.v ===== *)
(** * Properties of the chain

    Every allocated flow entry is owned by exactly one table of the chain, or by
    the caller; every operation keeps it so.  Nothing but the laws of Table.v is
    used of the tables. *)

From S2P Require Import Prelude Ofp Ofpbuf Flow FlowFacts SwitchFlow SwitchFlowFacts Rconn.
From S2P Require Import RconnFacts Env EnvFacts Table TableLinear TableLinearFacts TableSeq.
From S2P Require Import TableHash TableHashFacts Chain.
Import Ofp Flow FlowFacts SwitchFlow SwitchFlowFacts Env EnvFacts Table TableSeq Chain.

Module ChainFacts.

(** ** The tables of a chain satisfy the laws *)

#[export] Instance sw_table_laws T `{TableLaws T} : TableLaws (sw_table T).
Proof.
  refine {| owned t := owned (impl t); table_ok e t := table_ok e (impl t) |}; simpl.
  - intros e t. apply owned_NoDup.
  - intros e t p. apply owned_entry.
  - intros e e' t. apply table_ok_frame.
  - intros e t k. apply lookup_law.
  - intros e t p f Ht Hp Hn Hf. run_step. eapply wp_mono; [by apply insert_law|].
    intros [[r i] e']. cbn beta iota delta [fst snd]. run. intros [(-> & -> & ->)|Hi]; [left|by right].
    by destruct t.
  - intros e t k prio strict acts. apply modify_law.
  - intros e t k prio strict. apply has_conflict_law.
  - intros e t k out_port prio strict Ht Hr Hk. run_step. eapply wp_mono; [by apply delete_law|].
    intros [[n i] e']. done.
  - intros e t deleted Ht. run_step. eapply wp_mono; [by apply timeout_law|]. intros [[i d] e']. done.
  - intros e t. apply destroy_law.
Defined.

#[local] Existing Instances TableHash.hash2_table TableLinear.linear_table
  TableHashFacts.hash2_table_laws TableLinearFacts.linear_table_laws.

Definition switch_owned (t : switch_table) : list ptr :=
  match t with hash2_impl t => owned t | linear_impl t => owned t end.

Definition switch_ok (e : env) (t : switch_table) : Prop :=
  match t with hash2_impl t => table_ok e t | linear_impl t => table_ok e t end.

#[export] Instance switch_table_laws : TableLaws switch_table.
Proof.
  refine {| owned := switch_owned; table_ok := switch_ok |}.
  - intros e [t|t]; exact (owned_NoDup e t).
  - intros e [t|t] p; exact (owned_entry e t p).
  - intros e e' [t|t]; exact (table_ok_frame e e' t).
  - intros e [t|t] k; exact (lookup_law e t k).
  - intros e [t|t] p f Ht Hp Hn Hf; cbn [t_insert switch_table_table]; run_step;
      (eapply wp_mono; [exact (insert_law e t p f Ht Hp Hn Hf)|]); intros [[r i] e'];
      cbn beta iota delta [fst snd]; run; (intros [(-> & -> & ->)|Hi]; [by left|by right]).
  - intros e [t|t] k prio strict acts; exact (modify_law e t k prio strict acts).
  - intros e [t|t] k prio strict; exact (has_conflict_law e t k prio strict).
  - intros e [t|t] k out_port prio strict Ht Hr Hk; cbn [t_delete switch_table_table]; run_step;
      (eapply wp_mono; [exact (delete_law e t k out_port prio strict Ht Hr Hk)|]);
      by intros [[n i] e'].
  - intros e [t|t] deleted Ht; cbn [t_timeout switch_table_table]; run_step;
      (eapply wp_mono; [exact (timeout_law e t deleted Ht)|]); by intros [[i d] e'].
  - intros e [t|t]; exact (destroy_law e t).
Defined.

(** ** Accounting for entries *)

(** The allocated entries are those of [l], each listed once. *)
Record account (e : env) (l : list ptr) : Prop := {
  ac_nodup : NoDup l;
  ac_dom : ∀ p, is_Some (heap e !! p) ↔ p ∈ l;
}.

Lemma account_perm e l l' : l ≡ₚ l' → account e l → account e l'.
Proof. intros Hl []. split; [by rewrite <-Hl|]. intros p. by rewrite <-Hl. Qed.

#[export] Instance account_proper e : Proper ((≡ₚ) ==> iff) (account e).
Proof. intros l l' Hl. split; apply account_perm; by rewrite Hl. Qed.

Lemma account_dom e e' l :
  (∀ p, is_Some (heap e' !! p) ↔ is_Some (heap e !! p)) → account e l → account e' l.
Proof. intros Hd []. split; [done|]. intros p. by rewrite Hd. Qed.

Lemma account_free e e' dead l :
  heap e' = free_all dead (heap e) → account e (dead ++ l) → account e' l.
Proof.
  intros Hh [Hn Hd]. apply NoDup_app in Hn as (_ & Hdis & Hn). split; [done|]. intros p.
  rewrite Hh, lookup_free_all. case_decide as Hp.
  - split; [by intros []|]. intros Hl. by destruct (Hdis p Hp).
  - rewrite Hd, elem_of_app. tauto.
Qed.

Lemma account_insert e e' p g old l :
  heap e' = <[p := g]> (free_all old (heap e)) → account e (old ++ p :: l) → account e' (p :: l).
Proof.
  intros Hh [Hn Hd]. split; [by apply NoDup_app in Hn as (_ & _ & Hn)|]. intros q.
  apply NoDup_app in Hn as (_ & Hdis & Hn). rewrite Hh. destruct (decide (q = p)) as [->|Hq].
  - rewrite lookup_insert_eq. split; [left|eauto].
  - rewrite lookup_insert_ne, lookup_free_all by done. case_decide as Ho.
    + split; [by intros []|]. intros Hl. by destruct (Hdis q Ho).
    + rewrite Hd, elem_of_app. tauto.
Qed.

(** What an operation on a table leaves alone. *)
Definition untouched (l : list ptr) (e e' : env) : Prop := ∀ p, p ∈ l → heap e' !! p = heap e !! p.

Lemma untouched_same l e e' : untouched l e e' → same_entries l e e'.
Proof. apply same_entries_eq. Qed.

Section component.
  Context {A : Type} `{TableLaws A}.
  Context (good : list Z → Prop).
  Implicit Types (a : A) (e : env) (rest : list ptr).

(** The actions of the entries of [l] satisfy [good]. *)
Definition all_good e (l : list ptr) : Prop := ∀ p f, p ∈ l → heap e !! p = Some f → good (sf_acts f).

(** The state of one table, where [rest] are the entries of the others. *)
Record holds e a rest : Prop := {
  ho_ok : table_ok e a;
  ho_account : account e (owned a ++ rest);
  ho_good : all_good e (owned a);
}.

(** The entries [l'] are those of [l] and [p], with [f]; at most one entry gave way to
    it, of the same priority and with the same match, and was freed.  No other entry
    that exists is different. *)
Definition joins (p : ptr) (f : sw_flow) (l l' : list ptr) (e e' : env) : Prop :=
  ∃ old rest, (length old ≤ 1)%nat ∧ l ≡ₚ old ++ rest ∧ l' ≡ₚ p :: rest ∧
    select e (λ g, duplicates g f) old = old ∧ heap e' = <[p := f]> (free_all old (heap e)).

Lemma joins_entry p f l l' e e' : joins p f l l' e e' → p ∈ l' ∧ heap e' !! p = Some f.
Proof.
  intros (old & rest & _ & _ & Hl' & _ & ->). rewrite Hl', lookup_insert_eq. split; [left|done].
Qed.

(** An entry other than [p] was there before, as it is. *)
Lemma joins_other p f l l' e e' q :
  NoDup l → joins p f l l' e e' → q ∈ l' → q = p ∨ (q ∈ l ∧ heap e' !! q = heap e !! q).
Proof.
  intros Hn (old & rest & _ & Hl & -> & _ & ->). rewrite Hl in Hn |- *.
  apply NoDup_app in Hn as (_ & Hd & _). destruct (decide (q = p)) as [->|Hq]; [by left|].
  intros [->|Hr]%elem_of_cons; [by left|right]. split; [apply elem_of_app; auto|].
  rewrite lookup_insert_ne by done. apply lookup_free_all_out. intros Ho. by apply (Hd q).
Qed.

Lemma component_insert e a rest p f :
  holds e a (p :: rest) → heap e !! p = Some f → entry_ok f → good (sf_acts f) →
  wp (t_insert a p e) (λ '((r, a'), e'),
    (r = 0 ∧ a' = a ∧ e' = e) ∨
    (r = 1 ∧ holds e' a' rest ∧ untouched rest e e' ∧ remotes e' = remotes e ∧
     ∃ s, joins p (f <| serial := s |>) (owned a) (owned a') e e')).
Proof.
  intros [Ha Hac Hg] Hp Hf Hgf. pose proof (ac_nodup _ _ Hac) as Hn.
  apply NoDup_app in Hn as (Hna & Hdis & Hn). apply NoDup_cons in Hn as [Hpr Hn].
  assert (p ∉ owned a) as Hpa by (intros Hp'; destruct (Hdis p Hp'); left).
  eapply wp_mono; [by apply insert_law|].
  intros [[r a'] e'] [?|(-> & Hok & old & l & s & Hone & Hold & Hnew & Hdup & ->)]; [by left|right].
  split_and!; [done| | |done|exists s, old, l; by split_and!].
  - split; [done| |].
    + rewrite Hnew. apply (account_insert e _ p (f <| serial := s |>) old); [done|].
      eapply account_perm; [|exact Hac]. rewrite Hold. solve_Permutation.
    + intros q g Hq. rewrite Hnew in Hq. simpl. rewrite lookup_insert_Some, lookup_free_all.
      intros [[<- <-]|[Hne Hq']]; [exact Hgf|]. case_decide; [done|]. eapply Hg; [|exact Hq'].
      rewrite Hold. apply elem_of_cons in Hq as [->|Hq]; [done|]. apply elem_of_app. auto.
  - intros q Hq. simpl. rewrite lookup_insert_ne by (intros ->; done).
    apply lookup_free_all_out. intros Ho. destruct (Hdis q); [|by right]. rewrite Hold. set_solver.
Qed.

Lemma component_delete e a rest k out_port prio strict :
  holds e a rest → remotes_ok (remotes e) → desc_ok k prio strict →
  wp (t_delete a k out_port prio strict e) (λ '((n, a'), e'),
    holds e' a' rest ∧ untouched rest e e' ∧ remotes_ok (remotes e') ∧
    n = Z.of_nat (length (select e (doomed k out_port prio strict) (owned a))) ∧
    owned a' = reject e (doomed k out_port prio strict) (owned a)).
Proof.
  intros [Ha Hac Hg] Hr Hk. eapply wp_mono; [by apply delete_law|].
  intros [[n a'] e'] (-> & Hok & Ho & Hrep). pose proof (reported_heap _ _ _ Hrep) as Hh.
  pose proof (reported_remotes _ _ _ Hrep) as Hr'. set (P := doomed k out_port prio strict) in *.
  split_and!; [split; [done| |]| |done..].
  - rewrite Ho. eapply account_free; [exact Hh|]. eapply account_perm; [|exact Hac].
    by rewrite app_assoc, select_reject_perm.
  - intros q g Hq. rewrite Hh, lookup_free_all. case_decide; [done|]. apply Hg.
    rewrite Ho in Hq. by apply reject_elem in Hq as [_ Hq].
  - intros q Hq. rewrite Hh. apply lookup_free_all_out. rewrite select_elem. intros [_ Ho'].
    pose proof (ac_nodup _ _ Hac) as Hn. apply NoDup_app in Hn as (_ & Hdis & _). by eapply Hdis.
Qed.

Lemma component_modify e a rest k prio strict acts :
  holds e a rest → key_ok k → acts_ok acts → good acts →
  wp (t_modify a k prio strict acts e) (λ '(n, e'),
    holds e' a rest ∧ untouched rest e e' ∧ remotes e' = remotes e ∧
    n = Z.of_nat (length (select e (described k prio strict) (owned a))) ∧
    now_msec e' = now_msec e ∧ (n = 0 → heap e' = heap e)).
Proof.
  intros [Ha Hac Hg] Hk Hacts Hgood. eapply wp_mono; [by apply modify_law|].
  intros [n e'] (-> & [Hframe Hhit (m & He' & _)]). set (hits := select _ _ _) in *.
  assert (∀ q, q ∈ hits → q ∈ owned a) as Hsub by (intros q Hq; by apply select_elem in Hq as [_ Hq]).
  split_and!; [split| |by rewrite He'|done|by rewrite He'|].
  5: { intros Hn. assert (hits = []) as E by (apply length_zero_iff_nil; lia).
       apply map_eq. intros q. apply Hframe. rewrite E. apply not_elem_of_nil. }
  - eapply table_ok_frame; [exact Ha|]. intros q f Hq Hf. destruct (decide (q ∈ hits)) as [Hh|Hh].
    + destruct (Hhit q f Hh Hf) as (b & -> & Hb & _). eexists. split; [done|].
      split; try done. simpl. by destruct Hb as [->| ->].
    + rewrite Hframe by done. exists f. by split.
  - eapply account_dom; [|exact Hac]. intros q. destruct (decide (q ∈ hits)) as [Hh|Hh].
    + destruct (proj2 (ac_dom _ _ Hac q)) as [f Hf]; [apply elem_of_app; auto|].
      destruct (Hhit q f Hh Hf) as (b & -> & _). rewrite Hf. split; eauto.
    + by rewrite Hframe.
  - intros q g Hown Hq. destruct (decide (q ∈ hits)) as [Hh|Hh].
    + destruct (proj2 (ac_dom _ _ Hac q)) as [f Hf]; [apply elem_of_app; auto|].
      destruct (Hhit q f Hh Hf) as (b & Hb & Hor & _). rewrite Hb in Hq. injection Hq as <-. simpl.
      destruct Hor as [->| ->]; [done|by eapply Hg].
    + rewrite Hframe in Hq by done. by eapply Hg.
  - intros q Hq. apply Hframe. intros Hh. pose proof (ac_nodup _ _ Hac) as Hn.
    apply NoDup_app in Hn as (_ & Hdis & _). eapply Hdis; [by apply Hsub|done].
Qed.

Lemma flow_timeout_acts now f : sf_acts (flow_timeout now f).2 = sf_acts f.
Proof. unfold flow_timeout. by repeat case_match. Qed.

Lemma component_timeout e a rest :
  holds e a rest →
  wp (t_timeout a [] e) (λ '((a', deleted), e'),
    holds e' a' (deleted ++ rest) ∧ untouched rest e e' ∧ remotes e' = remotes e ∧
    deleted = select e (expired (now_msec e)) (owned a) ∧
    owned a' = reject e (expired (now_msec e)) (owned a) ∧
    timed_out (now_msec e) (owned a) (heap e) (heap e') ∧ e' = e <| heap := heap e' |>).
Proof.
  intros [Ha Hac Hg]. eapply wp_mono; [by apply timeout_law|].
  intros [[a' d] e'] (-> & Hok & Ho & Ht & He'). rewrite app_nil_l.
  split_and!; [split; [done| |]| |by rewrite He'|done..].
  - rewrite Ho. eapply account_dom; [|eapply account_perm; [|exact Hac]].
    + intros q. rewrite Ht. case_decide; [|done]. destruct (heap e !! q); simpl; split; intros []; eauto.
    + rewrite app_assoc, (Permutation_app_comm (reject _ _ _)). by rewrite select_reject_perm.
  - intros q g Hq. rewrite Ho in Hq. apply reject_elem in Hq as [_ Hq].
    rewrite Ht. case_decide; [|by apply Hg]. rewrite fmap_Some. intros (f & Hf & ->).
    rewrite flow_timeout_acts. by eapply Hg.
  - intros q Hq. rewrite Ht. apply decide_False. intros Ho'. pose proof (ac_nodup _ _ Hac) as Hn.
    apply NoDup_app in Hn as (_ & Hdis & _). by eapply Hdis.
Qed.

Lemma component_destroy e a rest :
  holds e a rest →
  wp (t_destroy a e) (λ '(_, e'), account e' rest ∧ untouched rest e e' ∧ remotes e' = remotes e).
Proof.
  intros [Ha Hac Hg]. eapply wp_mono; [by apply destroy_law|]. intros [[] e'] ->.
  split_and!; [by eapply account_free|intros q Hq|done]. simpl. apply lookup_free_all_out. intros Ho.
  pose proof (ac_nodup _ _ Hac) as Hn. apply NoDup_app in Hn as (_ & Hdis & _). by eapply Hdis.
Qed.
End component.

(** ** The chain *)

Section chain.
  Context {T : Type} `{TableLaws T}.
  Context (good : list Z → Prop).
  Implicit Types (c : sw_chain T) (e : env) (loose : list ptr).

Definition emerg_owned c : list ptr := match emerg_table c with Some t => owned t | None => [] end.

Definition chain_owned c : list ptr := owned (tables c) ++ emerg_owned c.

(** The entries that exist are those of the chain and those that the caller
    holds ([loose]). *)
Record accounted e c loose : Prop := {
  at_tables : table_ok e (tables c);
  at_emerg : ∃ t, emerg_table c = Some t ∧ table_ok e t;
  at_account : account e (chain_owned c ++ loose);
  at_good : all_good good e (chain_owned c);
}.

Lemma all_good_app e l1 l2 : all_good good e (l1 ++ l2) ↔ all_good good e l1 ∧ all_good good e l2.
Proof. unfold all_good. setoid_rewrite elem_of_app. naive_solver. Qed.

Lemma accounted_split e c t loose :
  emerg_table c = Some t →
  accounted e c loose ↔
  table_ok e (tables c) ∧ table_ok e t ∧ account e ((owned (tables c) ++ owned t) ++ loose) ∧
  all_good good e (owned (tables c)) ∧ all_good good e (owned t).
Proof.
  intros Ht. split.
  - intros [H1 (t' & E & H2) H3 H4]. assert (t' = t) as -> by congruence.
    unfold chain_owned, emerg_owned in H3, H4. rewrite Ht in H3, H4. apply all_good_app in H4. tauto.
  - intros (H1 & H2 & H3 & H4). split; try done; [by exists t|..];
      unfold chain_owned, emerg_owned; rewrite Ht; [done|by apply all_good_app].
Qed.

Lemma accounted_tables e c t loose :
  emerg_table c = Some t →
  accounted e c loose ↔
  holds good e (tables c) (owned t ++ loose) ∧ table_ok e t ∧ all_good good e (owned t).
Proof.
  intros Ht. rewrite (accounted_split e c t) by done. split.
  - intros (H1 & H2 & H3 & H4 & H5). rewrite <-app_assoc in H3. by split.
  - intros ([H1 H2 H3] & H4 & H5). rewrite <-app_assoc. by split_and!.
Qed.

Lemma accounted_emerg e c t loose :
  emerg_table c = Some t →
  accounted e c loose ↔
  holds good e t (owned (tables c) ++ loose) ∧ table_ok e (tables c) ∧ all_good good e (owned (tables c)).
Proof.
  intros Ht. rewrite (accounted_split e c t) by done. split.
  - intros (H1 & H2 & H3 & H4 & H5). split; [|done]. split; [done| |done].
    revert H3. apply account_perm. solve_Permutation.
  - intros ([H1 H2 H3] & H4 & H5). split_and!; try done.
    revert H2. apply account_perm. solve_Permutation.
Qed.

Lemma untouched_ok {A} `{TableLaws A} (a : A) l e e' :
  table_ok e a ∧ all_good good e (owned a) → untouched (owned a ++ l) e e' →
  table_ok e' a ∧ all_good good e' (owned a).
Proof.
  intros [Ha Hg] Hu. split.
  - eapply table_ok_frame; [exact Ha|]. apply untouched_same. intros p Hp. apply Hu, elem_of_app. auto.
  - intros p f Hp. rewrite Hu by (apply elem_of_app; auto). by apply Hg.
Qed.

(** ** Lookup *)

(** What a lookup leaves of a table: all but the counters. *)
Definition same_impls (ts ts' : list (sw_table T)) : Prop := impl <$> ts' = impl <$> ts.

Lemma lookup_table_spec t k e :
  table_ok e t → flow_range (kflow k) → wildcards k = 0 →
  wp (lookup_table t k e) (λ '((r, t'), e'), e' = e ∧ impl t' = impl t ∧
    n_lookup t' = u64 (n_lookup t + 1) ∧
    match r with
    | Some p => p ∈ owned t ∧ holds_at e (matches k) p = true
    | None => select e (matches k) (owned t) = []
    end).
Proof.
  intros Ht Hk Hw. unfold lookup_table. run_step. eapply wp_mono; [by apply lookup_law|].
  intros [r e'] [-> Hr]. cbn beta iota delta [fst snd]. run. by destruct r.
Qed.

Lemma same_impls_ok e ts ts' :
  same_impls ts ts' → (table_ok e ts' ↔ table_ok e ts) ∧ owned ts' = owned ts.
Proof.
  assert (∀ ts ts', same_impls ts ts' → owned ts' = owned ts) as Ho.
  { clear. induction ts as [|t ts IH]; intros [|t' ts'] [=]; [done|].
    change (owned (impl t') ++ owned ts' = owned (impl t) ++ owned ts). f_equal; [congruence|auto]. }
  intros Hs. split; [|auto]. revert ts' Hs.
  induction ts as [|t ts IH]; intros [|t' ts'] Hs; try done. pose proof Hs as [= E1 E2].
  pose proof (IH ts' E2) as IH'. pose proof (Ho ts ts' E2) as E3.
  change (table_ok e (impl t') ∧ table_ok e ts' ∧ (∀ p, p ∈ owned (impl t') → p ∉ owned ts') ↔
          table_ok e (impl t) ∧ table_ok e ts ∧ (∀ p, p ∈ owned (impl t) → p ∉ owned ts)).
  rewrite E1, E3. tauto.
Qed.

Lemma lookup_tables_spec ts k e :
  table_ok e ts → flow_range (kflow k) → wildcards k = 0 →
  wp (lookup_tables ts k e) (λ '((r, ts'), e'), e' = e ∧ same_impls ts ts' ∧
    match r with
    | Some p => p ∈ owned ts ∧ holds_at e (matches k) p = true
    | None => select e (matches k) (owned ts) = []
    end).
Proof.
  intros Hts Hk Hw. induction ts as [|t ts IH]; cbn [lookup_tables]; [done|].
  destruct Hts as (Ht & Hts & _). run_step. eapply wp_mono; [by apply lookup_table_spec|].
  intros [[r t'] e'] (-> & E & _ & Hr). cbn beta iota delta [fst snd].
  change (owned (t :: ts)) with (owned t ++ owned ts).
  destruct r as [p|]; run.
  - split; [done|]. split; [unfold same_impls; simpl; by rewrite E|]. rewrite elem_of_app. tauto.
  - eapply wp_mono; [by apply IH|]. intros [[r ts'] e'] (-> & Hs & Hr').
    cbn beta iota delta [fst snd]. run. split; [done|].
    split; [unfold same_impls; rewrite !fmap_cons; congruence|].
    destruct r as [p|]; [rewrite elem_of_app; tauto|]. by rewrite select_app, Hr, Hr'.
Qed.
End chain.


(** ** Every operation accounts for every entry *)

Section theorems.
  Context {T : Type} `{TableLaws T}.
  Context (good : list Z → Prop).
  Implicit Types (c : sw_chain T) (e : env) (loose : list ptr).

(** The calls of the datapath on its chain. *)
Inductive chain_op :=
| ChLookup (k : sw_flow_key) (emerg : bool)
| ChInsert (p : ptr) (emerg : bool)
| ChModify (k : sw_flow_key) (prio : Z) (strict : bool) (actions : list Z) (emerg : bool)
| ChConflict (k : sw_flow_key) (prio : Z) (strict : bool)
| ChDelete (k : sw_flow_key) (out_port prio : Z) (strict emerg : bool)
| ChTimeout.

(** A call, and the entries the caller holds after it. *)
Definition run_op (op : chain_op) c loose : M env (sw_chain T * list ptr) :=
  match op with
  | ChLookup k emerg => '(_, c) ← chain_lookup c k emerg; mret (c, loose)
  | ChInsert p emerg =>
      '(r, c) ← chain_insert c p emerg;
      mret (c, if r =? 0 then filter (λ q, q ≠ p) loose else loose)
  | ChModify k prio strict actions emerg =>
      _ ← chain_modify c k prio strict actions emerg; mret (c, loose)
  | ChConflict k prio strict => _ ← chain_has_conflict c k prio strict; mret (c, loose)
  | ChDelete k out_port prio strict emerg =>
      '(_, c) ← chain_delete c k out_port prio strict emerg; mret (c, loose)
  | ChTimeout => '(c, deleted) ← chain_timeout c []; mret (c, deleted ++ loose)
  end.

Definition op_ok e loose (op : chain_op) : Prop :=
  match op with
  | ChLookup k _ => flow_range (kflow k) ∧ wildcards k = 0
  | ChInsert p _ => p ∈ loose ∧ ∃ f, heap e !! p = Some f ∧ entry_ok f ∧ good (sf_acts f)
  | ChModify k _ _ actions _ => key_ok k ∧ acts_ok actions ∧ good actions
  | ChConflict k _ _ => key_ok k
  | ChDelete k _ prio strict _ => desc_ok k prio strict
  | ChTimeout => True
  end.

Lemma take_out p (l : list ptr) : NoDup l → p ∈ l → l ≡ₚ p :: filter (λ q, q ≠ p) l.
Proof.
  intros Hn Hp. apply list_elem_of_split in Hp as (l1 & l2 & ->).
  apply NoDup_app in Hn as (_ & Hd & [Hp Hn]%NoDup_cons).
  rewrite filter_app, filter_cons_False by tauto.
  rewrite !filter_id; [by rewrite Permutation_middle| |].
  - intros x Hx ->. done.
  - intros x Hx ->. apply (Hd p Hx). left.
Qed.

Lemma accounted_loose e c loose : accounted good e c loose → NoDup loose.
Proof. intros [_ _ [Hn _] _]. by apply NoDup_app in Hn as (_ & _ & ?). Qed.

Lemma op_lookup e c loose k emerg :
  accounted good e c loose → flow_range (kflow k) → wildcards k = 0 →
  wp (chain_lookup c k emerg e) (λ '((r, c'), e'), e' = e ∧
    (accounted good e c' loose ∧ owned (tables c') = owned (tables c)) ∧
    let l := if emerg then emerg_owned c else owned (tables c) in
    match r with
    | Some p => p ∈ l ∧ holds_at e (matches k) p = true
    | None => select e (matches k) l = []
    end).
Proof.
  intros Hac Hk Hw. pose proof (at_emerg _ _ _ _ Hac) as (t & Et & Ht). unfold chain_lookup.
  run_step. apply wp_lift_assert; [by rewrite Hw|]. cbn beta iota delta [fst snd]. destruct emerg.
  - run_deref Et. run_step. eapply wp_mono; [by apply lookup_table_spec|].
    intros [[r t'] e'] (-> & Ei & _ & Hm). cbn beta iota delta [fst snd]. run. split; [done|].
    split; [split; [|done]|unfold emerg_owned; by rewrite Et].
    apply (accounted_emerg good e c t) in Hac as [[H1 H2 H3] H4]; [|done].
    apply (accounted_emerg good e _ t'); [done|]. split; [|done].
    assert (owned t' = owned t) as Eo by (change (owned (impl t') = owned (impl t)); by rewrite Ei).
    split; [|by rewrite Eo|by rewrite Eo]. change (table_ok e (impl t')). by rewrite Ei.
  - run. eapply wp_mono; [apply lookup_tables_spec; [apply Hac|done|done]|].
    intros [[r ts'] e'] (-> & Hs & Hm). cbn beta iota delta [fst snd]. run. split; [done|].
    split; [|done]. destruct (same_impls_ok e _ _ Hs) as [Hok Ho]. destruct Hac as [H1 H2 H3 H4].
    split; [|exact Ho]. split; [by apply Hok|done|..].
    + change (account e ((owned ts' ++ emerg_owned c) ++ loose)). rewrite Ho. exact H3.
    + change (all_good good e (owned ts' ++ emerg_owned c)). rewrite Ho. exact H4.
Qed.

Lemma op_insert e c loose p emerg :
  accounted good e c loose → op_ok e loose (ChInsert p emerg) →
  wp (chain_insert c p emerg e) (λ '((r, c'), e'),
    (accounted good e' c' (if r =? 0 then filter (λ q, q ≠ p) loose else loose) ∧
     remotes e' = remotes e) ∧
    ((r = - ENOBUFS ∧ e' = e ∧ c' = c) ∨
     (r = 0 ∧ ∃ f s, heap e !! p = Some f ∧
      joins p (f <| serial := s |>) (if emerg then emerg_owned c else owned (tables c))
        (if emerg then emerg_owned c' else owned (tables c')) e e' ∧
      if emerg then tables c' = tables c else emerg_table c' = emerg_table c))).
Proof.
  intros Hac (Hp & f & Hf & Hok & Hgf). pose proof (at_emerg _ _ _ _ Hac) as (t & Et & Ht).
  pose proof (take_out p loose (accounted_loose _ _ _ Hac) Hp) as Hl.
  set (loose' := filter (λ q, q ≠ p) loose) in *. unfold chain_insert.
  assert (∀ l, l ++ loose ≡ₚ p :: l ++ loose') as Hperm
    by (intros l; rewrite Hl; by rewrite Permutation_middle).
  destruct emerg.
  - pose proof (proj1 (accounted_emerg good e c t loose Et) Hac) as [[H1 H2 H3] H4].
    run_deref Et. run_step. eapply wp_mono; [apply (component_insert good e t (owned (tables c) ++ loose') p f);
      [split; [done|by rewrite <-Hperm|done]|exact Hf|done|done]|].
    intros [[r t'] e'] [(-> & -> & ->)|(-> & Hh & Hu & Hr & s & Hs)];
      cbn beta iota delta [fst snd]; run.
    + assert (c <| emerg_table := Some t |> = c) as -> by (destruct c; simpl in *; by rewrite Et).
      split; [done|by left].
    + split; [split; [|done]|right; unfold emerg_owned; rewrite Et; eauto 10].
      apply (accounted_emerg good e' _ t'); [done|].
      split; [done|]. by eapply untouched_ok.
  - pose proof (proj1 (accounted_tables good e c t loose Et) Hac) as [[H1 H2 H3] H4].
    run. eapply wp_mono; [apply (component_insert good e (tables c) (owned t ++ loose') p f);
      [split; [done|by rewrite <-Hperm|done]|exact Hf|done|done]|].
    intros [[r t'] e'] [(-> & -> & ->)|(-> & Hh & Hu & Hr & s & Hs)];
      cbn beta iota delta [fst snd]; run.
    + assert (c <| tables := tables c |> = c) as -> by by destruct c. split; [done|by left].
    + split; [split; [|done]|right; eauto 10]. apply (accounted_tables good e' _ t); [done|].
      split; [done|]. by eapply untouched_ok.
Qed.

Lemma op_delete e c loose k out_port prio strict emerg :
  accounted good e c loose → remotes_ok (remotes e) → desc_ok k prio strict →
  wp (chain_delete c k out_port prio strict emerg e) (λ '((n, c'), e'),
    accounted good e' c' loose ∧ remotes_ok (remotes e') ∧
    let l := if emerg then emerg_owned c else owned (tables c) in
    n = Z.of_nat (length (select e (doomed k out_port prio strict) l)) ∧
    (if emerg then emerg_owned c' else owned (tables c')) =
      reject e (doomed k out_port prio strict) l ∧
    (if emerg then tables c' = tables c else emerg_table c' = emerg_table c)).
Proof.
  intros Hac Hr Hk. pose proof (at_emerg _ _ _ _ Hac) as (t & Et & Ht). unfold chain_delete.
  destruct emerg.
  - pose proof (proj1 (accounted_emerg good e c t loose Et) Hac) as [Hh H4].
    run_deref Et. run_step. eapply wp_mono; [by apply (component_delete good e t)|].
    intros [[n t'] e'] (Hh' & Hu & Hr' & -> & Ho). cbn beta iota delta [fst snd]. run.
    split_and!; [|done| | |done].
    + apply (accounted_emerg good e' _ t'); [done|]. split; [done|]. by eapply untouched_ok.
    + unfold emerg_owned. by rewrite Et.
    + unfold emerg_owned. rewrite Et. exact Ho.
  - pose proof (proj1 (accounted_tables good e c t loose Et) Hac) as [Hh H4].
    run_step. eapply wp_mono; [by apply (component_delete good e (tables c))|].
    intros [[n ts'] e'] (Hh' & Hu & Hr' & -> & Ho). cbn beta iota delta [fst snd]. run.
    split_and!; [|done..]. apply (accounted_tables good e' _ t); [done|]. split; [done|].
    by eapply untouched_ok.
Qed.

Lemma op_modify e c loose k prio strict acts emerg :
  accounted good e c loose → key_ok k → acts_ok acts → good acts →
  wp (chain_modify c k prio strict acts emerg e) (λ '(n, e'),
    accounted good e' c loose ∧ remotes e' = remotes e ∧ 0 <= n ∧
    (n = 0 → emerg = false → select e (described k prio strict) (owned (tables c)) = []) ∧
    now_msec e' = now_msec e ∧ (n = 0 → heap e' = heap e)).
Proof.
  intros Hac Hk Ha Hg. pose proof (at_emerg _ _ _ _ Hac) as (t & Et & Ht). unfold chain_modify.
  destruct emerg.
  - pose proof (proj1 (accounted_emerg good e c t loose Et) Hac) as [Hh H4].
    run_deref Et. eapply wp_mono; [by apply (component_modify good e t)|].
    intros [n e'] (Hh' & Hu & Hr' & -> & Hnow & Hsame). split_and!; [|done|lia|done|done|done].
    apply (accounted_emerg good e' _ t); [done|]. split; [done|]. by eapply untouched_ok.
  - pose proof (proj1 (accounted_tables good e c t loose Et) Hac) as [Hh H4].
    eapply wp_mono; [by apply (component_modify good e (tables c))|].
    intros [n e'] (Hh' & Hu & Hr' & -> & Hnow & Hsame). split_and!; [|done|lia| |done|done].
    + apply (accounted_tables good e' _ t); [done|]. split; [done|]. by eapply untouched_ok.
    + intros Hn _. apply length_zero_iff_nil. lia.
Qed.

Lemma op_timeout e c loose :
  accounted good e c loose →
  wp (chain_timeout c [] e) (λ '((c', deleted), e'),
    accounted good e' c' (deleted ++ loose) ∧ remotes e' = remotes e ∧
    deleted = select e (expired (now_msec e)) (owned (tables c)) ∧
    owned (tables c') = reject e (expired (now_msec e)) (owned (tables c)) ∧
    emerg_owned c' = emerg_owned c ∧
    timed_out (now_msec e) (owned (tables c)) (heap e) (heap e') ∧ e' = e <| heap := heap e' |>).
Proof.
  intros Hac. pose proof (at_emerg _ _ _ _ Hac) as (t & Et & Ht). unfold chain_timeout.
  pose proof (proj1 (accounted_tables good e c t loose Et) Hac) as [Hh H4].
  run_step. eapply wp_mono; [by apply (component_timeout good e (tables c))|].
  intros [[ts' d] e'] ([H1 H2 H3] & Hu & Hr' & -> & Ho & Hto & He'). cbn beta iota delta [fst snd]. run.
  split_and!; [|done..]. apply (accounted_tables good e' _ t); [done|].
  split; [|by eapply untouched_ok]. split; [done| |done].
  revert H2. apply account_perm. solve_Permutation.
Qed.

Lemma op_conflict e c loose k prio strict :
  accounted good e c loose → key_ok k →
  wp (chain_has_conflict c k prio strict e) (λ '(b, e'), e' = e ∧
    (b = true ↔ select e (conflicting k prio strict) (owned (tables c)) ≠ [])).
Proof. intros Hac Hk. apply has_conflict_law; [apply Hac|done]. Qed.

(** C3: whatever the datapath asks of the chain, no flow entry is leaked, freed
    twice or used after it is freed: if the allocated entries are exactly those of
    the chain's tables and those that the caller holds, without sharing, then the
    call terminates and the same is true after it, where an inserted entry has
    moved from the caller to the chain and expired entries from the chain to the
    caller.  Destroying the chain frees all its entries and no others. *)
Theorem chain_accounts_for_entries op e c loose :
  accounted good e c loose → remotes_ok (remotes e) → op_ok e loose op →
  wp (run_op op c loose e) (λ '((c', loose'), e'),
    accounted good e' c' loose' ∧ remotes_ok (remotes e')) ∧
  wp (chain_destroy c e) (λ '(_, e'), ∀ p, is_Some (heap e' !! p) ↔ p ∈ loose).
Proof.
  intros Hac Hr Hop. split.
  - destruct op as [k emerg|p emerg|k prio strict acts emerg|k prio strict|k out prio strict emerg|];
      cbn [run_op]; run_step.
    + destruct Hop. eapply wp_mono; [by apply op_lookup|]. by intros [[r c'] e'] (-> & [? _] & _).
    + eapply wp_mono; [by apply op_insert|]. intros [[r c'] e'] [[? E] _]. split; [done|]. simpl. by rewrite E.
    + destruct Hop as (? & ? & ?). eapply wp_mono; [by apply op_modify|]. intros [n e'] (? & E & _).
      split; [done|]. simpl. by rewrite E.
    + eapply wp_mono; [by apply (op_conflict e c loose)|]. by intros [b e'] [-> _].
    + eapply wp_mono; [by apply op_delete|]. intros [[n c'] e'] (? & ? & _). by split.
    + eapply wp_mono; [by apply op_timeout|]. intros [[c' d] e'] (? & E & _). split; [done|].
      simpl. by rewrite E.
  - pose proof (at_emerg _ _ _ _ Hac) as (t & Et & Ht). unfold chain_destroy.
    pose proof (proj1 (accounted_tables good e c t loose Et) Hac) as [Hh H4].
    run_step. eapply wp_mono; [by apply (component_destroy good e (tables c))|].
    intros [[] e1] (Hac1 & Hu & _). cbn beta iota delta [fst snd]. run_deref Et.
    eapply wp_mono; [apply destroy_law; by eapply (untouched_ok good)|]. intros [[] e2] ->.
    apply (account_free e1 _ (owned t)); [done|done].
Qed.

(** C19: a lookup returns an entry that matches the packet, taken from the ordinary
    tables, or a null pointer if and only if no entry of these tables matches; it
    changes nothing but the counters of the tables. *)
Theorem chain_lookup_complete e c loose k :
  accounted good e c loose → flow_range (kflow k) → wildcards k = 0 →
  wp (chain_lookup c k false e) (λ '((r, c'), e'), e' = e ∧ accounted good e c' loose ∧
    match r with
    | Some p => p ∈ owned (tables c) ∧ p ∉ emerg_owned c ∧
        ∃ f, heap e !! p = Some f ∧ flow_matches_1wild k (key f) = true
    | None => ∀ p f, p ∈ owned (tables c) → heap e !! p = Some f →
        flow_matches_1wild k (key f) = false
    end).
Proof.
  intros Hac Hk Hw. eapply wp_mono; [by apply op_lookup|]. intros [[r c'] e'] (-> & [Hac' _] & Hr).
  split_and!; [done|done|]. cbv zeta in Hr. pose proof (at_account _ _ _ _ Hac) as [Hn Hd].
  unfold chain_owned in Hn. rewrite <-app_assoc in Hn. apply NoDup_app in Hn as (_ & Hdis & _).
  destruct r as [p|].
  - destruct Hr as [Hp Hm]. split_and!; [done| |].
    + intros He. apply (Hdis p Hp), elem_of_app. by left.
    + unfold holds_at in Hm. destruct (heap e !! p) as [f|]; [by exists f|done].
  - intros p f Hp Hf. destruct (flow_matches_1wild k (key f)) eqn:E; [|done].
    assert (p ∈ select e (matches k) (owned (tables c))) as Hs.
    { apply select_elem. split; [|done]. by rewrite (holds_at_some _ _ _ _ Hf). }
    rewrite Hr in Hs. by apply not_elem_of_nil in Hs.
Qed.
End theorems.


End ChainFacts.
