(* ===== verification/ChainProps.v ===== *)
(** * The chain of the switch

    Creation of the chain, and what becomes of it when memory runs out; a run of
    the switch's chain that leaves two copies of an entry; concrete chains on which
    the properties of ChainFacts.v are instantiated. *)

From S2P Require Import Prelude Csum Ofp Ofpbuf Flow FlowFacts SwitchFlow SwitchFlowFacts Rconn.
From S2P Require Import RconnFacts Env EnvFacts Table TableLinear TableLinearFacts TableSeq.
From S2P Require Import TableHash TableHashFacts Chain ChainFacts.
Import Csum Ofp Flow FlowFacts SwitchFlow SwitchFlowFacts Env EnvFacts Table TableSeq Chain ChainFacts.

Module ChainProps.

(** ** Creation *)

(** The next allocation. *)
Definition alloc (e : env) : bool * env :=
  match mem e with [] => (true, e) | b :: l => (b, e <| mem := l |>) end.

Lemma malloc_ok_eq e : malloc_ok e = Ok (alloc e).
Proof. unfold malloc_ok, alloc, mbind, M_bind, get. by destruct (mem e). Qed.

(** [n] allocations, up to the first that fails. *)
Fixpoint allocs (n : nat) (e : env) : bool * env :=
  match n with
  | O => (true, e)
  | S n => let '(b, e) := alloc e in if b then allocs n e else (false, e)
  end.

Lemma allocs_add n m e :
  allocs (n + m) e = let '(b, e) := allocs n e in if b then allocs m e else (false, e).
Proof.
  revert e. induction n as [|n IH]; intros e; [done|]. simpl. destruct (alloc e) as [[] e1]; [|done].
  apply IH.
Qed.

Lemma allocs_heap n e : heap (allocs n e).2 = heap e ∧ remotes (allocs n e).2 = remotes e.
Proof.
  revert e. induction n as [|n IH]; intros e; [done|]. simpl.
  assert (heap (alloc e).2 = heap e ∧ remotes (alloc e).2 = remotes e) as [<- <-]
    by (unfold alloc; by destruct (mem e)).
  destruct (alloc e) as [[] e1]; [apply IH|done].
Qed.

Definition fresh_hash (poly n : Z) : TableHash.sw_table_hash :=
  TableHash.mk_sw_table_hash (crc32_init poly) 0 (u32 (n - 1)) (replicate (Z.to_nat n) None).

Definition fresh_linear (n : Z) : TableLinear.sw_table_linear :=
  TableLinear.mk_sw_table_linear n 0 [] [] 0.

Lemma fresh_owned poly n : TableHashFacts.hash_owned (fresh_hash poly n) = [].
Proof.
  unfold TableHashFacts.hash_owned, fresh_hash. cbn [TableHash.buckets]. by induction (Z.to_nat n).
Qed.

Lemma fresh_hash_ok e poly k : 0 <= k < 32 → TableHashFacts.hash_ok e (fresh_hash poly (2 ^ k)).
Proof.
  intros Hk. assert (0 < 2 ^ k < 2 ^ 32) as Hn.
  { split; [lia|]. apply Z.pow_lt_mono_r; lia. }
  assert (u32 (2 ^ k - 1) = 2 ^ k - 1) as Em by (apply Z.mod_small; lia).
  split; rewrite ?fresh_owned; unfold fresh_hash; cbn [TableHash.buckets TableHash.bucket_mask].
  - rewrite length_replicate, Em. f_equal. lia.
  - exists k. rewrite Z.ones_equiv. split; [done|]. rewrite Em. lia.
  - intros i p. by rewrite lookup_replicate; intros [[=] _].
  - constructor.
  - done.
Qed.

Lemma fresh_linear_ok e n : 0 <= n < 2 ^ 32 → TableLinearFacts.linear_ok e (fresh_linear n).
Proof.
  intros Hn. split; simpl; try done; try constructor; try lia.
  intros p Hp. by apply not_elem_of_nil in Hp.
Qed.

Lemma hash_create_eq poly n e :
  truth (n .& u32 (n - 1)) = false →
  TableHash.table_hash_create poly n e =
    let '(b, e) := allocs 2 e in Ok (if b then Some (fresh_hash poly n) else None, e).
Proof.
  intros Hn. unfold TableHash.table_hash_create, mbind, M_bind. rewrite malloc_ok_eq. cbn [allocs].
  destruct (alloc e) as [[] e1]; [|done]. rewrite Hn. cbn [negb lift assert_c].
  rewrite malloc_ok_eq. by destruct (alloc e1) as [[] e2].
Qed.

Lemma hash_destroy_fresh poly n e : TableHash.table_hash_destroy (fresh_hash poly n) e = Ok (tt, e).
Proof.
  unfold TableHash.table_hash_destroy, fresh_hash. cbn [TableHash.buckets].
  induction (Z.to_nat n); done.
Qed.

Lemma linear_create_eq n e :
  TableLinear.table_linear_create n e =
    let '(b, e) := alloc e in Ok (if b then Some (fresh_linear n) else None, e).
Proof.
  unfold TableLinear.table_linear_create, mbind, M_bind. rewrite malloc_ok_eq.
  by destruct (alloc e) as [[] e1].
Qed.

Definition fresh_hash2 : TableHash.sw_table_hash2 :=
  TableHash.mk_sw_table_hash2 (fresh_hash 0x1EDC6F41 TABLE_HASH_MAX_FLOWS)
    (fresh_hash 0x741B8CD7 TABLE_HASH_MAX_FLOWS).

Lemma hash2_create_eq e :
  TableHash.table_hash2_create 0x1EDC6F41 TABLE_HASH_MAX_FLOWS 0x741B8CD7 TABLE_HASH_MAX_FLOWS e =
    let '(b, e) := allocs 5 e in Ok (if b then Some fresh_hash2 else None, e).
Proof.
  unfold TableHash.table_hash2_create, mbind, M_bind. rewrite malloc_ok_eq.
  change 5%nat with (1 + (2 + 2))%nat. rewrite allocs_add. cbn [allocs].
  destruct (alloc e) as [[] e1]; [|done]. cbn [negb].
  rewrite hash_create_eq by (vm_compute; reflexivity). rewrite allocs_add.
  destruct (allocs 2 e1) as [[] e2]; [|done].
  rewrite hash_create_eq by (vm_compute; reflexivity).
  destruct (allocs 2 e2) as [[] e3]; [done|]. by rewrite hash_destroy_fresh.
Qed.

Definition fresh_chain : sw_chain switch_table :=
  mk_sw_chain [mk_sw_table (hash2_impl fresh_hash2) 0 0;
               mk_sw_table (linear_impl (fresh_linear TABLE_LINEAR_MAX_FLOWS)) 0 0]
    (Some (mk_sw_table (linear_impl (fresh_linear TABLE_LINEAR_MAX_FLOWS)) 0 0)).

#[local] Existing Instances TableHash.hash2_table TableLinear.linear_table
  TableHashFacts.hash2_table_laws TableLinearFacts.linear_table_laws.

Lemma fresh_chain_owned : chain_owned fresh_chain = [].
Proof.
  change (chain_owned fresh_chain) with
    ((((TableHashFacts.hash_owned (fresh_hash 0x1EDC6F41 TABLE_HASH_MAX_FLOWS) ++
        TableHashFacts.hash_owned (fresh_hash 0x741B8CD7 TABLE_HASH_MAX_FLOWS)) ++ [] ++ [])
      ++ []) : list ptr).
  by rewrite !fresh_owned.
Qed.

(** A new chain has no entries. *)
Lemma fresh_chain_accounted good e loose :
  account e loose → accounted good e fresh_chain loose.
Proof.
  intros Ha.
  assert (table_ok e (hash2_impl fresh_hash2)) as Hh.
  { split; [apply (fresh_hash_ok e _ 16); lia..|]. intros p Hp.
    change (p ∈ TableHashFacts.hash_owned (fresh_hash 0x1EDC6F41 TABLE_HASH_MAX_FLOWS)) in Hp.
    rewrite fresh_owned in Hp. by apply not_elem_of_nil in Hp. }
  assert (table_ok e (linear_impl (fresh_linear TABLE_LINEAR_MAX_FLOWS))) as Hl
    by (apply (fresh_linear_ok e); unfold TABLE_LINEAR_MAX_FLOWS; lia).
  split; [|by eexists|by rewrite fresh_chain_owned|].
  2: { intros p f Hp. rewrite fresh_chain_owned in Hp. by apply not_elem_of_nil in Hp. }
  split; [exact Hh|]. split; [split; [exact Hl|split; [done|]]|];
    intros p _ Hp; by apply not_elem_of_nil in Hp.
Qed.

Lemma hash2_destroy_fresh e : TableHash.table_hash2_destroy fresh_hash2 e = Ok (tt, e).
Proof.
  unfold TableHash.table_hash2_destroy, mbind, M_bind, fresh_hash2.
  cbn [TableHash.subtable0 TableHash.subtable1]. by rewrite !hash_destroy_fresh.
Qed.

Lemma add_table_eq (c : sw_chain switch_table) t emerg e :
  (length (tables c) < CHAIN_MAX_TABLES)%nat →
  add_table c (Some t) emerg e =
    Ok (0, if emerg then c <| emerg_table := Some (mk_sw_table t 0 0) |>
           else c <| tables := tables c ++ [mk_sw_table t 0 0] |>, e).
Proof.
  intros Hl. unfold add_table. rewrite (proj2 (Nat.leb_gt _ _)) by done. by destruct emerg.
Qed.

(** Creating the chain returns a chain without entries when the allocations
    succeed and a null pointer when the chain itself cannot be allocated; but if
    the allocation of one of its tables fails, the process crashes instead of
    reporting the error, since the cleanup destroys the emergency table, which
    does not exist yet. *)
Theorem chain_create_exact good e loose :
  account e loose →
  (chain_create e =
     let '(b, e) := alloc e in
     if negb b then Ok (None, e)
     else let '(b, e) := allocs 7 e in if b then Ok (Some fresh_chain, e) else Abort) ∧
  accounted good (allocs 8 e).2 fresh_chain loose.
Proof.
  intros Ha. split.
  - unfold chain_create, mbind, M_bind. rewrite malloc_ok_eq.
    destruct (alloc e) as [[] e1]; [|done]. cbn [negb]. rewrite hash2_create_eq.
    change 7%nat with (5 + (1 + 1))%nat. rewrite allocs_add.
    destruct (allocs 5 e1) as [[] e2]; [|done].
    cbn [fmap option_fmap option_map allocs Nat.add]. rewrite add_table_eq by (vm_compute; lia).
    cbn [truth Z.eqb negb]. rewrite linear_create_eq. destruct (alloc e2) as [[] e3]; [|done].
    cbn [fmap option_fmap option_map]. rewrite add_table_eq by (vm_compute; lia).
    cbn [truth Z.eqb negb]. rewrite linear_create_eq. destruct (alloc e3) as [[] e4]; [|done].
    cbn [fmap option_fmap option_map]. by rewrite add_table_eq by (vm_compute; lia).
  - apply fresh_chain_accounted. split; [apply Ha|]. intros p.
    rewrite (proj1 (allocs_heap 8 e)). apply Ha.
Qed.

(** ** A stale copy *)

(** An entry for the packets from address [src] on port 1. *)
Definition host_key (src : Z) : sw_flow_key :=
  mk_sw_flow_key (zero_flow <| in_port := htons 1 |> <| nw_src := src |>) 0 (make_nw_mask 0) (make_nw_mask 0).

Definition host_entry (src : Z) (acts : list Z) : sw_flow :=
  (new_flow 0) <| key := host_key src |> <| priority := 65535 |> <| sf_acts := acts |>.

Definition insert_entry (c : sw_chain switch_table) (f : sw_flow) : M env (sw_chain switch_table) :=
  e ← get;
  let p := fresh (dom (heap e)) in
  modify (λ e, e <| heap := <[p := f]> (heap e) |>);;
  '(r, c) ← chain_insert c p false;
  lift (assert_c (r =? 0));;
  mret c.

(** Two hosts whose entries have the same place in the first hash table: the
    second goes to the second hash table.  When the first is deleted, and the
    second entry is sent again with other actions, it goes to the first table. *)
Definition stale_run : M env (sw_chain switch_table) :=
  c ← chain_create;
  c ← lift (deref c);
  c ← insert_entry c (host_entry 15633 []);
  c ← insert_entry c (host_entry 0 [1]);
  '(n, c) ← chain_delete c (host_key 15633) (htons OFPP_NONE) 65535 true false;
  lift (assert_c (n =? 1));;
  insert_entry c (host_entry 0 [2]).

(** The entries of a chain: key, priority and actions. *)
Definition entries (c : sw_chain switch_table) (e : env) : list (sw_flow_key * Z * list Z) :=
  omap (λ p, (λ f, (key f, priority f, sf_acts f)) <$> heap e !! p) (owned (tables c)).

(** [chain_insert] does not replace every duplicate, as its comment says: on
    the switch's own chain there is a run that leaves two entries with the same
    key and the same priority, the older of which (with the actions [1]) comes
    back into force when the newer one expires. *)
Theorem chain_keeps_stale_copy :
  ∃ c e, stale_run (env_of ∅) = Ok (c, e) ∧
    entries c e = [(host_key 0, 65535, [2]); (host_key 0, 65535, [1])].
Proof.
  assert (match stale_run (env_of ∅) with Ok (c, e) => Some (entries c e) | _ => None end =
          Some [(host_key 0, 65535, [2]); (host_key 0, 65535, [1])]) as H by (vm_compute; reflexivity).
  destruct (stale_run (env_of ∅)) as [[c e]| |]; [|done..]. exists c, e. split; [done|].
  by injection H.
Qed.

(** ** Witnesses *)

Lemma account_single p f : account (env_of {[p := f]}) [p].
Proof.
  split; [apply NoDup_singleton|]. intros q. simpl. rewrite list_elem_of_singleton.
  destruct (decide (q = p)) as [->|Hq].
  - rewrite lookup_singleton_eq. split; eauto.
  - rewrite lookup_singleton_ne by done. split; [by intros []|done].
Qed.

Definition example_env : env := env_of {[1%positive := exact_entry 256]}.

Lemma example_accounted : accounted (λ _, True) example_env fresh_chain [1%positive].
Proof. apply fresh_chain_accounted, account_single. Qed.

Lemma chain_accounts_for_entries_witness :
  wp (run_op (ChInsert 1%positive false) fresh_chain [1%positive] example_env) (λ '((c', loose'), e'),
    accounted (λ _, True) e' c' loose' ∧ remotes_ok (remotes e')).
Proof.
  destruct (chain_accounts_for_entries (λ _, True) (ChInsert 1%positive false) example_env fresh_chain
    [1%positive] example_accounted) as [H _]; [constructor| |exact H].
  split; [left|]. exists (exact_entry 256). split; [reflexivity|]. split; [apply exact_entry_ok; lia|exact I].
Defined.

Lemma chain_lookup_complete_witness :
  wp (chain_lookup fresh_chain (exact_key 256) false example_env) (λ '((r, c'), e'), e' = example_env ∧
    accounted (λ _, True) example_env c' [1%positive] ∧
    match r with
    | Some p => p ∈ owned (tables fresh_chain) ∧ p ∉ emerg_owned fresh_chain ∧
        ∃ f, heap example_env !! p = Some f ∧ flow_matches_1wild (exact_key 256) (key f) = true
    | None => ∀ p f, p ∈ owned (tables fresh_chain) → heap example_env !! p = Some f →
        flow_matches_1wild (exact_key 256) (key f) = false
    end).
Proof.
  apply (chain_lookup_complete (λ _, True) example_env fresh_chain [1%positive] (exact_key 256));
    [apply example_accounted|apply (exact_key_ok 256); lia|reflexivity].
Defined.

Lemma chain_create_exact_witness :
  chain_create (example_env <| mem := [true; false] |>) = Abort.
Proof.
  destruct (chain_create_exact (λ _, True) (example_env <| mem := [true; false] |>) [1%positive])
    as [-> _]; [|reflexivity].
  destruct (account_single 1%positive (exact_entry 256)) as [H1 H2]. split; [exact H1|exact H2].
Defined.


End ChainProps.
