(* ===== verification/DpAct.v ===== *)
(** * udatapath/dp_act.c: OpenFlow actions

    Validation of lists of actions, and the actions that change a packet.  A list
    of actions is an object in memory, and an action header is an offset in it; a
    packet is an [ofpbuf], whose header pointers are offsets in its region.  The
    loop that executes a list, with the output of packets, is in Datapath.v. *)

From S2P Require Import Prelude Csum Ofp Ofpbuf Flow SwitchFlow.
Import Csum Ofp Ofpbuf Flow SwitchFlow.

Module DpAct.

Definition ACT_VALIDATION_OK : Z := 65535.

(** [n - m] in a [size_t]; a size that wraps around is that of no object, and the
    next access with it aborts. *)
Definition size_sub (n m : nat) : comp nat := assert_c (m <=? n)%nat;; Ok (n - m)%nat.

(** ** Validation *)

Definition validate_output (k : sw_flow_key) (acts : list Z) (ah : nat) : comp Z :=
  port ← load acts (ah + 4) 2;
  Ok (if (port =? htons OFPP_NONE)
         || (negb (truth (wildcards k .& OFPFW_IN_PORT)) && (port =? in_port (kflow k)))
      then OFPBAC_BAD_OUT_PORT else ACT_VALIDATION_OK).

Definition validate_queue (k : sw_flow_key) (acts : list Z) (ah : nat) : comp Z :=
  port ← load acts (ah + 4) 2;
  Ok (if (OFPP_MAX <? ntohs port) && negb (ntohs port =? OFPP_IN_PORT)
      then OFPBAC_BAD_OUT_PORT else ACT_VALIDATION_OK).

(** ** Changing the packet *)

Definition modify_vlan_tci (b : ofpbuf) (k : sw_flow_key) (tci mask : Z)
    : comp (ofpbuf * sw_flow_key) :=
  eh ← deref (l2 b);
  '(veh, b) ←
    (if negb (dl_vlan (kflow k) =? htons OFP_VLAN_NONE) then
       old ← load (base b) (eh + o_veth_tci) 2;
       mem ← store (base b) (eh + o_veth_tci) 2 ((old .& Z.lnot (htons mask)) .| htons tci);
       Ok (eh, b <| base := mem |>)
     else
       dst ← load_bytes (base b) (eh + o_eth_dst) ETH_ADDR_LEN;
       src ← load_bytes (base b) (eh + o_eth_src) ETH_ADDR_LEN;
       typ ← load (base b) (eh + o_eth_type) 2;
       '(veh, b) ← ofpbuf_push_uninit b VLAN_HEADER_LEN;
       mem ← memcpy (base b) veh (dst ++ src ++ le_bytes 2 (htons ETH_TYPE_VLAN)
                                  ++ le_bytes 2 (htons tci) ++ le_bytes 2 typ);
       Ok (veh, b <| base := mem |> <| l2 := Some (eh - VLAN_HEADER_LEN)%nat |>));
  new ← load (base b) (veh + o_veth_tci) 2;
  Ok (b, k <| kflow := (kflow k)
                <| dl_vlan := new .& htons VLAN_VID_MASK |>
                <| dl_vlan_pcp := u8 ((ntohs new >> VLAN_PCP_SHIFT) .& VLAN_PCP_BITMASK) |> |>).

Definition vlan_pull_tag (b : ofpbuf) : comp ofpbuf :=
  veh ← deref (l2 b);
  typ ← load (base b) (veh + o_eth_type) 2;
  if typ =? htons ETH_TYPE_VLAN then
    dst ← load_bytes (base b) (veh + o_eth_dst) ETH_ADDR_LEN;
    src ← load_bytes (base b) (veh + o_eth_src) ETH_ADDR_LEN;
    next ← load (base b) (veh + o_veth_next_type) 2;
    n ← size_sub (size b) VLAN_HEADER_LEN;
    let b := b <| size := n |> <| data := (data b + VLAN_HEADER_LEN)%nat |>
               <| l2 := Some (veh + VLAN_HEADER_LEN)%nat |> in
    mem ← memcpy (base b) (data b) (dst ++ src ++ le_bytes 2 next);
    Ok (b <| base := mem |>)
  else Ok b.

Definition set_vlan_vid (b : ofpbuf) (k : sw_flow_key) (acts : list Z) (ah : nat)
    : comp (ofpbuf * sw_flow_key) :=
  vid ← load acts (ah + 4) 2;
  modify_vlan_tci b k (ntohs vid) VLAN_VID_MASK.

Definition set_vlan_pcp (b : ofpbuf) (k : sw_flow_key) (acts : list Z) (ah : nat)
    : comp (ofpbuf * sw_flow_key) :=
  pcp ← load acts (ah + 4) 1;
  modify_vlan_tci b k (u16 (pcp << 13)) VLAN_PCP_MASK.

Definition strip_vlan (b : ofpbuf) (k : sw_flow_key) (acts : list Z) (ah : nat)
    : comp (ofpbuf * sw_flow_key) :=
  b ← vlan_pull_tag b;
  Ok (b, k <| kflow := (kflow k) <| dl_vlan := htons OFP_VLAN_NONE |> |>).

Definition set_dl_addr (b : ofpbuf) (k : sw_flow_key) (acts : list Z) (ah : nat)
    : comp (ofpbuf * sw_flow_key) :=
  eh ← deref (l2 b);
  typ ← load acts ah 2;
  addr ← load_bytes acts (ah + 4) ETH_ADDR_LEN;
  mem ← memcpy (base b)
          (eh + if typ =? htons OFPAT_SET_DL_SRC then o_eth_src else o_eth_dst) addr;
  Ok (b <| base := mem |>, k).

Definition set_nw_addr (b : ofpbuf) (k : sw_flow_key) (acts : list Z) (ah : nat)
    : comp (ofpbuf * sw_flow_key) :=
  if ntohs (dl_type (kflow k)) =? ETH_TYPE_IP then
    nh ← deref (l3 b);
    new ← load acts (ah + 4) 4;
    typ ← load acts ah 2;
    let o_field := if typ =? htons OFPAT_SET_NW_SRC then o_ip_src else o_ip_dst in
    let field := (nh + o_field)%nat in
    mem ←
      (if nw_proto (kflow k) =? IP_TYPE_TCP then
         th ← deref (l4 b);
         csum ← load (base b) (th + o_tcp_csum) 2;
         old ← load (base b) field 4;
         store (base b) (th + o_tcp_csum) 2 (recalc_csum32 csum old new)
       else if nw_proto (kflow k) =? IP_TYPE_UDP then
         th ← deref (l4 b);
         csum ← load (base b) (th + o_udp_csum) 2;
         if truth csum then
           old ← load (base b) field 4;
           let csum := recalc_csum32 csum old new in
           store (base b) (th + o_udp_csum) 2 (if truth csum then csum else 0xffff)
         else Ok (base b)
       else Ok (base b));
    csum ← load mem (nh + o_ip_csum) 2;
    old ← load mem field 4;
    mem ← store mem (nh + o_ip_csum) 2 (recalc_csum32 csum old new);
    mem ← store mem field 4 new;
    Ok (b <| base := mem |>, k)
  else Ok (b, k).

Definition set_nw_tos (b : ofpbuf) (k : sw_flow_key) (acts : list Z) (ah : nat)
    : comp (ofpbuf * sw_flow_key) :=
  if ntohs (dl_type (kflow k)) =? ETH_TYPE_IP then
    nh ← deref (l3 b);
    tos ← load acts (ah + 4) 1;
    field ← load (base b) (nh + o_ip_tos) 1;
    let new := (tos .& 0xFC) .| (field .& 0x03) in
    csum ← load (base b) (nh + o_ip_csum) 2;
    mem ← store (base b) (nh + o_ip_csum) 2 (recalc_csum32 csum (htons field) (htons new));
    mem ← store mem (nh + o_ip_tos) 1 new;
    Ok (b <| base := mem |>, k)
  else Ok (b, k).

Definition set_tp_port (b : ofpbuf) (k : sw_flow_key) (acts : list Z) (ah : nat)
    : comp (ofpbuf * sw_flow_key) :=
  if ntohs (dl_type (kflow k)) =? ETH_TYPE_IP then
    new ← load acts (ah + 4) 2;
    typ ← load acts ah 2;
    let set th field csum_field :=
      csum ← load (base b) (th + csum_field) 2;
      old ← load (base b) (th + field) 2;
      mem ← store (base b) (th + csum_field) 2 (recalc_csum16 csum old new);
      mem ← store mem (th + field) 2 new;
      Ok (b <| base := mem |>, k) in
    if nw_proto (kflow k) =? IP_TYPE_TCP then
      th ← deref (l4 b);
      set th (if typ =? htons OFPAT_SET_TP_SRC then o_tcp_src else o_tcp_dst) o_tcp_csum
    else if nw_proto (kflow k) =? IP_TYPE_UDP then
      th ← deref (l4 b);
      set th (if typ =? htons OFPAT_SET_TP_SRC then o_udp_src else o_udp_dst) o_udp_csum
    else Ok (b, k)
  else Ok (b, k).

(** ** The table of actions *)

Record openflow_action := mk_openflow_action {
  min_size : Z;
  max_size : Z;
  validate : option (sw_flow_key → list Z → nat → comp Z);
  execute : option (ofpbuf → sw_flow_key → list Z → nat → comp (ofpbuf * sw_flow_key));
}.

Definition of_actions : list openflow_action :=
  [ mk_openflow_action 8 8 (Some validate_output) None;
    mk_openflow_action 8 8 None (Some set_vlan_vid);
    mk_openflow_action 8 8 None (Some set_vlan_pcp);
    mk_openflow_action 8 8 None (Some strip_vlan);
    mk_openflow_action 16 16 None (Some set_dl_addr);
    mk_openflow_action 16 16 None (Some set_dl_addr);
    mk_openflow_action 8 8 None (Some set_nw_addr);
    mk_openflow_action 8 8 None (Some set_nw_addr);
    mk_openflow_action 8 8 None (Some set_nw_tos);
    mk_openflow_action 8 8 None (Some set_tp_port);
    mk_openflow_action 8 8 None (Some set_tp_port);
    mk_openflow_action 16 16 (Some validate_queue) None ].

Definition validate_ofpat (k : sw_flow_key) (acts : list Z) (ah : nat) (type len : Z) : comp Z :=
  act ← deref (of_actions !! Z.to_nat type);
  if (len <? min_size act) || (max_size act <? len) then Ok OFPBAC_BAD_LEN
  else match validate act with
       | Some validate => validate k acts ah
       | None => Ok ACT_VALIDATION_OK
       end.

(** No vendor is known. *)
Definition validate_vendor (acts : list Z) (ah : nat) (len : Z) : comp Z :=
  if len <? 8 then Ok OFPBAC_BAD_LEN
  else _ ← load acts (ah + 4) 4; Ok OFPBAC_BAD_VENDOR.

(** The loop of [validate_actions], at offset [p] with [actions_len] bytes left. *)
Fixpoint validate_loop (fuel : nat) (k : sw_flow_key) (acts : list Z) (p : nat) (actions_len : Z)
    : comp Z :=
  if actions_len <? 8 then
    Ok (if actions_len =? 0 then ACT_VALIDATION_OK else OFPBAC_BAD_LEN)
  else match fuel with
  | O => NoFuel
  | S fuel =>
      len ← load acts (p + 2) 2;
      let len := ntohs len in
      if (actions_len <? len) || truth (len mod 8) then Ok OFPBAC_BAD_LEN
      else
        type ← load acts p 2;
        let type := ntohs type in
        err ←
          (if type <? Z.of_nat (length of_actions) then validate_ofpat k acts p type len
           else if type =? OFPAT_VENDOR then validate_vendor acts p len
           else Ok OFPBAC_BAD_TYPE);
        if negb (err =? ACT_VALIDATION_OK) then Ok err
        else validate_loop fuel k acts (p + Z.to_nat len) (actions_len - len)
  end.

(** [acts] is the memory from the first action on; a list that does not fit into
    it makes the loop read beyond it. *)
Definition validate_actions (k : sw_flow_key) (acts : list Z) (actions_len : Z) : comp Z :=
  validate_loop (S (length acts)) k acts 0 actions_len.

Definition execute_ofpat (b : ofpbuf) (k : sw_flow_key) (acts : list Z) (ah : nat) (type : Z)
    : comp (ofpbuf * sw_flow_key) :=
  act ← deref (of_actions !! Z.to_nat type);
  match execute act with
  | Some execute => execute b k acts ah
  | None => Ok (b, k)
  end.

(** An action of an unknown vendor is only reported. *)
Definition execute_vendor (b : ofpbuf) (k : sw_flow_key) (acts : list Z) (ah : nat)
    : comp (ofpbuf * sw_flow_key) :=
  _ ← load acts (ah + 4) 4; Ok (b, k).

End DpAct.
