(* ===== verification/Datapath.v ===== *)
(** * udatapath/datapath.c: ports, packets and forwarding

    The state of a datapath: the environment shared with the tables (Env.v), the
    chain, the ports, the packet buffers that exist, and the array of packets kept
    for the controller.  Packet buffers are allocated and freed explicitly, so
    that leaks and uses of freed buffers show.  Network devices are the datapath's
    environment: their results are part of the state.

    A packet may go through the tables again (output to OFPP_TABLE), which makes
    output and forwarding mutually recursive; the recursion is on [depth], the
    room that is left on the stack. *)

From S2P Require Import Prelude Csum Ofp Ofpbuf Flow SwitchFlow Stp Rconn Env Table TableSeq Chain DpAct.
Import Ofp Ofpbuf Flow SwitchFlow Env Table Chain DpAct.

Module Datapath.

Definition DP_MAX_PORTS : Z := 255.
Definition SWP_USED : Z := 1.
Definition NETDEV_MAX_QUEUES : Z := 8.

Definition PKT_BUFFER_BITS : Z := 8.
Definition N_PKT_BUFFERS : Z := 1 << PKT_BUFFER_BITS.
Definition PKT_BUFFER_MASK : Z := N_PKT_BUFFERS - 1.
Definition PKT_COOKIE_BITS : Z := 32 - PKT_BUFFER_BITS.
Definition OVERWRITE_SECS : Z := 1.

(** A network device: what it is, the results of the next calls, and the frames
    sent, each with its class. *)
Record netdev := mk_netdev {
  nd_name : list Z;
  nd_etheraddr : list Z;
  nd_features : list Z;          (* current, supported, advertised, peer *)
  nd_mtu : nat;
  nd_send : list Z;
  nd_recv : list (Z * list Z);
  nd_sent : list (list Z * Z);
  nd_class : list Z;             (* results of the next changes of classes *)
}.
#[export] Instance netdev_eta : Eta netdev := λ n,
  mk_netdev (nd_name n) (nd_etheraddr n) (nd_features n) (nd_mtu n) (nd_send n) (nd_recv n)
    (nd_sent n) (nd_class n).

Record sw_queue := mk_sw_queue {
  q_tx_packets : Z;
  q_tx_bytes : Z;
  q_tx_errors : Z;
  queue_id : Z;
  class_id : Z;
  property : Z;
  min_rate : Z;
}.
#[export] Instance sw_queue_eta : Eta sw_queue := λ q,
  mk_sw_queue (q_tx_packets q) (q_tx_bytes q) (q_tx_errors q) (queue_id q) (class_id q) (property q)
    (min_rate q).

Record sw_port := mk_sw_port {
  config : Z;
  pstate : Z;
  pflags : Z;
  pnetdev : option netdev;
  rx_packets : Z;
  tx_packets : Z;
  rx_bytes : Z;
  tx_bytes : Z;
  tx_dropped : Z;
  port_no : Z;
  num_queues : Z;
  queue_list : list sw_queue;
}.
#[export] Instance sw_port_eta : Eta sw_port := λ p,
  mk_sw_port (config p) (pstate p) (pflags p) (pnetdev p) (rx_packets p) (tx_packets p)
    (rx_bytes p) (tx_bytes p) (tx_dropped p) (port_no p) (num_queues p) (queue_list p).

(** A pointer to a port: an element of [ports], or [local_port]. *)
Inductive port_ref := port_at (i : nat) | local_port_ref.
#[export] Instance port_ref_eq_dec : EqDecision port_ref.
Proof. solve_decision. Defined.

Record packet_buffer := mk_packet_buffer {
  pb_buffer : option ptr;
  pb_cookie : Z;
  pb_timeout : Z;
}.
#[export] Instance packet_buffer_eta : Eta packet_buffer := λ p,
  mk_packet_buffer (pb_buffer p) (pb_cookie p) (pb_timeout p).

Record datapath := mk_datapath {
  dp_env : env;
  chain : sw_chain switch_table;
  last_timeout : Z;
  dp_id : Z;
  dp_desc : list Z;                            (* the characters of the string *)
  flags : Z;
  miss_send_len : Z;
  ports : list sw_port;
  local_port : option sw_port;
  port_list : list port_ref;
  listeners : list (list (Z * Rconn.vconn));   (* what each will accept *)
  bufs : gmap ptr ofpbuf;                      (* the packet buffers that exist *)
  buffers : list packet_buffer;
  buffer_idx : Z;
}.
#[export] Instance datapath_eta : Eta datapath := λ d,
  mk_datapath (dp_env d) (chain d) (last_timeout d) (dp_id d) (dp_desc d) (flags d) (miss_send_len d)
    (ports d) (local_port d) (port_list d) (listeners d) (bufs d) (buffers d) (buffer_idx d).

(** ** State *)

(** An operation on the environment. *)
Definition on_env {A} (m : M env A) : M datapath A := λ d,
  match m (dp_env d) with
  | Ok (a, e) => Ok (a, d <| dp_env := e |>)
  | Abort => Abort
  | NoFuel => NoFuel
  end.

(** An operation that also changes the chain. *)
Definition on_chain {A} (m : sw_chain switch_table → M env (A * sw_chain switch_table)) : M datapath A :=
  d ← get;
  '(a, c) ← on_env (m (chain d));
  modify (λ d, d <| chain := c |>);;
  mret a.

Definition get_buf (b : ptr) : M datapath ofpbuf :=
  d ← get; lift (deref (bufs d !! b)).

Definition set_buf (b : ptr) (x : ofpbuf) : M datapath unit :=
  _ ← get_buf b; modify (λ d, d <| bufs := <[b := x]> (bufs d) |>).

Definition new_buf (x : ofpbuf) : M datapath ptr :=
  d ← get;
  let b := fresh (dom (bufs d)) in
  modify (λ d, d <| bufs := <[b := x]> (bufs d) |>);;
  mret b.

Definition ofpbuf_delete (b : ptr) : M datapath unit :=
  _ ← get_buf b; modify (λ d, d <| bufs := delete b (bufs d) |>).

Definition read_port (r : port_ref) : M datapath sw_port :=
  d ← get;
  lift (deref (match r with port_at i => ports d !! i | local_port_ref => local_port d end)).

Definition write_port (r : port_ref) (p : sw_port) : M datapath unit :=
  modify (λ d, match r with
               | port_at i => d <| ports := <[i := p]> (ports d) |>
               | local_port_ref => d <| local_port := Some p |>
               end).

Definition dp_lookup_port (no : Z) : M datapath (option port_ref) :=
  d ← get;
  mret (if no <? DP_MAX_PORTS then Some (port_at (Z.to_nat no))
        else if no =? OFPP_LOCAL then (λ _, local_port_ref) <$> local_port d
        else None).

(** The index of a queue in the list of queues of a port. *)
Definition dp_lookup_queue (p : sw_port) (id : Z) : option nat :=
  fst <$> list_find (λ q, queue_id q = id) (queue_list p).

(** The queues of a port.  The list head of a port that was never set up is all
    zero, and walking it follows a null pointer. *)
Definition queues_of (p : sw_port) : comp (list sw_queue) :=
  _ ← deref (pnetdev p); Ok (queue_list p).

Section forwarding.
Context `{Malloc}.

(** A value of an uninitialised variable. *)
Definition uninit : Z := le_int (xmalloc 4).

Definition clone_buf (b : ptr) : M datapath ptr :=
  x ← get_buf b; c ← lift (ofpbuf_clone x); new_buf c.

(** ** Packet buffering *)

(** Puts a copy into slot [idx], which was [p], and returns its id.  The id of all
    ones is special: the largest cookie is not used. *)
Definition fill_slot (idx : Z) (p : packet_buffer) (buffer : ptr) : M datapath Z :=
  let cookie := u32 (pb_cookie p + 1) in
  let cookie := if (1 << PKT_COOKIE_BITS) - 1 <=? cookie then 0 else cookie in
  copy ← clone_buf buffer;
  modify (λ d, d <| buffers := <[Z.to_nat idx :=
    mk_packet_buffer (Some copy) cookie (now_sec (dp_env d) + OVERWRITE_SECS)]> (buffers d) |>);;
  mret (u32 (idx .| u32 (cookie << PKT_BUFFER_BITS))).

Definition save_buffer (buffer : ptr) : M datapath Z :=
  d ← get;
  let idx := (buffer_idx d + 1) .& PKT_BUFFER_MASK in
  modify (λ d, d <| buffer_idx := idx |>);;
  p ← lift (deref (buffers d !! Z.to_nat idx));
  full ←
    (match pb_buffer p with
     | Some old =>
         if now_sec (dp_env d) <? pb_timeout p then mret true
         else ofpbuf_delete old;; mret false
     | None => mret false
     end);
  if full : bool then mret UINT32_MAX else fill_slot idx p buffer.

Definition retrieve_buffer (id : Z) : M datapath (option ptr) :=
  d ← get;
  let i := Z.to_nat (id .& PKT_BUFFER_MASK) in
  p ← lift (deref (buffers d !! i));
  if pb_cookie p =? id >> PKT_BUFFER_BITS then
    modify (λ d, d <| buffers := <[i := p <| pb_buffer := None |>]> (buffers d) |>);;
    mret (pb_buffer p)
  else mret None.

Definition discard_buffer (id : Z) : M datapath unit :=
  d ← get;
  let i := Z.to_nat (id .& PKT_BUFFER_MASK) in
  p ← lift (deref (buffers d !! i));
  if pb_cookie p =? id >> PKT_BUFFER_BITS then
    match pb_buffer p with Some b => ofpbuf_delete b | None => mret tt end;;
    modify (λ d, d <| buffers := <[i := p <| pb_buffer := None |>]> (buffers d) |>)
  else mret tt.

(** ** Output *)

(** The bytes of a packet-in message before the packet. *)
Definition packet_in_header (size buffer_id total_len in_port reason : Z) : list Z :=
  [OFP_VERSION; OFPT_PACKET_IN] ++ le_bytes 2 (htons (u16 size)) ++ le_bytes 4 0
  ++ le_bytes 4 (htonl buffer_id) ++ le_bytes 2 (htons (u16 total_len))
  ++ le_bytes 2 (htons (u16 in_port)) ++ [u8 reason; 0].

Definition dp_output_control (buffer : ptr) (in_port max_len reason : Z) : M datapath unit :=
  buffer_id ← save_buffer buffer;
  b ← get_buf buffer;
  let total_len := Z.of_nat (size b) in
  let b := if negb (buffer_id =? UINT32_MAX) && (max_len <? total_len)
           then b <| size := Z.to_nat max_len |> else b in
  '(opi, b) ← lift (ofpbuf_push_uninit b 18);
  mem ← lift (memcpy (base b) opi
    (packet_in_header (Z.of_nat (size b)) buffer_id total_len in_port reason));
  let b := b <| base := mem |> in
  ofpbuf_delete buffer;;
  _ ← on_env (send_openflow_buffer (contents b) None);
  mret tt.

(** Hands a frame to the device: the result, and the device. *)
Definition netdev_send (n : netdev) (frame : list Z) (class : Z) : comp (Z * netdev) :=
  assert_c (class <=? NETDEV_MAX_QUEUES);;
  match nd_send n with
  | [] => Ok (0, n <| nd_sent := nd_sent n ++ [(frame, class)] |>)
  | r :: l =>
      Ok (r, if r =? 0 then n <| nd_send := l |> <| nd_sent := nd_sent n ++ [(frame, class)] |>
             else n <| nd_send := l |>)
  end.

(** The transmission of [output_packet] on a port that is up. *)
Definition transmit (r : port_ref) (p : sw_port) (n : netdev) (buffer : ptr)
    (q : option nat) (class : Z) : M datapath unit :=
  b ← get_buf buffer;
  '(err, n) ← lift (netdev_send n (contents b) class);
  let p := p <| pnetdev := Some n |> in
  let bytes := Z.of_nat (size b) in
  if err =? 0 then
    let count q := q <| q_tx_packets := u64 (q_tx_packets q + 1) |>
                     <| q_tx_bytes := u64 (q_tx_bytes q + bytes) |> in
    write_port r (p <| tx_packets := u64 (tx_packets p + 1) |>
                    <| tx_bytes := u64 (tx_bytes p + bytes) |>
                    <| queue_list := match q with
                                     | Some i => alter count i (queue_list p)
                                     | None => queue_list p
                                     end |>)
  else write_port r (p <| tx_dropped := u64 (tx_dropped p + 1) |>).

Definition output_packet (buffer : ptr) (out_port id : Z) : M datapath unit :=
  r ← dp_lookup_port (u16 out_port);
  match r with
  | None => ofpbuf_delete buffer
  | Some r =>
      p ← read_port r;
      match pnetdev p with
      | None => ofpbuf_delete buffer
      | Some n =>
          if truth (config p .& OFPPC_PORT_DOWN) then ofpbuf_delete buffer
          else if id =? 0 then transmit r p n buffer None 0;; ofpbuf_delete buffer
          else match dp_lookup_queue p id with
               | Some i =>
                   q ← lift (deref (queue_list p !! i));
                   transmit r p n buffer (Some i) (class_id q);;
                   ofpbuf_delete buffer
               | None => ofpbuf_delete buffer
               end
      end
  end.

(** How packets leave: buffer, input port, output port, queue. *)
Definition output_fun : Type := ptr → Z → Z → Z → M datapath unit.

(** The loop of [output_all]; [prev_port] is the last port found, or -1. *)
Fixpoint output_loop (out : output_fun) (rs : list port_ref) (buffer : ptr) (in_port : Z)
    (flood : bool) (prev_port : Z) : M datapath Z :=
  match rs with
  | [] => mret prev_port
  | r :: rs =>
      p ← read_port r;
      if (port_no p =? in_port) || (flood && truth (config p .& OFPPC_NO_FLOOD))
      then output_loop out rs buffer in_port flood prev_port
      else
        (if negb (prev_port =? -1) then
           copy ← clone_buf buffer; out copy in_port prev_port 0
         else mret tt);;
        output_loop out rs buffer in_port flood (port_no p)
  end.

Definition output_all (out : output_fun) (buffer : ptr) (in_port : Z) (flood : bool) : M datapath unit :=
  d ← get;
  prev_port ← output_loop out (port_list d) buffer in_port flood (-1);
  if negb (prev_port =? -1) then out buffer in_port prev_port 0
  else ofpbuf_delete buffer.

(** udatapath/dp_act.c *)
Definition do_output (out : output_fun) (buffer : ptr) (in_port max_len out_port id : Z)
    : M datapath unit :=
  if negb (out_port =? OFPP_CONTROLLER) then out buffer in_port out_port id
  else dp_output_control buffer in_port max_len OFPR_ACTION.

(** What [execute_actions] remembers of the last output action. *)
Record pending := mk_pending { prev_port : Z; prev_queue : Z; max_len : Z }.

(** The loop of [execute_actions] at offset [p], with [actions_len] bytes left. *)
Fixpoint execute_loop (fuel : nat) (out : output_fun) (buffer : ptr) (k : sw_flow_key)
    (acts : list Z) (p actions_len : nat) (in_port : Z) (o : pending) : M datapath pending :=
  if (actions_len =? 0)%nat then mret o
  else match fuel with
  | O => lift NoFuel
  | S fuel =>
      len ← lift (load acts (p + 2) 2);
      let len := Z.to_nat (ntohs len) in
      (if negb (prev_port o =? -1) then
         copy ← clone_buf buffer;
         do_output out copy in_port (max_len o) (prev_port o) (prev_queue o)
       else mret tt);;
      let o := mk_pending (-1) (prev_queue o) (max_len o) in
      type ← lift (load acts p 2);
      '(k, o) ←
        (if type =? htons OFPAT_OUTPUT then
           port ← lift (load acts (p + 4) 2);
           ml ← lift (load acts (p + 6) 2);
           mret (k, mk_pending (ntohs port) 0 (ntohs ml))
         else if type =? htons OFPAT_ENQUEUE then
           port ← lift (load acts (p + 4) 2);
           q ← lift (load acts (p + 12) 4);
           mret (k, mk_pending (ntohs port) (ntohl q) 0)
         else
           let type := ntohs type in
           b ← get_buf buffer;
           '(b, k) ← lift (if type <? Z.of_nat (length of_actions)
                           then execute_ofpat b k acts p type
                           else if type =? OFPAT_VENDOR then execute_vendor b k acts p
                           else Ok (b, k));
           set_buf buffer b;;
           mret (k, o));
      left ← lift (size_sub actions_len len);
      execute_loop fuel out buffer k acts (p + len) left in_port o
  end.

Definition execute_actions (out : output_fun) (buffer : ptr) (k : sw_flow_key) (acts : list Z)
    (actions_len : nat) : M datapath unit :=
  let in_port := ntohs (in_port (kflow k)) in
  o ← execute_loop (S actions_len) out buffer k acts 0 actions_len in_port
        (mk_pending (-1) 0 UINT16_MAX);
  if negb (prev_port o =? -1) then
    do_output out buffer in_port (max_len o) (prev_port o) (prev_queue o)
  else ofpbuf_delete buffer.

(** Whether the port refuses a packet with the given destination. *)
Definition refuses (p : sw_port) (dst : list Z) : bool :=
  truth (config p .& (OFPPC_NO_RECV .| OFPPC_NO_RECV_STP))
  && truth (config p .& if negb (eth_addr_equals dst Stp.stp_eth_addr)
                        then OFPPC_NO_RECV else OFPPC_NO_RECV_STP).

Definition run_flow_through_tables (out : output_fun) (buffer : ptr) (r : option port_ref)
    : M datapath Z :=
  p ← (match r with Some r => p ← read_port r; mret (Some p) | None => mret None end);
  b ← get_buf buffer;
  '(fragment, f, b) ← lift (flow_extract b (match p with Some p => port_no p | None => OFPP_NONE end));
  set_buf buffer b;;
  d ← get;
  if truth fragment && (flags d .& OFPC_FRAG_MASK =? OFPC_FRAG_DROP)
  then ofpbuf_delete buffer;; mret 0
  else if match p with Some p => refuses p (dl_dst f) | None => false end
  then ofpbuf_delete buffer;; mret 0
  else
    let k := mk_sw_flow_key f 0 uninit uninit in
    flow ← on_chain (λ c, chain_lookup c k false);
    match flow with
    | Some flow =>
        e ← on_env get;
        on_env (write_flow flow (flow_used (now_msec e) (size b)));;
        x ← on_env (read_flow flow);
        execute_actions out buffer k (sf_acts x) (length (sf_acts x));;
        mret 0
    | None => mret (- ESRCH)
    end.

Fixpoint dp_output_port (depth : nat) (buffer : ptr) (in_port out_port id : Z) : M datapath unit :=
  match depth with
  | O => lift NoFuel
  | S depth =>
      _ ← get_buf buffer;
      if out_port =? OFPP_IN_PORT then output_packet buffer in_port id
      else if out_port =? OFPP_TABLE then
        p ← dp_lookup_port (u16 in_port);
        r ← run_flow_through_tables (dp_output_port depth) buffer p;
        if truth r then ofpbuf_delete buffer else mret tt
      else if out_port =? OFPP_FLOOD then output_all (dp_output_port depth) buffer in_port true
      else if out_port =? OFPP_ALL then output_all (dp_output_port depth) buffer in_port false
      else if out_port =? OFPP_CONTROLLER then
        dp_output_control buffer in_port UINT16_MAX OFPR_ACTION
      else if in_port =? out_port then mret tt
      else output_packet buffer out_port id
  end.

Definition fwd_port_input (depth : nat) (buffer : ptr) (r : port_ref) : M datapath unit :=
  err ← run_flow_through_tables (dp_output_port depth) buffer (Some r);
  if truth err then
    p ← read_port r;
    d ← get;
    dp_output_control buffer (port_no p) (miss_send_len d) OFPR_NO_MATCH
  else mret tt.

End forwarding.

End Datapath.
