(* ===== verification/DpMsg.v ===== *)
(** * udatapath/datapath.c: replies, configuration and ports

    The handlers of the messages from the controller that do not touch the flow
    tables.  A message is the object of its bytes; a handler reads its fields where
    the structures of openflow.h have them, and reading beyond the message aborts. *)

From S2P Require Import Prelude Ofp Ofpbuf Flow SwitchFlow Rconn Env OfpMsg Table TableSeq Chain DpAct.
From S2P Require Import Datapath.
Import Ofp Env OfpMsg Chain Datapath.

Module DpMsg.

Definition OFPPR_ADD : Z := 0.
Definition OFPQT_MIN_RATE : Z := 1.
Definition OFP_MAX_PORT_NAME_LEN : nat := 16.

(** [OFPC_FLOW_STATS | OFPC_TABLE_STATS | OFPC_PORT_STATS | OFPC_QUEUE_STATS |
    OFPC_ARP_MATCH_IP] *)
Definition OFP_SUPPORTED_CAPABILITIES : Z := 0x1 .| 0x2 .| 0x4 .| 0x40 .| 0x80.

Definition OFP_SUPPORTED_ACTIONS : Z :=
  (1 << OFPAT_OUTPUT) .| (1 << OFPAT_SET_VLAN_VID) .| (1 << OFPAT_SET_VLAN_PCP)
  .| (1 << OFPAT_STRIP_VLAN) .| (1 << OFPAT_SET_DL_SRC) .| (1 << OFPAT_SET_DL_DST)
  .| (1 << OFPAT_SET_NW_SRC) .| (1 << OFPAT_SET_NW_DST) .| (1 << OFPAT_SET_TP_SRC)
  .| (1 << OFPAT_SET_TP_DST) .| (1 << OFPAT_ENQUEUE).

(** [strncpy] into [n] bytes. *)
Definition strncpy (n : nat) (s : list Z) : list Z := take n s ++ replicate (n - length s) 0.

Definition make_openflow_reply (len : nat) (type : Z) (s : option sender) : comp (list Z) :=
  make_openflow_xid len type (match s with Some s => s_xid s | None => 0 end).

(** The reply of [len] bytes with [body] written after the header. *)
Definition reply_with (len : nat) (type : Z) (s : option sender) (body : list Z) : comp (list Z) :=
  b ← make_openflow_reply len type s;
  memcpy b 8 body.

Definition send (b : list Z) (s : option sender) : M datapath Z :=
  on_env (send_openflow_buffer b s).

Definition dp_send_error_msg (s : option sender) (type code : Z) (msg : list Z) (len : nat)
    : M datapath unit :=
  b ← lift (make_openflow_reply (12 + len) OFPT_ERROR s);
  data ← lift (load_bytes msg 0 len);
  b ← lift (memcpy b 8 (le_bytes 2 (htons (u16 type)) ++ le_bytes 2 (htons (u16 code)) ++ data));
  _ ← send b s;
  mret tt.

(** [ntohs(oh->length)] *)
Definition header_length (msg : list Z) : comp Z := len ← load msg 2 2; Ok (ntohs len).

Definition fill_port_desc (p : sw_port) : list Z :=
  let '(name, addr, feat) :=
    match pnetdev p with
    | Some n => (strncpy OFP_MAX_PORT_NAME_LEN (nd_name n), nd_etheraddr n, nd_features n)
    | None => (replicate 16 0, replicate 6 0, [0; 0; 0; 0])
    end in
  let name := <[15%nat := 0]> name in
  le_bytes 2 (htons (port_no p)) ++ addr ++ name
  ++ le_bytes 4 (htonl (config p)) ++ le_bytes 4 (htonl (pstate p))
  ++ le_bytes 4 (htonl (feat !!! 0%nat)) ++ le_bytes 4 (htonl (feat !!! 2%nat))
  ++ le_bytes 4 (htonl (feat !!! 1%nat)) ++ le_bytes 4 (htonl (feat !!! 3%nat)).

Fixpoint port_descs (rs : list port_ref) : M datapath (list Z) :=
  match rs with
  | [] => mret []
  | r :: rs => p ← read_port r; l ← port_descs rs; mret (fill_port_desc p ++ l)
  end.

Definition dp_send_features_reply (s : option sender) : M datapath unit :=
  d ← get;
  b ← lift (reply_with 32 OFPT_FEATURES_REPLY s
    (le_bytes 8 (htonll (dp_id d)) ++ le_bytes 4 (htonl N_PKT_BUFFERS)
     ++ [u8 (Z.of_nat (length (tables (chain d))))] ++ [0; 0; 0]
     ++ le_bytes 4 (htonl OFP_SUPPORTED_CAPABILITIES) ++ le_bytes 4 (htonl OFP_SUPPORTED_ACTIONS)));
  l ← port_descs (port_list d);
  _ ← send (b ++ l) s;
  mret tt.

(** An unused port has no device: reading its address crashes. *)
Definition update_port_flags (msg : list Z) : M datapath unit :=
  no ← lift (load msg 8 2);
  r ← dp_lookup_port (ntohs no);
  match r with
  | None => mret tt
  | Some r =>
      addr ← lift (load_bytes msg 10 ETH_ADDR_LEN);
      p ← read_port r;
      n ← lift (deref (pnetdev p));
      if negb (bool_decide (addr = nd_etheraddr n)) then mret tt
      else
        mask ← lift (load msg 20 4);
        if truth mask then
          conf ← lift (load msg 16 4);
          let config_mask := ntohl mask in
          write_port r (p <| config :=
            (config p .& Z.lnot config_mask) .| (ntohl conf .& config_mask) |>)
        else mret tt
  end.

Definition send_port_status (p : sw_port) (status : Z) : M datapath unit :=
  b ← lift (make_openflow_xid 64 OFPT_PORT_STATUS 0);
  b ← lift (memcpy b 8 ([u8 status] ++ replicate 7 0 ++ fill_port_desc p));
  _ ← send b None;
  mret tt.

(** The request with another type: barrier and echo replies. *)
Definition make_copy_reply (msg : list Z) (type : Z) : comp (list Z) :=
  len ← header_length msg;
  b ← load_bytes msg 0 (Z.to_nat len);
  store b 1 1 type.

Definition recv_barrier_request (s : option sender) (msg : list Z) : M datapath Z :=
  b ← lift (make_copy_reply msg OFPT_BARRIER_REPLY); send b s.

Definition recv_echo_request (s : option sender) (msg : list Z) : M datapath Z :=
  b ← lift (make_copy_reply msg OFPT_ECHO_REPLY); send b s.

Definition recv_echo_reply (s : option sender) (msg : list Z) : M datapath Z := mret 0.

Definition recv_features_request (s : option sender) (msg : list Z) : M datapath Z :=
  dp_send_features_reply s;; mret 0.

Definition recv_get_config_request (s : option sender) (msg : list Z) : M datapath Z :=
  d ← get;
  b ← lift (reply_with 12 OFPT_GET_CONFIG_REPLY s
    (le_bytes 2 (htons (flags d)) ++ le_bytes 2 (htons (miss_send_len d))));
  send b s.

Definition recv_set_config (s : option sender) (msg : list Z) : M datapath Z :=
  f ← lift (load msg 8 2);
  let f := ntohs f .& OFPC_FRAG_MASK in
  let f := if negb (f .& OFPC_FRAG_MASK =? OFPC_FRAG_NORMAL)
              && negb (f .& OFPC_FRAG_MASK =? OFPC_FRAG_DROP)
           then (f .& Z.lnot OFPC_FRAG_MASK) .| OFPC_FRAG_DROP else f in
  modify (λ d, d <| flags := f |>);;
  n ← lift (load msg 10 2);
  modify (λ d, d <| miss_send_len := ntohs n |>);;
  mret 0.

Definition recv_port_mod (s : option sender) (msg : list Z) : M datapath Z :=
  update_port_flags msg;; mret 0.

(** A queue with its one property. *)
Definition fill_queue_desc (q : sw_queue) : list Z :=
  le_bytes 4 (htonl (queue_id q)) ++ le_bytes 2 (htons 24) ++ [0; 0]
  ++ le_bytes 2 (htons OFPQT_MIN_RATE) ++ le_bytes 2 (htons 16) ++ replicate 4 0
  ++ le_bytes 2 (htons (min_rate q)) ++ replicate 6 0.

Definition recv_queue_get_config_request (s : option sender) (msg : list Z) : M datapath Z :=
  no ← lift (load msg 8 2);
  let no := ntohs no in
  let bad :=
    len ← lift (header_length msg);
    dp_send_error_msg s OFPET_QUEUE_OP_FAILED OFPQOFC_BAD_PORT msg (Z.to_nat len);; mret 0 in
  if no <? OFPP_MAX then
    r ← dp_lookup_port no;
    match r with
    | None => bad
    | Some r =>
        p ← read_port r;
        if negb (port_no p =? no) then bad
        else
          b ← lift (reply_with 16 OFPT_QUEUE_GET_CONFIG_REPLY s (le_bytes 2 (htons no)));
          qs ← lift (queues_of p);
          _ ← send (b ++ concat (fill_queue_desc <$> qs)) s;
          mret 0
    end
  else bad.

(** ** Ports *)

Definition zero_port : sw_port := mk_sw_port 0 0 0 None 0 0 0 0 0 0 0 [].

Definition EXFULL : Z := 54.

(** [new_port], after the device has been opened and set up as [n]. *)
Definition new_port (r : port_ref) (no : Z) (n : netdev) (queues : Z) : M datapath unit :=
  let p := zero_port <| pflags := SWP_USED |> <| pnetdev := Some n |> <| port_no := no |>
             <| num_queues := queues |> in
  write_port r p;;
  modify (λ d, d <| port_list := port_list d ++ [r] |>);;
  send_port_status p OFPPR_ADD.

(** [open] is the result of opening and setting up the device: an error, or the
    device. *)
Definition dp_add_port (open : Z + netdev) (queues : Z) : M datapath Z :=
  d ← get;
  match list_find (λ p, pnetdev p = None) (drop 1 (ports d)) with
  | Some (i, _) =>
      match open with
      | inl err => mret err
      | inr n => new_port (port_at (S i)) (Z.of_nat (S i)) n queues;; mret 0
      end
  | None => mret EXFULL
  end.

Definition dp_add_local_port (open : Z + netdev) (queues : Z) : M datapath Z :=
  d ← get;
  match local_port d with
  | Some _ => mret EXFULL
  | None =>
      match open with
      | inl err => mret err
      | inr n => new_port local_port_ref OFPP_LOCAL n queues;; mret 0
      end
  end.

End DpMsg.
