(* ===== verification/DpFlow.v ===== *)
(** * udatapath/datapath.c, of_ext_msg.c and private-msg.c: flow entries and packets
      from the controller

    The handlers of flow modifications and packets to send out, and of the vendor
    extensions: queues, the description of the switch, and the protection of
    emergency entries. *)

From S2P Require Import Prelude Ofp Ofpbuf Flow SwitchFlow Rconn Env Table TableSeq Chain DpAct Datapath DpMsg.
Import Ofp Ofpbuf Flow SwitchFlow Env Table Chain DpAct Datapath DpMsg.

Module DpFlow.

Definition OFPQOFC_BAD_QUEUE : Z := 1.
Definition OFPQOFC_EPERM : Z := 2.
Definition OFQ_ERR_DISCIPLINE : Z := 3.
Definition PRIVATE_VENDOR_ID : Z := 0x00acde48.
Definition OPENFLOW_VENDOR_ID : Z := 0x000026e1.
Definition OFP_EXT_QUEUE_MODIFY : Z := 0.
Definition OFP_EXT_QUEUE_DELETE : Z := 1.
Definition OFP_EXT_SET_DESC : Z := 2.
Definition PRIVATEOPT_PROTOCOL_STATS_REQUEST : Z := 1.
Definition PRIVATEOPT_PROTOCOL_STATS_REPLY : Z := 2.
Definition PRIVATEOPT_EMERG_FLOW_PROTECTION : Z := 3.
Definition PRIVATEOPT_EMERG_FLOW_RESTORATION : Z := 4.
Definition DESC_STR_LEN : nat := 256.

(** [flow_alloc] for a size that may have wrapped around: an allocation of half
    the address space fails; if the sum with the header wraps again, the block is
    too small for the header. *)
Definition flow_alloc_any (actions_len : Z) : M env (option ptr) :=
  if actions_len <? 2 ^ 63 then flow_alloc (Z.to_nat actions_len)
  else
    ok ← malloc_ok;
    if (ok : bool) && (u64 (8 + actions_len) <? 2 ^ 63) then lift Abort else mret None.

(** The fields of [struct ofp_flow_mod]; reading the structure of a shorter
    message aborts. *)
Record ofp_flow_mod := mk_ofp_flow_mod {
  fm_length : Z;
  fm_match : ofp_match;
  fm_cookie : Z;
  fm_command : Z;
  fm_idle_timeout : Z;
  fm_hard_timeout : Z;
  fm_priority : Z;
  fm_buffer_id : Z;
  fm_out_port : Z;
  fm_flags : Z;
  fm_actions : list Z;        (* what follows in memory *)
}.

Definition flow_mod_at (msg : list Z) : comp ofp_flow_mod :=
  assert_c (72 <=? length msg)%nat;;
  Ok {| fm_length := ntohs (int_at msg 2 2);
        fm_match := match_at msg 8;
        fm_cookie := ntohll (int_at msg 48 8);
        fm_command := ntohs (int_at msg 56 2);
        fm_idle_timeout := ntohs (int_at msg 58 2);
        fm_hard_timeout := ntohs (int_at msg 60 2);
        fm_priority := ntohs (int_at msg 62 2);
        fm_buffer_id := ntohl (int_at msg 64 4);
        fm_out_port := int_at msg 68 2;
        fm_flags := ntohs (int_at msg 70 2);
        fm_actions := drop 72 msg |}.

(** [priority = wildcards ? ntohs(ofm->priority) : -1] *)
Definition entry_priority (k : sw_flow_key) (ofm : ofp_flow_mod) : Z :=
  if truth (wildcards k) then fm_priority ofm else 65535.

Definition is_emerg (ofm : ofp_flow_mod) : bool := truth (fm_flags ofm .& OFPFF_EMERG).

Section handlers.
Context `{Malloc}.
Context (depth : nat).

(** An error message for the flow modification, with the whole of it as data. *)
Definition flow_mod_error (s : option sender) (type code : Z) (msg : list Z) (ofm : ofp_flow_mod)
    : M datapath unit :=
  dp_send_error_msg s type code msg (Z.to_nat (fm_length ofm)).

(** The exits of [add_flow] and [mod_flow] at [error_free_flow] and [error]. *)
Definition flow_mod_fail (flow : option ptr) (ofm : ofp_flow_mod) (error : Z) : M datapath Z :=
  match flow with Some p => on_env (flow_free p) | None => mret tt end;;
  (if negb (fm_buffer_id ofm =? UINT32_MAX) then discard_buffer (fm_buffer_id ofm) else mret tt);;
  mret error.

(** Fills out a new entry and puts it into the chain: the error code. *)
Definition install_flow (p : ptr) (ofm : ofp_flow_mod) (actions_len : Z) : M datapath Z :=
  acts ← lift (load_bytes (fm_actions ofm) 0 (Z.to_nat actions_len));
  e ← on_env get;
  x ← on_env (read_flow p);
  x ← lift (flow_setup_actions (now_msec e) acts
    (x <| cookie := fm_cookie ofm |> <| idle_timeout := fm_idle_timeout ofm |>
       <| hard_timeout := fm_hard_timeout ofm |>
       <| send_flow_rem := if truth (fm_flags ofm .& OFPFF_SEND_FLOW_REM) then 1 else 0 |>
       <| emerg_flow := if is_emerg ofm then 1 else 0 |>));
  on_env (write_flow p (λ _, x));;
  on_chain (λ c, chain_insert c p (is_emerg ofm)).

(** The packet that waits in a buffer for the entry; [flow] is the entry that
    counts it, if one does. *)
Definition apply_to_buffer (flow : option ptr) (ofm : ofp_flow_mod) (actions_len : Z) : M datapath Z :=
  if fm_buffer_id ofm =? UINT32_MAX then mret 0
  else
    buffer ← retrieve_buffer (fm_buffer_id ofm);
    match buffer with
    | None => mret (- ESRCH)
    | Some buffer =>
        b ← get_buf buffer;
        '(_, f, b) ← lift (flow_extract b (ntohs (m_in_port (fm_match ofm))));
        set_buf buffer b;;
        e ← on_env get;
        match flow with
        | Some p => on_env (write_flow p (flow_used (now_msec e) (size b)))
        | None => mret tt
        end;;
        execute_actions (dp_output_port depth) buffer (mk_sw_flow_key f uninit uninit uninit)
          (fm_actions ofm) (Z.to_nat actions_len);;
        mret 0
    end.

Definition add_flow (s : option sender) (msg : list Z) (ofm : ofp_flow_mod) : M datapath Z :=
  let actions_len := u64 (fm_length ofm - 72) in
  flow ← on_env (flow_alloc_any actions_len);
  match flow with
  | None => flow_mod_fail None ofm (- ENOMEM)
  | Some p =>
      let k := flow_extract_match (fm_match ofm) in
      on_env (write_flow p (λ x, x <| key := k |>));;
      v_code ← lift (validate_actions k (fm_actions ofm) actions_len);
      if negb (v_code =? ACT_VALIDATION_OK) then
        flow_mod_error s OFPET_BAD_ACTION v_code msg ofm;;
        flow_mod_fail (Some p) ofm (- ENOMEM)
      else
        let priority := entry_priority k ofm in
        on_env (write_flow p (λ x, x <| SwitchFlow.priority := priority |>));;
        overlap ←
          (if truth (fm_flags ofm .& OFPFF_CHECK_OVERLAP) then
             d ← get; on_env (chain_has_conflict (chain d) k priority false)
           else mret false);
        if overlap : bool then
          flow_mod_error s OFPET_FLOW_MOD_FAILED OFPFMFC_OVERLAP msg ofm;;
          flow_mod_fail (Some p) ofm (- ENOMEM)
        else if is_emerg ofm && (negb (fm_idle_timeout ofm =? OFP_FLOW_PERMANENT)
                                 || negb (fm_hard_timeout ofm =? OFP_FLOW_PERMANENT)) then
          flow_mod_error s OFPET_FLOW_MOD_FAILED OFPFMFC_BAD_EMERG_TIMEOUT msg ofm;;
          flow_mod_fail (Some p) ofm (- ENOMEM)
        else
          error ← install_flow p ofm actions_len;
          if error =? - ENOBUFS then
            flow_mod_error s OFPET_FLOW_MOD_FAILED OFPFMFC_ALL_TABLES_FULL msg ofm;;
            flow_mod_fail (Some p) ofm error
          else if truth error then flow_mod_fail (Some p) ofm error
          else apply_to_buffer (Some p) ofm actions_len
  end.

(** When existing entries were modified, the entry allocated at the beginning is
    neither inserted nor freed. *)
Definition mod_flow (s : option sender) (msg : list Z) (ofm : ofp_flow_mod) : M datapath Z :=
  let actions_len := u64 (fm_length ofm - 72) in
  flow ← on_env (flow_alloc_any actions_len);
  match flow with
  | None => flow_mod_fail None ofm (- ENOMEM)
  | Some p =>
      let k := flow_extract_match (fm_match ofm) in
      on_env (write_flow p (λ x, x <| key := k |>));;
      v_code ← lift (validate_actions k (fm_actions ofm) actions_len);
      if negb (v_code =? ACT_VALIDATION_OK) then
        flow_mod_error s OFPET_BAD_ACTION v_code msg ofm;;
        flow_mod_fail (Some p) ofm (- ENOMEM)
      else
        let priority := entry_priority k ofm in
        on_env (write_flow p (λ x, x <| SwitchFlow.priority := priority |>));;
        acts ← lift (load_bytes (fm_actions ofm) 0 (Z.to_nat actions_len));
        d ← get;
        n ← on_env (chain_modify (chain d) k priority (fm_command ofm =? OFPFC_MODIFY_STRICT) acts
                      (is_emerg ofm));
        error ← (if truth n then mret 0 else install_flow p ofm actions_len);
        if error =? - ENOBUFS then
          flow_mod_error s OFPET_FLOW_MOD_FAILED OFPFMFC_ALL_TABLES_FULL msg ofm;;
          flow_mod_fail (Some p) ofm error
        else if truth error then flow_mod_fail (Some p) ofm error
        else apply_to_buffer None ofm actions_len
  end.

Definition recv_flow (s : option sender) (msg : list Z) : M datapath Z :=
  ofm ← lift (flow_mod_at msg);
  let command := fm_command ofm in
  let k := flow_extract_match (fm_match ofm) in
  if command =? OFPFC_ADD then add_flow s msg ofm
  else if (command =? OFPFC_MODIFY) || (command =? OFPFC_MODIFY_STRICT) then mod_flow s msg ofm
  else if command =? OFPFC_DELETE then
    n ← on_chain (λ c, chain_delete c k (fm_out_port ofm) 0 false (is_emerg ofm));
    mret (if truth n then 0 else - ESRCH)
  else if command =? OFPFC_DELETE_STRICT then
    n ← on_chain (λ c, chain_delete c k (fm_out_port ofm) (entry_priority k ofm) true (is_emerg ofm));
    mret (if truth n then 0 else - ESRCH)
  else mret (- ENODEV).

(** The key's wildcards are never set: whether an output to the input port is
    refused depends on what is on the stack. *)
Definition recv_packet_out (s : option sender) (msg : list Z) : M datapath Z :=
  length ← lift (header_length msg);
  actions_len ← lift (load msg 14 2);
  let actions_len := ntohs actions_len in
  if u64 (length - 16) <? actions_len then mret (- EINVAL)
  else
    id ← lift (load msg 8 4);
    buffer ←
      (if ntohl id =? UINT32_MAX then
         let data_len := length - 16 - actions_len in
         lift (assert_c (0 <=? data_len));;
         data ← lift (load_bytes msg (16 + Z.to_nat actions_len) (Z.to_nat data_len));
         '(_, b) ← lift (ofpbuf_put (ofpbuf_new (Z.to_nat data_len)) data);
         b ← new_buf b;
         mret (Some b)
       else retrieve_buffer (ntohl id));
    match buffer with
    | None => mret (- ESRCH)
    | Some buffer =>
        b ← get_buf buffer;
        in_port ← lift (load msg 12 2);
        '(_, f, b) ← lift (flow_extract b (ntohs in_port));
        set_buf buffer b;;
        let k := mk_sw_flow_key f uninit uninit uninit in
        let acts := drop 16 msg in
        v_code ← lift (validate_actions k acts actions_len);
        if negb (v_code =? ACT_VALIDATION_OK) then
          dp_send_error_msg s OFPET_BAD_ACTION v_code msg (Z.to_nat length);;
          ofpbuf_delete buffer;;
          mret (- EINVAL)
        else
          execute_actions (dp_output_port depth) buffer k acts (Z.to_nat actions_len);;
          mret 0
    end.
End handlers.

(** ** Queues *)

(** The result of the next change of a class of the device. *)
Definition netdev_class (n : netdev) : Z * netdev :=
  match nd_class n with
  | [] => (0, n)
  | r :: l => (r, n <| nd_class := l |>)
  end.

(** The first unused element of the array of queues, from 1 on. *)
Fixpoint free_queue (fuel : nat) (p : sw_port) (no : Z) : comp (option Z) :=
  match fuel with
  | O => Ok None
  | S fuel =>
      if num_queues p <=? no then Ok None
      else
        assert_c (no <? NETDEV_MAX_QUEUES);;
        if existsb (λ q, class_id q =? no) (queue_list p) then free_queue fuel p (no + 1)
        else Ok (Some no)
  end.

Definition port_add_queue (p : sw_port) (id prop rate : Z) : comp (Z * sw_port) :=
  no ← free_queue (Z.to_nat 65536) p 1;
  Ok (match no with
      | Some no =>
          (0, p <| queue_list := queue_list p ++ [mk_sw_queue 0 0 0 id no prop rate] |>)
      | None => (EXFULL, p)
      end).

Definition queue_error (s : option sender) (code : Z) (msg : list Z) : M datapath unit :=
  len ← lift (header_length msg);
  dp_send_error_msg s OFPET_QUEUE_OP_FAILED code msg (Z.to_nat len).

Definition recv_of_exp_queue_delete (s : option sender) (msg : list Z) : M datapath unit :=
  no ← lift (load msg 16 2);
  id ← lift (load msg 24 4);
  r ← dp_lookup_port (ntohs no);
  r ← lift (deref r);
  p ← read_port r;
  match pnetdev p with
  | Some n =>
      match dp_lookup_queue p (ntohl id) with
      | Some i =>
          let '(_, n) := netdev_class n in
          write_port r (p <| pnetdev := Some n |> <| queue_list := delete i (queue_list p) |>)
      | None => queue_error s OFPQOFC_BAD_PORT msg
      end
  | None => queue_error s OFPQOFC_BAD_PORT msg
  end.

(** Configures an existing or a new queue of a port in use. *)
Definition modify_queue (s : option sender) (msg : list Z) (r : port_ref) (p : sw_port)
    (id prop rate : Z) : M datapath unit :=
  match dp_lookup_queue p id with
  | Some i =>
      n ← lift (deref (pnetdev p));
      let '(error, n) := netdev_class n in
      let p := p <| pnetdev := Some n |> in
      if truth error then write_port r p;; queue_error s OFPQOFC_EPERM msg
      else write_port r (p <| queue_list :=
             alter (λ q, q <| property := prop |> <| min_rate := rate |>) i (queue_list p) |>)
  | None =>
      '(error, p) ← lift (port_add_queue p id prop rate);
      if error =? EXFULL then queue_error s OFPQOFC_EPERM msg
      else
        n ← lift (deref (pnetdev p));
        let '(error, n) := netdev_class n in
        write_port r (p <| pnetdev := Some n |>);;
        if truth error then queue_error s OFPQOFC_BAD_QUEUE msg else mret tt
  end.

Definition recv_of_exp_queue_modify (s : option sender) (msg : list Z) : M datapath unit :=
  len ← lift (load msg 28 2);
  prop ← lift (load msg 32 2);
  if negb (ntohs len =? 24) || negb (ntohs prop =? OFPQT_MIN_RATE) then
    queue_error s OFQ_ERR_DISCIPLINE msg
  else
    no ← lift (load msg 16 2);
    id ← lift (load msg 24 4);
    rate ← lift (load msg 40 2);
    r ← dp_lookup_port (ntohs no);
    match r with
    | None => queue_error s OFPQOFC_BAD_PORT msg
    | Some r =>
        p ← read_port r;
        if truth (pflags p .& SWP_USED)
        then modify_queue s msg r p (ntohl id) (ntohs prop) (ntohs rate)
        else queue_error s OFPQOFC_BAD_PORT msg
    end.

(** The characters that [strncpy] copies: at most [n], up to a zero. *)
Fixpoint c_string (n : nat) (l : list Z) : comp (list Z) :=
  match n, l with
  | O, _ => Ok []
  | S n, [] => Abort
  | S n, c :: l => if c =? 0 then Ok [] else s ← c_string n l; Ok (c :: s)
  end.

Definition recv_of_set_dp_desc (msg : list Z) : M datapath unit :=
  s ← lift (c_string DESC_STR_LEN (drop 16 msg));
  modify (λ d, d <| dp_desc := take (DESC_STR_LEN - 1) s |>).

Definition of_ext_recv_msg (s : option sender) (msg : list Z) : M datapath Z :=
  subtype ← lift (load msg 12 4);
  let subtype := ntohl subtype in
  if subtype =? OFP_EXT_QUEUE_MODIFY then recv_of_exp_queue_modify s msg;; mret 0
  else if subtype =? OFP_EXT_QUEUE_DELETE then recv_of_exp_queue_delete s msg;; mret 0
  else if subtype =? OFP_EXT_SET_DESC then recv_of_set_dp_desc msg;; mret 0
  else mret (- EINVAL).

(** ** Emergency entries *)

(** [memset] to zero, and all wildcards. *)
Definition wild_key : sw_flow_key := mk_sw_flow_key zero_flow OFPFW_ALL 0 0.

Definition flush_working : M datapath Z :=
  on_chain (λ c, chain_delete c wild_key OFPP_NONE 0 false false).

(** Copies an emergency entry to the ordinary tables; the private data is the
    chain. *)
Definition protection_callback (p : ptr) (c : sw_chain switch_table) : M env (Z * sw_chain switch_table) :=
  x ← read_flow p;
  tgt ← flow_alloc (length (sf_acts x));
  match tgt with
  | None => mret (- ENOBUFS, c)
  | Some t =>
      e ← get;
      y ← read_flow t;
      y ← lift (flow_setup_actions (now_msec e) (sf_acts x)
        (y <| key := flow_extract_match (flow_fill_match (kflow (key x)) (wildcards (key x))) |>
           <| priority := priority x |> <| idle_timeout := OFP_FLOW_PERMANENT |>
           <| hard_timeout := OFP_FLOW_PERMANENT |> <| send_flow_rem := send_flow_rem x |>
           <| emerg_flow := 0 |>));
      write_flow t (λ _, y);;
      '(error, c) ← chain_insert c t false;
      (if truth error then flow_free t else mret tt);;
      mret (error, c)
  end.

Definition do_protection : M datapath Z :=
  on_chain (λ c,
    t ← lift (deref (emerg_table c));
    '(error, _, c) ← t_iterate _ (impl t) wild_key OFPP_NONE zero_position protection_callback c;
    mret (error, c)).

Definition private_recv_msg (s : option sender) (msg : list Z) : M datapath Z :=
  type ← lift (load msg 12 2);
  let type := ntohs type in
  if (type =? PRIVATEOPT_PROTOCOL_STATS_REQUEST) || (type =? PRIVATEOPT_PROTOCOL_STATS_REPLY)
  then mret 0
  else if type =? PRIVATEOPT_EMERG_FLOW_PROTECTION then
    _ ← flush_working; _ ← do_protection; mret 0
  else if type =? PRIVATEOPT_EMERG_FLOW_RESTORATION then mret 0
  else mret (- EINVAL).

Definition recv_vendor (s : option sender) (msg : list Z) : M datapath Z :=
  vendor ← lift (load msg 8 4);
  let vendor := ntohl vendor in
  if vendor =? PRIVATE_VENDOR_ID then private_recv_msg s msg
  else if vendor =? OPENFLOW_VENDOR_ID then of_ext_recv_msg s msg
  else
    len ← lift (header_length msg);
    dp_send_error_msg s OFPET_BAD_REQUEST OFPBRC_BAD_VENDOR msg (Z.to_nat len);;
    mret (- EINVAL).

End DpFlow.
