(* ===== verification/DpStats.v ===== *)
(** * udatapath/datapath.c: statistics

    A statistics request starts a multi-part reply: the kind of statistics is an
    entry of the table [stats], whose [dump] appends to a reply buffer and says
    whether it has to be called again.  The reply buffer is the list of its bytes;
    bytes that the code leaves uninitialised are those of [xmalloc]. *)

From S2P Require Import Prelude Ofp Ofpbuf Flow SwitchFlow Rconn Env Table TableSeq Chain DpAct Datapath DpMsg DpFlow.
Import Ofp Flow SwitchFlow Env Table Chain Datapath DpMsg DpFlow.

Module DpStats.

Definition MAX_FLOW_STATS_BYTES : nat := 4096.
Definition EMERG_TABLE_ID_FOR_STATS : Z := 0xfe.
Definition SERIAL_NUM_LEN : nat := 32.
Definition OFP_MAX_TABLE_NAME_LEN : nat := 32.
Definition OFPQ_ALL : Z := 0xffffffff.

(** The description strings of udatapath.c, which options set. *)
Record descriptions := mk_descriptions {
  mfr_desc : list Z;
  hw_desc : list Z;
  sw_desc : list Z;
  serial_num : list Z;
}.

(** A dump function: what it returns, the state, and the buffer. *)
Definition dump_fun : Type := stats_state → list Z → M datapath (Z * stats_state * list Z).

Section dumps.
Context `{Malloc} (descs : descriptions).

(** [n] bytes that are not written. *)
Definition unwritten (n : nat) : list Z := xmalloc n.

Definition desc_stats_dump : dump_fun := λ state buffer,
  d ← get;
  mret (0, state, buffer ++ strncpy DESC_STR_LEN (mfr_desc descs) ++ strncpy DESC_STR_LEN (hw_desc descs)
    ++ strncpy DESC_STR_LEN (sw_desc descs) ++ strncpy SERIAL_NUM_LEN (serial_num descs)
    ++ strncpy DESC_STR_LEN (dp_desc d)).

(** ** Flow statistics *)

Definition fill_flow_stats (x : sw_flow) (table_idx now : Z) : list Z :=
  let f := kflow (key x) in
  let tdiff := u64 (now - created x) in
  let sec := u32 (tdiff / 1000) in
  le_bytes 2 (htons (u16 (Z.of_nat (88 + length (sf_acts x))))) ++ [u8 table_idx; 0]
  ++ le_bytes 4 (htonl (wildcards (key x))) ++ le_bytes 2 (in_port f) ++ dl_src f ++ dl_dst f
  ++ le_bytes 2 (dl_vlan f) ++ [dl_vlan_pcp f] ++ unwritten 1 ++ le_bytes 2 (dl_type f)
  ++ [nw_tos f; nw_proto f] ++ unwritten 2 ++ le_bytes 4 (nw_src f) ++ le_bytes 4 (nw_dst f)
  ++ le_bytes 2 (tp_src f) ++ le_bytes 2 (tp_dst f)
  ++ le_bytes 4 (htonl sec)
  ++ le_bytes 4 (htonl (u32 (u64 ((tdiff - u32 (sec * 1000)) * 1000000))))
  ++ le_bytes 2 (htons (priority x)) ++ le_bytes 2 (htons (idle_timeout x))
  ++ le_bytes 2 (htons (hard_timeout x)) ++ replicate 6 0
  ++ le_bytes 8 (htonll (cookie x)) ++ le_bytes 8 (htonll (packet_count x))
  ++ le_bytes 8 (htonll (byte_count x)) ++ sf_acts x.

(** The fields of the request body: match, table, output port. *)
Definition rq_match (rq : list Z) : ofp_match := match_at rq 0.
Definition rq_table_id (rq : list Z) : Z := int_at rq 40 1.
Definition rq_out_port (rq : list Z) : Z := int_at rq 42 2.

(** A request body of 44 bytes is copied. *)
Definition flow_stats_init (body : list Z) : comp (Z * stats_state) :=
  rq ← load_bytes body 0 44;
  Ok (0, flow_stats_state (if rq_table_id rq =? 0xff then 0 else rq_table_id rq) zero_position rq).

(** The private data is the buffer. *)
Definition flow_stats_dump_callback (table_idx now : Z) : callback (list Z) := λ p buffer,
  x ← read_flow p;
  let buffer := buffer ++ fill_flow_stats x table_idx now in
  mret (if (MAX_FLOW_STATS_BYTES <=? length buffer)%nat then 1 else 0, buffer).

(** The tables from number [table_idx] on. *)
Fixpoint flow_stats_loop (ts : list (sw_table switch_table)) (k : sw_flow_key) (rq : list Z) (now table_idx : Z)
    (position : sw_table_position) (buffer : list Z) : M env (Z * sw_table_position * list Z) :=
  match ts with
  | [] => mret (table_idx, position, buffer)
  | t :: ts =>
      if (rq_table_id rq =? 0xff) || (rq_table_id rq =? table_idx) then
        '(stop, position, buffer) ← t_iterate _ (impl t) k (rq_out_port rq) position
           (flow_stats_dump_callback table_idx now) buffer;
        if truth stop then mret (table_idx, position, buffer)
        else flow_stats_loop ts k rq now (table_idx + 1) zero_position buffer
      else mret (table_idx, position, buffer)
  end.

Definition flow_stats_dump : dump_fun := λ state buffer,
  match state with
  | flow_stats_state table_idx position rq =>
      let k := flow_extract_match (rq_match rq) in
      d ← get;
      let now := now_msec (dp_env d) in
      '(table_idx, position, buffer) ←
        (if rq_table_id rq =? EMERG_TABLE_ID_FOR_STATS then
           t ← lift (deref (emerg_table (chain d)));
           '(_, position, buffer) ← on_env (t_iterate _ (impl t) k (rq_out_port rq) position
              (flow_stats_dump_callback table_idx now) buffer);
           mret (table_idx, position, buffer)
         else on_env (flow_stats_loop (drop (Z.to_nat table_idx) (tables (chain d))) k rq now table_idx
                        position buffer));
      mret (if (MAX_FLOW_STATS_BYTES <=? length buffer)%nat then 1 else 0,
            flow_stats_state table_idx position rq, buffer)
  | _ => lift Abort
  end.

(** ** Aggregate statistics *)

Definition aggregate_stats_init (body : list Z) : comp (Z * stats_state) :=
  rq ← load_bytes body 0 44; Ok (0, aggregate_stats_state rq).

(** The private data is the sums of packets, bytes and entries. *)
Definition aggregate_stats_dump_callback : callback (Z * Z * Z) := λ p '(packets, bytes, flows),
  x ← read_flow p;
  mret (0, (u64 (packets + packet_count x), u64 (bytes + byte_count x), u32 (flows + 1))).

Fixpoint aggregate_stats_loop (ts : list (sw_table switch_table)) (k : sw_flow_key) (rq : list Z) (table_idx : Z)
    (rpy : Z * Z * Z) : M env (Z * (Z * Z * Z)) :=
  match ts with
  | [] => mret (0, rpy)
  | t :: ts =>
      if (rq_table_id rq =? 0xff) || (rq_table_id rq =? table_idx) then
        '(error, _, rpy) ← t_iterate _ (impl t) k (rq_out_port rq) zero_position
           aggregate_stats_dump_callback rpy;
        if truth error then mret (error, rpy)
        else aggregate_stats_loop ts k rq (table_idx + 1) rpy
      else mret (0, rpy)
  end.

Definition aggregate_stats_dump : dump_fun := λ state buffer,
  match state with
  | aggregate_stats_state rq =>
      let k := flow_extract_match (rq_match rq) in
      let table_idx := if rq_table_id rq =? 0xff then 0 else rq_table_id rq in
      d ← get;
      '(error, (packets, bytes, flows)) ←
        (if rq_table_id rq =? EMERG_TABLE_ID_FOR_STATS then
           t ← lift (deref (emerg_table (chain d)));
           '(error, _, rpy) ← on_env (t_iterate _ (impl t) k (rq_out_port rq) zero_position
              aggregate_stats_dump_callback (0, 0, 0));
           mret (error, rpy)
         else on_env (aggregate_stats_loop (drop (Z.to_nat table_idx) (tables (chain d))) k rq table_idx
                        (0, 0, 0)));
      if truth error then
        mret (error, state, buffer ++ le_bytes 8 packets ++ le_bytes 8 bytes ++ le_bytes 4 flows
                            ++ replicate 4 0)
      else
        mret (0, state, buffer ++ le_bytes 8 (htonll packets) ++ le_bytes 8 (htonll bytes)
                        ++ le_bytes 4 (htonl flows) ++ replicate 4 0)
  | _ => lift Abort
  end.

(** ** Tables, ports, queues *)

Definition fill_table_stats (i : nat) (t : sw_table switch_table) : list Z :=
  let stats := t_stats (impl t) in
  [u8 (Z.of_nat i); 0; 0; 0] ++ strncpy OFP_MAX_TABLE_NAME_LEN (st_name stats)
  ++ le_bytes 4 (htonl (st_wildcards stats)) ++ le_bytes 4 (htonl (st_max_flows stats))
  ++ le_bytes 4 (htonl (st_n_flows stats)) ++ le_bytes 8 (htonll (n_lookup t))
  ++ le_bytes 8 (htonll (n_matched t)).

Definition table_stats_dump : dump_fun := λ state buffer,
  d ← get;
  mret (0, state, buffer ++ concat (imap fill_table_stats (tables (chain d)))).

Definition port_stats_init (body : list Z) : comp (Z * stats_state) :=
  no ← load body 0 2; Ok (0, port_stats_state 1 (ntohs no)).

Definition dump_port_stats (p : sw_port) : list Z :=
  let none := le_bytes 8 (htonll (u64 (-1))) in
  le_bytes 2 (htons (port_no p)) ++ replicate 6 0
  ++ le_bytes 8 (htonll (rx_packets p)) ++ le_bytes 8 (htonll (tx_packets p))
  ++ le_bytes 8 (htonll (rx_bytes p)) ++ le_bytes 8 (htonll (tx_bytes p))
  ++ none ++ le_bytes 8 (htonll (tx_dropped p)) ++ none ++ none ++ none ++ none ++ none ++ none.

Definition used_port_stats (p : sw_port) : list Z :=
  if truth (pflags p .& SWP_USED) then dump_port_stats p else [].

(** The loop over all ports looks up each number from [start_port] on. *)
Definition port_stats_dump : dump_fun := λ state buffer,
  match state with
  | port_stats_state start_port no =>
      d ← get;
      if no =? OFPP_NONE then
        mret (0, state, buffer
          ++ concat (used_port_stats <$> take (Z.to_nat (DP_MAX_PORTS - start_port))
                                              (drop (Z.to_nat start_port) (ports d)))
          ++ match local_port d with Some p => dump_port_stats p | None => [] end)
      else
        r ← dp_lookup_port (u16 no);
        match r with
        | Some r => p ← read_port r; mret (0, state, buffer ++ used_port_stats p)
        | None => mret (0, state, buffer)
        end
  | _ => lift Abort
  end.

Definition queue_stats_init (body : list Z) : comp (Z * stats_state) :=
  no ← load body 0 2; id ← load body 4 4; Ok (0, queue_stats_state (ntohs no) (ntohl id)).

Definition dump_queue_stats (no : Z) (q : sw_queue) : list Z :=
  le_bytes 2 (htons no) ++ unwritten 2 ++ le_bytes 4 (htonl (queue_id q))
  ++ le_bytes 8 (htonll (q_tx_bytes q)) ++ le_bytes 8 (htonll (q_tx_packets q))
  ++ le_bytes 8 (htonll (q_tx_errors q)).

(** The queues of one port that the request asks for. *)
Definition port_queue_stats (p : sw_port) (id : Z) : comp (list Z) :=
  qs ← queues_of p;
  Ok (if id =? OFPQ_ALL then concat (dump_queue_stats (port_no p) <$> qs)
      else match dp_lookup_queue p id ≫= (qs !!.) with
           | Some q => dump_queue_stats (port_no p) q
           | None => []
           end).

Fixpoint all_queue_stats (rs : list port_ref) (id : Z) : M datapath (list Z) :=
  match rs with
  | [] => mret []
  | r :: rs =>
      p ← read_port r;
      l ← (if port_no p <? OFPP_MAX then lift (port_queue_stats p id) else mret []);
      l' ← all_queue_stats rs id;
      mret (l ++ l')
  end.

Definition queue_stats_dump : dump_fun := λ state buffer,
  match state with
  | queue_stats_state no id =>
      d ← get;
      l ← (if no =? OFPP_ALL then all_queue_stats (port_list d) id
           else
             r ← dp_lookup_port no;
             match r with
             | Some r => p ← read_port r; lift (port_queue_stats p id)
             | None => mret []
             end);
      mret (0, state, buffer ++ l)
  | _ => lift Abort
  end.

(** No vendor is known; there is never a state to dump. *)
Definition vendor_stats_init (body : list Z) : comp (Z * stats_state) :=
  _ ← load body 0 4; Ok (- EINVAL, no_stats_state).

Definition vendor_stats_dump : dump_fun := λ state buffer, lift Abort.

(** ** Requests *)

Record stats_type := mk_stats_type {
  st_type : Z;
  min_body : Z;
  max_body : Z;
  st_init : option (list Z → comp (Z * stats_state));
  st_dump : dump_fun;
}.

Definition stats : list stats_type :=
  [ mk_stats_type OFPST_DESC 0 0 None desc_stats_dump;
    mk_stats_type OFPST_FLOW 44 44 (Some flow_stats_init) flow_stats_dump;
    mk_stats_type OFPST_AGGREGATE 44 44 (Some aggregate_stats_init) aggregate_stats_dump;
    mk_stats_type OFPST_TABLE 0 0 None table_stats_dump;
    mk_stats_type OFPST_PORT 8 8 (Some port_stats_init) port_stats_dump;
    mk_stats_type OFPST_QUEUE 8 8 (Some queue_stats_init) queue_stats_dump;
    mk_stats_type OFPST_VENDOR 8 32 (Some vendor_stats_init) vendor_stats_dump ].

(** Assigns to fields of the remote at place [i]. *)
Definition write_remote (i : nat) (f : remote → remote) : M env unit :=
  e ← get;
  r ← lift (deref (remotes e !! i));
  modify (λ e, e <| remotes := <[i := f r]> (remotes e) |>).

(** [stats_dump] for the callback [cb] that the remote at place [i] holds. *)
Definition stats_dump (i : nat) (cb : stats_dump_cb) : M datapath Z :=
  if cb_finished cb then mret 0
  else
    st ← lift (deref (stats !! cb_s cb));
    let sender := mk_sender i (cb_xid cb) in
    buffer ← lift (reply_with 12 OFPT_STATS_REPLY (Some sender)
                     (le_bytes 2 (htons (st_type st)) ++ le_bytes 2 0));
    '(err, state, buffer) ← st_dump st (cb_state cb) buffer;
    let cb := cb <| cb_state := state |> in
    if 0 <=? err then
      '(cb, buffer) ←
        (if err =? 0 then mret (cb <| cb_finished := true |>, buffer)
         else b ← lift (store buffer 10 2 (ntohs OFPSF_REPLY_MORE)); mret (cb, b));
      on_env (write_remote i (λ r, r <| r_dump := Some cb |>));;
      err2 ← send buffer (Some sender);
      mret (if truth err2 then err2 else err)
    else
      on_env (write_remote i (λ r, r <| r_dump := Some cb |>));;
      mret err.

Definition remote_start_dump (i : nat) (cb : stats_dump_cb) : M datapath unit :=
  d ← get;
  r ← lift (deref (remotes (dp_env d) !! i));
  lift (assert_c (negb (bool_decide (is_Some (r_dump r)))));;
  on_env (write_remote i (λ r, r <| r_dump := Some cb |>)).

Definition recv_stats_request (s : sender) (msg : list Z) : M datapath Z :=
  rq_len ← lift (header_length msg);
  type ← lift (load msg 8 2);
  match list_find (λ st, st_type st = ntohs type) stats with
  | None => mret (- EINVAL)
  | Some (i, st) =>
      _ ← lift (load_bytes msg 0 (Z.to_nat rq_len));
      let body_len := u64 (rq_len - 12) in
      if (body_len <? min_body st) || (max_body st <? body_len) then mret (- EINVAL)
      else
        '(err, state) ←
          (match st_init st with
           | Some init => lift (init (drop 12 msg))
           | None => mret (0, no_stats_state)
           end);
        if truth err then mret err
        else
          remote_start_dump (s_remote s) (mk_stats_dump_cb false (s_xid s) i state);;
          mret 0
  end.
End dumps.

End DpStats.
