(* ===== verification/DpRun.v ===== *)
(** * udatapath/datapath.c: messages, connections and the main loop

    The dispatch of messages from the controllers, the work on each connection,
    and one iteration of the datapath's main loop: expiry of flow entries, a frame
    from each port, the connections, and new connections. *)

From S2P Require Import Prelude Ofp Ofpbuf Flow SwitchFlow Rconn Env Table TableSeq Chain DpAct Datapath DpMsg DpFlow DpStats.
Import Ofp Ofpbuf Flow SwitchFlow Env Table Chain DpAct Datapath DpMsg DpFlow DpStats.

Module DpRun.

Definition ETH_TOTAL_MIN : nat := 60.

(** A new datapath; [random_id] is the result of [gen_datapath_id], [desc] the
    description that an option or the host name gives. *)
Definition dp_new (dpid random_id : Z) (desc : list Z) : M env (option datapath) :=
  ok ← malloc_ok;
  if negb ok then mret None
  else
    c ← chain_create;
    e ← get;
    mret ((λ c,
      {| dp_env := e; chain := c; last_timeout := now_sec e;
         dp_id := if dpid <=? 0xffffffffffff then dpid else random_id;
         dp_desc := desc; flags := 0; miss_send_len := OFP_DEFAULT_MISS_SEND_LEN;
         ports := replicate (Z.to_nat DP_MAX_PORTS) zero_port; local_port := None; port_list := [];
         listeners := []; bufs := ∅;
         buffers := replicate (Z.to_nat N_PKT_BUFFERS) (mk_packet_buffer None 0 0);
         buffer_idx := 0 |}) <$> c).

Definition dp_add_pvconn (pvconn : list (Z * Rconn.vconn)) : M datapath unit :=
  modify (λ d, d <| listeners := listeners d ++ [pvconn] |>).

(** lib/netdev.c: receives a frame, cut off at the end of the buffer and padded to
    the minimum length. *)
Definition netdev_recv `{Malloc} (n : netdev) (b : ofpbuf) : comp (Z * netdev * ofpbuf) :=
  assert_c (size b =? 0)%nat;;
  assert_c (ETH_TOTAL_MIN <=? ofpbuf_tailroom b)%nat;;
  match nd_recv n with
  | [] => Ok (Rconn.EAGAIN, n, b)
  | (err, frame) :: l =>
      let n := n <| nd_recv := l |> in
      if truth err then Ok (err, n, b)
      else
        let frame := take (ofpbuf_tailroom b) frame in
        mem ← memcpy (base b) (ofpbuf_tail b) frame;
        let b := b <| base := mem |> <| size := (size b + length frame)%nat |> in
        '(_, b) ← (if (size b <? ETH_TOTAL_MIN)%nat then ofpbuf_put_zeros b (ETH_TOTAL_MIN - size b)
                   else Ok (0%nat, b));
        Ok (0, n, b)
  end.

Section run.
Context `{Malloc} (descs : descriptions) (depth : nat).

(** ** Messages *)

(** The handler of a type of message and the least size it wants. *)
Definition handler_of (type : Z) : option (Z * (sender → list Z → M datapath Z)) :=
  if type =? OFPT_BARRIER_REQUEST then Some (8, λ s, recv_barrier_request (Some s))
  else if type =? OFPT_FEATURES_REQUEST then Some (8, λ s, recv_features_request (Some s))
  else if type =? OFPT_GET_CONFIG_REQUEST then Some (8, λ s, recv_get_config_request (Some s))
  else if type =? OFPT_SET_CONFIG then Some (12, λ s, recv_set_config (Some s))
  else if type =? OFPT_PACKET_OUT then Some (16, λ s, recv_packet_out depth (Some s))
  else if type =? OFPT_FLOW_MOD then Some (72, λ s, recv_flow depth (Some s))
  else if type =? OFPT_PORT_MOD then Some (32, λ s, recv_port_mod (Some s))
  else if type =? OFPT_STATS_REQUEST then Some (12, recv_stats_request descs)
  else if type =? OFPT_ECHO_REQUEST then Some (8, λ s, recv_echo_request (Some s))
  else if type =? OFPT_ECHO_REPLY then Some (8, λ s, recv_echo_reply (Some s))
  else if type =? OFPT_QUEUE_GET_CONFIG_REQUEST then
    Some (8, λ s, recv_queue_get_config_request (Some s))
  else if type =? OFPT_VENDOR then Some (12, λ s, recv_vendor (Some s))
  else None.

Definition fwd_control_input (s : sender) (msg : list Z) : M datapath Z :=
  let len := Z.of_nat (length msg) in
  oh_length ← lift (header_length msg);
  if len <? oh_length then mret (- EINVAL)
  else
    version ← lift (load msg 0 1);
    lift (assert_c (version =? OFP_VERSION));;
    type ← lift (load msg 1 1);
    match handler_of type with
    | Some (min_size, handler) => if len <? min_size then mret (- EFAULT) else handler s msg
    | None =>
        dp_send_error_msg (Some s) OFPET_BAD_REQUEST OFPBRC_BAD_TYPE msg (length msg);;
        mret (- EINVAL)
    end.

(** ** Connections *)

Definition read_remote (i : nat) : M datapath remote :=
  d ← get; lift (deref (remotes (dp_env d) !! i)).

(** A change of the connection of a remote. *)
Definition on_rconn {A} (i : nat) (f : Z → Rconn.rconn → comp (A * Rconn.rconn)) : M datapath A :=
  d ← get;
  r ← read_remote i;
  '(a, rc) ← lift (f (now_sec (dp_env d)) (r_rconn r));
  on_env (write_remote i (λ r, r <| r_rconn := rc |>));;
  mret a.

(** The loop of [remote_run], at most [n] times. *)
Fixpoint remote_loop (n : nat) (i : nat) : M datapath unit :=
  match n with
  | O => mret tt
  | S n =>
      r ← read_remote i;
      match r_dump r with
      | None =>
          buffer ← on_rconn i Rconn.rconn_recv;
          match buffer with
          | None => mret tt
          | Some msg =>
              (if (8 <=? length msg)%nat then
                 xid ← lift (load msg 4 4);
                 _ ← fwd_control_input (mk_sender i xid) msg;
                 mret tt
               else mret tt);;
              remote_loop n i
          end
      | Some cb =>
          if Rconn.n_queued (r_rconn r) <? TXQ_LIMIT then
            error ← stats_dump descs i cb;
            (if error <=? 0 then on_env (write_remote i (λ r, r <| r_dump := None |>))
             else mret tt);;
            remote_loop n i
          else mret tt
      end
  end.

(** Whether the remote still exists; its queue and dump go with it. *)
Definition remote_run (i : nat) : M datapath bool :=
  on_rconn i (λ now rc, rc ← Rconn.rconn_run now rc; Ok (tt, rc));;
  remote_loop 50 i;;
  r ← read_remote i;
  if negb (Rconn.rconn_is_alive (r_rconn r)) then
    modify (λ d, d <| dp_env := (dp_env d) <| remotes := delete i (remotes (dp_env d)) |> |>);;
    mret false
  else mret true.

(** Every remote once, in order; [n] counts those that have not had their turn. *)
Fixpoint run_remotes (n i : nat) : M datapath unit :=
  match n with
  | O => mret tt
  | S n => alive ← remote_run i; run_remotes n (if alive : bool then S i else i)
  end.

Definition remote_create (rc : Rconn.rconn) : M datapath unit :=
  modify (λ d, d <| dp_env := (dp_env d)
    <| remotes := remotes (dp_env d) ++ [mk_remote rc None] |> |>).

(** The next result of [pvconn_accept] on a listener. *)
Definition pvconn_accept (l : list (Z * Rconn.vconn)) : Z * option Rconn.vconn * list (Z * Rconn.vconn) :=
  match l with
  | [] => (Rconn.EAGAIN, None, [])
  | (r, v) :: l => (r, if r =? 0 then Some v else None, l)
  end.

(** The loop over the listeners from place [i] on: one that fails is replaced by
    the last one. *)
Fixpoint accept_loop (n i : nat) : M datapath unit :=
  match n with
  | O => mret tt
  | S n =>
      d ← get;
      l ← lift (deref (listeners d !! i));
      let '(retval, v, l) := pvconn_accept l in
      modify (λ d, d <| listeners := <[i := l]> (listeners d) |>);;
      if retval =? 0 then
        v ← lift (deref v);
        remote_create (Rconn.rconn_new_from_vconn (now_sec (dp_env d))
          [112; 97; 115; 115; 105; 118; 101] v);;
        accept_loop n (S i)
      else if negb (retval =? Rconn.EAGAIN) then
        d ← get;
        last ← lift (deref (last (listeners d)));
        let m := (length (listeners d) - 1)%nat in
        modify (λ d, d <| listeners := take m (<[i := last]> (listeners d)) |>);;
        accept_loop n i
      else accept_loop n (S i)
  end.

(** ** The main loop *)

Fixpoint end_flows (l : list ptr) : M env unit :=
  match l with
  | [] => mret tt
  | p :: l =>
      f ← read_flow p;
      dp_send_flow_end p (reason f);;
      flow_free p;;
      end_flows l
  end.

Definition expire_flows : M datapath unit :=
  d ← get;
  let now := now_sec (dp_env d) in
  if negb (now =? last_timeout d) then
    '(c, deleted) ← on_env (chain_timeout (chain d) []);
    modify (λ d, d <| chain := c |>);;
    on_env (end_flows deleted);;
    modify (λ d, d <| last_timeout := now |>)
  else mret tt.

(** A buffer with room for the headers that forwarding may add. *)
Definition rx_buffer (n : netdev) : comp ofpbuf :=
  let b := ofpbuf_new (130 + 18 + nd_mtu n) in
  Ok (b <| data := (data b + 130)%nat |>).

(** The loop over the ports; a buffer that was not filled serves the next port. *)
Fixpoint run_ports (rs : list port_ref) (buffer : option ptr) : M datapath (option ptr) :=
  match rs with
  | [] => mret buffer
  | r :: rs =>
      p ← read_port r;
      n ← lift (deref (pnetdev p));
      buffer ← (match buffer with
                | Some b => mret b
                | None => b ← lift (rx_buffer n); new_buf b
                end);
      b ← get_buf buffer;
      '(error, n, b) ← lift (netdev_recv n b);
      set_buf buffer b;;
      let p := p <| pnetdev := Some n |> in
      if error =? 0 then
        write_port r (p <| rx_packets := u64 (rx_packets p + 1) |>
                        <| rx_bytes := u64 (rx_bytes p + Z.of_nat (size b)) |>);;
        fwd_port_input depth buffer r;;
        run_ports rs None
      else write_port r p;; run_ports rs (Some buffer)
  end.

Definition dp_run : M datapath unit :=
  expire_flows;;
  d ← get;
  buffer ← run_ports (port_list d) None;
  match buffer with Some b => ofpbuf_delete b | None => mret tt end;;
  d ← get;
  run_remotes (length (remotes (dp_env d))) 0;;
  d ← get;
  accept_loop (length (listeners d)) 0.

End run.

End DpRun.
