(* ===== verification/DpActFacts.v ===== *)
(** * Lists of actions: what validation accepts

    The action lists that [validate_actions] accepts, as a specification that does
    not follow the loop; what it means for the scans of a stored list; and the
    VLAN actions on a packet. *)

From S2P Require Import Prelude Csum Ofp Ofpbuf Flow FlowFacts SwitchFlow SwitchFlowFacts Env EnvFacts Table DpAct.
Import Csum Ofp Ofpbuf Flow SwitchFlow DpAct.

Module DpActFacts.

(** ** Specification *)

Definition a_type (a : list Z) : Z := ntohs (int_at a 0 2).
Definition a_len (a : list Z) : Z := ntohs (int_at a 2 2).
Definition a_port (a : list Z) : Z := ntohs (int_at a 4 2).

Definition action_size (type : Z) : option Z :=
  if bool_decide (type ∈ [OFPAT_OUTPUT; OFPAT_SET_VLAN_VID; OFPAT_SET_VLAN_PCP; OFPAT_STRIP_VLAN;
                          OFPAT_SET_NW_SRC; OFPAT_SET_NW_DST; OFPAT_SET_NW_TOS; OFPAT_SET_TP_SRC;
                          OFPAT_SET_TP_DST])
  then Some 8
  else if bool_decide (type ∈ [OFPAT_SET_DL_SRC; OFPAT_SET_DL_DST; OFPAT_ENQUEUE]) then Some 16
  else None.

(** The ports an action may send to: an output action not to OFPP_NONE or to the
    input port that the key demands, a queue only to physical ports. *)
Definition port_allowed (k : sw_flow_key) (a : list Z) : bool :=
  if a_type a =? OFPAT_OUTPUT then
    negb (a_port a =? OFPP_NONE)
    && (truth (wildcards k .& OFPFW_IN_PORT) || negb (int_at a 4 2 =? in_port (kflow k)))
  else if a_type a =? OFPAT_ENQUEUE then (a_port a <=? OFPP_MAX) || (a_port a =? OFPP_IN_PORT)
  else true.

Definition valid_action (k : sw_flow_key) (a : list Z) : bool :=
  match action_size (a_type a) with
  | Some n => (a_len a =? n) && (Z.of_nat (length a) =? n) && port_allowed k a
  | None => false
  end.

Definition valid_actions (k : sw_flow_key) (acts : list Z) : Prop :=
  ∃ l, acts = concat l ∧ Forall (λ a, valid_action k a = true) l.

(** ** Reading inside a part of the memory *)

Lemma int_at_sub mem p n i m :
  (i + m ≤ n)%nat → int_at (take n (drop p mem)) i m = int_at mem (p + i) m.
Proof.
  intros H. unfold int_at, bytes_at. rewrite take_drop_commute, take_take, Nat.min_l by lia.
  by rewrite <-take_drop_commute, drop_drop.
Qed.

Lemma int_at_app_l a x i m : (i + m ≤ length a)%nat → int_at (a ++ x) i m = int_at a i m.
Proof.
  intros H. unfold int_at, bytes_at. rewrite drop_app_le by lia.
  by rewrite take_app_le by (rewrite length_drop; lia).
Qed.

Lemma action_size_cases type n : action_size type = Some n → n = 8 ∨ n = 16.
Proof. unfold action_size. repeat case_bool_decide; intros; simplify_eq; auto. Qed.

Lemma valid_action_length k a :
  valid_action k a = true → a_len a = Z.of_nat (length a) ∧ (length a = 8 ∨ length a = 16)%nat.
Proof.
  unfold valid_action. destruct (action_size _) as [n|] eqn:E; [|done].
  apply action_size_cases in E. rewrite !andb_true_iff, !Z.eqb_eq. intros [[-> Hl] _]. lia.
Qed.

Lemma valid_head k rest n :
  valid_action k (take n rest) = true →
  a_len rest = Z.of_nat (length (take n rest)) ∧ (length (take n rest) = 8 ∨ length (take n rest) = 16)%nat.
Proof.
  intros Hv. destruct (valid_action_length _ _ Hv) as [Hl Hc]. split; [|done]. rewrite <-Hl.
  unfold a_len. rewrite <-(take_drop n rest) at 1. by rewrite int_at_app_l by lia.
Qed.

(** One action more. *)
Lemma valid_actions_step k rest :
  valid_actions k rest ↔
  rest = [] ∨ (valid_action k (take (Z.to_nat (a_len rest)) rest) = true
               ∧ valid_actions k (drop (Z.to_nat (a_len rest)) rest)).
Proof.
  split.
  - intros (l & -> & Hl). destruct Hl as [|a l Ha Hl]; [by left|right].
    destruct (valid_action_length k a Ha) as [Hlen Hcase]. cbn [concat].
    assert (a_len (a ++ concat l) = Z.of_nat (length a)) as ->.
    { unfold a_len in *. rewrite int_at_app_l by lia. done. }
    rewrite Nat2Z.id, take_app_length, drop_app_length. split; [done|]. by exists l.
  - intros [->|[Ha (l & Hr & Hl)]]; [by exists []|].
    exists (take (Z.to_nat (a_len rest)) rest :: l). split; [|by constructor].
    cbn [concat]. by rewrite <-Hr, take_drop.
Qed.

(** ** Validation of one action *)

Lemma ntohs_eqb x y : 0 <= x < 65536 → 0 <= y < 65536 → (x =? htons y) = (ntohs x =? y).
Proof.
  intros Hx Hy. apply Bool.eq_iff_eq_true. rewrite !Z.eqb_eq. split.
  - intros ->. by apply ntohs_htons.
  - intros <-. symmetry. by apply ntohs_htons.
Qed.

(** The entry for a type. *)
Lemma of_actions_entry type :
  0 <= type < 12 →
  ∃ act sz, of_actions !! Z.to_nat type = Some act ∧ min_size act = sz ∧ max_size act = sz ∧
    action_size type = Some sz ∧
    validate act = if type =? OFPAT_OUTPUT then Some validate_output
                   else if type =? OFPAT_ENQUEUE then Some validate_queue else None.
Proof.
  intros H.
  assert (type = 0 ∨ type = 1 ∨ type = 2 ∨ type = 3 ∨ type = 4 ∨ type = 5 ∨ type = 6 ∨ type = 7 ∨
          type = 8 ∨ type = 9 ∨ type = 10 ∨ type = 11) as Hc by lia.
  destruct_or! Hc; subst type; eexists _, _; repeat split; reflexivity.
Qed.

Lemma validate_ofpat_exact k acts p type len :
  Forall is_byte acts → (p + Z.to_nat len ≤ length acts)%nat →
  type = ntohs (int_at acts p 2) → len = ntohs (int_at acts (p + 2) 2) → 8 <= len →
  0 <= type < 12 →
  wp (validate_ofpat k acts p type len) (λ v,
    v = ACT_VALIDATION_OK ↔ valid_action k (take (Z.to_nat len) (drop p acts)) = true).
Proof.
  intros Hb Hp Ht Hlen Hl8 Htype.
  set (a := take (Z.to_nat len) (drop p acts)).
  assert (length a = Z.to_nat len) as La by (unfold a; rewrite length_take, length_drop; lia).
  assert (∀ i, (i ≤ 4)%nat → int_at a i 2 = int_at acts (p + i) 2) as E.
  { intros i Hi. unfold a. apply int_at_sub. lia. }
  assert (a_type a = type) as Et by (unfold a_type; by rewrite E, Nat.add_0_r by lia).
  assert (a_len a = len) as El by (unfold a_len; by rewrite E by lia).
  pose proof (int_at_range acts (p + 4) 2 Hb) as Hport. change (256 ^ Z.of_nat 2) with 65536 in Hport.
  unfold valid_action, port_allowed, a_port, validate_ofpat. rewrite Et, El, E, La by lia.
  destruct (of_actions_entry type Htype) as (act & sz & Hact & Hmin & Hmax & -> & Hv).
  rewrite Hact. cbn [deref mbind comp_bind]. rewrite Hmin, Hmax, Hv.
  destruct ((len <? sz) || (sz <? len)) eqn:Es.
  { rewrite (proj2 (Z.eqb_neq len sz)); [done|]. apply orb_true_iff in Es. lia. }
  assert (len = sz) as <- by (apply orb_false_iff in Es; lia).
  rewrite Z2Nat.id, Z.eqb_refl by lia. cbn [andb].
  destruct (type =? OFPAT_OUTPUT); [|destruct (type =? OFPAT_ENQUEUE); [|done]].
  - unfold validate_output. wp_step. wp_step; [lia|]. wp_step.
    rewrite ntohs_eqb by (done || lia). 
    destruct (ntohs _ =? OFPP_NONE), (truth _), (_ =? in_port _); done.
  - unfold validate_queue. wp_step. wp_step; [lia|]. wp_step.
    rewrite Z.leb_antisym. destruct (OFPP_MAX <? _), (_ =? OFPP_IN_PORT); done.
Qed.

(** Any type and length. *)
Lemma validate_one_exact k acts p type len :
  Forall is_byte acts → (p + Nat.max 8 (Z.to_nat len) ≤ length acts)%nat →
  type = ntohs (int_at acts p 2) → len = ntohs (int_at acts (p + 2) 2) →
  wp (if type <? Z.of_nat (length of_actions) then validate_ofpat k acts p type len
      else if type =? OFPAT_VENDOR then validate_vendor acts p len
      else Ok OFPBAC_BAD_TYPE) (λ v,
    v = ACT_VALIDATION_OK ↔ valid_action k (take (Z.to_nat len) (drop p acts)) = true).
Proof.
  intros Hb Hp Ht Hlen. change (Z.of_nat (length of_actions)) with 12.
  assert (0 <= type) as Ht0 by (subst type; apply htons_range).
  assert (0 <= len) as Hl0 by (subst len; apply htons_range).
  destruct (decide (8 <= len)) as [H8|H8].
  - destruct (Z.ltb_spec type 12); [apply validate_ofpat_exact; (done || lia)|].
    assert (valid_action k (take (Z.to_nat len) (drop p acts)) = false) as ->.
    { unfold valid_action, a_type. rewrite int_at_sub, Nat.add_0_r, <-Ht by lia.
      unfold action_size. rewrite !bool_decide_eq_false_2; [done|..];
        rewrite !elem_of_cons, elem_of_nil; unfold OFPAT_OUTPUT, OFPAT_SET_VLAN_VID, OFPAT_SET_VLAN_PCP,
          OFPAT_STRIP_VLAN, OFPAT_SET_NW_SRC, OFPAT_SET_NW_DST, OFPAT_SET_NW_TOS, OFPAT_SET_TP_SRC,
          OFPAT_SET_TP_DST, OFPAT_SET_DL_SRC, OFPAT_SET_DL_DST, OFPAT_ENQUEUE; lia. }
    destruct (type =? OFPAT_VENDOR); [|done]. unfold validate_vendor.
    rewrite (proj2 (Z.ltb_ge len 8)) by lia. wp_step. wp_step; [lia|]. done.
  - assert (valid_action k (take (Z.to_nat len) (drop p acts)) = false) as ->.
    { apply not_true_iff_false. intros Hv. apply valid_action_length in Hv as [_ Hv].
      rewrite length_take in Hv. lia. }
    destruct (Z.ltb_spec type 12).
    + unfold validate_ofpat.
      destruct (of_actions_entry type) as (act & sz & Hact & Hmin & Hmax & Hsz & Hv); [lia|].
      rewrite Hact. cbn [deref mbind comp_bind]. rewrite Hmin. apply action_size_cases in Hsz.
      rewrite (proj2 (Z.ltb_lt len sz)) by lia. done.
    + destruct (type =? OFPAT_VENDOR); [|done]. unfold validate_vendor.
      by rewrite (proj2 (Z.ltb_lt len 8)) by lia.
Qed.

(** ** Validation of a list *)

Lemma validate_loop_exact fuel k acts p :
  Forall is_byte acts → (p ≤ length acts)%nat → (length acts - p < fuel)%nat →
  wp (validate_loop fuel k acts p (Z.of_nat (length acts - p))) (λ v,
    v = ACT_VALIDATION_OK ↔ valid_actions k (drop p acts)).
Proof.
  intros Hb. revert p. induction fuel as [|fuel IH]; intros p Hp Hf; [lia|]. cbn [validate_loop].
  set (rest := drop p acts).
  apply (wp_mono _ (λ v, v = ACT_VALIDATION_OK ↔
    rest = [] ∨ (valid_action k (take (Z.to_nat (a_len rest)) rest) = true
                 ∧ valid_actions k (drop (Z.to_nat (a_len rest)) rest))));
    [|intros v; by rewrite (valid_actions_step k rest)].
  assert (length rest = length acts - p)%nat as Lr by (unfold rest; apply length_drop).
  destruct (Z.ltb_spec (Z.of_nat (length acts - p)) 8) as [Hn|Hn].
  { wp_step. destruct (Z.eqb_spec (Z.of_nat (length acts - p)) 0) as [E0|E0].
    - split; [|done]. intros _. left. apply nil_length_inv. lia.
    - split; [done|]. intros [E|[Hv _]]; [rewrite E in Lr; simpl in Lr; lia|].
      apply valid_action_length in Hv as [_ Hv]. rewrite length_take in Hv. lia. }
  assert (rest ≠ []) as Hne by (intros E; rewrite E in Lr; simpl in Lr; lia).
  wp_step. wp_step; [lia|].
  assert (ntohs (int_at acts (p + 2) 2) = a_len rest) as ->.
  { unfold a_len, rest. rewrite <-(take_ge (drop p acts) (length acts)) by (rewrite length_drop; lia).
    by rewrite int_at_sub by lia. }
  assert (0 <= a_len rest) as Hl0 by apply htons_range.
  destruct ((Z.of_nat (length acts - p) <? a_len rest) || truth (a_len rest mod 8)) eqn:Eb.
  { wp_step. split; [done|]. intros [E|[Hv _]]; [done|]. exfalso.
    destruct (valid_head _ _ _ Hv) as [E Hc]. rewrite length_take in E, Hc.
    apply orb_true_iff in Eb as [Eb%Z.ltb_lt|Eb]; [lia|].
    assert (a_len rest = 8 ∨ a_len rest = 16) as [E'|E'] by lia; by rewrite E' in Eb. }
  apply orb_false_iff in Eb as [Hle Hmod]. apply Z.ltb_ge in Hle.
  wp_step. wp_step; [lia|]. set (type := ntohs (int_at acts p 2)).
  assert (0 <= type) as Ht0 by apply htons_range.
  wp_step. eapply wp_mono; [apply validate_one_exact; [done|lia|done|]|].
  { unfold a_len, rest. rewrite <-(take_ge (drop p acts) (length acts)) by (rewrite length_drop; lia).
    by rewrite int_at_sub by lia. }
  intros v Hv. fold rest in Hv.
  destruct (Z.eqb_spec v ACT_VALIDATION_OK) as [Ev|Ev]; cbn [negb].
  - apply Hv in Ev. destruct (valid_head _ _ _ Ev) as [E Hc].
    assert (Z.of_nat (length acts - p) - a_len rest
            = Z.of_nat (length acts - (p + Z.to_nat (a_len rest)))) as -> by lia.
    assert (0 < a_len rest) by lia.
    eapply wp_mono; [apply IH; lia|]. intros w Hw. rewrite Hw. unfold rest. rewrite drop_drop. tauto.
  - wp_step. cbn beta. rewrite Hv in Ev. naive_solver.
Qed.

(** Validation returns for every list, and accepts exactly the valid ones. *)
Lemma validate_actions_spec k acts :
  Forall is_byte acts →
  wp (validate_actions k acts (Z.of_nat (length acts))) (λ v,
    v = ACT_VALIDATION_OK ↔ valid_actions k acts).
Proof.
  intros Hb. unfold validate_actions.
  pose proof (validate_loop_exact (S (length acts)) k acts 0 Hb) as H.
  rewrite drop_0, Nat.sub_0_r in H. apply H; lia.
Qed.

(** A valid list is scanned to its end. *)
Lemma valid_out_port_loop k acts out_port fuel p :
  valid_actions k (drop p acts) → (p ≤ length acts)%nat → (length acts - p ≤ fuel)%nat →
  ∃ b, out_port_loop fuel acts p (length acts - p) out_port = Ok b.
Proof.
  revert p. induction fuel as [|fuel IH]; intros p Hv Hp Hf.
  { exists false. by rewrite (proj2 (Nat.sub_0_le _ _)) by lia. }
  cbn [out_port_loop]. destruct (Nat.eqb_spec (length acts - p) 0) as [|Hn]; [by exists false|].
  apply valid_actions_step in Hv as [E|[Hv Hrest]].
  { apply (f_equal length) in E. rewrite length_drop in E. simpl in E. lia. }
  destruct (valid_head _ _ _ Hv) as [El Hc]. rewrite length_take, length_drop in El, Hc.
  assert (ntohs (int_at acts (p + 2) 2) = a_len (drop p acts)) as Ea.
  { unfold a_len. rewrite <-(take_ge (drop p acts) (length acts)) by (rewrite length_drop; lia).
    by rewrite int_at_sub by lia. }
  unfold load. rewrite !(proj2 (Nat.leb_le _ _)) by lia. cbn [assert_c mbind comp_bind]. rewrite Ea.
  destruct (IH (p + Z.to_nat (a_len (drop p acts)))%nat) as [b Hb]; [by rewrite <-drop_drop|lia..|].
  destruct (_ =? htons OFPAT_OUTPUT); cbn [mbind comp_bind].
  - destruct (_ =? out_port); [by exists true|]. rewrite (proj2 (Nat.leb_le _ _)) by lia.
    exists b. rewrite <-Hb. cbn [assert_c mbind comp_bind]. f_equal. lia.
  - rewrite (proj2 (Nat.leb_le _ _)) by lia.
    exists b. rewrite <-Hb. cbn [assert_c mbind comp_bind]. f_equal. lia.
Qed.

Lemma valid_actions_acts_ok k acts : valid_actions k acts → Table.acts_ok acts.
Proof.
  intros Hv out_port. pose proof (valid_out_port_loop k acts out_port (length acts) 0) as H.
  rewrite drop_0, Nat.sub_0_r in H. apply H; (done || lia).
Qed.



(** ** VLAN tags *)

Lemma bytes_at_app mem off n m :
  bytes_at mem off (n + m) = bytes_at mem off n ++ bytes_at mem (off + n) m.
Proof. unfold bytes_at. by rewrite <-drop_drop, <-take_take_drop. Qed.

Lemma le_bytes_le_int l : Forall is_byte l → le_bytes (length l) (le_int l) = l.
Proof.
  induction 1 as [|b l Hb _ IH]; [done|]. cbn [length le_int le_bytes]. unfold is_byte in Hb.
  replace ((b + 256 * le_int l) / 256) with (le_int l) by zlia. rewrite IH. f_equal. zlia.
Qed.

Lemma le_bytes_int_at mem off n :
  Forall is_byte mem → (off + n ≤ length mem)%nat → le_bytes n (int_at mem off n) = bytes_at mem off n.
Proof.
  intros Hb Hl. unfold int_at. rewrite <-(length_bytes_at mem off n) at 1 by done.
  by apply le_bytes_le_int, bytes_at_is_byte.
Qed.

Lemma bytes_at_put_at_long mem off src n :
  (off + length src ≤ length mem)%nat → (length src ≤ n)%nat →
  bytes_at (put_at mem off src) off n = src ++ bytes_at mem (off + length src) (n - length src).
Proof.
  intros H1 H2. replace n with (length src + (n - length src))%nat at 1 by lia.
  by rewrite bytes_at_app, bytes_at_put_at, bytes_at_put_at_after by lia.
Qed.

Lemma put_at_is_byte mem off src :
  Forall is_byte mem → Forall is_byte src → Forall is_byte (put_at mem off src).
Proof. intros Hm Hs. unfold put_at. repeat apply Forall_app_2; auto using Forall_take, Forall_drop. Qed.

Lemma take_bytes_at mem off s n : (n ≤ s)%nat → take n (bytes_at mem off s) = bytes_at mem off n.
Proof. intros H. unfold bytes_at. by rewrite take_take, Nat.min_l. Qed.

Lemma drop_bytes_at mem off s n : drop n (bytes_at mem off s) = bytes_at mem (off + n) (s - n).
Proof.
  unfold bytes_at. rewrite <-drop_drop. destruct (decide (n ≤ s)%nat).
  - rewrite (take_drop_commute (drop off mem) (s - n) n). by replace (n + (s - n))%nat with s by lia.
  - rewrite (proj2 (Nat.sub_0_le s n)) by lia. apply drop_ge. rewrite length_take. lia.
Qed.

(** Reading the packet through the region. *)
Lemma bytes_at_contents b i n :
  (i + n ≤ size b)%nat → bytes_at (base b) (data b + i) n = bytes_at (contents b) i n.
Proof.
  intros H. unfold contents. unfold bytes_at at 2. rewrite drop_bytes_at, take_bytes_at; [done|lia].
Qed.

(** An untagged packet with room for a tag in front of it. *)
Record untagged (b : ofpbuf) (k : sw_flow_key) : Prop := {
  ut_bytes : Forall is_byte (base b);
  ut_wf : wf b;
  ut_l2 : l2 b = Some (data b);
  ut_room : (VLAN_HEADER_LEN ≤ data b)%nat;
  ut_size : (ETH_HEADER_LEN ≤ size b)%nat;
  ut_key : dl_vlan (kflow k) = htons OFP_VLAN_NONE;
}.

(** The tag that the actions put into a packet: after the two addresses. *)
Definition tagged (tci : Z) (frame : list Z) : list Z :=
  take 12 frame ++ le_bytes 2 (htons ETH_TYPE_VLAN) ++ le_bytes 2 (htons tci) ++ drop 12 frame.

Lemma modify_vlan_tci_push b k tci mask :
  untagged b k →
  wp (modify_vlan_tci b k tci mask) (λ '(b', k'),
    contents b' = tagged tci (contents b) ∧ Forall is_byte (base b') ∧ wf b' ∧ l2 b' = Some (data b')).
Proof.
  intros [Hbytes Hwf Hl2 Hroom Hsize Hk]. unfold wf, allocated in Hwf.
  unfold VLAN_HEADER_LEN, ETH_HEADER_LEN in *.
  unfold modify_vlan_tci. rewrite Hl2, Hk, Z.eqb_refl. cbn [deref mbind comp_bind negb].
  apply wp_bind.
  wp_step. wp_step; [unfold o_eth_dst, ETH_ADDR_LEN; lia|].
  wp_step. wp_step; [unfold o_eth_src, ETH_ADDR_LEN; lia|].
  wp_step. wp_step; [unfold o_eth_type; lia|].
  unfold ofpbuf_push_uninit, ofpbuf_prealloc_headroom, ofpbuf_headroom, VLAN_HEADER_LEN.
  rewrite (proj2 (Nat.leb_le _ _)) by lia. cbn [assert_c mbind comp_bind].
  set (src := _ ++ _ ++ _ ++ _ ++ _).
  assert (src = bytes_at (base b) (data b) 12 ++ le_bytes 2 (htons ETH_TYPE_VLAN) ++ le_bytes 2 (htons tci)
                ++ bytes_at (base b) (data b + 12) 2) as Esrc.
  { unfold src, o_eth_dst, o_eth_src, o_eth_type, ETH_ADDR_LEN. rewrite le_bytes_int_at by (done || lia).
    change 12%nat with (6 + 6)%nat at 2. by rewrite bytes_at_app, Nat.add_0_r, <-app_assoc. }
  rewrite Esrc. clear src Esrc. set (src := _ ++ _ ++ _ ++ _).
  assert (length src = 18%nat) as Lsrc.
  { unfold src. rewrite !length_app, !length_le_bytes, !length_bytes_at by lia. done. }
  apply wp_bind. wp_step; [rewrite Lsrc; simpl; lia|]. wp_step.
  wp_step. wp_step; [simpl; rewrite length_put_at by (rewrite Lsrc; lia); unfold o_veth_tci; lia|].
  wp_step. unfold contents, wf, allocated. cbn [base data size l2 upd]. 
  rewrite length_put_at by (rewrite Lsrc; simpl; lia).
  split; [|split_and!; simpl; try (done || lia)].
  2: { apply put_at_is_byte; [done|]. unfold src.
       repeat apply Forall_app_2; auto using bytes_at_is_byte, le_bytes_is_byte. }
  rewrite bytes_at_put_at_long by (rewrite Lsrc; simpl; lia). rewrite Lsrc. unfold src, tagged.
  rewrite take_bytes_at, drop_bytes_at, <-!app_assoc by lia. do 3 f_equal.
  replace (size b - 12)%nat with (2 + (size b - 14))%nat by lia. rewrite bytes_at_app.
  f_equal. f_equal; lia.
Qed.

Lemma tagged_addresses tci frame : (12 ≤ length frame)%nat → bytes_at (tagged tci frame) 0 12 = take 12 frame.
Proof.
  intros H. unfold bytes_at, tagged. rewrite drop_0, take_app_le by (rewrite length_take; lia).
  apply take_ge. rewrite length_take. lia.
Qed.

Lemma tagged_type tci frame :
  (12 ≤ length frame)%nat → bytes_at (tagged tci frame) 12 2 = le_bytes 2 (htons ETH_TYPE_VLAN).
Proof.
  intros H. unfold bytes_at, tagged. rewrite drop_app_ge by (rewrite length_take; lia).
  by rewrite length_take, Nat.min_l by lia.
Qed.

Lemma tagged_rest tci frame n :
  (12 ≤ length frame)%nat → drop (16 + n) (tagged tci frame) = drop (12 + n) frame.
Proof.
  intros H. unfold tagged. rewrite drop_app_ge by (rewrite length_take; lia).
  rewrite length_take, Nat.min_l by lia. rewrite <-drop_drop. by replace (16 + n - 12)%nat with (4 + n)%nat by lia.
Qed.

Lemma vlan_pull_tag_tagged b tci frame :
  Forall is_byte (base b) → wf b → l2 b = Some (data b) → (14 ≤ length frame)%nat →
  contents b = tagged tci frame →
  wp (vlan_pull_tag b) (λ b', contents b' = frame).
Proof.
  intros Hbytes Hwf Hl2 Hlen Hc. unfold vlan_pull_tag. rewrite Hl2. cbn [deref mbind comp_bind].
  assert (size b = length frame + 4)%nat as Hs.
  { rewrite <-length_contents, Hc by done. unfold tagged.
    rewrite !length_app, !length_le_bytes, length_drop, length_take. lia. }
  unfold wf, allocated in Hwf. unfold o_eth_type, o_eth_dst, o_eth_src, o_veth_next_type, ETH_ADDR_LEN.
  wp_step. wp_step; [lia|].
  assert (int_at (base b) (data b + 12) 2 = htons ETH_TYPE_VLAN) as ->.
  { unfold int_at. rewrite bytes_at_contents, Hc, tagged_type by lia. reflexivity. }
  rewrite Z.eqb_refl. wp_step. wp_step; [lia|]. wp_step. wp_step; [lia|]. wp_step. wp_step; [lia|].
  unfold size_sub, VLAN_HEADER_LEN. rewrite (proj2 (Nat.leb_le _ _)) by lia. cbn [assert_c mbind comp_bind].
  rewrite le_bytes_int_at by (done || lia). rewrite !bytes_at_contents by lia.
  set (src := _ ++ _ ++ _).
  assert (src = take 14 frame) as Esrc.
  { pose proof (bytes_at_app (contents b) 0 6 6) as E6. cbn [Nat.add] in E6.
    unfold src. rewrite app_assoc, <-E6, Hc, tagged_addresses by lia.
    unfold bytes_at. pose proof (tagged_rest tci frame 0) as E16. cbn [Nat.add] in E16.
    rewrite E16 by lia. apply (take_take_drop frame 12 2). }
  rewrite Esrc. clear src Esrc.
  assert (length (take 14 frame) = 14%nat) as L14 by (rewrite length_take; lia).
  wp_step. wp_step; [rewrite L14; simpl; lia|]. wp_step. unfold contents at 1. cbn [base data size upd].
  rewrite bytes_at_put_at_long by (rewrite L14; simpl; lia). rewrite L14.
  rewrite <-(take_drop 14 frame) at 2. f_equal.
  pose proof (tagged_rest tci frame 2) as E18. cbn [Nat.add] in E18. rewrite <-E18, <-Hc by lia. unfold contents. rewrite drop_bytes_at. simpl. f_equal; lia.
Qed.

(** Setting a VLAN id or priority on an untagged packet puts a tag with the given
    bits after the two addresses, and stripping the tag gives back the packet. *)
Theorem vlan_push_strip b k tci mask acts ah :
  untagged b k →
  wp (modify_vlan_tci b k tci mask) (λ '(b1, k1),
    contents b1 = tagged tci (contents b) ∧
    wp (strip_vlan b1 k1 acts ah) (λ '(b2, k2),
      contents b2 = contents b ∧ dl_vlan (kflow k2) = htons OFP_VLAN_NONE)).
Proof.
  intros Hu. eapply wp_mono; [by apply modify_vlan_tci_push|].
  intros [b1 k1] (Hc & Hb & Hwf & Hl2). split; [done|].
  unfold strip_vlan. apply wp_bind. eapply wp_mono; [eapply vlan_pull_tag_tagged; try done|].
  - destruct Hu as [_ Hu _ _ Hsize _]. by rewrite length_contents.
  - intros b2 Hb2. wp_step. done.
Qed.

Lemma vlan_push_strip_witness :
  let frame := replicate 12 1 ++ [8; 0] ++ replicate 46 7 in
  let b := mk_ofpbuf (replicate 130 0 ++ frame) 130 60 (Some 130%nat) None None None in
  let k := mk_sw_flow_key (zero_flow <| dl_vlan := htons OFP_VLAN_NONE |>) 0 0 0 in
  untagged b k ∧
  wp (modify_vlan_tci b k 5 VLAN_VID_MASK) (λ '(b1, k1), contents b1 = tagged 5 frame).
Proof.
  intros frame b k.
  assert (untagged b k) as Hu.
  { split; try reflexivity; [|apply leb_complete; reflexivity..].
    unfold b, frame. cbn [base]. repeat apply Forall_app_2; repeat constructor; try (unfold is_byte; lia);
      apply Forall_replicate; unfold is_byte; lia. }
  split; [exact Hu|].
  eapply wp_mono; [exact (vlan_push_strip b k 5 VLAN_VID_MASK [] 0 Hu)|].
  intros [b1 k1] [Hc _]. exact Hc.
Defined.

End DpActFacts.
