(* ===== verification/DpFacts.v ===== *)
(** * Rules for computations on the datapath

    Weakest preconditions of the operations that the handlers are made of, and the
    tactic [drun] that applies them. *)

From S2P Require Import Prelude Ofp Ofpbuf Flow FlowFacts SwitchFlow SwitchFlowFacts Rconn.
From S2P Require Import RconnFacts Env EnvFacts Table TableSeq Chain ChainFacts DpAct DpActFacts.
From S2P Require Import OfpMsg Datapath DpMsg.
Import OfpMsg Ofp Ofpbuf Flow FlowFacts SwitchFlow SwitchFlowFacts Env EnvFacts Table TableSeq Chain ChainFacts
  DpAct DpActFacts Datapath DpMsg.

Module DpFacts.

Lemma load_app (a b : list Z) n x :
  0 <= x < 256 ^ Z.of_nat n → load (a ++ le_bytes n x ++ b) (length a) n = Ok x.
Proof.
  intros Hx. unfold load. rewrite (proj2 (Nat.leb_le _ _)) by (rewrite !length_app, length_le_bytes; lia).
  simpl. by rewrite int_at_app.
Qed.

Lemma wp_on_env {A} (m : M env A) d Q :
  wp (m (dp_env d)) (λ '(a, e), Q (a, d <| dp_env := e |>)) → wp (on_env m d) Q.
Proof. unfold on_env. by destruct (m (dp_env d)) as [[a e]| |]. Qed.

Lemma wp_on_env_get d Q : Q (dp_env d, d) → wp (on_env get d) Q.
Proof. intros HQ. apply wp_on_env, wp_get. by destruct d. Qed.

Lemma wp_on_env_read p f d Q :
  heap (dp_env d) !! p = Some f → Q (f, d) → wp (on_env (read_flow p) d) Q.
Proof. intros Hf HQ. eapply wp_on_env, wp_read_flow; [exact Hf|]. by destruct d. Qed.

Lemma wp_on_chain {A} (m : sw_chain switch_table → M env (A * sw_chain switch_table)) d Q :
  wp (m (chain d) (dp_env d)) (λ '((a, c), e), Q (a, d <| dp_env := e |> <| chain := c |>)) →
  wp (on_chain m d) Q.
Proof.
  intros H. unfold on_chain. apply wp_M_bind, wp_get, wp_M_bind, wp_on_env.
  eapply wp_mono; [exact H|]. by intros [[a c] e].
Qed.

(** A step with a result that [Q] describes, in front of a computation of which
    nothing need be known. *)
Lemma ends_bind {S A B} (m : M S A) (k : A → M S B) s Q (P : comp (B * S) → Prop) :
  wp (m s) Q → (∀ a s', Q (a, s') → P (k a s')) → P ((m ≫= k) s).
Proof. intros Hm Hk. destruct (wp_inv _ _ Hm) as ([a s'] & E & HQ). rewrite (bind_ok _ _ _ _ _ E). auto. Qed.

(** Only the flow tables and the connections differ. *)
Definition same_rest (d d' : datapath) : Prop := d' = d <| dp_env := dp_env d' |> <| chain := chain d' |>.

Lemma same_rest_refl d : same_rest d d.
Proof. by destruct d. Qed.

Lemma same_rest_trans d1 d2 d3 : same_rest d1 d2 → same_rest d2 d3 → same_rest d1 d3.
Proof. unfold same_rest. intros -> ->. by destruct d1. Qed.

Lemma same_rest_env d e : same_rest d (d <| dp_env := e |>).
Proof. by destruct d. Qed.

(** ** Packet buffers *)

Lemma get_buf_eq b x d : bufs d !! b = Some x → get_buf b d = Ok (x, d).
Proof. intros Hb. unfold get_buf, mbind, M_bind, get, lift, deref. by rewrite Hb. Qed.

Lemma set_buf_eq b x y d :
  bufs d !! b = Some x → set_buf b y d = Ok (tt, d <| bufs := <[b := y]> (bufs d) |>).
Proof. intros Hb. unfold set_buf. by rewrite (bind_ok _ _ _ _ _ (get_buf_eq b x d Hb)). Qed.

Lemma wp_get_buf b x d Q : bufs d !! b = Some x → Q (x, d) → wp (get_buf b d) Q.
Proof. intros Hb HQ. unfold get_buf. apply wp_M_bind, wp_get. by eapply wp_lift_deref. Qed.

Lemma wp_set_buf b x y d Q :
  bufs d !! b = Some x → Q (tt, d <| bufs := <[b := y]> (bufs d) |>) → wp (set_buf b y d) Q.
Proof. intros Hb HQ. unfold set_buf. eapply wp_M_bind, wp_get_buf; [exact Hb|]. by apply wp_modify. Qed.

Lemma wp_ofpbuf_delete b x d Q :
  bufs d !! b = Some x → Q (tt, d <| bufs := delete b (bufs d) |>) → wp (ofpbuf_delete b d) Q.
Proof.
  intros Hb HQ. unfold ofpbuf_delete. eapply wp_M_bind, wp_get_buf; [exact Hb|]. by apply wp_modify.
Qed.

Lemma wp_new_buf x d Q :
  (∀ b, bufs d !! b = None → Q (b, d <| bufs := <[b := x]> (bufs d) |>)) → wp (new_buf x d) Q.
Proof.
  intros HQ. unfold new_buf. apply wp_M_bind, wp_get, wp_M_bind, wp_modify, wp_M_ret, HQ.
  apply not_elem_of_dom. apply is_fresh.
Qed.

Lemma wp_read_port r p d Q :
  match r with port_at i => ports d !! i = Some p | local_port_ref => local_port d = Some p end →
  Q (p, d) → wp (read_port r d) Q.
Proof.
  intros Hp HQ. unfold read_port. apply wp_M_bind, wp_get.
  destruct r; by eapply wp_lift_deref.
Qed.

Ltac drun_step :=
  lazymatch goal with
  | |- wp (on_env get _) _ => apply wp_on_env_get
  | |- wp (on_env (read_flow _) _) _ => eapply wp_on_env_read; [eassumption|]
  | |- wp (on_env _ _) _ => apply wp_on_env
  | |- wp (on_chain _ _) _ => apply wp_on_chain
  | |- wp (get_buf _ _) _ => eapply wp_get_buf; [eassumption|]
  | |- wp (set_buf _ _ _) _ => eapply wp_set_buf; [eassumption|]
  | |- wp (ofpbuf_delete _ _) _ => eapply wp_ofpbuf_delete; [eassumption|]
  | _ => run_step
  end; cbn beta iota delta [fst snd].
Ltac drun := repeat drun_step.

(** ** Messages to controllers *)

Lemma wp_send b s d Q :
  (8 ≤ length b)%nat → remotes_ok (remotes (dp_env d)) → sender_ok (dp_env d) s →
  (∀ v rs, remotes_ok rs → r_dump <$> rs = r_dump <$> remotes (dp_env d) →
     Q (v, d <| dp_env := (dp_env d) <| remotes := rs |> |>)) →
  wp (send b s d) Q.
Proof.
  intros Hb Hr Hs HQ. unfold send. apply wp_on_env, wp_send_openflow_buffer; [done..|].
  intros v rs Hrs Hd. by apply HQ.
Qed.

Lemma wp_make_openflow_xid len type xid Q :
  (8 ≤ len)%nat → Z.of_nat len <= UINT16_MAX →
  (∀ b, length b = len → Q b) → wp (make_openflow_xid len type xid) Q.
Proof.
  intros H8 Hmax HQ. unfold make_openflow_xid. rewrite (proj2 (Nat.leb_le _ _)) by done.
  rewrite (proj2 (Z.leb_le _ _)) by done. apply HQ.
  unfold ofp_header_bytes. rewrite !length_app, !length_le_bytes, length_replicate. simpl. lia.
Qed.

Lemma wp_dp_send_error_msg s type code msg len d Q :
  (len ≤ length msg)%nat → Z.of_nat (12 + len) <= UINT16_MAX →
  remotes_ok (remotes (dp_env d)) → sender_ok (dp_env d) s →
  (∀ rs, remotes_ok rs → length rs = length (remotes (dp_env d)) →
     Q (tt, d <| dp_env := (dp_env d) <| remotes := rs |> |>)) →
  wp (dp_send_error_msg s type code msg len d) Q.
Proof.
  intros Hl Hmax Hr Hs HQ. unfold dp_send_error_msg, make_openflow_reply.
  drun. apply wp_make_openflow_xid; [lia|done|]. intros b Hb. cbn beta.
  drun. apply wp_load_bytes; [done|]. drun.
  assert (length (le_bytes 2 (htons (u16 type)) ++ le_bytes 2 (htons (u16 code)) ++ bytes_at msg 0 len)
          = 4 + len)%nat as Ld by (rewrite !length_app, !length_le_bytes, length_bytes_at; lia).
  apply wp_memcpy; [lia|]. drun.
  apply wp_send; [rewrite length_put_at; lia|done|done|].
  intros v rs Hrs Hd. drun. apply HQ; [done|]. apply (f_equal length) in Hd. by rewrite !length_fmap in Hd.
Qed.

(** ** Flow entries *)

Lemma wp_flow_alloc n e Q :
  (∀ m, (mem e = [] → False) → Q (None, e <| mem := m |>)) →
  (∀ p m, heap e !! p = None → (mem e = [] → m = []) →
     Q (Some p, e <| mem := m |> <| heap := <[p := new_flow n]> (heap e) |>)) →
  wp (flow_alloc n e) Q.
Proof.
  intros HN HS. unfold flow_alloc. run_step. apply wp_malloc_ok. intros b m Hm.
  cbn beta iota delta [fst snd]. destruct b.
  - run_step. apply wp_malloc_ok. intros b m' Hm'. cbn beta iota delta [fst snd]. simpl in Hm'. destruct b.
    + run. apply (HS _ m').
      * apply not_elem_of_dom. apply (is_fresh (dom (heap e))).
      * intros E. destruct (Hm E) as [_ E']. by destruct (Hm' E').
    + run. apply (HN m'). intros E. destruct (Hm E) as [_ E']. by destruct (Hm' E').
  - run. apply (HN m). intros E. by destruct (Hm E).
Qed.

(** ** The invariant of the flow tables *)

(** The lists of actions that may be stored. *)
Definition stored_actions (acts : list Z) : Prop := ∃ k, valid_actions k acts.

(** [loose] are entries that no table holds. *)
Record dp_inv (d : datapath) (loose : list ptr) : Prop := {
  di_chain : accounted stored_actions (dp_env d) (chain d) loose;
  di_remotes : remotes_ok (remotes (dp_env d));
}.

Section accounting.
  Context {T : Type} `{TableLaws T}.
  Context (good : list Z → Prop).
  Implicit Types (c : sw_chain T) (e : env) (loose : list ptr).

(** What the caller does with the entries it holds does not matter to the chain. *)
Lemma accounted_frame e e' c loose loose' :
  (∀ q, q ∈ chain_owned c → heap e' !! q = heap e !! q) → account e' (chain_owned c ++ loose') →
  accounted good e c loose → accounted good e' c loose'.
Proof.
  intros Hsame Ha [H1 (t & Et & Ht) H3 H4].
  assert (∀ q : ptr, q ∈ owned (tables c) ∨ q ∈ owned t → q ∈ chain_owned c) as Hsub.
  { intros q. unfold chain_owned, emerg_owned. rewrite Et, elem_of_app. done. }
  split; [|exists t; split; [done|]|done|].
  - eapply table_ok_frame; [exact H1|]. apply same_entries_eq. auto.
  - eapply table_ok_frame; [exact Ht|]. apply same_entries_eq. auto.
  - intros q g Hq. rewrite Hsame by done. by apply H4.
Qed.

Lemma accounted_apart e c loose p : accounted good e c loose → p ∈ loose → p ∉ chain_owned c.
Proof.
  intros [_ _ [Hn _] _] Hp Hp'. apply NoDup_app in Hn as (_ & Hd & _). by apply (Hd p).
Qed.

(** The invariant is about the entries only. *)
Lemma accounted_heap e e' c loose :
  heap e' = heap e → accounted good e c loose → accounted good e' c loose.
Proof.
  intros Hh Hac. eapply accounted_frame; [by intros; rewrite Hh| |exact Hac].
  eapply account_dom; [|apply Hac]. by rewrite Hh.
Qed.

(** A new entry, not yet in a table. *)
Lemma accounted_new e e' c loose p f :
  heap e !! p = None → heap e' = <[p := f]> (heap e) →
  accounted good e c loose → accounted good e' c (p :: loose).
Proof.
  intros Hp Hh Hac. pose proof (at_account _ _ _ _ Hac) as [Hnd Hdom].
  assert (p ∉ chain_owned c ++ loose) as Hn by (rewrite <-Hdom, Hp; by intros []).
  eapply accounted_frame; [| |exact Hac].
  - intros q Hq. rewrite Hh, lookup_insert_ne; [done|]. intros ->. apply Hn, elem_of_app. auto.
  - rewrite <-Permutation_middle. split; [by apply NoDup_cons|].
    intros q. rewrite Hh, elem_of_cons, <-Hdom. destruct (decide (q = p)) as [->|Hq].
    + rewrite lookup_insert_eq. split; eauto.
    + rewrite lookup_insert_ne by done. naive_solver.
Qed.

(** Freeing such an entry. *)
Lemma accounted_free e e' c loose p :
  heap e' = delete p (heap e) → accounted good e c (p :: loose) → accounted good e' c loose.
Proof.
  intros Hh Hac. eapply accounted_frame; [| |exact Hac].
  - intros q Hq. rewrite Hh, lookup_delete_ne; [done|]. intros ->.
    eapply (accounted_apart _ _ _ q Hac); [left|done].
  - apply (account_free e e' [p]); [done|]. pose proof (at_account _ _ _ _ Hac) as H3.
    rewrite <-Permutation_middle in H3. exact H3.
Qed.

(** A caller may change an entry it holds. *)
Lemma accounted_write e e' c loose p f :
  heap e' = <[p := f]> (heap e) → p ∈ loose → accounted good e c loose → accounted good e' c loose.
Proof.
  intros Hh Hp Hac. eapply accounted_frame; [| |exact Hac].
  - intros q Hq. rewrite Hh, lookup_insert_ne; [done|]. intros ->. by eapply (accounted_apart _ _ _ q Hac).
  - eapply account_dom; [|apply Hac]. intros q. rewrite Hh. destruct (decide (q = p)) as [->|Hq].
    + rewrite lookup_insert_eq. split; [|eauto]. intros _.
      apply (at_account _ _ _ _ Hac), elem_of_app. auto.
    + by rewrite lookup_insert_ne.
Qed.
End accounting.

End DpFacts.
