(* ===== verification/DpPacket.v ===== *)
(** * Packets kept for the controller and packets sent out

    The array of saved packets and the packet buffers that exist; what becomes of a
    packet that a port receives. *)

From S2P Require Import Prelude Ofp Ofpbuf Flow FlowFacts SwitchFlow SwitchFlowFacts Rconn.
From S2P Require Import RconnFacts Env EnvFacts Table TableSeq Chain ChainFacts DpAct DpActFacts.
From S2P Require Import Datapath DpMsg DpFacts.
Import Ofp Ofpbuf Flow FlowFacts SwitchFlow SwitchFlowFacts Env EnvFacts Table TableSeq Chain ChainFacts
  DpAct DpActFacts Datapath DpMsg DpFacts.

Module DpPacket.

(** ** Buffer ids *)

Definition COOKIES : Z := 2 ^ 24 - 1.

(** The id of slot [i] with cookie [c]. *)
Definition buffer_id_of (i c : Z) : Z := u32 (i .| u32 (c << PKT_BUFFER_BITS)).

Lemma buffer_id_sum i c : 0 <= i < 256 → 0 <= c < 2 ^ 24 → buffer_id_of i c = 256 * c + i.
Proof.
  intros Hi Hc. unfold buffer_id_of, u32, PKT_BUFFER_BITS.
  rewrite Z.shiftl_mul_pow2, (Z.mod_small (c * 2 ^ 8)) by lia.
  assert (i .| (c * 2 ^ 8) = 256 * c + i) as ->; [|apply Z.mod_small; lia].
  apply Z.bits_inj'. intros n Hn. change (256 * c + i) with (2 ^ 8 * c + i).
  rewrite testbit_join, Z.lor_spec by lia. rewrite <-Z.shiftl_mul_pow2 by lia.
  rewrite Z.shiftl_spec by done. case_decide.
  - by rewrite (Z.testbit_neg_r c), orb_false_r by lia.
  - by rewrite (testbit_high i n 8) by lia.
Qed.

Lemma buffer_id_parts i c :
  0 <= i < 256 → 0 <= c < COOKIES →
  buffer_id_of i c .& PKT_BUFFER_MASK = i ∧ buffer_id_of i c >> PKT_BUFFER_BITS = c ∧
  buffer_id_of i c ≠ UINT32_MAX.
Proof.
  unfold COOKIES. intros Hi Hc. rewrite buffer_id_sum by lia. unfold PKT_BUFFER_BITS, UINT32_MAX.
  change PKT_BUFFER_MASK with (Z.ones 8). rewrite Z.land_ones, Z.shiftr_div_pow2 by lia.
  split_and!; [zlia|zlia|lia].
Qed.

(** ** The saved packets *)

Definition saved (d : datapath) (b : ptr) : Prop := ∃ i p, buffers d !! i = Some p ∧ pb_buffer p = Some b.

(** Every slot has its own packet, which exists. *)
Record saved_ok (d : datapath) : Prop := {
  so_slots : length (buffers d) = 256%nat;
  so_idx : 0 <= buffer_idx d < 256;
  so_cookie : ∀ i p, buffers d !! i = Some p → 0 <= pb_cookie p < COOKIES;
  so_exist : ∀ b, saved d b → is_Some (bufs d !! b);
  so_apart : ∀ i j p q b, buffers d !! i = Some p → buffers d !! j = Some q →
    pb_buffer p = Some b → pb_buffer q = Some b → i = j;
}.

Section packets.
Context `{Malloc}.
Implicit Types (d : datapath) (b : ptr) (x : ofpbuf).

Lemma wp_clone_buf b x d Q :
  bufs d !! b = Some x →
  (∀ c y, bufs d !! c = None → wf y → contents y = contents x → data y = 0%nat →
     Q (c, d <| bufs := <[c := y]> (bufs d) |>)) →
  wp (clone_buf b d) Q.
Proof.
  intros Hb HQ. unfold clone_buf. drun. unfold ofpbuf_clone.
  destruct (clone_data_spec (contents x)) as (y & -> & Hwf & Hc & Hd). cbn [wp].
  drun. apply wp_new_buf. intros c Hn. by apply HQ.
Qed.

Lemma next_slot d : 0 <= (buffer_idx d + 1) .& PKT_BUFFER_MASK < 256.
Proof. change PKT_BUFFER_MASK with (Z.ones 8). rewrite Z.land_ones by lia. zlia. Qed.

(** A packet in flight. *)
Definition unsaved d b : Prop := is_Some (bufs d !! b) ∧ ¬ saved d b.

(** Which packets are saved after a slot was written. *)
Lemma saved_write d d1 i p p' :
  saved_ok d → buffers d !! i = Some p → buffers d1 = <[i := p']> (buffers d) →
  ∀ q, saved d1 q ↔ pb_buffer p' = Some q ∨ (saved d q ∧ pb_buffer p ≠ Some q).
Proof.
  intros Hok Hp Hw q. unfold saved. rewrite Hw. split.
  - intros (j & pj & Hj & Hq). apply list_lookup_insert_Some in Hj as [(<- & <- & _)|[Hij Hj]]; [auto|].
    right. split; [eauto|]. intros Hpq. by destruct Hij, (so_apart _ Hok i j p pj q).
  - intros [Hq|[(j & pj & Hj & Hq) Hne]].
    + exists i, p'. split; [|done]. apply list_lookup_insert_eq. by eapply lookup_lt_Some.
    + exists j, pj. split; [|done]. rewrite list_lookup_insert_ne; [done|]. intros ->. congruence.
Qed.

(** A slot takes a packet of its own, or none. *)
Lemma slot_write d d1 i p p' :
  saved_ok d → buffers d !! i = Some p → buffers d1 = <[i := p']> (buffers d) →
  0 <= pb_cookie p' < COOKIES → 0 <= buffer_idx d1 < 256 →
  (∀ q, saved d1 q → is_Some (bufs d1 !! q)) →
  (∀ q, pb_buffer p' = Some q → saved d q → pb_buffer p = Some q) →
  saved_ok d1.
Proof.
  intros Hok Hp Hw Hc Hi Hex Hown. pose proof Hok as [H1 H2 H3 H4 H5]. split; [by rewrite Hw, length_insert|done| |done|].
  - intros j q. rewrite Hw. intros [(<- & <- & _)|[_ Hj]]%list_lookup_insert_Some; [done|by eapply H3].
  - intros j k pj pk b. rewrite Hw.
    intros [(<- & <- & _)|[Hij Hj]]%list_lookup_insert_Some [(<- & <- & _)|[Hik Hk]]%list_lookup_insert_Some Hbj Hbk;
      [done| | |by eapply H5].
    + destruct Hik. eapply (H5 _ _ p pk b); try done. apply Hown; [done|]. by eexists _, _.
    + destruct Hij. symmetry. eapply (H5 _ _ pj p b); try done. apply Hown; [done|]. by eexists _, _.
Qed.

(** Saving: the packet of the slot, if any, gives way to the new one. *)
Lemma slot_save d d1 i p c y cookie t :
  saved_ok d → buffers d !! i = Some p → 0 <= cookie < COOKIES → 0 <= buffer_idx d1 < 256 →
  buffers d1 = <[i := mk_packet_buffer (Some c) cookie t]> (buffers d) →
  let old := match pb_buffer p with Some o => delete o (bufs d) | None => bufs d end in
  old !! c = None → bufs d1 = <[c := y]> old →
  saved_ok d1 ∧ (∀ q, unsaved d1 q ↔ unsaved d q) ∧ (∀ q, unsaved d q → q ≠ c ∧ bufs d1 !! q = bufs d !! q).
Proof.
  intros Hok Hp Hc Hi Hw old Hn Hb. pose proof (saved_write _ _ _ _ _ Hok Hp Hw) as Hs. simpl in Hs.
  assert (∀ q, old !! q = if decide (pb_buffer p = Some q) then None else bufs d !! q) as Hold.
  { intros q. unfold old. destruct (pb_buffer p) as [o|]; [|by rewrite decide_False].
    destruct (decide (o = q)) as [->|Hne]; [by rewrite lookup_delete_eq, decide_True|].
    rewrite lookup_delete_ne, decide_False by congruence. done. }
  assert (∀ q, unsaved d q → q ≠ c ∧ bufs d1 !! q = bufs d !! q) as Hun.
  { intros q [[x Hx] Hns]. assert (pb_buffer p ≠ Some q) as Hpq by (intros E; apply Hns; by eexists _, _).
    assert (old !! q = Some x) as Hq by (by rewrite Hold, decide_False).
    assert (q ≠ c) as Hqc by congruence. split; [done|]. by rewrite Hb, lookup_insert_ne, Hq. }
  split_and!; [| |done].
  - eapply slot_write; try done.
    + intros q [[= <-]|[Hq Hne]]%Hs; [rewrite Hb, lookup_insert_eq; eauto|].
      rewrite Hb. destruct (decide (q = c)) as [->|Hqc]; [rewrite lookup_insert_eq; eauto|].
      rewrite lookup_insert_ne, Hold, decide_False by done. by apply Hok.
    + simpl. intros q [= <-] Hq. destruct (decide (pb_buffer p = Some c)) as [|Hpc]; [done|].
      rewrite Hold, decide_False in Hn by done. destruct (so_exist _ Hok c Hq). congruence.
  - intros q. split; [|intros Hq; split; [destruct (Hun q Hq) as [_ ->]; apply Hq|]].
    + intros [Hx Hns]. rewrite Hs in Hns. rewrite Hb, lookup_insert_ne, Hold in Hx by (intros ->; tauto).
      case_decide as Hpq; [by destruct Hx|]. split; [done|]. tauto.
    + destruct (Hun q Hq) as [Hqc _]. rewrite Hs. intros [[= ->]|[Hsq _]]; [done|]. by apply Hq.
Qed.

(** The next slot is taken, unless it holds a packet less than a second old. *)
Definition next_slot_busy d : Prop :=
  ∃ p o, buffers d !! Z.to_nat ((buffer_idx d + 1) .& PKT_BUFFER_MASK) = Some p ∧
    pb_buffer p = Some o ∧ now_sec (dp_env d) < pb_timeout p.

(** What saving changes. *)
Record saving d b id d1 : Prop := {
  sv_rest : ∃ i B S, d1 = d <| buffer_idx := i |> <| bufs := B |> <| buffers := S |>;
  sv_ok : saved_ok d1;
  sv_unsaved : ∀ q, unsaved d1 q ↔ unsaved d q;
  sv_same : ∀ q, unsaved d q → bufs d1 !! q = bufs d !! q;
  sv_range : 0 <= id < 2 ^ 32;
  sv_id : id = UINT32_MAX ∨
    ∃ i cookie t x c y, id = buffer_id_of i cookie ∧ 0 <= i < 256 ∧ 0 <= cookie < COOKIES ∧
      buffers d1 !! Z.to_nat i = Some (mk_packet_buffer (Some c) cookie t) ∧
      bufs d !! b = Some x ∧ bufs d1 !! c = Some y ∧ wf y ∧ contents y = contents x;
  sv_busy : id = UINT32_MAX ↔ next_slot_busy d;
}.

Lemma next_cookie c :
  0 <= c < COOKIES →
  0 <= (if (1 << PKT_COOKIE_BITS) - 1 <=? u32 (c + 1) then 0 else u32 (c + 1)) < COOKIES.
Proof.
  intros Hc. change ((1 << PKT_COOKIE_BITS) - 1) with COOKIES.
  unfold COOKIES, u32 in *. rewrite Z.mod_small by lia. destruct (Z.leb_spec (2 ^ 24 - 1) (c + 1)); lia.
Qed.

Lemma fill_slot_spec d b x i p B :
  saved_ok d → bufs d !! b = Some x → ¬ saved d b →
  i = (buffer_idx d + 1) .& PKT_BUFFER_MASK → buffers d !! Z.to_nat i = Some p →
  B = match pb_buffer p with Some o => delete o (bufs d) | None => bufs d end → ¬ next_slot_busy d →
  wp (fill_slot i p b (d <| buffer_idx := i |> <| bufs := B |>)) (λ '(id, d1), saving d b id d1).
Proof.
  intros Hok Hb Hns Hi Hp HB Hfree. pose proof (next_slot d) as Hidx. rewrite <-Hi in Hidx. clear Hi.
  unfold fill_slot. cbv zeta. set (cookie := if _ <=? _ then 0 else _).
  assert (0 <= cookie < COOKIES) as Hc by (apply next_cookie, (so_cookie _ Hok _ _ Hp)).
  drun. assert (bufs (d <| buffer_idx := i |> <| bufs := B |>) !! b = Some x) as Hb'.
  { simpl. rewrite HB. destruct (pb_buffer p) as [o|] eqn:Ho; [|done].
    rewrite lookup_delete_ne; [done|]. intros ->. apply Hns. by eexists _, _. }
  eapply wp_clone_buf; [exact Hb'|]. intros c y Hn Hwf Hy _. drun. fold (buffer_id_of i cookie).
  set (d1 := upd buffers _ _).
  destruct (slot_save d d1 (Z.to_nat i) p c y cookie (now_sec (dp_env d) + OVERWRITE_SECS))
    as (Hok1 & Hun & Hsame); try done; [by rewrite <-HB|unfold d1; simpl; by rewrite HB|].
  pose proof (buffer_id_parts i cookie) as (_ & _ & Hmax); [done..|].
  split; try done.
  - eexists _, _, _. reflexivity.
  - intros q Hq. by apply Hsame.
  - rewrite buffer_id_sum by (unfold COOKIES in Hc; lia). unfold COOKIES in Hc. lia.
  - right. exists i, cookie, (now_sec (dp_env d) + OVERWRITE_SECS), x, c, y. split_and!; try done; try lia.
    + unfold d1. simpl. apply list_lookup_insert_eq. rewrite (so_slots _ Hok). lia.
    + unfold d1. simpl. apply lookup_insert_eq.
Qed.

Lemma save_buffer_spec d b x :
  saved_ok d → bufs d !! b = Some x → ¬ saved d b →
  wp (save_buffer b d) (λ '(id, d1), saving d b id d1).
Proof.
  intros Hok Hb Hns. unfold save_buffer. pose proof (next_slot d) as Hidx. drun.
  destruct (lookup_lt_is_Some_2 (buffers d) (Z.to_nat ((buffer_idx d + 1) .& PKT_BUFFER_MASK))) as [p Hp].
  { rewrite (so_slots _ Hok). lia. }
  rewrite Hp. cbn [deref wp]. drun.
  pose proof (fill_slot_spec d b x _ p _ Hok Hb Hns eq_refl Hp eq_refl) as Hfill.
  destruct (pb_buffer p) as [o|] eqn:Ho.
  - destruct (Z.ltb_spec (now_sec (dp_env d)) (pb_timeout p)) as [Hbusy|Hold].
    + drun. split; try done.
      * exists ((buffer_idx d + 1) .& PKT_BUFFER_MASK), (bufs d), (buffers d). by destruct d.
      * destruct Hok. by split.
      * by left.
      * split; [|done]. intros _. by exists p, o.
    + destruct (so_exist _ Hok o) as [xo Hxo]; [by eexists _, _|]. drun. apply Hfill.
      intros (p' & o' & Hp' & _ & Hlt). rewrite Hp in Hp'. injection Hp' as <-. lia.
  - drun. assert (d <| buffer_idx := (buffer_idx d + 1) .& PKT_BUFFER_MASK |>
      = d <| buffer_idx := (buffer_idx d + 1) .& PKT_BUFFER_MASK |> <| bufs := bufs d |>) as ->
      by by destruct d.
    apply Hfill. intros (p' & o' & Hp' & Ho' & _). congruence.
Qed.

(** Taking a packet out of its slot. *)
Lemma retrieve_buffer_spec d id :
  saved_ok d → 0 <= id < 2 ^ 32 →
  wp (retrieve_buffer id d) (λ '(r, d1), saved_ok d1 ∧
    (∃ S, d1 = d <| buffers := S |>) ∧
    (∀ q, unsaved d1 q ↔ unsaved d q ∨ r = Some q) ∧
    (∀ p, buffers d !! Z.to_nat (id .& PKT_BUFFER_MASK) = Some p → pb_cookie p = id >> PKT_BUFFER_BITS →
       r = pb_buffer p ∧
       buffers d1 !! Z.to_nat (id .& PKT_BUFFER_MASK) = Some (p <| pb_buffer := None |>))).
Proof.
  intros Hok Hid. unfold retrieve_buffer. drun. set (i := Z.to_nat (id .& PKT_BUFFER_MASK)).
  assert (i < 256)%nat as Hi.
  { unfold i. change PKT_BUFFER_MASK with (Z.ones 8). rewrite Z.land_ones by lia. zlia. }
  destruct (lookup_lt_is_Some_2 (buffers d) i) as [p Hp]; [by rewrite (so_slots _ Hok)|].
  rewrite Hp. cbn [deref wp]. destruct (Z.eqb_spec (pb_cookie p) (id >> PKT_BUFFER_BITS)) as [Hc|Hc].
  - drun. set (p' := p <| pb_buffer := None |>). set (d1 := d <| buffers := _ |>).
    pose proof (saved_write d d1 i p p' Hok Hp eq_refl) as Hs. split_and!.
    + eapply (slot_write d d1 i p p'); try done; [apply (so_cookie _ Hok i p Hp)|apply Hok|].
      intros q [Hq|[Hq _]]%Hs; [done|by apply (so_exist _ Hok q)].
    + by eexists.
    + intros q. unfold unsaved. rewrite Hs. change (bufs d1) with (bufs d). split.
      * intros [Hx Hn]. destruct (decide (pb_buffer p = Some q)) as [|Hne]; [by right|left]. tauto.
      * intros [[Hx Hn]|Hq]; [split; [done|]; intros [?|[? ?]]; [done|tauto]|].
        split; [apply (so_exist _ Hok); by eexists _, _|]. intros [?|[_ ?]]; done.
    + intros p2 [= <-] _. split; [done|]. apply list_lookup_insert_eq. by rewrite (so_slots _ Hok).
  - drun. split_and!; [done|exists (buffers d); by destruct d| |].
    + intros q. split; [auto|]. by intros [?|?].
    + intros p2 [= <-] ?. done.
Qed.

(** ** Packets by their ids *)

Definition slot_of (id : Z) : nat := Z.to_nat (id .& PKT_BUFFER_MASK).

(** The packet with an id. *)
Definition packet_named d (id : Z) : option ptr :=
  p ← buffers d !! slot_of id;
  if pb_cookie p =? id >> PKT_BUFFER_BITS then pb_buffer p else None.

(** Its slot without it. *)
Definition emptied d (id : Z) : datapath :=
  match buffers d !! slot_of id with
  | Some p =>
      if pb_cookie p =? id >> PKT_BUFFER_BITS then
        d <| buffers := <[slot_of id := p <| pb_buffer := None |>]> (buffers d) |>
      else d
  | None => d
  end.

(** The packet freed. *)
Definition discarded d (id : Z) : datapath :=
  match packet_named d id with
  | Some b => (emptied d id) <| bufs := delete b (bufs d) |>
  | None => d
  end.

Lemma slot_lookup d id : saved_ok d → is_Some (buffers d !! slot_of id).
Proof.
  intros Hok. apply lookup_lt_is_Some_2. rewrite (so_slots _ Hok). unfold slot_of.
  change PKT_BUFFER_MASK with (Z.ones 8). rewrite Z.land_ones by lia. zlia.
Qed.

Lemma emptied_none d id : packet_named d id = None → emptied d id = d.
Proof.
  unfold packet_named, emptied. destruct (buffers d !! slot_of id) as [p|] eqn:Hp; [|done]. cbn [mbind option_bind].
  destruct (_ =? _); [|done]. intros Hn. assert (p <| pb_buffer := None |> = p) as -> by (destruct p; simpl in *; by subst).
  rewrite list_insert_id by done. by destruct d.
Qed.

Lemma packet_named_saved d id b : packet_named d id = Some b → saved d b.
Proof.
  unfold packet_named. destruct (buffers d !! slot_of id) as [p|] eqn:Hp; [|done]. cbn [mbind option_bind].
  destruct (_ =? _); [|done]. intros Hb. by exists (slot_of id), p.
Qed.

(** None of this depends on the flow tables. *)
Lemma packet_named_rest d d' id : same_rest d d' → packet_named d' id = packet_named d id.
Proof. by intros ->. Qed.

Lemma saved_ok_rest d d' : same_rest d d' → saved_ok d → saved_ok d'.
Proof. intros Hs []. unfold same_rest in Hs. rewrite Hs. by split. Qed.

Lemma retrieve_buffer_eq d id : saved_ok d → retrieve_buffer id d = Ok (packet_named d id, emptied d id).
Proof.
  intros Hok. destruct (slot_lookup d id Hok) as [p Hp]. unfold retrieve_buffer, packet_named, emptied.
  rewrite (bind_ok _ _ _ d d) by done. fold (slot_of id). rewrite Hp. cbn [mbind option_bind].
  rewrite (bind_ok _ _ _ p d) by done. by destruct (_ =? _).
Qed.

Lemma discard_buffer_eq d id : saved_ok d → discard_buffer id d = Ok (tt, discarded d id).
Proof.
  intros Hok. destruct (slot_lookup d id Hok) as [p Hp]. pose proof (emptied_none d id) as He.
  pose proof (packet_named_saved d id) as Hs. unfold discarded. unfold discard_buffer, packet_named, emptied in *.
  rewrite (bind_ok _ _ _ d d) by done. fold (slot_of id). rewrite Hp in He, Hs |- *. cbn [mbind option_bind] in *.
  rewrite (bind_ok _ _ _ p d) by done. destruct (_ =? _); [|done]. destruct (pb_buffer p) as [b|].
  - destruct (so_exist _ Hok b (Hs b eq_refl)) as [x Hx]. unfold ofpbuf_delete, mbind, M_bind.
    by rewrite (get_buf_eq b x d Hx).
  - rewrite <-He at 2 by done. done.
Qed.

(** A packet saved for the controller can be taken back once, byte for byte, by
    the id it was given, and the id is never the one that means no buffer; saving
    is refused exactly if the next slot holds a packet less than a second old.
    Neither operation loses a packet buffer or frees one that is in use. *)
Theorem save_retrieve d b x :
  saved_ok d → bufs d !! b = Some x → ¬ saved d b →
  wp (save_buffer b d) (λ '(id, d1),
    saved_ok d1 ∧ (∀ q, unsaved d1 q ↔ unsaved d q) ∧ bufs d1 !! b = Some x ∧
    (id = UINT32_MAX ↔ next_slot_busy d) ∧
    (id ≠ UINT32_MAX → wp (retrieve_buffer id d1) (λ '(r, d2), saved_ok d2 ∧
      ∃ c y, r = Some c ∧ bufs d2 !! c = Some y ∧ contents y = contents x ∧
        (∀ q, unsaved d2 q ↔ unsaved d q ∨ q = c) ∧
        wp (retrieve_buffer id d2) (λ '(r', _), r' = None)))).
Proof.
  intros Hok Hb Hns. eapply wp_mono; [by eapply save_buffer_spec|].
  intros [id d1] [_ Hok1 Hun Hsame Hr Hid Hbusy].
  split_and!; [done|done|rewrite Hsame; [done|by split]|done|].
  intros Hne. destruct Hid as [|(i & cookie & t & x' & c & y & -> & Hi & Hc & Hslot & Hb' & Hy & Hwf & Hcy)]; [done|].
  destruct (buffer_id_parts i cookie Hi Hc) as (E1 & E2 & _).
  eapply wp_mono; [by apply retrieve_buffer_spec|]. rewrite E1, E2.
  intros [r d2] (Hok2 & (S & Hd2) & Hun2 & Hret). destruct (Hret _ Hslot eq_refl) as [-> Hslot2].
  split; [done|]. exists c, y. split_and!; [done|by rewrite Hd2|congruence| |].
  - intros q. rewrite Hun2, Hun. simpl. split; (intros [?|?]; [auto|right; congruence]).
  - eapply wp_mono; [by apply retrieve_buffer_spec|]. rewrite E1, E2.
    intros [r' d3] (_ & _ & _ & Hret2). by destruct (Hret2 _ Hslot2 eq_refl) as [-> _].
Qed.

End packets.
End DpPacket.
