(* ===== verification/DpFlowFacts.v ===== *)
(** * Flow modifications keep account of the flow entries

    What a flow modification message does to the flow tables, on every path: an
    entry is installed, or the state of the tables is what it was; and what becomes
    of the buffered packet that the message names. *)

From S2P Require Import Prelude Ofp Ofpbuf Flow FlowFacts SwitchFlow SwitchFlowFacts Rconn.
From S2P Require Import RconnFacts Env EnvFacts Table TableSeq Chain ChainFacts DpAct DpActFacts.
From S2P Require Import Datapath DpMsg DpFacts DpFlow DpPacket.
Import Ofp Ofpbuf Flow FlowFacts SwitchFlow SwitchFlowFacts Env EnvFacts Table TableSeq Chain ChainFacts
  DpAct DpActFacts Datapath DpMsg DpFacts DpFlow DpPacket.

Module DpFlowFacts.

Section flow_mod.
Context `{Malloc} (depth : nat).
Implicit Types (d : datapath) (s : option sender) (msg : list Z) (ofm : ofp_flow_mod).

(** A flow modification message received from [s], of at most 65523 bytes: a longer
    one cannot be quoted in an error message. *)
Record flow_mod_msg d s msg ofm : Prop := {
  fmm_bytes : Forall is_byte msg;
  fmm_at : flow_mod_at msg = Ok ofm;
  fmm_length : fm_length ofm = Z.of_nat (length msg);
  fmm_max : Z.of_nat (12 + length msg) <= UINT16_MAX;
  fmm_sender : sender_ok (dp_env d) s;
}.

Definition mod_key ofm : sw_flow_key := flow_extract_match (fm_match ofm).

(** The entry that a message asks for. *)
Record requested ofm (now : Z) (f : sw_flow) : Prop := {
  rq_key : key f = mod_key ofm;
  rq_priority : priority f = entry_priority (mod_key ofm) ofm;
  rq_acts : sf_acts f = fm_actions ofm;
  rq_cookie : cookie f = fm_cookie ofm;
  rq_idle : idle_timeout f = fm_idle_timeout ofm;
  rq_hard : hard_timeout f = fm_hard_timeout ofm;
  rq_removed : send_flow_rem f = if truth (fm_flags ofm .& OFPFF_SEND_FLOW_REM) then 1 else 0;
  rq_emerg : emerg_flow f = if is_emerg ofm then 1 else 0;
  rq_fresh : packet_count f = 0 ∧ byte_count f = 0 ∧ created f = now ∧ used f = now;
}.

Lemma match_at_range msg off :
  Forall is_byte msg → (off + 40 ≤ length msg)%nat → match_range (match_at msg off).
Proof.
  intros Hb Hl. assert (∀ i n, 0 <= int_at msg i n < 256 ^ Z.of_nat n) as Hr by (intros; by apply int_at_range).
  split; simpl; try apply Hr; (split; [apply length_bytes_at; lia|by apply bytes_at_is_byte]).
Qed.

Lemma flow_mod_shape d s msg ofm :
  flow_mod_msg d s msg ofm →
  fm_actions ofm = drop 72 msg ∧ (72 ≤ length msg)%nat ∧ key_ok (mod_key ofm) ∧
  Forall is_byte (fm_actions ofm) ∧
  u64 (fm_length ofm - 72) = Z.of_nat (length (fm_actions ofm)) ∧
  0 <= fm_priority ofm < 65536.
Proof.
  intros [Hb Hat Hlen Hmax _]. unfold flow_mod_at in Hat.
  destruct (72 <=? length msg)%nat eqn:E; [|done]. apply Nat.leb_le in E. injection Hat as <-. simpl in *.
  split_and!; [done|done| |by apply Forall_drop| |apply htons_range..].
  - apply flow_extract_match_ok, match_at_range; [done|lia].
  - rewrite Hlen, length_drop. unfold u64, UINT16_MAX in *. rewrite Z.mod_small; lia.
Qed.

(** From [d] to [d'] the entry [x] was allocated at [p]; no table holds it. *)
Record holding d (p : ptr) (x : sw_flow) d' : Prop := {
  hd_heap : heap (dp_env d') = <[p := x]> (heap (dp_env d));
  hd_chain : chain d' = chain d;
  hd_remotes : remotes_ok (remotes (dp_env d'));
  hd_count : length (remotes (dp_env d')) = length (remotes (dp_env d));
  hd_now : now_msec (dp_env d') = now_msec (dp_env d);
  hd_new : heap (dp_env d) !! p = None;
  hd_rest : same_rest d d';
}.

(** Nothing happened to the flow tables. *)
Record unchanged d d' : Prop := {
  un_heap : heap (dp_env d') = heap (dp_env d);
  un_chain : chain d' = chain d;
  un_remotes : remotes_ok (remotes (dp_env d'));
  un_rest : same_rest d d';
}.

Lemma unchanged_inv d d' loose : dp_inv d loose → unchanged d d' → dp_inv d' loose.
Proof.
  intros [Hc Hr] [Hh Hch Hr' _]. split; [|done]. rewrite Hch. by eapply accounted_heap.
Qed.

Lemma holding_inv d p x d' loose : dp_inv d loose → holding d p x d' → dp_inv d' (p :: loose).
Proof.
  intros [Hc Hr] [Hh Hch Hr' _ _ Hp _]. split; [|done]. rewrite Hch. by eapply accounted_new.
Qed.

Lemma alloc_spec d n :
  remotes_ok (remotes (dp_env d)) → Z.of_nat n < 2 ^ 63 →
  wp (on_env (flow_alloc_any (Z.of_nat n)) d) (λ '(r, d'),
    match r with
    | None => unchanged d d' ∧ mem (dp_env d) ≠ []
    | Some p => holding d p (new_flow n) d' ∧ (mem (dp_env d) = [] → mem (dp_env d') = [])
    end).
Proof.
  intros Hr Hn. unfold flow_alloc_any. rewrite (proj2 (Z.ltb_lt _ _)), Nat2Z.id by done. drun. apply wp_flow_alloc.
  - intros m Hm. split; [split; try done; apply same_rest_env|done].
  - intros p m Hp Hm. split; [split; try done; apply same_rest_env|done].
Qed.

Lemma write_spec d p x d1 g :
  holding d p x d1 →
  wp (on_env (write_flow p g) d1) (λ '(_, d'), holding d p (g x) d' ∧
    mem (dp_env d') = mem (dp_env d1)).
Proof.
  intros [Hh Hc Hr Hn Ht Hp Hs]. drun. eapply wp_write_flow.
  { rewrite Hh. apply lookup_insert_eq. }
  split; [|done]. split; try done; [simpl; by rewrite Hh, insert_insert_eq|].
  eapply same_rest_trans; [exact Hs|apply same_rest_env].
Qed.

Lemma error_spec d p x d1 s msg ofm type code :
  flow_mod_msg d s msg ofm → holding d p x d1 →
  wp (flow_mod_error s type code msg ofm d1) (λ '(_, d'), holding d p x d').
Proof.
  intros [Hb Hat Hlen Hmax Hs] [Hh Hc Hr Hn Ht Hp Hd]. unfold flow_mod_error. rewrite Hlen, Nat2Z.id.
  apply wp_dp_send_error_msg; [done|done|done| |].
  - destruct s; simpl in *; [by rewrite Hn|done].
  - intros rs Hrs Hl. split; try done; [by rewrite <-Hn|].
    eapply same_rest_trans; [exact Hd|apply same_rest_env].
Qed.

(** The entry is freed; what is left to do is to discard the buffered packet. *)
Lemma fail_ends d p x d1 ofm error :
  holding d p x d1 →
  ∃ d2, unchanged d d2 ∧ flow_mod_fail (Some p) ofm error d1 = flow_mod_fail None ofm error d2.
Proof.
  intros [Hh Hc Hr Hn Ht Hp Hs].
  set (d2 := d1 <| dp_env := (dp_env d1) <| heap := delete p (heap (dp_env d1)) |> |>). exists d2. split.
  - split; [|done|done|].
    + change (delete p (heap (dp_env d1)) = heap (dp_env d)). rewrite Hh. by rewrite delete_insert_id.
    + eapply same_rest_trans; [exact Hs|apply same_rest_env].
  - unfold flow_mod_fail. apply (ends_bind _ _ _ (λ '(_, d'), d' = d2)); [|by intros [] d' ->].
    apply wp_on_env. eapply wp_flow_free; [|done]. rewrite Hh. apply lookup_insert_eq.
Qed.

Lemma fail_none ofm error d :
  fm_buffer_id ofm = UINT32_MAX → flow_mod_fail None ofm error d = Ok (error, d).
Proof. intros Hb. unfold flow_mod_fail. by rewrite Hb, Z.eqb_refl. Qed.

Lemma fail_buffered ofm error d :
  fm_buffer_id ofm ≠ UINT32_MAX → saved_ok d →
  flow_mod_fail None ofm error d = Ok (error, discarded d (fm_buffer_id ofm)).
Proof.
  intros Hb Hok. unfold flow_mod_fail. rewrite (proj2 (Z.eqb_neq _ _) Hb). cbn [negb].
  rewrite (bind_ok _ _ _ tt d) by done. by rewrite (bind_ok _ _ _ _ _ (discard_buffer_eq d _ Hok)).
Qed.

(** The entry set up so far: key, priority and room for the actions. *)
Record prepared ofm (x : sw_flow) : Prop := {
  pr_key : key x = mod_key ofm;
  pr_priority : priority x = entry_priority (mod_key ofm) ofm;
  pr_room : length (sf_acts x) = length (fm_actions ofm);
}.

Lemma requested_entry_ok ofm now f :
  key_ok (mod_key ofm) → valid_actions (mod_key ofm) (fm_actions ofm) → requested ofm now f → entry_ok f.
Proof.
  intros Hk Hv []. split.
  - by rewrite rq_key0.
  - rewrite rq_key0, rq_priority0. intros E. unfold entry_priority. by rewrite E.
  - rewrite rq_acts0. by eapply valid_actions_acts_ok.
Qed.

Lemma filter_self (p : ptr) loose : NoDup (p :: loose) → filter (λ q, q ≠ p) (p :: loose) = loose.
Proof.
  intros [Hp _]%NoDup_cons. rewrite filter_cons_False by tauto. apply filter_id. by intros q Hq ->.
Qed.

Lemma wp_flow_setup_actions now acts f Q :
  (length acts ≤ length (sf_acts f))%nat →
  Q (f <| used := now |> <| created := now |> <| byte_count := 0 |> <| packet_count := 0 |>
       <| sf_acts := acts |>) →
  wp (flow_setup_actions now acts f) Q.
Proof. intros Hl HQ. unfold flow_setup_actions. by rewrite (proj2 (Nat.leb_le _ _)). Qed.

(** The entries of the table that a message is for. *)
Definition mod_table ofm d : list ptr :=
  if is_emerg ofm then emerg_owned (chain d) else owned (tables (chain d)).

(** The new entry is in the table that the message is for; the other table is as it was. *)
Definition installed ofm (p : ptr) (f : sw_flow) d d' : Prop :=
  valid_actions (mod_key ofm) (fm_actions ofm) ∧ requested ofm (now_msec (dp_env d)) f ∧
  joins p f (mod_table ofm d) (mod_table ofm d') (dp_env d) (dp_env d') ∧
  if is_emerg ofm then tables (chain d') = tables (chain d)
  else emerg_table (chain d') = emerg_table (chain d).

Lemma mod_table_owned ofm d q : q ∈ mod_table ofm d → q ∈ chain_owned (chain d).
Proof. unfold mod_table, chain_owned. rewrite elem_of_app. destruct (is_emerg ofm); auto. Qed.

Lemma mod_table_nodup ofm d loose : dp_inv d loose → NoDup (mod_table ofm d).
Proof.
  intros [[_ _ [Hn _] _] _]. unfold chain_owned in Hn. apply NoDup_app in Hn as [(H1 & _ & H2)%NoDup_app _].
  unfold mod_table. by destruct (is_emerg ofm).
Qed.

(** An entry of a table is not a new one. *)
Lemma holding_apart d p x d1 loose q :
  dp_inv d loose → holding d p x d1 → q ∈ chain_owned (chain d) → q ≠ p.
Proof.
  intros Hinv Hd Hq ->. destruct (at_account _ _ _ _ (di_chain _ _ Hinv)) as [_ Hdom].
  destruct (proj2 (Hdom p)) as [f Hf]; [apply elem_of_app; auto|]. by rewrite (hd_new _ _ _ _ Hd) in Hf.
Qed.

Lemma holding_joins d p x d1 f ofm loose l' e' :
  dp_inv d loose → holding d p x d1 →
  joins p f (mod_table ofm d1) l' (dp_env d1) e' → joins p f (mod_table ofm d) l' (dp_env d) e'.
Proof.
  intros Hinv Hd (old & rest & Hone & Hl & Hl' & Hdup & He).
  assert (mod_table ofm d1 = mod_table ofm d) as E by (unfold mod_table; by rewrite (hd_chain _ _ _ _ Hd)).
  rewrite E in Hl. assert (∀ q, q ∈ old → q ≠ p) as Hne.
  { intros q Hq. eapply holding_apart; [exact Hinv|exact Hd|]. apply (mod_table_owned ofm).
    rewrite Hl. apply elem_of_app. auto. }
  exists old, rest. split_and!; [done..| |].
  - rewrite <-Hdup at 2. symmetry. apply select_ext. intros q Hq.
    by rewrite (hd_heap _ _ _ _ Hd), lookup_insert_ne by (symmetry; auto).
  - rewrite He, (hd_heap _ _ _ _ Hd). apply map_eq. intros q. destruct (decide (q = p)) as [->|Hq].
    + by rewrite !lookup_insert_eq.
    + rewrite !(lookup_insert_ne _ p q), !lookup_free_all, lookup_insert_ne by done. done.
Qed.

Lemma install_spec d p x d1 ofm loose :
  dp_inv d loose → holding d p x d1 → prepared ofm x →
  key_ok (mod_key ofm) → valid_actions (mod_key ofm) (fm_actions ofm) →
  wp (install_flow p ofm (Z.of_nat (length (fm_actions ofm))) d1) (λ '(r, d'),
    (r = - ENOBUFS ∧ ∃ x', holding d p x' d') ∨
    (r = 0 ∧ dp_inv d' loose ∧ same_rest d d' ∧ ∃ f, installed ofm p f d d')).
Proof.
  intros Hinv [Hh Hc Hr Hn Ht Hp Hs] [Hk Hprio Hroom] Hkey Hv. unfold install_flow.
  rewrite Nat2Z.id. drun. apply wp_load_bytes; [lia|]. unfold bytes_at. rewrite drop_0, take_ge by done.
  assert (heap (dp_env d1) !! p = Some x) as Hx by (rewrite Hh; apply lookup_insert_eq).
  drun.
  set (x' := x <| cookie := _ |> <| idle_timeout := _ |> <| hard_timeout := _ |> <| send_flow_rem := _ |>
               <| emerg_flow := _ |>).
  apply wp_flow_setup_actions; [apply Nat.eq_le_incl; symmetry; exact Hroom|].
  set (y := x' <| used := _ |> <| created := _ |> <| byte_count := _ |> <| packet_count := _ |>
               <| sf_acts := _ |>).
  assert (requested ofm (now_msec (dp_env d)) y) as Hreq
    by (split; [exact Hk|exact Hprio|reflexivity..|repeat split; exact Ht]).
  drun. clearbody y.
  set (d2 := d1 <| dp_env := _ |>).
  assert (holding d p y d2) as Hd2.
  { split; try done; [simpl; by rewrite Hh, insert_insert_eq|].
    eapply same_rest_trans; [exact Hs|apply same_rest_env]. }
  pose proof (holding_inv _ _ _ _ _ Hinv Hd2) as [Hac Hr2]. 
  assert (heap (dp_env d2) !! p = Some y) as Hy by (rewrite (hd_heap _ _ _ _ Hd2); apply lookup_insert_eq).
  eapply wp_mono; [apply (op_insert _ _ _ _ p (is_emerg ofm) Hac)|].
  { split; [left|]. exists y. split; [exact Hy|]. split; [by eapply requested_entry_ok|].
    exists (mod_key ofm). by rewrite (rq_acts _ _ _ Hreq). }
  intros [[r c'] e'] [[Hac' Hrem] [(-> & -> & ->)|(-> & f & sn & Hf & Hj & Ho)]].
  - left. split; [done|]. exists y. assert (d2 <| dp_env := dp_env d2 |> <| chain := chain d2 |> = d2) as -> by by destruct d2.
    exact Hd2.
  - right. split; [done|]. rewrite Hy in Hf. injection Hf as <-. split_and!.
    + split; [|simpl; by rewrite Hrem]. cbn [Z.eqb] in Hac'.
      rewrite filter_self in Hac'; [exact Hac'|]. eapply accounted_loose, Hac.
    + eapply same_rest_trans; [apply Hd2|]. by destruct d2.
    + exists (y <| serial := sn |>). split_and!; [done|destruct Hreq; by split| |].
      * by eapply holding_joins.
      * rewrite <-(hd_chain _ _ _ _ Hd2). exact Ho.
Qed.

(** ** Adding an entry *)

(** Validation of the actions of a message. *)
Lemma validate_spec d s msg ofm d1 :
  flow_mod_msg d s msg ofm →
  wp (lift (validate_actions (mod_key ofm) (fm_actions ofm) (Z.of_nat (length (fm_actions ofm)))) d1)
    (λ '(v, d'), d' = d1 ∧ (v = ACT_VALIDATION_OK ↔ valid_actions (mod_key ofm) (fm_actions ofm))).
Proof.
  intros Hm. apply flow_mod_shape in Hm as (_ & _ & _ & Hb & _). run_step.
  eapply wp_mono; [by apply validate_actions_spec|]. done.
Qed.

(** An error message and the cleanup. *)
Lemma refuse_ends d p x d1 s msg ofm type code error :
  flow_mod_msg d s msg ofm → holding d p x d1 →
  ∃ d2, unchanged d d2 ∧
    (flow_mod_error s type code msg ofm;; flow_mod_fail (Some p) ofm error) d1 = flow_mod_fail None ofm error d2.
Proof.
  intros Hm Hd. eapply (ends_bind _ _ _ _ (λ c, ∃ d2, unchanged d d2 ∧ c = flow_mod_fail None ofm error d2));
    [by eapply error_spec|]. intros [] d2. apply fail_ends.
Qed.

(** What is left to do when the state of the flow tables is settled: the entry of the
    message is installed and the buffered packet is next, or the tables are as they
    were and the packet is discarded. *)
Definition settled ofm loose d (c : comp (Z * datapath)) : Prop :=
  ∃ d1, same_rest d d1 ∧ dp_inv d1 loose ∧
    ((∃ p f, installed ofm p f d d1 ∧
        c = apply_to_buffer depth (Some p) ofm (Z.of_nat (length (fm_actions ofm))) d1) ∨
     (∃ r, (r = - ENOMEM ∨ r = - ENOBUFS) ∧ heap (dp_env d1) = heap (dp_env d) ∧ chain d1 = chain d ∧
        c = flow_mod_fail None ofm r d1)).

Lemma settled_fail ofm loose d r d1 :
  dp_inv d loose → r = - ENOMEM ∨ r = - ENOBUFS → unchanged d d1 →
  settled ofm loose d (flow_mod_fail None ofm r d1).
Proof.
  intros Hinv Hr Hu. exists d1. split_and!; [apply Hu|by eapply unchanged_inv|].
  right. exists r. by destruct Hu.
Qed.

Lemma settled_refuse d p x d1 s msg ofm loose type code r :
  dp_inv d loose → flow_mod_msg d s msg ofm → holding d p x d1 → r = - ENOMEM ∨ r = - ENOBUFS →
  settled ofm loose d ((flow_mod_error s type code msg ofm;; flow_mod_fail (Some p) ofm r) d1).
Proof.
  intros Hinv Hm Hd Hr. destruct (refuse_ends d p x d1 s msg ofm type code r Hm Hd) as (d2 & Hu & ->).
  by apply settled_fail.
Qed.

Lemma prepare_spec ofm :
  prepared ofm ((new_flow (length (fm_actions ofm))) <| key := mod_key ofm |>
                <| priority := entry_priority (mod_key ofm) ofm |>).
Proof. split; [done..|]. simpl. apply length_replicate. Qed.

(** The search for a conflicting entry changes nothing. *)
Lemma overlap_spec d p x d1 ofm loose (check : bool) k prio :
  dp_inv d loose → holding d p x d1 → key_ok k →
  wp ((if check then d ← get; on_env (chain_has_conflict (chain d) k prio false) else mret false) d1)
    (λ '(_, d'), d' = d1).
Proof.
  intros Hinv Hd Hk. destruct check; [|done]. run_step. run_step. apply wp_on_env.
  eapply wp_mono; [eapply op_conflict; [apply (holding_inv _ _ _ _ _ Hinv Hd)|done]|].
  intros [b e] [-> _]. by destruct d1.
Qed.

Lemma add_flow_settles s msg ofm d loose :
  dp_inv d loose → flow_mod_msg d s msg ofm → settled ofm loose d (add_flow depth s msg ofm d).
Proof.
  intros Hinv Hm. pose proof (flow_mod_shape _ _ _ _ Hm) as (Hacts & H72 & Hkey & Hb & Hlen & _).
  pose proof (fmm_max _ _ _ _ Hm) as Hmax. unfold add_flow. fold (mod_key ofm). rewrite Hlen.
  eapply ends_bind; [apply alloc_spec; [apply Hinv|unfold UINT16_MAX in Hmax; rewrite Hacts, length_drop; lia]|].
  intros [p|] d1; [|intros [Hu _]; apply settled_fail; auto].
  intros [Hd1 _]. eapply ends_bind; [by apply write_spec|]. intros [] d2 [Hd2 _].
  eapply ends_bind; [by eapply validate_spec|]. intros v d2' [-> Hv].
  destruct (Z.eqb_spec v ACT_VALIDATION_OK) as [Ev|Ev]; cbn [negb]; [|eapply settled_refuse; eauto].
  apply Hv in Ev. clear Hv v. eapply ends_bind; [by apply write_spec|]. intros [] d3 [Hd3 _].
  assert (prepared ofm _) as Hprep by (apply (prepare_spec ofm)).
  eapply ends_bind; [by eapply overlap_spec|]. intros b d3' ->.
  destruct b; [eapply settled_refuse; eauto|]. destruct (is_emerg ofm && _); [eapply settled_refuse; eauto|].
  eapply ends_bind; [by eapply install_spec|]. intros r d4 [(-> & x' & Hd4)|(-> & Hinv4 & Hs & f & Hf)].
  - rewrite Z.eqb_refl. eapply settled_refuse; eauto.
  - change (0 =? - ENOBUFS) with false. change (truth 0) with false. cbn iota.
    exists d4. split_and!; [done|done|]. left. eauto.
Qed.

Lemma apply_none flow ofm n d :
  fm_buffer_id ofm = UINT32_MAX → apply_to_buffer depth flow ofm n d = Ok (0, d).
Proof. intros Hb. unfold apply_to_buffer. by rewrite Hb, Z.eqb_refl. Qed.

(** The id of the message names no packet any more. *)
Lemma apply_stale flow ofm n d :
  fm_buffer_id ofm ≠ UINT32_MAX → saved_ok d → packet_named d (fm_buffer_id ofm) = None →
  apply_to_buffer depth flow ofm n d = Ok (- ESRCH, d).
Proof.
  intros Hb Hok Hn. unfold apply_to_buffer. rewrite (proj2 (Z.eqb_neq _ _) Hb).
  rewrite (bind_ok _ _ _ _ _ (retrieve_buffer_eq d _ Hok)), Hn, emptied_none by done. done.
Qed.

(** The packet [b], out of its slot and with its headers [x'] found, that the new
    entry [f] has counted. *)
Definition served (p : ptr) (f : sw_flow) (id : Z) (b : ptr) (x' : ofpbuf) d : datapath :=
  (emptied d id) <| bufs := <[b := x']> (bufs d) |>
    <| dp_env := (dp_env d) <| heap := <[p := flow_used (now_msec (dp_env d)) (size x') f]> (heap (dp_env d)) |> |>.

Lemma apply_named p f ofm n d b x frag k x' :
  fm_buffer_id ofm ≠ UINT32_MAX → saved_ok d → packet_named d (fm_buffer_id ofm) = Some b →
  bufs d !! b = Some x → heap (dp_env d) !! p = Some f →
  flow_extract x (ntohs (m_in_port (fm_match ofm))) = Ok (frag, k, x') →
  apply_to_buffer depth (Some p) ofm (Z.of_nat n) d =
    (execute_actions (dp_output_port depth) b (mk_sw_flow_key k uninit uninit uninit) (fm_actions ofm) n;; mret 0)
      (served p f (fm_buffer_id ofm) b x' d).
Proof.
  intros Hb Hok Hn Hx Hf Hk. unfold apply_to_buffer. rewrite (proj2 (Z.eqb_neq _ _) Hb), Nat2Z.id.
  rewrite (bind_ok _ _ _ _ _ (retrieve_buffer_eq d _ Hok)), Hn.
  set (d1 := emptied d (fm_buffer_id ofm)).
  assert (bufs d1 = bufs d ∧ dp_env d1 = dp_env d) as [E1 E2] by (unfold d1, emptied; by repeat case_match).
  rewrite <-E1 in Hx. rewrite (bind_ok _ _ _ _ _ (get_buf_eq b x d1 Hx)), (bind_ok _ _ _ _ _ (lift_ok _ d1 _ Hk)).
  rewrite (bind_ok _ _ _ _ _ (set_buf_eq b x x' d1 Hx)). set (d2 := d1 <| bufs := _ |>).
  rewrite (bind_ok _ _ _ (dp_env d2) d2) by by destruct d2.
  rewrite (bind_ok _ _ _ tt (served p f (fm_buffer_id ofm) b x' d)); [done|].
  unfold on_env, write_flow, read_flow, mbind, M_bind, get, lift. unfold served. fold d1. unfold d2. simpl.
  rewrite E1, E2, Hf. reflexivity.
Qed.

(** What a message without a buffered packet does. *)
Definition installed_or_refused ofm loose d (r : Z) d' : Prop :=
  dp_inv d' loose ∧
  ((r = 0 ∧ ∃ p f, installed ofm p f d d') ∨
   ((r = - ENOMEM ∨ r = - ENOBUFS) ∧ heap (dp_env d') = heap (dp_env d) ∧ chain d' = chain d)).

Lemma refused ofm loose d r d' :
  dp_inv d loose → r = - ENOMEM ∨ r = - ENOBUFS → unchanged d d' → installed_or_refused ofm loose d r d'.
Proof. intros Hinv Hr Hu. split; [by eapply unchanged_inv|]. right. by destruct Hu. Qed.

Lemma refuse_spec d p x d1 s msg ofm type code error :
  fm_buffer_id ofm = UINT32_MAX → flow_mod_msg d s msg ofm → holding d p x d1 →
  wp ((flow_mod_error s type code msg ofm;; flow_mod_fail (Some p) ofm error) d1) (λ '(r, d'),
    r = error ∧ unchanged d d').
Proof.
  intros Hbuf Hm Hd. destruct (refuse_ends d p x d1 s msg ofm type code error Hm Hd) as (d2 & Hu & ->).
  by rewrite fail_none.
Qed.

Lemma add_flow_spec s msg ofm d loose :
  dp_inv d loose → flow_mod_msg d s msg ofm → fm_buffer_id ofm = UINT32_MAX →
  wp (add_flow depth s msg ofm d) (λ '(r, d'), installed_or_refused ofm loose d r d').
Proof.
  intros Hinv Hm Hbuf.
  destruct (add_flow_settles s msg ofm d loose Hinv Hm) as (d1 & Hs & Hinv1 & [(p & f & Hf & ->)|(r & Hr & Hh & Hc & ->)]).
  - rewrite apply_none by done. split; [done|]. left. eauto.
  - rewrite fail_none by done. split; [done|]. by right.
Qed.

(** ** Modifying entries *)

Definition mod_strict ofm : bool := fm_command ofm =? OFPFC_MODIFY_STRICT.

(** The entries of the ordinary tables that a message describes. *)
Definition mod_hits ofm d : list ptr :=
  select (dp_env d) (described (mod_key ofm) (entry_priority (mod_key ofm) ofm) (mod_strict ofm))
    (owned (tables (chain d))).

(** The allocated entry is lost. *)
Definition leaked loose d (r : Z) d' : Prop :=
  r = 0 ∧ ∃ p, heap (dp_env d) !! p = None ∧ is_Some (heap (dp_env d') !! p) ∧ dp_inv d' (p :: loose).

Lemma holding_hits d p x d1 ofm loose :
  dp_inv d loose → holding d p x d1 → mod_hits ofm d1 = mod_hits ofm d.
Proof.
  intros Hinv Hd. unfold mod_hits. rewrite (hd_chain _ _ _ _ Hd). apply select_ext.
  intros q Hq. rewrite (hd_heap _ _ _ _ Hd). apply lookup_insert_ne. intros ->.
  eapply (holding_apart d q); [exact Hinv|exact Hd| |done]. apply elem_of_app. auto.
Qed.

Lemma mod_flow_spec s msg ofm d loose :
  dp_inv d loose → flow_mod_msg d s msg ofm → fm_buffer_id ofm = UINT32_MAX →
  wp (mod_flow depth s msg ofm d) (λ '(r, d'),
    leaked loose d r d' ∨
    (installed_or_refused ofm loose d r d' ∧
     (mem (dp_env d) = [] → valid_actions (mod_key ofm) (fm_actions ofm) → is_emerg ofm = false →
      mod_hits ofm d = []))).
Proof.
  intros Hinv Hm Hbuf. pose proof (flow_mod_shape _ _ _ _ Hm) as (Hacts & H72 & Hkey & Hb & Hlen & _).
  pose proof (fmm_max _ _ _ _ Hm) as Hmax.
  unfold mod_flow. fold (mod_key ofm). rewrite Hlen. run_step.
  eapply wp_mono; [apply alloc_spec; [apply Hinv|unfold UINT16_MAX in Hmax; rewrite Hacts, length_drop; lia]|].
  intros [[p|] d1]; cbn beta iota delta [fst snd].
  2: { intros [Hu Hmem]. rewrite fail_none by done. right.
       split; [apply refused; auto|done]. }
  intros [Hd1 _]. run_step. eapply wp_mono; [by apply write_spec|]. intros [[] d2] [Hd2 _].
  cbn beta iota delta [fst snd]. run_step. eapply wp_mono; [by eapply validate_spec|].
  intros [v d2'] [-> Hv]. cbn beta iota delta [fst snd].
  destruct (Z.eqb_spec v ACT_VALIDATION_OK) as [Ev|Ev]; cbn [negb].
  2: { eapply wp_mono; [by eapply refuse_spec|]. intros [r d'] [-> Hu]. right.
       split; [apply refused; auto|]. tauto. }
  apply Hv in Ev. clear Hv v. run_step. eapply wp_mono; [by apply write_spec|].
  intros [[] d3] [Hd3 _]. cbn beta iota delta [fst snd].
  assert (∃ x, holding d p x d3 ∧ prepared ofm x) as (x & Hx3 & Hprep)
    by (eexists; split; [exact Hd3|apply prepare_spec]).
  clear Hd3. rename Hx3 into Hd3.
  rewrite Nat2Z.id. drun. apply wp_load_bytes; [lia|].
  unfold bytes_at. rewrite drop_0, take_ge by done. drun. fold (mod_strict ofm).
  pose proof (holding_inv _ _ _ _ _ Hinv Hd3) as [Hac3 Hr3].
  eapply wp_mono; [eapply op_modify; [exact Hac3|done|by eapply valid_actions_acts_ok|by eexists]|].
  intros [n e4] (Hac4 & Hrem4 & Hn0 & Hhit & Hnow4 & Hsame4). cbn beta iota delta [fst snd].
  set (d4 := d3 <| dp_env := e4 |>). destruct (Z.eqb_spec n 0) as [->|Hn].
  - change (truth 0) with false. cbn iota.
    assert (holding d p x d4) as Hd4.
    { destruct Hd3 as [Hh Hc Hr Hl Ht Hp Hs]. split; [by rewrite <-Hh; apply Hsame4|done| | | |done|]; simpl;
        rewrite ?Hrem4, ?Hnow4; try done. eapply same_rest_trans; [exact Hs|apply same_rest_env]. }
    assert (is_emerg ofm = false → mod_hits ofm d = []) as Hhits.
    { intros He. rewrite <-(holding_hits d p x d3 ofm loose) by done. by apply Hhit. }
    run_step. eapply wp_mono; [by eapply install_spec|].
    intros [r d5] [(-> & x' & Hd5)|(-> & Hinv5 & _ & f & Hf)]; cbn beta iota delta [fst snd].
    + rewrite Z.eqb_refl. eapply wp_mono; [by eapply refuse_spec|].
      intros [r d'] [-> Hu]. right. split; [apply refused; auto|auto].
    + change (0 =? - ENOBUFS) with false. change (truth 0) with false. cbn iota.
      rewrite apply_none by done. right.
      split; [split; [done|]; left; by eauto|auto].
  - assert (truth n = true) as -> by (unfold truth; by rewrite (proj2 (Z.eqb_neq n 0))).
    run_step. run_step.
    change (0 =? - ENOBUFS) with false. change (truth 0) with false. cbn iota.
    rewrite apply_none by done. left. split; [done|]. exists p.
    split_and!; [apply Hd3| |].
    + apply (at_account _ _ _ _ Hac4), elem_of_app. right. left.
    + split; [exact Hac4|]. simpl. rewrite Hrem4. done.
Qed.

(** ** Theorems *)

Lemma wp_flow_mod_at d s msg ofm d1 Q :
  flow_mod_msg d s msg ofm → Q (ofm, d1) → wp (lift (flow_mod_at msg) d1) Q.
Proof. intros Hm HQ. run_step. by rewrite (fmm_at _ _ _ _ Hm). Qed.

Lemma recv_flow_delete d ofm loose out_port prio strict :
  dp_inv d loose → desc_ok (mod_key ofm) prio strict →
  wp ((n ← on_chain (λ c, chain_delete c (mod_key ofm) out_port prio strict (is_emerg ofm));
       mret (if truth n then 0 else - ESRCH) : M datapath Z) d) (λ '(r, d'), dp_inv d' loose).
Proof.
  intros [Hac Hr] Hk. run_step. apply wp_on_chain. eapply wp_mono; [by apply op_delete|].
  intros [[n c] e] (Hac' & Hr' & _). run. by split.
Qed.

Lemma recv_flow_spec s msg ofm d loose :
  dp_inv d loose → flow_mod_msg d s msg ofm → fm_buffer_id ofm = UINT32_MAX →
  wp (recv_flow depth s msg d) (λ '(r, d'),
    dp_inv d' loose ∨
    ((fm_command ofm = OFPFC_MODIFY ∨ fm_command ofm = OFPFC_MODIFY_STRICT) ∧ r = 0 ∧
     ∃ p, heap (dp_env d) !! p = None ∧ dp_inv d' (p :: loose))).
Proof.
  intros Hinv Hm Hbuf. pose proof (flow_mod_shape _ _ _ _ Hm) as (_ & _ & Hkey & _).
  unfold recv_flow. run_step. eapply wp_flow_mod_at; [exact Hm|]. cbn beta iota delta [fst snd].
  fold (mod_key ofm). destruct (fm_command ofm =? OFPFC_ADD).
  { eapply wp_mono; [by eapply add_flow_spec|]. intros [r d'] [Hd _]. by left. }
  destruct ((fm_command ofm =? OFPFC_MODIFY) || (fm_command ofm =? OFPFC_MODIFY_STRICT)) eqn:E.
  { eapply wp_mono; [by eapply mod_flow_spec|].
    intros [r d'] [(-> & p & Hp & _ & Hd)|[[Hd _] _]]; [right|by left].
    rewrite orb_true_iff, !Z.eqb_eq in E. by eauto. }
  destruct (fm_command ofm =? OFPFC_DELETE).
  { eapply wp_mono; [apply recv_flow_delete; [exact Hinv|by split]|]. intros [r d'] Hd. by left. }
  destruct (fm_command ofm =? OFPFC_DELETE_STRICT).
  { eapply wp_mono; [apply recv_flow_delete; [exact Hinv|split; [done|]]|]; [|intros [r d'] Hd; by left].
    intros _ Hw. unfold entry_priority. by rewrite Hw. }
  run. by left.
Qed.

(** C4: A flow modification message of at most 65523 bytes and without a buffered
    packet, whatever it asks for, is handled without a crash, and no flow entry is
    freed while a table holds it, held by two tables, or lost, except that a
    successful modification of existing entries loses the one entry that was
    allocated for the message.  (A longer message crashes the switch when it is
    answered by an error message, which quotes it; the actions for a buffered packet
    may be ones that crash it.) *)
Theorem flow_mod_accounts s msg ofm d :
  dp_inv d [] → flow_mod_msg d s msg ofm → fm_buffer_id ofm = UINT32_MAX →
  wp (recv_flow depth s msg d) (λ '(r, d'),
    dp_inv d' [] ∨
    ((fm_command ofm = OFPFC_MODIFY ∨ fm_command ofm = OFPFC_MODIFY_STRICT) ∧ r = 0 ∧
     ∃ p, heap (dp_env d) !! p = None ∧ dp_inv d' [p])).
Proof. apply recv_flow_spec. Qed.

Lemma recv_flow_add s msg ofm d loose :
  dp_inv d loose → flow_mod_msg d s msg ofm → fm_command ofm = OFPFC_ADD →
  settled ofm loose d (recv_flow depth s msg d).
Proof.
  intros Hinv Hm Hc. unfold recv_flow. rewrite (bind_ok _ _ _ _ _ (lift_ok _ d _ (fmm_at _ _ _ _ Hm))), Hc.
  change (OFPFC_ADD =? OFPFC_ADD) with true. by eapply add_flow_settles.
Qed.

(** C12: A message of at most 65523 bytes that adds an entry either installs exactly the
    entry it describes, with valid actions, in the table it names, or is refused and
    leaves the flow tables as they were, with every allocation undone.  When the
    entry is installed, at most one entry of that table gives way to it, one of the
    same priority and with the same match, and no other entry of either table goes
    or changes.  Then, without a buffered packet, the message succeeds; if the buffered
    packet it names is gone, it reports an error, although the entry stays; and if
    the packet is there, it leaves its buffer slot, the entry counts it, and the
    actions are executed on it.  When the message is refused, the packet is freed. *)
Theorem add_flow_exact s msg ofm d loose :
  dp_inv d loose → saved_ok d → flow_mod_msg d s msg ofm → fm_command ofm = OFPFC_ADD →
  let id := fm_buffer_id ofm in
  let result := recv_flow depth s msg d in
  ∃ d1, same_rest d d1 ∧ dp_inv d1 loose ∧
    ((∃ p f, valid_actions (mod_key ofm) (fm_actions ofm) ∧
        requested ofm (now_msec (dp_env d)) f ∧
        joins p f (mod_table ofm d) (mod_table ofm d1) (dp_env d) (dp_env d1) ∧
        (if is_emerg ofm then tables (chain d1) = tables (chain d)
         else emerg_table (chain d1) = emerg_table (chain d)) ∧
        (id = UINT32_MAX → result = Ok (0, d1)) ∧
        (id ≠ UINT32_MAX → packet_named d id = None → result = Ok (- ESRCH, d1)) ∧
        (id ≠ UINT32_MAX → ∀ b x frag k x', packet_named d id = Some b → bufs d !! b = Some x →
           flow_extract x (ntohs (m_in_port (fm_match ofm))) = Ok (frag, k, x') →
           result = (execute_actions (dp_output_port depth) b (mk_sw_flow_key k uninit uninit uninit)
                       (fm_actions ofm) (length (fm_actions ofm));; mret 0) (served p f id b x' d1))) ∨
     (∃ r, (r = - ENOMEM ∨ r = - ENOBUFS) ∧ heap (dp_env d1) = heap (dp_env d) ∧ chain d1 = chain d ∧
        result = Ok (r, if id =? UINT32_MAX then d1 else discarded d1 id))).
Proof.
  intros Hinv Hok Hm Hc id result.
  destruct (recv_flow_add s msg ofm d loose Hinv Hm Hc) as (d1 & Hs & Hinv1 & Hcase).
  pose proof (saved_ok_rest _ _ Hs Hok) as Hok1. exists d1. split_and!; [done|done|].
  destruct Hcase as [(p & f & (Hv & Hreq & Hj & Ho) & E)|(r & Hr & Hh & Hch & E)].
  - left. exists p, f. unfold result. rewrite E. split_and!; [done..| | |].
    + intros Hid. by apply apply_none.
    + intros Hid Hn. apply apply_stale; [done|done|]. by rewrite (packet_named_rest d d1).
    + intros Hid b x frag k x' Hn Hx Hk. eapply apply_named; [done|done| | | |exact Hk].
      * by rewrite (packet_named_rest d d1).
      * by rewrite Hs.
      * by apply (joins_entry _ _ _ _ _ _ Hj).
  - right. exists r. split_and!; [done..|]. unfold result. rewrite E. destruct (Z.eqb_spec id UINT32_MAX) as [Hid|Hid].
    + by apply fail_none.
    + by apply fail_buffered.
Qed.

(** When memory is available, a message that modifies existing entries, with
    valid actions, always loses an entry: it reports success, and one allocated
    entry is then held by no table. *)
Theorem mod_flow_leaks s msg ofm d loose :
  dp_inv d loose → flow_mod_msg d s msg ofm → fm_buffer_id ofm = UINT32_MAX →
  fm_command ofm = OFPFC_MODIFY ∨ fm_command ofm = OFPFC_MODIFY_STRICT →
  mem (dp_env d) = [] → valid_actions (mod_key ofm) (fm_actions ofm) → is_emerg ofm = false →
  mod_hits ofm d ≠ [] →
  wp (recv_flow depth s msg d) (λ '(r, d'), r = 0 ∧
    ∃ p, heap (dp_env d) !! p = None ∧ is_Some (heap (dp_env d') !! p) ∧ p ∉ chain_owned (chain d')).
Proof.
  intros Hinv Hm Hbuf Hc Hmem Hv He Hh. unfold recv_flow. run_step. eapply wp_flow_mod_at; [exact Hm|].
  cbn beta iota delta [fst snd].
  assert ((fm_command ofm =? OFPFC_ADD) = false ∧
    (fm_command ofm =? OFPFC_MODIFY) || (fm_command ofm =? OFPFC_MODIFY_STRICT) = true) as [-> ->]
    by (destruct Hc as [->| ->]; done).
  eapply wp_mono; [by eapply mod_flow_spec|].
  intros [r d'] [(-> & p & Hp & Hp' & [Hac _])|[_ Hno]]; [|by destruct Hh; auto].
  split; [done|]. exists p. split_and!; [done|done|]. eapply accounted_apart; [exact Hac|left].
Qed.

End flow_mod.
End DpFlowFacts.
