(* ===== verification/DpOutput.v ===== *)
(** * Sending a packet to the ports

    What output to one port and to all ports does: the frames handed to the
    devices, the counters, and the packet buffers. *)

From S2P Require Import Prelude Ofp Ofpbuf Flow FlowFacts SwitchFlow SwitchFlowFacts Rconn.
From S2P Require Import RconnFacts Env EnvFacts Table TableSeq Chain ChainFacts DpAct DpActFacts.
From S2P Require Import Datapath DpMsg DpFacts DpPacket.
Import Ofp Ofpbuf Flow FlowFacts SwitchFlow SwitchFlowFacts Env EnvFacts Table TableSeq Chain ChainFacts
  DpAct DpActFacts Datapath DpMsg DpFacts DpPacket.

Module DpOutput.

Definition port_of (d : datapath) (r : port_ref) : option sw_port :=
  match r with port_at i => ports d !! i | local_port_ref => local_port d end.

Definition set_port (r : port_ref) (p : sw_port) (d : datapath) : datapath :=
  match r with
  | port_at i => d <| ports := <[i := p]> (ports d) |>
  | local_port_ref => d <| local_port := Some p |>
  end.

Definition number_of (r : port_ref) : Z :=
  match r with port_at i => Z.of_nat i | local_port_ref => OFPP_LOCAL end.

(** The ports of the list are set up, and have their numbers. *)
Record ports_ok (d : datapath) : Prop := {
  po_slots : length (ports d) = 255%nat;
  po_nodup : NoDup (port_list d);
  po_up : ∀ r, r ∈ port_list d → ∃ p n, port_of d r = Some p ∧ pnetdev p = Some n ∧ port_no p = number_of r;
}.

(** A port after the attempt to send a frame by it. *)
Definition port_after (frame : list Z) (p : sw_port) : sw_port :=
  match pnetdev p with
  | None => p
  | Some n =>
      if truth (config p .& OFPPC_PORT_DOWN) then p
      else
        let bytes := Z.of_nat (length frame) in
        match nd_send n with
        | r :: l =>
            if r =? 0 then
              p <| pnetdev := Some (n <| nd_send := l |> <| nd_sent := nd_sent n ++ [(frame, 0)] |>) |>
                <| tx_packets := u64 (tx_packets p + 1) |> <| tx_bytes := u64 (tx_bytes p + bytes) |>
            else p <| pnetdev := Some (n <| nd_send := l |>) |> <| tx_dropped := u64 (tx_dropped p + 1) |>
        | [] =>
            p <| pnetdev := Some (n <| nd_sent := nd_sent n ++ [(frame, 0)] |>) |>
              <| tx_packets := u64 (tx_packets p + 1) |> <| tx_bytes := u64 (tx_bytes p + bytes) |>
        end
  end.

Definition send_on (frame : list Z) (r : port_ref) (d : datapath) : datapath :=
  match port_of d r with Some p => set_port r (port_after frame p) d | None => d end.

(** A port that flooding, or output to all ports, sends to. *)
Definition wants (in_port : Z) (flood : bool) (p : sw_port) : bool :=
  negb (port_no p =? in_port) && negb (flood && truth (config p .& OFPPC_NO_FLOOD)).

(** ** Ports *)

Lemma port_after_same frame p :
  config (port_after frame p) = config p ∧ port_no (port_after frame p) = port_no p ∧
  (is_Some (pnetdev (port_after frame p)) ↔ is_Some (pnetdev p)) ∧ queue_list (port_after frame p) = queue_list p.
Proof.
  unfold port_after. destruct (pnetdev p) as [n|] eqn:E; [|by rewrite E].
  destruct (truth _); [by rewrite E|]. destruct (nd_send n) as [|r l]; [|destruct (r =? 0)];
    split_and!; try reflexivity; simpl; split; eauto.
Qed.

Lemma port_of_set r p d r' :
  is_Some (port_of d r) → port_of (set_port r p d) r' = if decide (r = r') then Some p else port_of d r'.
Proof.
  intros Hr. destruct r as [i|], r' as [j|]; simpl in *; try done.
  - destruct (decide (i = j)) as [->|Hij].
    + rewrite decide_True by done. apply list_lookup_insert_eq. by apply lookup_lt_is_Some.
    + rewrite decide_False by congruence. by apply list_lookup_insert_ne.
Qed.

Section output.
Context `{Malloc}.
Implicit Types (d : datapath) (b : ptr) (x : ofpbuf) (r : port_ref).

Lemma wp_read_port_of r p d Q : port_of d r = Some p → Q (p, d) → wp (read_port r d) Q.
Proof. intros Hp HQ. destruct r; by eapply wp_read_port. Qed.

Lemma wp_write_port r p d Q : Q (tt, set_port r p d) → wp (write_port r p d) Q.
Proof. unfold write_port, set_port. intros HQ. apply wp_modify. by destruct r. Qed.

Lemma transmit_spec r p n b x d Q :
  bufs d !! b = Some x → wf x → pnetdev p = Some n → truth (config p .& OFPPC_PORT_DOWN) = false →
  Q (tt, set_port r (port_after (contents x) p) d) → wp (transmit r p n b None 0 d) Q.
Proof.
  intros Hb Hwf Hn Hup HQ. unfold transmit. drun. unfold netdev_send.
  change (0 <=? NETDEV_MAX_QUEUES) with true. cbn [assert_c mbind comp_bind].
  unfold port_after in HQ. rewrite Hn, Hup, length_contents in HQ by done.
  destruct (nd_send n) as [|v l]; cbn [wp]; cbn beta iota delta [fst snd].
  - apply wp_write_port. by destruct p.
  - destruct (v =? 0); apply wp_write_port; by destruct p.
Qed.

Lemma set_port_id r p d : port_of d r = Some p → set_port r p d = d.
Proof. 
  destruct r; simpl; intros Hp; destruct d; simpl in *; [by rewrite list_insert_id|congruence].
Qed.

Lemma bufs_set_port r p d : bufs (set_port r p d) = bufs d.
Proof. by destruct r. Qed.

Lemma bufs_send_on frame r d : bufs (send_on frame r d) = bufs d.
Proof. unfold send_on. destruct (port_of d r); [apply bufs_set_port|done]. Qed.

Lemma number_of_range r d : length (ports d) = 255%nat → is_Some (port_of d r) → 0 <= number_of r < 65535.
Proof.
  intros Hl Hr. destruct r as [i|]; simpl in *; [|unfold OFPP_LOCAL; lia].
  apply lookup_lt_is_Some in Hr. lia.
Qed.

Lemma wp_dp_lookup_port r d Q :
  length (ports d) = 255%nat → is_Some (port_of d r) → Q (Some r, d) →
  wp (dp_lookup_port (number_of r) d) Q.
Proof.
  intros Hl Hr HQ. unfold dp_lookup_port. drun. destruct r as [i|]; simpl in *.
  - apply lookup_lt_is_Some in Hr. rewrite (proj2 (Z.ltb_lt _ _)) by (unfold DP_MAX_PORTS; lia).
    by rewrite Nat2Z.id.
  - destruct Hr as [p Hp]. by rewrite Hp.
Qed.

(** Output to a port: the frame is handed to the device, if the port is up, and the
    buffer is freed. *)
Lemma output_packet_spec r p n b x d Q :
  length (ports d) = 255%nat → port_of d r = Some p → pnetdev p = Some n →
  bufs d !! b = Some x → wf x →
  Q (tt, (send_on (contents x) r d) <| bufs := delete b (bufs d) |>) →
  wp (output_packet b (number_of r) 0 d) Q.
Proof.
  intros Hl Hp Hn Hb Hwf HQ. unfold output_packet.
  assert (is_Some (port_of d r)) as Hs by eauto. pose proof (number_of_range r d Hl Hs).
  unfold u16. rewrite Z.mod_small by lia. run_step. apply wp_dp_lookup_port; [done|done|].
  cbn beta iota delta [fst snd]. run_step. eapply wp_read_port_of; [exact Hp|]. cbn beta iota delta [fst snd].
  rewrite Hn. unfold send_on in HQ. rewrite Hp in HQ.
  destruct (truth (config p .& OFPPC_PORT_DOWN)) eqn:Hd.
  - assert (port_after (contents x) p = p) as E by (unfold port_after; by rewrite Hn, Hd).
    rewrite E, set_port_id in HQ by done. by drun.
  - cbn [Z.eqb]. run_step. eapply transmit_spec; [done..|]. cbn beta iota delta [fst snd].
    eapply wp_ofpbuf_delete; [rewrite bufs_set_port; exact Hb|]. by rewrite bufs_set_port.
Qed.

Lemma dp_output_port_spec depth in_port r p n b x d Q :
  length (ports d) = 255%nat → port_of d r = Some p → pnetdev p = Some n →
  bufs d !! b = Some x → wf x → in_port ≠ number_of r →
  Q (tt, (send_on (contents x) r d) <| bufs := delete b (bufs d) |>) →
  wp (dp_output_port (S depth) b in_port (number_of r) 0 d) Q.
Proof.
  intros Hl Hp Hn Hb Hwf Hin HQ. cbn [dp_output_port]. drun.
  assert (0 <= number_of r < 255 ∨ number_of r = OFPP_LOCAL) as Hr.
  { destruct r as [i|]; [left|by right]. simpl in *. apply lookup_lt_Some in Hp. lia. }
  unfold OFPP_LOCAL in Hr.
  rewrite !(proj2 (Z.eqb_neq (number_of r) _)) by
    (unfold OFPP_IN_PORT, OFPP_TABLE, OFPP_FLOOD, OFPP_ALL, OFPP_CONTROLLER; lia).
  rewrite (proj2 (Z.eqb_neq in_port _)) by done. by eapply output_packet_spec.
Qed.

(** ** All ports *)

Definition is_target in_port flood d r : bool :=
  match port_of d r with Some p => wants in_port flood p | None => false end.

Definition targets in_port flood d (rs : list port_ref) : list port_ref :=
  filter (λ r, is_target in_port flood d r = true) rs.

Definition send_all_on (frame : list Z) (l : list port_ref) d : datapath :=
  foldl (λ d r, send_on frame r d) d l.

Lemma port_of_send_on frame r d r' :
  port_of (send_on frame r d) r' = if decide (r = r') then port_after frame <$> port_of d r' else port_of d r'.
Proof.
  unfold send_on. destruct (port_of d r) as [p|] eqn:Hp.
  - rewrite port_of_set by eauto. destruct (decide (r = r')) as [<-|]; [by rewrite Hp|done].
  - destruct (decide (r = r')) as [<-|]; [by rewrite Hp|done].
Qed.

Lemma send_on_ports frame r d :
  length (ports (send_on frame r d)) = length (ports d) ∧ port_list (send_on frame r d) = port_list d.
Proof.
  unfold send_on. destruct (port_of d r); [|done]. destruct r; simpl; [by rewrite length_insert|done].
Qed.

Lemma send_on_ok frame r d : ports_ok d → ports_ok (send_on frame r d).
Proof.
  intros [H1 H2 H3]. destruct (send_on_ports frame r d) as [E1 E2]. split; [by rewrite E1|by rewrite E2|].
  rewrite E2. intros r' Hr'. destruct (H3 r' Hr') as (p & n & Hp & Hn & Hno). rewrite port_of_send_on, Hp.
  case_decide; [|by eauto]. pose proof (port_after_same frame p) as (_ & Eno & Edev & _).
  destruct (proj2 Edev) as [n' Hn']; [by eauto|].
  exists (port_after frame p), n'. split_and!; [done|done|congruence].
Qed.

Lemma is_target_send_on frame r d in_port flood r' :
  is_target in_port flood (send_on frame r d) r' = is_target in_port flood d r'.
Proof.
  unfold is_target. rewrite port_of_send_on. case_decide; [|done].
  destruct (port_of d r') as [p|]; [|done]. simpl. unfold wants.
  by destruct (port_after_same frame p) as (-> & -> & _).
Qed.

Lemma targets_send_on frame r d in_port flood rs :
  targets in_port flood (send_on frame r d) rs = targets in_port flood d rs.
Proof. apply list_filter_iff. intros r'. by rewrite is_target_send_on. Qed.

Lemma send_on_bufs frame r d B :
  send_on frame r (d <| bufs := B |>) = (send_on frame r d) <| bufs := B |>.
Proof.
  unfold send_on. assert (port_of (d <| bufs := B |>) r = port_of d r) as -> by by destruct r.
  destruct (port_of d r); [by destruct r|done].
Qed.

(** A clone is sent and freed. *)
Lemma send_clone_spec depth in_port r b x d Q :
  ports_ok d → r ∈ port_list d → is_target in_port true d r = true ∨ is_target in_port false d r = true →
  bufs d !! b = Some x → Q (tt, send_on (contents x) r d) →
  wp ((copy ← clone_buf b; dp_output_port (S depth) copy in_port (number_of r) 0) d) Q.
Proof.
  intros Hok Hr Ht Hb HQ. destruct (po_up _ Hok r Hr) as (p & n & Hp & Hn & Hno).
  drun. eapply wp_clone_buf; [exact Hb|]. intros c y Hc Hwf Hy _. cbn beta iota delta [fst snd].
  eapply (dp_output_port_spec _ _ _ p n c y); [apply Hok|by destruct r|done|apply lookup_insert_eq|done| |].
  - unfold is_target in Ht. rewrite Hp in Ht. unfold wants in Ht. rewrite !andb_true_iff, !negb_true_iff in Ht.
    rewrite <-Hno. intros ->. rewrite Z.eqb_refl in Ht. naive_solver.
  - rewrite send_on_bufs, Hy.
    assert (((send_on (contents x) r d) <| bufs := <[c := y]> (bufs d) |>)
      <| bufs := delete c (bufs (d <| bufs := <[c := y]> (bufs d) |>)) |> = send_on (contents x) r d) as ->; [|done].
    simpl. rewrite delete_insert_id by done. rewrite <-(bufs_send_on (contents x) r d).
    by destruct (send_on _ _ _).
Qed.

Definition prev_no (prev : option port_ref) : Z := match prev with Some r => number_of r | None => -1 end.

Lemma output_loop_spec depth in_port flood b x rs d prev :
  ports_ok d → bufs d !! b = Some x → (∀ r, r ∈ option_list prev ++ rs → r ∈ port_list d) →
  (∀ r, prev = Some r → is_target in_port flood d r = true) →
  wp (output_loop (dp_output_port (S depth)) rs b in_port flood (prev_no prev) d) (λ '(no, d'),
    let l := option_list prev ++ targets in_port flood d rs in
    no = prev_no (last l) ∧ d' = send_all_on (contents x) (removelast l) d).
Proof.
  revert d prev. induction rs as [|r rs IH]; intros d prev Hok Hb Hin Hprev; cbn [output_loop].
  { run. by destruct prev. }
  assert (r ∈ port_list d) as Hr by (apply Hin; rewrite elem_of_app, elem_of_cons; auto).
  destruct (po_up _ Hok r Hr) as (p & n & Hp & Hn & Hno).
  run_step. eapply wp_read_port_of; [exact Hp|]. cbn beta iota delta [fst snd].
  unfold targets. rewrite filter_cons. 
  assert (is_target in_port flood d r = negb ((port_no p =? in_port) || (flood && truth (config p .& OFPPC_NO_FLOOD)))) as Ht.
  { unfold is_target, wants. rewrite Hp. by rewrite negb_orb. }
  rewrite Ht. destruct ((port_no p =? in_port) || _) eqn:E; cbn [negb].
  - rewrite decide_False by done. apply IH; try done. intros r' Hr'. apply Hin.
    rewrite elem_of_app, elem_of_cons. rewrite elem_of_app in Hr'. tauto.
  - rewrite decide_True by done. rewrite Hno. change (number_of r) with (prev_no (Some r)).
    assert (∀ r', r' ∈ r :: rs → r' ∈ port_list d) as Hin'
      by (intros r' Hr'; apply Hin, elem_of_app; by right).
    destruct prev as [r0|]; cbn [option_list app].
    + assert (r0 ∈ port_list d) as Hr0 by (apply Hin; left).
      assert (0 <= number_of r0) as H0.
      { destruct (po_up _ Hok r0 Hr0) as (p0 & _ & Hp0 & _). eapply number_of_range; [apply Hok|by eauto]. }
      run_step. cbn [prev_no]. rewrite (proj2 (Z.eqb_neq (number_of r0) (-1))) by lia. cbn [negb].
      eapply send_clone_spec; [done|done|destruct flood; eauto|done|]. cbn beta iota delta [fst snd].
      eapply wp_mono; [apply (IH (send_on (contents x) r0 d) (Some r))|].
      * by apply send_on_ok.
      * by rewrite bufs_send_on.
      * by rewrite (proj2 (send_on_ports _ _ _)).
      * intros r' [= <-]. rewrite is_target_send_on. by rewrite Ht.
      * intros [no d']. cbv zeta. rewrite targets_send_on. intros [-> ->]. done.
    + run_step. change (negb (prev_no None =? -1)) with false. cbn iota. run_step.
      eapply wp_mono; [apply (IH d (Some r)); try done|]; [|done]. intros r' [= <-]. by rewrite Ht.
Qed.

Lemma send_all_on_spec frame l d :
  ports_ok d → NoDup l →
  let d' := send_all_on frame l d in
  ports_ok d' ∧ bufs d' = bufs d ∧ port_list d' = port_list d ∧
  (∃ ps lp, d' = d <| ports := ps |> <| local_port := lp |>) ∧
  ∀ r, port_of d' r = if decide (r ∈ l) then port_after frame <$> port_of d r else port_of d r.
Proof.
  intros Hok Hl. revert d Hok. induction Hl as [|r0 l Hr0 Hl IH]; intros d Hok d'.
  - split_and!; try done. exists (ports d), (local_port d). by destruct d.
  - destruct (IH (send_on frame r0 d)) as (H1 & H2 & H3 & (ps & lp & H4) & H5); [by apply send_on_ok|].
    unfold d'. cbn [send_all_on foldl]. fold (send_all_on frame l (send_on frame r0 d)).
    split_and!; [done|by rewrite H2, bufs_send_on|by rewrite H3, (proj2 (send_on_ports _ _ _))| |].
    + exists ps, lp. rewrite H4. unfold send_on. destruct (port_of d r0); [|done]. by destruct r0.
    + intros r. rewrite H5, port_of_send_on. destruct (decide (r0 = r)) as [<-|Hne].
      * rewrite decide_False by done. by rewrite decide_True by left.
      * apply decide_ext. rewrite elem_of_cons. naive_solver.
Qed.

(** The state after sending on all targets, as the theorem states it. *)
Lemma flood_result in_port flood b x d :
  ports_ok d →
  let l := targets in_port flood d (port_list d) in
  NoDup l →
  let d' := (send_all_on (contents x) l d) <| bufs := delete b (bufs d) |> in
  ports_ok d' ∧
  (∃ ps lp, d' = d <| bufs := delete b (bufs d) |> <| ports := ps |> <| local_port := lp |>) ∧
  ∀ r p, port_of d r = Some p →
    port_of d' r = Some (if bool_decide (r ∈ port_list d) && wants in_port flood p
                         then port_after (contents x) p else p).
Proof.
  intros Hok l Hl d'. destruct (send_all_on_spec (contents x) l d Hok Hl) as (Hok' & _ & _ & (ps & lp & E) & Hp').
  assert (∀ r, port_of d' r = port_of (send_all_on (contents x) l d) r) as Hsame by by intros [].
  split_and!.
  - destruct Hok' as [H1 H2 H3]. split; [done|done|]. intros r Hr. rewrite Hsame. by apply H3.
  - exists ps, lp. unfold d'. by rewrite E.
  - intros r p Hp. rewrite Hsame, Hp', Hp. unfold l, targets.
    rewrite (decide_ext _ (bool_decide (r ∈ port_list d) && wants in_port flood p = true)).
    + destruct (bool_decide _ && _); [by rewrite decide_True|by rewrite decide_False].
    + rewrite list_elem_of_filter. unfold is_target. rewrite Hp, andb_true_iff, bool_decide_eq_true. tauto.
Qed.


End output.
End DpOutput.
