(* ===== verification/DpForward.v ===== *)
(** * Forwarding

    What becomes of a packet that a port receives: it matches no entry and goes to
    the controllers, or it matches an entry and leaves by the port the entry names. *)

From S2P Require Import Prelude Ofp Ofpbuf Flow FlowFacts SwitchFlow SwitchFlowFacts Rconn.
From S2P Require Import RconnFacts Env EnvFacts Table TableSeq Chain ChainFacts DpAct DpActFacts.
From S2P Require Import Datapath DpMsg DpFacts DpPacket DpOutput.
Import Ofp Ofpbuf Flow FlowFacts SwitchFlow SwitchFlowFacts Env EnvFacts Table TableSeq Chain ChainFacts
  DpAct DpActFacts Datapath DpMsg DpFacts DpPacket DpOutput.

Module DpForward.

Section forward.
Context `{Malloc}.
Implicit Types (d : datapath) (b : ptr) (x : ofpbuf) (r : port_ref).

(** ** To the controllers *)

(** How much of a packet of [total] bytes a packet-in message quotes. *)
Definition quoted (id max_len : Z) (total : nat) : nat :=
  if negb (id =? UINT32_MAX) && (max_len <? Z.of_nat total) then Z.to_nat max_len else total.

Definition packet_in (id in_port max_len reason : Z) (frame : list Z) : list Z :=
  let n := quoted id max_len (length frame) in
  packet_in_header (Z.of_nat (18 + n)) id (Z.of_nat (length frame)) in_port reason ++ take n frame.

Lemma length_packet_in_header n id total port reason :
  length (packet_in_header n id total port reason) = 18%nat.
Proof. unfold packet_in_header. by rewrite !length_app, !length_le_bytes. Qed.

Lemma length_packet_in id in_port max_len reason frame :
  length (packet_in id in_port max_len reason frame) = (18 + quoted id max_len (length frame))%nat.
Proof.
  unfold packet_in. rewrite length_app, length_packet_in_header, length_take, Nat.min_l; [done|].
  unfold quoted. destruct (negb _ && _) eqn:E; [|done]. apply andb_true_iff in E as [_ E%Z.ltb_lt]. lia.
Qed.

(** The length field was right. *)
Lemma packet_in_update id in_port max_len reason frame :
  update_openflow_length (packet_in id in_port max_len reason frame)
  = Ok (packet_in id in_port max_len reason frame).
Proof.
  unfold update_openflow_length, store, memcpy. rewrite length_packet_in.
  rewrite (proj2 (Nat.leb_le 8 _)) by lia. rewrite length_le_bytes.
  rewrite (proj2 (Nat.leb_le (2 + 2) _)) by lia. reflexivity.
Qed.

Lemma wp_send_all_eq id in_port max_len reason frame e Q :
  remotes_ok (remotes e) →
  (∀ rs, remotes_ok rs →
     send_all (now_sec e) (packet_in id in_port max_len reason frame) (remotes e) = Ok rs →
     Q (0, e <| remotes := rs |>)) →
  wp (send_openflow_buffer (packet_in id in_port max_len reason frame) None e) Q.
Proof.
  intros Hr HQ. unfold send_openflow_buffer. run_step. run_step.
  rewrite packet_in_update. cbn [wp]. run.
  pose proof (wp_send_all (now_sec e) (packet_in id in_port max_len reason frame) _ Hr) as Hs.
  destruct (wp_inv _ _ (Hs ltac:(rewrite length_packet_in; lia))) as (rs & E & Hrs & _).
  rewrite E. cbn [wp]. run. by apply HQ.
Qed.

Lemma dp_output_control_spec d b x in_port max_len reason :
  saved_ok d → bufs d !! b = Some x → ¬ saved d b → wf x → (18 ≤ data x)%nat → 0 <= max_len →
  remotes_ok (remotes (dp_env d)) →
  wp (dp_output_control b in_port max_len reason d) (λ '(_, d'), ∃ id d1 rs, saving d b id d1 ∧
    d' = d1 <| bufs := delete b (bufs d1) |> <| dp_env := (dp_env d) <| remotes := rs |> |> ∧
    send_all (now_sec (dp_env d)) (packet_in id in_port max_len reason (contents x)) (remotes (dp_env d)) = Ok rs ∧
    remotes_ok rs).
Proof.
  intros Hok Hb Hns Hwf Hroom Hmax Hr. unfold dp_output_control. run_step.
  eapply wp_mono; [by eapply save_buffer_spec|]. intros [id d1] Hsv. cbn beta iota delta [fst snd].
  assert (bufs d1 !! b = Some x) as Hb1 by (rewrite (sv_same _ _ _ _ Hsv); [done|by split]).
  assert (dp_env d1 = dp_env d) as Henv by (destruct (sv_rest _ _ _ _ Hsv) as (i & B & S & ->); done).
  drun. set (total := Z.of_nat (size x)). set (x1 := if negb (id =? UINT32_MAX) && (max_len <? total)
             then x <| size := Z.to_nat max_len |> else x).
  assert (base x1 = base x ∧ data x1 = data x ∧ size x1 = quoted id max_len (size x)) as (E1 & E2 & E3).
  { unfold x1, quoted, total. by destruct (negb _ && _). }
  assert (quoted id max_len (size x) ≤ size x)%nat as Hq.
  { unfold quoted. destruct (negb _ && _) eqn:E; [|done]. apply andb_true_iff in E as [_ E%Z.ltb_lt]. lia. }
  clearbody x1. unfold wf, Ofpbuf.allocated in Hwf.
  unfold ofpbuf_push_uninit, ofpbuf_prealloc_headroom, ofpbuf_headroom.
  rewrite (proj2 (Nat.leb_le _ _)) by lia. cbn [assert_c mbind comp_bind wp]. cbn beta iota delta [fst snd].
  run_step. run_step. apply wp_memcpy; [rewrite length_packet_in_header; simpl; rewrite E1, E2; lia|]. drun.
  set (msg := contents _).
  assert (msg = packet_in id in_port max_len reason (contents x)) as ->.
  { unfold msg, packet_in. unfold contents at 1. cbn [base data size upd]. rewrite E1, E2, E3.
    rewrite length_contents by done.
    rewrite bytes_at_put_at_long by (rewrite length_packet_in_header; simpl; lia).
    rewrite length_packet_in_header. unfold contents. rewrite take_bytes_at by lia. f_equal.
    + f_equal. simpl. lia.
    + simpl. f_equal; lia. }
  change (dp_env (d1 <| bufs := delete b (bufs d1) |>)) with (dp_env d1). rewrite Henv.
  apply wp_send_all_eq; [done|]. intros rs Hrs Hall. cbn beta iota. apply wp_M_ret. by exists id, d1, rs.
Qed.

(** ** Through the tables *)

(** A packet [x] that arrived in the buffer [b] by the port [r], which takes it. *)
Record received d b r (p : sw_port) x : Prop := {
  rc_buf : bufs d !! b = Some x;
  rc_own : ¬ saved d b;
  rc_wf : wf x;
  rc_bytes : Forall is_byte (base x);
  rc_room : (18 ≤ data x)%nat;
  rc_port : port_of d r = Some p;
  rc_no : 0 <= port_no p < 65536;
  rc_recv : truth (config p .& (OFPPC_NO_RECV .| OFPPC_NO_RECV_STP)) = false;
  rc_frag : flags d .& OFPC_FRAG_MASK ≠ OFPC_FRAG_DROP;
}.

(** Whether an entry matches packets with the fields [f]. *)
Definition hits (f : flow) (g : sw_flow) : bool := flow_matches_1wild (mk_sw_flow_key f 0 0 0) (key g).

(** Changing the counters of an entry. *)
Lemma accounted_touch (good : list Z → Prop) e e' (c : sw_chain switch_table) loose q g g' :
  heap e !! q = Some g → heap e' = <[q := g']> (heap e) → same_entry g g' → sf_acts g' = sf_acts g →
  accounted good e c loose → accounted good e' c loose.
Proof.
  intros Hq Hh Hse Ha [H1 (t & Et & Ht) H3 H4].
  assert (∀ l, same_entries l e e') as Hs.
  { intros l p f _ Hf. rewrite Hh. destruct (decide (p = q)) as [->|Hne].
    - rewrite lookup_insert_eq. exists g'. split; [done|]. congruence.
    - rewrite lookup_insert_ne by done. exists f. by split. }
  split; [by eapply table_ok_frame|exists t; split; [done|by eapply table_ok_frame]|..].
  - eapply account_dom; [|exact H3]. intros p. rewrite Hh. destruct (decide (p = q)) as [->|Hne].
    + rewrite lookup_insert_eq, Hq. split; eauto.
    + by rewrite lookup_insert_ne.
  - intros p f Hp. rewrite Hh, lookup_insert_Some. intros [[<- <-]|[_ Hf]]; [|by eapply H4].
    rewrite Ha. by eapply H4.
Qed.

Lemma flow_used_same now n g : same_entry g (flow_used now n g).
Proof. by split. Qed.

(** The packet after its headers were found. *)
Lemma extracted_contents x x' frag f : extracted x x' frag f → contents x' = contents x ∧ data x' = data x ∧ (wf x → wf x').
Proof.
  intros []. unfold contents, wf, Ofpbuf.allocated. by rewrite ex_base0, ex_data0, ex_size0.
Qed.

(** Up to the lookup. *)
Lemma run_flow_lookup out d b r p x frag f x' res c :
  received d b r p x → flow_extract x (port_no p) = Ok (frag, f, x') →
  let k := mk_sw_flow_key f 0 uninit uninit in
  let d1 := d <| bufs := <[b := x']> (bufs d) |> in
  chain_lookup (chain d) k false (dp_env d) = Ok ((res, c), dp_env d) →
  run_flow_through_tables out b (Some r) d =
    match res with
    | Some e => on_env get ≫= λ e0, on_env (write_flow e (flow_used (now_msec e0) (size x'))) ≫= λ _,
        on_env (read_flow e) ≫= λ y, execute_actions out b k (sf_acts y) (length (sf_acts y)) ≫= λ _, mret 0
    | None => mret (- ESRCH)
    end (d1 <| chain := c |>).
Proof.
  intros [Hb Hown Hwf Hbytes Hroom Hp Hno Hrecv Hfrag] Hx k d1 Elook.
  assert (read_port r d = Ok (p, d)) as Er.
  { unfold read_port, mbind, M_bind, get, lift, deref. unfold port_of in Hp. destruct r; by rewrite Hp. }
  assert (on_chain (λ c, chain_lookup c k false) d1 = Ok (res, d1 <| chain := c |>)) as Ec.
  { unfold on_chain, mbind, M_bind, get, on_env. change (chain d1) with (chain d).
    change (dp_env d1) with (dp_env d). rewrite Elook. by destruct d. }
  unfold run_flow_through_tables.
  rewrite (bind_ok _ _ _ (Some p) d) by (by rewrite (bind_ok _ _ _ _ _ Er)).
  rewrite (bind_ok _ _ _ _ _ (get_buf_eq b x d Hb)), (bind_ok _ _ _ _ _ (lift_ok _ d _ Hx)). cbn beta iota.
  rewrite (bind_ok _ _ _ _ _ (set_buf_eq b x x' d Hb)), (bind_ok _ _ _ d1 d1) by done.
  change (flags d1) with (flags d).
  rewrite (proj2 (Z.eqb_neq _ _) Hfrag), andb_false_r. unfold refuses. rewrite Hrecv. cbn [andb].
  fold k. rewrite (bind_ok _ _ _ _ _ Ec). by destruct res.
Qed.

(** The packet's way through the tables: it matches nothing, or the actions of an
    entry are executed. *)
Lemma run_flow_eq out d b r p x frag f x' loose :
  dp_inv d loose → received d b r p x → flow_extract x (port_no p) = Ok (frag, f, x') →
  let d1 := d <| bufs := <[b := x']> (bufs d) |> in
  ∃ c, accounted stored_actions (dp_env d) c loose ∧ owned (tables c) = owned (tables (chain d)) ∧
  ((∀ e g, e ∈ owned (tables (chain d)) → heap (dp_env d) !! e = Some g → hits f g = false) ∧
   run_flow_through_tables out b (Some r) d = Ok (- ESRCH, d1 <| chain := c |>) ∨
   ∃ e g, e ∈ owned (tables (chain d)) ∧ heap (dp_env d) !! e = Some g ∧ hits f g = true ∧
     let g' := flow_used (now_msec (dp_env d)) (size x') g in
     run_flow_through_tables out b (Some r) d =
       match execute_actions out b (mk_sw_flow_key f 0 uninit uninit) (sf_acts g) (length (sf_acts g))
               (d1 <| chain := c |> <| dp_env := (dp_env d) <| heap := <[e := g']> (heap (dp_env d)) |> |>) with
       | Ok (_, d') => Ok (0, d')
       | Abort => Abort
       | NoFuel => NoFuel
       end).
Proof.
  intros Hinv Hrc Hx d1. pose proof Hrc as [_ _ Hwf Hbytes _ _ Hno _ _].
  destruct (flow_extract_ok x (port_no p) Hwf Hbytes Hno) as (frag' & f' & x2 & Hx' & Hf & Hex & Hin).
  rewrite Hx in Hx'. injection Hx' as <- <- <-.
  set (k := mk_sw_flow_key f 0 uninit uninit).
  destruct (wp_inv _ _ (op_lookup stored_actions (dp_env d) (chain d) loose k false (di_chain _ _ Hinv) Hf eq_refl))
    as ([[res c] e'] & Elook & -> & [Hac Ho] & Hres). cbv zeta in Hres. exists c. split_and!; [done|done|].
  pose proof (run_flow_lookup out d b r p x frag f x' res c Hrc Hx Elook) as ->.
  destruct res as [e|]; [right|left].
  - destruct Hres as [He Hm]. unfold holds_at in Hm. destruct (heap (dp_env d) !! e) as [g|] eqn:Hg; [|done].
    exists e, g. split_and!; [done|done|done|].
    set (d2 := d1 <| chain := c |>). set (g' := flow_used (now_msec (dp_env d)) (size x') g).
    
    set (d3 := d2 <| dp_env := (dp_env d) <| heap := <[e := g']> (heap (dp_env d)) |> |>). rewrite (bind_ok _ _ _ (dp_env d) d2) by done.
    rewrite (bind_ok _ _ _ tt d3), (bind_ok _ _ _ g' d3); [done|..].
    + unfold on_env, read_flow, mbind, M_bind, get, lift.
      change (heap (dp_env d3)) with (<[e := g']> (heap (dp_env d))). by rewrite lookup_insert_eq.
    + unfold on_env, write_flow, read_flow, mbind, M_bind, get, lift.
      change (heap (dp_env d2)) with (heap (dp_env d)). by rewrite Hg.
  - split; [|done]. intros e g He Hg. destruct (hits f g) eqn:Hh; [|done].
    assert (e ∈ select (dp_env d) (matches k) (owned (tables (chain d)))) as Hs
      by (apply select_elem; split; [by rewrite (holds_at_some _ _ _ _ Hg)|done]).
    rewrite Hres in Hs. by apply not_elem_of_nil in Hs.
Qed.

Lemma run_flow_spec out d b r p x frag f x' loose Q :
  dp_inv d loose → received d b r p x → flow_extract x (port_no p) = Ok (frag, f, x') →
  let d1 := d <| bufs := <[b := x']> (bufs d) |> in
  ((∀ e g, e ∈ owned (tables (chain d)) → heap (dp_env d) !! e = Some g → hits f g = false) →
   ∀ c, accounted stored_actions (dp_env d) c loose → Q (- ESRCH, d1 <| chain := c |>)) →
  (∀ e g c, e ∈ owned (tables (chain d)) → heap (dp_env d) !! e = Some g → hits f g = true →
    accounted stored_actions (dp_env d) c loose →
    let g' := flow_used (now_msec (dp_env d)) (size x') g in
    wp (execute_actions out b (mk_sw_flow_key f 0 uninit uninit) (sf_acts g) (length (sf_acts g))
          (d1 <| chain := c |> <| dp_env := (dp_env d) <| heap := <[e := g']> (heap (dp_env d)) |> |>))
      (λ '(_, d'), Q (0, d'))) →
  wp (run_flow_through_tables out b (Some r) d) Q.
Proof.
  intros Hinv Hrc Hx d1 Hmiss Hhit.
  destruct (run_flow_eq out d b r p x frag f x' loose Hinv Hrc Hx) as (c & Hac & _ & [[Hn ->]|(e & g & He & Hg & Hh & ->)]).
  - by apply Hmiss.
  - specialize (Hhit e g c He Hg Hh Hac). cbv zeta in Hhit |- *.
    by destruct (execute_actions _ _ _ _ _ _) as [[]| |].
Qed.

(** Writing to, or freeing, a packet in flight. *)
Lemma saved_same d d1 : buffers d1 = buffers d → ∀ q, saved d1 q ↔ saved d q.
Proof. intros Hb q. unfold saved. by rewrite Hb. Qed.

Lemma saved_ok_bufs d d1 :
  buffers d1 = buffers d → buffer_idx d1 = buffer_idx d →
  (∀ q, saved d q → is_Some (bufs d !! q) → is_Some (bufs d1 !! q)) → saved_ok d → saved_ok d1.
Proof.
  intros Hb Hi Hq [H1 H2 H3 H4 H5]. split; rewrite ?Hb, ?Hi; try done.
  intros q Hs. apply (saved_same d d1 Hb) in Hs. auto.
Qed.

(** The packet with id [id] is the bytes [frame]. *)
Definition retrievable d (id : Z) (frame : list Z) : Prop :=
  wp (retrieve_buffer id d) (λ '(r, d'), ∃ c y, r = Some c ∧ bufs d' !! c = Some y ∧ contents y = frame).

Lemma saving_freed d b id d1 e :
  saved_ok d → unsaved d b → saving d b id d1 →
  let d' := d1 <| bufs := delete b (bufs d1) |> <| dp_env := e |> in
  saved_ok d' ∧ (∀ q, unsaved d' q ↔ unsaved d q ∧ q ≠ b) ∧
  (id ≠ UINT32_MAX → ∀ x, bufs d !! b = Some x → retrievable d' id (contents x)).
Proof.
  intros Hok Hun Hsv d'. pose proof (sv_unsaved _ _ _ _ Hsv) as Hu.
  assert (¬ saved d1 b) as Hb by (apply Hu in Hun; apply Hun).
  assert (saved_ok d') as Hok'.
  { eapply saved_ok_bufs; [..|apply Hsv]; try done. intros q Hq Hx.
    change (bufs d') with (delete b (bufs d1)). by rewrite lookup_delete_ne by congruence. }
  split_and!; [done| |].
  - intros q. rewrite <-Hu. unfold unsaved. rewrite (saved_same d1 d') by done.
    change (bufs d') with (delete b (bufs d1)). destruct (decide (q = b)) as [->|Hne].
    + rewrite lookup_delete_eq. split; [by intros [[] ?]|tauto].
    + rewrite lookup_delete_ne by done. tauto.
  - intros Hid x Hx. destruct (sv_id _ _ _ _ Hsv) as [?|(i & ck & t & x2 & c & y & -> & Hi & Hc & Hs & Hx2 & Hy & _ & Hcy)]; [done|].
    destruct (buffer_id_parts i ck Hi Hc) as (E1 & E2 & _).
    eapply wp_mono; [apply retrieve_buffer_spec; [done|apply Hsv]|]. rewrite E1, E2.
    intros [r d2] (_ & (S & ->) & _ & Hret). destruct (Hret _ Hs eq_refl) as [-> _].
    exists c, y. split_and!; [done| |congruence].
    change (delete b (bufs d1) !! c = Some y). rewrite lookup_delete_ne; [done|]. intros ->.
    apply Hb. by eexists _, _.
Qed.


(** ** By the port an entry names *)

Definition output_action (port len : Z) : list Z :=
  [0; 0; 0; 8] ++ le_bytes 2 (htons port) ++ le_bytes 2 (htons len).

Lemma output_action_loads port len rest :
  let m := output_action port len ++ rest in
  load m 0 2 = Ok (htons OFPAT_OUTPUT) ∧ load m 2 2 = Ok (htons 8) ∧
  load m 4 2 = Ok (htons port) ∧ load m 6 2 = Ok (htons len).
Proof.
  pose proof (htons_range port) as Rp. pose proof (htons_range len) as Rl.
  split_and!; [reflexivity|reflexivity|exact (load_app [0; 0; 0; 8] _ 2 _ Rp)|
    exact (load_app ([0; 0; 0; 8] ++ le_bytes 2 (htons port)) rest 2 _ Rl)].
Qed.

(** Executing a list that is one output action. *)
Lemma execute_one_output (out : output_fun) b k port len rest d :
  0 <= port < 65536 → 0 <= len < 65536 →
  execute_actions out b k (output_action port len ++ rest) 8 d
  = do_output out b (ntohs (in_port (kflow k))) len port 0 d.
Proof.
  intros Hp Hl. destruct (output_action_loads port len rest) as (E0 & E2 & E4 & E6).
  unfold execute_actions. cbn [execute_loop Nat.eqb]. unfold mbind, M_bind, lift. cbn [Nat.add].
  rewrite E2. cbn beta iota. cbn [prev_port].
  change (negb (-1 =? -1)) with false. unfold mret, M_ret. cbn beta iota. rewrite E0. cbn beta iota.
  change (htons OFPAT_OUTPUT =? htons OFPAT_OUTPUT) with true. cbn beta iota. rewrite E4. cbn beta iota.
  rewrite E6. cbn beta iota. change (ntohs (htons 8)) with 8. change (size_sub 8 (Z.to_nat 8)) with (Ok 0%nat).
  cbn beta iota. change (0 =? 0)%nat with true. cbn beta iota. cbn [prev_port prev_queue max_len].
  rewrite !ntohs_htons by done. by rewrite (proj2 (Z.eqb_neq port (-1))) by lia.
Qed.

Lemma execute_output (out : output_fun) b k port len d :
  0 <= port < 65536 → 0 <= len < 65536 → port ≠ OFPP_CONTROLLER →
  execute_actions out b k (output_action port len) (length (output_action port len)) d
  = out b (ntohs (in_port (kflow k))) port 0 d.
Proof.
  intros Hp Hl Hc. rewrite <-(app_nil_r (output_action port len)) at 1.
  change (length (output_action port len)) with 8%nat. rewrite execute_one_output by done. unfold do_output.
  by rewrite (proj2 (Z.eqb_neq port OFPP_CONTROLLER)).
Qed.

Lemma number_of_inj r1 r2 d :
  length (ports d) = 255%nat → is_Some (port_of d r1) → is_Some (port_of d r2) →
  number_of r1 = number_of r2 → r1 = r2.
Proof.
  intros Hl H1 H2 E. destruct r1 as [i|], r2 as [j|]; simpl in *; unfold OFPP_LOCAL in *.
  - f_equal. lia.
  - apply lookup_lt_is_Some in H1. lia.
  - apply lookup_lt_is_Some in H2. lia.
  - done.
Qed.

Lemma number_of_cases r d :
  length (ports d) = 255%nat → is_Some (port_of d r) → 0 <= number_of r < 255 ∨ number_of r = OFPP_LOCAL.
Proof.
  intros Hl Hs. destruct r as [i|]; [left|by right]. simpl in *. apply lookup_lt_is_Some in Hs. lia.
Qed.

(** Output to a port from which the packet came: it is dropped, but not freed. *)
Lemma dp_output_port_back depth n b x q d Q :
  bufs d !! b = Some x → 0 <= n < 255 ∨ n = OFPP_LOCAL →
  Q (tt, d) → wp (dp_output_port (S depth) b n n q d) Q.
Proof.
  intros Hb Hn HQ. unfold OFPP_LOCAL in Hn. cbn [dp_output_port]. drun.
  rewrite !(proj2 (Z.eqb_neq n _)) by
    (unfold OFPP_IN_PORT, OFPP_TABLE, OFPP_FLOOD, OFPP_ALL, OFPP_CONTROLLER; lia).
  rewrite Z.eqb_refl. by drun.
Qed.

(** Output to one port of a packet that came by another, or the same. *)
Lemma unicast_output depth d b x r r2 :
  ports_ok d → r ∈ port_list d → r2 ∈ port_list d → bufs d !! b = Some x → wf x →
  wp (dp_output_port (S depth) b (number_of r) (number_of r2) 0 d) (λ '(_, d'),
    dp_env d' = dp_env d ∧ chain d' = chain d ∧
    (r2 = r → bufs d' = bufs d ∧ ∀ r', port_of d' r' = port_of d r') ∧
    (r2 ≠ r → bufs d' = delete b (bufs d) ∧
       ∀ r', port_of d' r' = if decide (r2 = r') then port_after (contents x) <$> port_of d r' else port_of d r')).
Proof.
  intros Hok Hr Hr2 Hb Hwf. destruct (po_up _ Hok r Hr) as (p & n & Hp & Hn & Enum).
  destruct (po_up _ Hok r2 Hr2) as (p2 & n2 & Hp2 & Hn2 & Enum2).
  destruct (decide (r2 = r)) as [->|Hne].
  - eapply dp_output_port_back; [exact Hb|eapply number_of_cases; [apply Hok|by eauto]|].
    by split_and!.
  - eapply (dp_output_port_spec _ _ r2 p2 n2); [apply Hok|done..| |].
    { intros E. apply Hne. symmetry. eapply number_of_inj; [apply Hok|by eauto|by eauto|done]. }
    split_and!; [| |done|].
    + unfold send_on. rewrite Hp2. by destruct r2.
    + unfold send_on. rewrite Hp2. by destruct r2.
    + intros _. split; [done|]. intros r'. rewrite <-port_of_send_on. by destruct r'.
Qed.

(** The packet [x], received in the buffer [b] from port [r], left by port [r2]; one of
    the entries that match its flow counted it. *)
Definition sent_by d b x x' f r r2 d' : Prop :=
  (∃ e g, e ∈ owned (tables (chain d)) ∧ heap (dp_env d) !! e = Some g ∧ hits f g = true ∧
     heap (dp_env d') = <[e := flow_used (now_msec (dp_env d)) (length (contents x)) g]> (heap (dp_env d))) ∧
  (r2 = r → bufs d' = <[b := x']> (bufs d) ∧ ∀ r', port_of d' r' = port_of d r') ∧
  (r2 ≠ r → bufs d' = delete b (bufs d) ∧
     ∀ r', port_of d' r' = if decide (r2 = r') then port_after (contents x) <$> port_of d r' else port_of d r').

(** Every entry that matches the flow sends it to port [r2], and there is one. *)
Definition directed d f r2 len : Prop :=
  (∃ e g, e ∈ owned (tables (chain d)) ∧ heap (dp_env d) !! e = Some g ∧ hits f g = true) ∧
  (∀ e g, e ∈ owned (tables (chain d)) → heap (dp_env d) !! e = Some g → hits f g = true →
     sf_acts g = output_action (number_of r2) len).

Lemma unicast_spec depth d b r p x frag f x' r2 len loose :
  dp_inv d loose → ports_ok d → received d b r p x → r ∈ port_list d → r2 ∈ port_list d →
  0 <= len < 65536 → flow_extract x (port_no p) = Ok (frag, f, x') → directed d f r2 len →
  wp (fwd_port_input (S depth) b r d) (λ '(_, d'), dp_inv d' loose ∧ sent_by d b x x' f r r2 d').
Proof.
  intros Hinv Hpok Hrc Hr Hr2 Hlen Hx [(e0 & g0 & He0 & Hg0 & Hh0) Hacts].
  pose proof Hrc as [Hb Hown Hwf Hbytes Hroom Hp Hno Hrecv Hfrag].
  destruct (flow_extract_ok x (port_no p) Hwf Hbytes Hno) as (frag' & f' & x2 & Hx' & _ & Hex & Hin).
  rewrite Hx in Hx'. injection Hx' as <- <- <-.
  destruct (extracted_contents _ _ _ _ Hex) as (Ec & Ed & Ewf). specialize (Ewf Hwf).
  destruct (po_up _ Hpok r Hr) as (p' & n & Hp' & Hn & Enum). rewrite Hp in Hp'. injection Hp' as <-.
  destruct (po_up _ Hpok r2 Hr2) as (p2 & n2 & Hp2 & Hn2 & Enum2).
  pose proof (number_of_cases r2 d (po_slots _ Hpok) ltac:(eauto)) as Hnum. unfold OFPP_LOCAL in Hnum.
  unfold fwd_port_input. run_step. eapply run_flow_spec; [exact Hinv|exact Hrc|exact Hx| |].
  { intros Hnone. by rewrite (Hnone e0 g0) in Hh0. }
  intros e g c He Hg Hh Hac g'. rewrite (Hacts e g He Hg Hh). set (d3 := upd dp_env _ _).
  assert (ports_ok d3) as Hpok3.
  { destruct Hpok as [H1 H2 H3]. split; [done|done|]. intros r' Hr'. destruct (H3 r' Hr') as (q & m & Hq & Hqm).
    exists q, m. split; [by destruct r'|done]. }
  assert (dp_inv d3 loose) as [Hac3 Hrem3].
  { split; [|apply Hinv]. eapply (accounted_touch _ (dp_env d)); [exact Hg|done|apply flow_used_same|done|exact Hac]. }
  rewrite execute_output by (done || lia || unfold OFPP_CONTROLLER; lia).
  cbn [kflow]. rewrite Hin, ntohs_htons, Enum by done.
  eapply wp_mono; [apply (unicast_output depth d3 b x' r r2); try done; apply lookup_insert_eq|].
  intros [[] d'] (E1 & E2 & Hback & Hout). cbn beta iota delta [fst snd]. change (truth 0) with false. cbn iota.
  run. unfold sent_by. split_and!.
  - split; [by rewrite E1, E2|by rewrite E1].
  - exists e, g. split_and!; try done. rewrite E1, <-Ec, length_contents by done. done.
  - intros Hrr. destruct (Hback Hrr) as [-> Hports]. split; [done|]. intros r'. rewrite Hports. by destruct r'.
  - intros Hrr. destruct (Hout Hrr) as [-> Hports]. split; [apply delete_insert_eq|].
    intros r'. rewrite Hports, Ec. by destruct r'.
Qed.


End forward.
End DpForward.
