(* ===== verification/DpCrash.v ===== *)
(** * Messages and packets that the datapath does not survive

    Inputs that the code accepts and that crash it or keep it busy forever. *)

From S2P Require Import Prelude Ofp Ofpbuf Flow FlowFacts SwitchFlow SwitchFlowFacts Rconn.
From S2P Require Import RconnFacts Env EnvFacts Table TableSeq Chain ChainFacts DpAct DpActFacts.
From S2P Require Import Datapath DpMsg DpFacts DpFlow DpPacket DpOutput DpForward.
Import Ofp Ofpbuf Flow FlowFacts SwitchFlow SwitchFlowFacts Env EnvFacts Table TableSeq Chain ChainFacts
  DpAct DpActFacts Datapath DpMsg DpFacts DpFlow DpPacket DpOutput DpForward.

Module DpCrash.

(** ** Looking at a packet again *)

(** Buffers that hold the same bytes: their header pointers do not matter to functions
    that consume them. *)
Definition same_bytes (b b' : ofpbuf) : Prop := base b = base b' ∧ data b = data b' ∧ size b = size b'.

Definition sim {A} (c c' : comp (A * ofpbuf)) : Prop :=
  match c, c' with
  | Ok (r, x), Ok (r', x') => r = r' ∧ same_bytes x x'
  | Abort, Abort | NoFuel, NoFuel => True
  | _, _ => False
  end.

Lemma sim_bind {A B} (c c' : comp (A * ofpbuf)) (f : A * ofpbuf → comp B) :
  sim c c' → (∀ r x x', same_bytes x x' → f (r, x) = f (r, x')) → (c ≫= f) = (c' ≫= f).
Proof.
  unfold sim. destruct c as [[r x]| |], c' as [[r' x']| |]; try done. intros [-> Hs] Hf. by apply Hf.
Qed.

Lemma pull_sim b b' n : same_bytes b b' → sim (ofpbuf_pull b n) (ofpbuf_pull b' n).
Proof. intros (E1 & E2 & E3). unfold ofpbuf_pull. rewrite E2, E3. destruct (_ <=? _)%nat; [|done]. by split. Qed.

Lemma sim_some b b' n :
  same_bytes b b' →
  sim ('(p, x) ← ofpbuf_pull b n; Ok (Some p, x)) ('(p, x) ← ofpbuf_pull b' n; Ok (Some p, x)).
Proof.
  intros Hs. pose proof (pull_sim b b' n Hs) as H. unfold sim in *.
  destruct (ofpbuf_pull b n) as [[]| |], (ofpbuf_pull b' n) as [[]| |]; try done.
  destruct H as [-> H]. by split.
Qed.

Lemma try_pull_sim b b' n : same_bytes b b' → sim (ofpbuf_try_pull b n) (ofpbuf_try_pull b' n).
Proof.
  intros Hs. unfold ofpbuf_try_pull. destruct (Hs) as (_ & _ & <-). destruct (_ <=? _)%nat; [by apply sim_some|done].
Qed.

Lemma pull_arp_sim b b' : same_bytes b b' → sim (pull_arp b) (pull_arp b').
Proof.
  intros Hs. unfold pull_arp. destruct (Hs) as (_ & _ & <-). destruct (_ <=? _)%nat; [by apply sim_some|done].
Qed.

Lemma pull_ip_sim b b' : same_bytes b b' → sim (pull_ip b) (pull_ip b').
Proof.
  intros Hs. unfold pull_ip. destruct (Hs) as (<- & <- & <-). destruct (_ <=? _)%nat; [|done].
  destruct (load _ _ _); [|done..]. cbn [mbind comp_bind]. destruct (_ && _); [by apply sim_some|done].
Qed.

Lemma pull_tcp_sim b b' : same_bytes b b' → sim (pull_tcp b) (pull_tcp b').
Proof.
  intros Hs. unfold pull_tcp. destruct (Hs) as (<- & <- & <-). destruct (_ <=? _)%nat; [|done].
  destruct (load _ _ _); [|done..]. cbn [mbind comp_bind]. destruct (_ && _); [by apply sim_some|done].
Qed.

Lemma extract_l4_same b b' packet f : same_bytes b b' → extract_l4 b packet f = extract_l4 b' packet f.
Proof.
  intros Hs. unfold extract_l4.
  repeat case_match; try done; (apply sim_bind; [by first [apply pull_tcp_sim|apply try_pull_sim]|]);
    intros r x x' (<- & <- & _); done.
Qed.

Lemma extract_ip_same b b' packet f : same_bytes b b' → extract_ip b packet f = extract_ip b' packet f.
Proof.
  intros Hs. unfold extract_ip. apply sim_bind; [by apply pull_ip_sim|].
  intros [nh|] x x' Hx; [|done]. destruct (Hx) as (<- & <- & _).
  repeat (destruct (load _ _ _); [cbn [mbind comp_bind]|done..]).
  destruct (negb _); [|done]. by rewrite (extract_l4_same x x').
Qed.

Lemma extract_arp_same b b' packet f : same_bytes b b' → extract_arp b packet f = extract_arp b' packet f.
Proof.
  intros Hs. unfold extract_arp. apply sim_bind; [by apply pull_arp_sim|]. by intros r x x' (<- & _).
Qed.

Lemma extract_vlan_sim b b' f : same_bytes b b' → sim (extract_vlan b f) (extract_vlan b' f).
Proof.
  intros Hs. unfold extract_vlan. destruct (_ =? _); [|done].
  pose proof (try_pull_sim b b' VLAN_HEADER_LEN Hs) as H. unfold pull_vlan. unfold sim in H.
  destruct (ofpbuf_try_pull b _) as [[r x]| |], (ofpbuf_try_pull b' _) as [[r' x']| |]; try done.
  destruct H as [-> Hx]. cbn [mbind comp_bind]. destruct r' as [vh|]; [|done]. destruct (Hx) as (<- & _).
  destruct (load _ vh _); [cbn [mbind comp_bind]|exact I..]. destruct (load _ _ _); [|exact I..]. by split.
Qed.

Lemma extract_l3_same eth b b' packet f : same_bytes b b' → extract_l3 eth b packet f = extract_l3 eth b' packet f.
Proof.
  intros Hs. unfold extract_l3. apply sim_bind; [by apply extract_vlan_sim|]. intros g x x' Hx.
  destruct (Hx) as (<- & <- & _). repeat (destruct (load_bytes _ _ _); [cbn [mbind comp_bind]|done..]).
  destruct (_ =? _); [by apply extract_ip_same|]. destruct (_ =? _); [by apply extract_arp_same|done].
Qed.

Lemma extract_llc_same b b' f (g : flow * ofpbuf → comp (Z * flow * ofpbuf)) (z : comp (Z * flow * ofpbuf)) :
  same_bytes b b' → (∀ f x x', same_bytes x x' → g (f, x) = g (f, x')) →
  (r ← extract_llc b f; match r with None => z | Some r => g r end)
  = (r ← extract_llc b' f; match r with None => z | Some r => g r end).
Proof.
  intros Hs Hg. unfold extract_llc, ofpbuf_at. destruct (Hs) as (<- & <- & <-).
  destruct (_ <=? _)%nat; [|done]. destruct (load_bytes _ _ _) as [llc| |]; [cbn [mbind comp_bind]|done..].
  destruct (_ <=? _)%nat; [destruct (load_bytes _ _ _) as [org| |]; [cbn [mbind comp_bind]|done..]|cbn [mbind comp_bind]].
  - destruct (_ && _).
    + destruct (load _ _ _); [cbn [mbind comp_bind]|done..].
      pose proof (pull_sim b b' LLC_SNAP_HEADER_LEN Hs) as H. unfold sim in H.
      destruct (ofpbuf_pull b _) as [[]| |], (ofpbuf_pull b' _) as [[]| |]; try done. by apply Hg, H.
    + pose proof (pull_sim b b' LLC_HEADER_LEN Hs) as H. unfold sim in H.
      destruct (ofpbuf_pull b _) as [[]| |], (ofpbuf_pull b' _) as [[]| |]; try done. by apply Hg, H.
  - pose proof (pull_sim b b' LLC_HEADER_LEN Hs) as H. unfold sim in H.
    destruct (ofpbuf_pull b _) as [[]| |], (ofpbuf_pull b' _) as [[]| |]; try done. by apply Hg, H.
Qed.

(** Looking at a packet again gives the same. *)
Lemma flow_extract_same x x' port : same_bytes x x' → flow_extract x port = flow_extract x' port.
Proof.
  intros Hs. unfold flow_extract.
  assert (x <| l2 := Some (data x) |> <| l3 := None |> <| l4 := None |> <| l7 := None |>
    = x' <| l2 := Some (data x') |> <| l3 := None |> <| l4 := None |> <| l7 := None |>) as ->.
  { destruct x, x'. unfold same_bytes in Hs. simpl in *. by destruct Hs as (-> & -> & ->). }
  apply sim_bind; [by apply try_pull_sim|]. intros [eth|] y y' Hy; [|done].
  destruct (Hy) as (<- & _). destruct (load _ _ _); [cbn [mbind comp_bind]|done..].
  destruct (_ <=? _); [by apply extract_l3_same|].
  by apply (extract_llc_same y y' _ (λ '(f, b), extract_l3 eth b _ f)); [|intros; apply extract_l3_same].
Qed.

Section crash.
Context `{Malloc}.
Implicit Types (d : datapath) (b : ptr) (x : ofpbuf) (r : port_ref).

(** ** Output to the flow tables *)

(** A packet of the port [r] with the fields [f], for which the tables say: go through
    the tables again. *)
Record looping d b r (p : sw_port) x frag (f : flow) x' len loose : Prop := {
  lo_inv : dp_inv d loose;
  lo_ports : ports_ok d;
  lo_received : received d b r p x;
  lo_port : r ∈ port_list d;
  lo_extract : flow_extract x (port_no p) = Ok (frag, f, x');
  lo_hit : ∃ e g, e ∈ owned (tables (chain d)) ∧ heap (dp_env d) !! e = Some g ∧ hits f g = true;
  lo_acts : ∀ e g, e ∈ owned (tables (chain d)) → heap (dp_env d) !! e = Some g → hits f g = true →
    sf_acts g = output_action OFPP_TABLE len;
}.

(** It comes back as it was. *)
Lemma looping_step d b r p x frag f x' len loose e g c :
  looping d b r p x frag f x' len loose →
  accounted stored_actions (dp_env d) c loose → owned (tables c) = owned (tables (chain d)) →
  heap (dp_env d) !! e = Some g →
  looping (d <| bufs := <[b := x']> (bufs d) |> <| chain := c |>
    <| dp_env := (dp_env d) <| heap := <[e := flow_used (now_msec (dp_env d)) (size x') g]> (heap (dp_env d)) |> |>)
    b r p x' frag f x' len loose.
Proof.
  intros [Hinv Hpok Hrc Hr Hx Hhit Hacts] Hac Ho Hg. set (d3 := upd dp_env _ _).
  pose proof Hrc as [Hb Hown Hwf Hbytes Hroom Hp Hno Hrecv Hfrag].
  destruct (flow_extract_ok x (port_no p) Hwf Hbytes Hno) as (frag' & f' & x2 & Hx' & _ & Hex & _).
  rewrite Hx in Hx'. injection Hx' as <- <- <-. pose proof (extracted_contents _ _ _ _ Hex) as (_ & Ed & Ewf).
  assert (heap (dp_env d3) = <[e := flow_used (now_msec (dp_env d)) (size x') g]> (heap (dp_env d))) as Hh by done.
  split.
  - split; [|apply Hinv]. eapply (accounted_touch _ (dp_env d)); [exact Hg|done|apply flow_used_same|done|exact Hac].
  - destruct Hpok as [H1 H2 H3]. split; [done|done|]. intros r' Hr'. destruct (H3 r' Hr') as (q & m & Hq & Hqm).
    exists q, m. split; [by destruct r'|done].
  - split; [apply lookup_insert_eq|done|by apply Ewf|by rewrite (ex_base _ _ _ _ Hex)|by rewrite Ed|by destruct r|done..].
  - done.
  - rewrite <-Hx. apply flow_extract_same. destruct Hex. by split_and!.
  - change (owned (tables (chain d3))) with (owned (tables c)). rewrite Ho, Hh. destruct Hhit as (e0 & g0 & He0 & Hg0 & Hh0).
    destruct (decide (e = e0)) as [<-|Hne].
    + exists e, (flow_used (now_msec (dp_env d)) (size x') g0). rewrite Hg in Hg0. injection Hg0 as <-.
      split_and!; [done|apply lookup_insert_eq|done].
    + exists e0, g0. split_and!; [done|by rewrite lookup_insert_ne|done].
  - intros e0 g0. change (owned (tables (chain d3))) with (owned (tables c)). rewrite Ho, Hh. intros He0.
    rewrite lookup_insert_Some. intros [[<- <-]|[_ Hg0]] Hh0; [by apply (Hacts e g)|by eapply Hacts].
Qed.

Lemma looping_again out d b r p x frag f x' len loose :
  looping d b r p x frag f x' len loose → 0 <= len < 65536 →
  ∃ d3, looping d3 b r p x' frag f x' len loose ∧
    run_flow_through_tables out b (Some r) d =
      match out b (port_no p) OFPP_TABLE 0 d3 with
      | Ok (_, d') => Ok (0, d')
      | Abort => Abort
      | NoFuel => NoFuel
      end.
Proof.
  intros Hlo Hlen. pose proof Hlo as [Hinv Hpok Hrc Hr Hx (e0 & g0 & He0 & Hg0 & Hh0) Hacts].
  pose proof Hrc as [_ _ Hwf Hbytes _ _ Hno _ _].
  destruct (flow_extract_ok x (port_no p) Hwf Hbytes Hno) as (frag' & f' & x2 & Hx' & _ & _ & Hin).
  rewrite Hx in Hx'. injection Hx' as <- <- <-.
  destruct (run_flow_eq out d b r p x frag f x' loose Hinv Hrc Hx) as (c & Hac & Ho & [[Hn _]|(e & g & He & Hg & Hh & ->)]).
  { by rewrite (Hn e0 g0) in Hh0. }
  eexists. split; [by eapply looping_step|]. rewrite (Hacts e g) by done.
  rewrite execute_output by (done || unfold OFPP_TABLE; lia). cbn [kflow]. by rewrite Hin, ntohs_htons.
Qed.

Lemma looping_output depth d b r p x frag f x' len loose :
  looping d b r p x frag f x' len loose → 0 <= len < 65536 →
  dp_output_port depth b (port_no p) OFPP_TABLE 0 d = NoFuel.
Proof.
  intros Hlo Hlen. revert d x Hlo. induction depth as [|depth IH]; intros d x Hlo; [done|].
  pose proof (lo_received _ _ _ _ _ _ _ _ _ _ Hlo) as [Hb _ _ _ _ Hp Hno _ _].
  destruct (looping_again (dp_output_port depth) _ _ _ _ _ _ _ _ _ _ Hlo Hlen) as (d3 & Hlo3 & E).
  destruct (po_up _ (lo_ports _ _ _ _ _ _ _ _ _ _ Hlo) r) as (p' & n & Hp' & _ & Enum); [apply Hlo|].
  rewrite Hp in Hp'. injection Hp' as <-.
  assert (dp_lookup_port (u16 (port_no p)) d = Ok (Some r, d)) as El.
  { unfold u16. rewrite Z.mod_small by lia. rewrite Enum.
    destruct (wp_inv _ _ (wp_dp_lookup_port r d (λ y, y = (Some r, d)) (po_slots _ (lo_ports _ _ _ _ _ _ _ _ _ _ Hlo))
      ltac:(by eauto) eq_refl)) as (y & -> & ->). done. }
  cbn [dp_output_port].
  rewrite (bind_ok _ _ _ x d) by by apply get_buf_eq.
  change (OFPP_TABLE =? OFPP_IN_PORT) with false. change (OFPP_TABLE =? OFPP_TABLE) with true. cbn iota.
  rewrite (bind_ok _ _ _ _ _ El). unfold mbind, M_bind. by rewrite E, (IH d3 x' Hlo3).
Qed.

(** Output actions pass validation. *)
Lemma output_validates k port len rest :
  0 <= port < 65536 → port ≠ OFPP_NONE → in_port (kflow k) ≠ htons port →
  validate_actions k (output_action port len ++ rest) 8 = Ok ACT_VALIDATION_OK.
Proof.
  intros Hp Hnone Hk. destruct (output_action_loads port len rest) as (E0 & E2 & E4 & _).
  unfold validate_actions. cbn [validate_loop Nat.add]. change (8 <? 8) with false. cbn iota. rewrite E2.
  cbn [mbind comp_bind]. change (ntohs (htons 8)) with 8. change ((8 <? 8) || truth (8 mod 8)) with false. cbn iota.
  rewrite E0. cbn [mbind comp_bind]. change (ntohs (htons OFPAT_OUTPUT)) with 0.
  change (0 <? Z.of_nat (length of_actions)) with true. cbn iota.
  change (validate_ofpat k (output_action port len ++ rest) 0 0 8)
    with (validate_output k (output_action port len ++ rest) 0).
  unfold validate_output. cbn [Nat.add]. rewrite E4. cbn [mbind comp_bind].
  rewrite (proj2 (Z.eqb_neq (htons port) (in_port _))), andb_false_r, orb_false_r by congruence.
  rewrite (proj2 (Z.eqb_neq (htons port) (htons OFPP_NONE))).
  2: { intros E. apply Hnone. rewrite <-(ntohs_htons port), E by done. reflexivity. }
  cbn [mbind comp_bind]. by destruct (length (output_action port len ++ rest)).
Qed.

(** C35: An entry whose action is to output packets to OFPP_TABLE passes validation, and a
    packet that matches it sends the switch into recursion without end: no amount of
    stack is enough to forward it. *)
Theorem table_action_loops depth d b r p x frag f x' len loose k :
  looping d b r p x frag f x' len loose → 0 <= len < 65536 → in_port (kflow k) ≠ htons OFPP_TABLE →
  validate_actions k (output_action OFPP_TABLE len) 8 = Ok ACT_VALIDATION_OK ∧
  fwd_port_input depth b r d = NoFuel.
Proof.
  intros Hlo Hlen Hk. split.
  - rewrite <-(app_nil_r (output_action _ _)). by apply output_validates.
  - destruct (looping_again (dp_output_port depth) _ _ _ _ _ _ _ _ _ _ Hlo Hlen) as (d3 & Hlo3 & E).
    unfold fwd_port_input, mbind, M_bind. by rewrite E, (looping_output depth _ _ _ _ _ _ _ _ _ _ Hlo3).
Qed.

(** ** Packets without headroom *)

(** A packet-in message needs room before the packet. *)
Lemma dp_output_control_no_room d b x in_port max_len reason :
  saved_ok d → bufs d !! b = Some x → ¬ saved d b → (data x < 18)%nat →
  dp_output_control b in_port max_len reason d = Abort.
Proof.
  intros Hok Hb Hns Hd. unfold dp_output_control.
  destruct (wp_inv _ _ (save_buffer_spec d b x Hok Hb Hns)) as ([id d1] & E & Hsv).
  assert (bufs d1 !! b = Some x) as Hb1 by (rewrite (sv_same _ _ _ _ Hsv); [done|by split]).
  rewrite (bind_ok _ _ _ _ _ E).
  rewrite (bind_ok _ _ _ x d1) by by apply get_buf_eq.
  set (x1 := if negb (id =? UINT32_MAX) && (max_len <? Z.of_nat (size x))
             then x <| size := Z.to_nat max_len |> else x).
  assert (data x1 = data x) as E1 by (unfold x1; by destruct (_ && _)).
  unfold ofpbuf_push_uninit, ofpbuf_prealloc_headroom, ofpbuf_headroom. rewrite E1.
  by rewrite (proj2 (Nat.leb_gt _ _)) by lia.
Qed.

(** A message that asks to send [frame] to the controllers, as if received on
    [in_port]. *)
Definition packet_out_controller (xid in_port max_len : Z) (frame : list Z) : list Z :=
  [OFP_VERSION; OFPT_PACKET_OUT] ++ le_bytes 2 (htons (Z.of_nat (24 + length frame))) ++ le_bytes 4 xid
  ++ le_bytes 4 UINT32_MAX ++ le_bytes 2 (htons in_port) ++ le_bytes 2 (htons 8)
  ++ output_action OFPP_CONTROLLER max_len ++ frame.

(** The buffer of a packet that a message contains. *)
Lemma put_new p :
  ofpbuf_put (ofpbuf_new (length p)) p
  = Ok (0%nat, mk_ofpbuf p 0 (length p) None None None None).
Proof.
  assert (length (if decide (length p = 0%nat) then [] else xmalloc (length p)) = length p) as Hl
    by (case_decide; [done|apply length_xmalloc]).
  unfold ofpbuf_put, ofpbuf_put_uninit, ofpbuf_prealloc_tailroom, ofpbuf_tailroom, ofpbuf_end, ofpbuf_tail,
    ofpbuf_new, ofpbuf_init, ofpbuf_use, Ofpbuf.allocated. cbn [base data size]. rewrite Hl.
  rewrite (proj2 (Nat.ltb_ge _ _)) by lia. cbn [base data size upd Nat.add]. unfold memcpy. cbn [base upd].
  rewrite (proj2 (Nat.leb_le _ _)) by (simpl; lia). simpl. unfold put_at. simpl.
  by rewrite drop_ge, app_nil_r by lia.
Qed.

Lemma packet_out_loads xid no len frame :
  let msg := packet_out_controller xid no len frame in
  load msg 2 2 = Ok (htons (Z.of_nat (24 + length frame))) ∧ load msg 8 4 = Ok UINT32_MAX ∧
  load msg 12 2 = Ok (htons no) ∧ load msg 14 2 = Ok (htons 8) ∧
  load_bytes msg 24 (length frame) = Ok frame ∧
  drop 16 msg = output_action OFPP_CONTROLLER len ++ frame.
Proof.
  intros msg. pose proof (htons_range (Z.of_nat (24 + length frame))) as R1. pose proof (htons_range no) as R2.
  set (a := [OFP_VERSION; OFPT_PACKET_OUT] ++ le_bytes 2 (htons (Z.of_nat (24 + length frame))) ++ le_bytes 4 xid).
  split_and!.
  - exact (load_app [OFP_VERSION; OFPT_PACKET_OUT] _ 2 _ R1).
  - exact (load_app a _ 4 UINT32_MAX ltac:(done)).
  - exact (load_app (a ++ le_bytes 4 UINT32_MAX) _ 2 (htons no) R2).
  - exact (load_app (a ++ le_bytes 4 UINT32_MAX ++ le_bytes 2 (htons no))
      (output_action OFPP_CONTROLLER len ++ frame) 2 (htons 8) ltac:(done)).
  - unfold load_bytes. assert (length msg = 24 + length frame)%nat as -> by reflexivity.
    rewrite (proj2 (Nat.leb_le _ _)) by done. cbn [assert_c mbind comp_bind]. f_equal.
    change (take (length frame) frame = frame). by apply take_ge.
  - reflexivity.
Qed.

(** The packet is put into a new buffer, and its actions are executed. *)
Lemma packet_out_executes depth s d xid no len frame frag f x' :
  Z.of_nat (24 + length frame) < 65536 → 0 <= no < 65536 → no ≠ OFPP_CONTROLLER →
  let x := mk_ofpbuf frame 0 (length frame) None None None None in
  flow_extract x no = Ok (frag, f, x') → in_port f = htons no →
  let b := fresh (dom (bufs d)) in
  let k := mk_sw_flow_key f uninit uninit uninit in
  let acts := output_action OFPP_CONTROLLER len ++ frame in
  recv_packet_out depth s (packet_out_controller xid no len frame) d
  = (execute_actions (dp_output_port depth) b k acts 8 ≫= λ _, mret 0) (d <| bufs := <[b := x']> (<[b := x]> (bufs d)) |>).
Proof.
  intros Hlen Hno Hnc x Hx Hin b k acts. destruct (packet_out_loads xid no len frame) as (E2 & E8 & E12 & E14 & Ef & Ea).
  set (msg := packet_out_controller xid no len frame) in *. unfold recv_packet_out, header_length.
  set (d1 := d <| bufs := <[b := x]> (bufs d) |>).
  rewrite (bind_ok _ _ _ (Z.of_nat (24 + length frame)) d)
    by (apply lift_ok; rewrite E2; cbn [mbind comp_bind]; by rewrite ntohs_htons by lia).
  rewrite (bind_ok _ _ _ _ _ (lift_ok _ d _ E14)). change (ntohs (htons 8)) with 8.
  rewrite (proj2 (Z.ltb_ge _ _)) by (unfold u64; rewrite Z.mod_small; lia).
  rewrite (bind_ok _ _ _ _ _ (lift_ok _ d _ E8)).
  change (ntohl UINT32_MAX =? UINT32_MAX) with true. cbn iota.
  rewrite (bind_ok _ _ _ (Some b) d1).
  2: { rewrite (bind_ok _ _ _ tt d) by (apply lift_ok; by rewrite (proj2 (Z.leb_le _ _)) by lia).
       replace (Z.to_nat (Z.of_nat (24 + length frame) - 16 - 8)) with (length frame) by lia.
       change (16 + Z.to_nat 8)%nat with 24%nat.
       rewrite (bind_ok _ _ _ _ _ (lift_ok _ d _ Ef)).
       by rewrite (bind_ok _ _ _ _ _ (lift_ok _ d _ (put_new frame))). }
  assert (bufs d1 !! b = Some x) as Hb1 by apply lookup_insert_eq.
  rewrite (bind_ok _ _ _ x d1) by by apply get_buf_eq.
  rewrite (bind_ok _ _ _ _ _ (lift_ok _ d1 _ E12)), ntohs_htons by done.
  rewrite (bind_ok _ _ _ _ _ (lift_ok _ d1 _ Hx)). cbn beta iota.
  rewrite (bind_ok _ _ _ _ _ (set_buf_eq b x x' d1 Hb1)), Ea.
  assert (validate_actions k acts 8 = Ok ACT_VALIDATION_OK) as Ev.
  { apply output_validates; [done|done|]. cbn [kflow k]. rewrite Hin. intros E. apply Hnc.
    rewrite <-(ntohs_htons no), E by done. reflexivity. }
  by rewrite (bind_ok _ _ _ _ _ (lift_ok _ _ _ Ev)).
Qed.

(** Any message of a controller that asks to send a packet it contains to the
    controllers, an output that the protocol allows, crashes the switch: the packet
    is put into a buffer without room for the header of the message. *)
Theorem packet_out_controller_crashes depth s d xid no len frame :
  saved_ok d → Forall is_byte frame → Z.of_nat (24 + length frame) < 65536 →
  0 <= no < 65536 → no ≠ OFPP_CONTROLLER → 0 <= len < 65536 →
  recv_packet_out depth s (packet_out_controller xid no len frame) d = Abort.
Proof.
  intros Hok Hb Hlen Hno Hnc Hl. set (x := mk_ofpbuf frame 0 (length frame) None None None None).
  destruct (flow_extract_ok x no) as (frag & f & x' & Hx & Hf & Hex & Hin); [by unfold wf, Ofpbuf.allocated|done|done|].
  rewrite (packet_out_executes depth s d xid no len frame frag f x') by done.
  set (b := fresh (dom (bufs d))). set (d2 := d <| bufs := _ |>).
  assert (¬ saved d b) as Hns.
  { intros Hs%(so_exist _ Hok)%elem_of_dom. by apply (is_fresh (dom (bufs d))). }
  unfold mbind, M_bind. rewrite execute_one_output by done.
  unfold do_output. change (negb (OFPP_CONTROLLER =? OFPP_CONTROLLER)) with false. cbn iota.
  rewrite (dp_output_control_no_room d2 b x'); [done| |apply lookup_insert_eq|done|].
  - eapply (saved_ok_bufs d); [done|done| |done]. intros q Hs Hq.
    change (is_Some (<[b := x']> (<[b := x]> (bufs d)) !! q)). by rewrite !lookup_insert_ne by congruence.
  - rewrite (ex_data _ _ _ _ Hex). simpl. lia.
Qed.

End crash.


End DpCrash.
