(* ===== verification/DpControl.v ===== *)
(** * Messages from the controllers

    The dispatch of messages: no message that the conditions below allow crashes the
    switch, whatever its type, its length and its contents, and the switch is again
    well formed, with every field in the range of its type. *)

From S2P Require Import Prelude Ofp Ofpbuf Flow FlowFacts SwitchFlow SwitchFlowFacts Rconn.
From S2P Require Import RconnFacts Env EnvFacts Table TableSeq Chain ChainFacts DpAct DpActFacts.
From S2P Require Import Datapath DpMsg DpFacts DpFlow DpFlowFacts DpStats DpRun DpPacket DpOutput.
From S2P Require Import OfpMsg DpForward.
Import OfpMsg Ofp Ofpbuf Flow FlowFacts SwitchFlow SwitchFlowFacts Env EnvFacts Table TableSeq Chain ChainFacts
  DpAct DpActFacts Datapath DpMsg DpFacts DpFlow DpFlowFacts DpStats DpRun DpPacket DpOutput DpForward.

Module DpControl.

(** ** Well-formed datapaths *)

Record queue_typed (q : sw_queue) : Prop := {
  qt_counters : Forall (λ n, 0 <= n < 2 ^ 64) [q_tx_packets q; q_tx_bytes q; q_tx_errors q];
  qt_id : 0 <= queue_id q < 2 ^ 32;
  qt_class : 0 <= class_id q < NETDEV_MAX_QUEUES;
  qt_property : 0 <= property q < 65536;
  qt_rate : 0 <= min_rate q < 65536;
}.

Record port_typed (p : sw_port) : Prop := {
  pt_config : 0 <= config p < 2 ^ 32;
  pt_counters : Forall (λ n, 0 <= n < 2 ^ 64) [rx_packets p; tx_packets p; rx_bytes p; tx_bytes p; tx_dropped p];
  pt_no : 0 <= port_no p < 65536;
  pt_queues : 0 <= num_queues p <= NETDEV_MAX_QUEUES;
  pt_list : Forall queue_typed (queue_list p);
  pt_used : truth (pflags p .& SWP_USED) = true → is_Some (pnetdev p);
}.

(** The fields that messages can set are in the ranges of their types. *)
Record dp_typed (d : datapath) : Prop := {
  dt_flags : 0 <= flags d < 65536;
  dt_miss : 0 <= miss_send_len d < 65536;
  dt_ports : ∀ r p, port_of d r = Some p → port_typed p;
  dt_desc : (length (dp_desc d) < DESC_STR_LEN)%nat;
}.

Record dp_well (d : datapath) (loose : list ptr) : Prop := {
  dw_inv : dp_inv d loose;
  dw_ports : ports_ok d;
  dw_saved : saved_ok d;
  dw_typed : dp_typed d;
}.

Lemma lor_range x y n : 0 <= n → 0 <= x < 2 ^ n → 0 <= y < 2 ^ n → 0 <= x .| y < 2 ^ n.
Proof.
  intros Hn Hx Hy. assert ((x .| y) mod 2 ^ n = x .| y) as <-; [|apply Z.mod_pos_bound; lia].
  rewrite <-Z.land_ones, Z.land_lor_distr_l, !Z.land_ones by lia. by rewrite !Z.mod_small.
Qed.

(** ** What a computation leaves alone *)

Definition keeps {A} (m : M datapath A) : Prop :=
  ∀ d, match m d with Ok (_, d') => same_rest d d' | _ => True end.

Lemma keeps_ret {A} (a : A) : keeps (mret a).
Proof. intros d. apply same_rest_refl. Qed.

Lemma keeps_get : keeps get.
Proof. intros d. apply same_rest_refl. Qed.

Lemma keeps_lift {A} (c : comp A) : keeps (lift c).
Proof. intros d. unfold lift. destruct c; [apply same_rest_refl|done..]. Qed.

Lemma keeps_bind {A B} (m : M datapath A) (f : A → M datapath B) :
  keeps m → (∀ a, keeps (f a)) → keeps (m ≫= f).
Proof.
  intros Hm Hf d. unfold mbind, M_bind. specialize (Hm d). destruct (m d) as [[a d1]| |]; [|done..].
  specialize (Hf a d1). destruct (f a d1) as [[b d2]| |]; [|done..]. by eapply same_rest_trans.
Qed.

Lemma keeps_on_env {A} (m : M env A) : keeps (on_env m).
Proof. intros d. unfold on_env. destruct (m (dp_env d)) as [[a e]| |]; [by destruct d|done..]. Qed.

Lemma keeps_on_chain {A} (m : sw_chain switch_table → M env (A * sw_chain switch_table)) : keeps (on_chain m).
Proof.
  intros d. unfold on_chain, mbind, M_bind, get, on_env. destruct (m (chain d) (dp_env d)) as [[[a c] e]| |]; [|done..].
  by destruct d.
Qed.

Create HintDb keeps.
#[export] Hint Resolve keeps_ret keeps_get keeps_lift keeps_on_env keeps_on_chain : keeps.

Ltac keeps_step :=
  lazymatch goal with
  | |- keeps (_ ≫= _) => apply keeps_bind
  | |- keeps (match _ with _ => _ end) => case_match
  | |- keeps _ => solve [auto with keeps]
  | |- _ => intros
  end.

Lemma keeps_error s type code msg len : keeps (dp_send_error_msg s type code msg len).
Proof. unfold dp_send_error_msg, send. repeat keeps_step. Qed.
#[export] Hint Resolve keeps_error : keeps.

Lemma keeps_install p ofm n : keeps (install_flow p ofm n).
Proof. unfold install_flow. repeat keeps_step. Qed.
#[export] Hint Resolve keeps_install : keeps.

(** A flow modification without a buffered packet changes only the flow tables and
    the connections. *)
Lemma keeps_fail flow ofm e : fm_buffer_id ofm = UINT32_MAX → keeps (flow_mod_fail flow ofm e).
Proof. intros Hb. unfold flow_mod_fail. rewrite Hb, Z.eqb_refl. cbn [negb]. repeat keeps_step. Qed.

Section control.
Context `{Malloc} (descs : descriptions) (depth : nat).
Implicit Types (d : datapath) (msg : list Z).

Lemma keeps_apply flow ofm n : fm_buffer_id ofm = UINT32_MAX → keeps (apply_to_buffer depth flow ofm n).
Proof. intros Hb. unfold apply_to_buffer. rewrite Hb, Z.eqb_refl. repeat keeps_step. Qed.
#[local] Hint Resolve keeps_fail keeps_apply : keeps.

Lemma keeps_flow_mod s msg :
  (∀ ofm, flow_mod_at msg = Ok ofm → fm_buffer_id ofm = UINT32_MAX) → keeps (recv_flow depth s msg).
Proof.
  intros Hb. unfold recv_flow. destruct (flow_mod_at msg) as [ofm| |]; [|by intros d..].
  specialize (Hb ofm eq_refl). intros d. rewrite (bind_ok _ _ _ ofm d) by done. revert d.
  match goal with |- ∀ d, match ?m d with _ => _ end => change (keeps m) end.
  unfold add_flow, mod_flow, flow_mod_error. repeat keeps_step.
Qed.

(** ** Messages *)

(** The port that a number names. *)
Definition named d (no : Z) : option port_ref :=
  if no <? DP_MAX_PORTS then Some (port_at (Z.to_nat no))
  else if no =? OFPP_LOCAL then (λ _, local_port_ref) <$> local_port d
  else None.

(** A complete message, as the connections deliver them, from a controller that is
    not waiting for statistics; longer messages could not be quoted in an error
    message. *)
Record delivered d (s : sender) msg : Prop := {
  de_bytes : Forall is_byte msg;
  de_header : (8 ≤ length msg)%nat;
  de_length : ntohs (int_at msg 2 2) = Z.of_nat (length msg);
  de_max : Z.of_nat (12 + length msg) <= UINT16_MAX;
  de_sender : ∃ r, remotes (dp_env d) !! s_remote s = Some r ∧ r_dump r = None;
}.

(** The wp of a handler that leaves a well-formed datapath. *)
Definition handled d loose (m : M datapath Z) : Prop := wp (m d) (λ '(_, d'), dp_well d' loose).

Lemma delivered_sender d s msg : delivered d s msg → sender_ok (dp_env d) (Some s).
Proof. intros [_ _ _ _ (r & Hr & _)]. simpl. by eapply lookup_lt_Some. Qed.

Lemma well_remotes d loose rs :
  dp_well d loose → remotes_ok rs → dp_well (d <| dp_env := (dp_env d) <| remotes := rs |> |>) loose.
Proof.
  intros [[Hac _] [H1 H2 H3] [S1 S2 S3 S4 S5] [T1 T2 T3 T4]] Hrs. split.
  - split; [|done]. by eapply (accounted_heap _ (dp_env d)); [|exact Hac].
  - split; [done|done|]. intros r Hr. destruct (H3 r Hr) as (p & n & Hp & Hq). exists p, n. split; [by destruct r|done].
  - by split.
  - split; [done|done| |done]. intros r p Hp. apply (T3 r). by destruct r.
Qed.

Lemma send_well b s d loose Q :
  (8 ≤ length b)%nat → dp_well d loose → sender_ok (dp_env d) s →
  (∀ v d', dp_well d' loose → Q (v, d')) → wp (send b s d) Q.
Proof.
  intros Hb Hw Hs HQ. apply wp_send; [done|apply Hw|done|]. intros v rs Hrs _. by apply HQ, well_remotes.
Qed.

Lemma error_well s type code msg len d loose Q :
  (len ≤ length msg)%nat → Z.of_nat (12 + len) <= UINT16_MAX → dp_well d loose → sender_ok (dp_env d) s →
  (∀ d', dp_well d' loose → Q (tt, d')) → wp (dp_send_error_msg s type code msg len d) Q.
Proof.
  intros Hl Hm Hw Hs HQ. apply wp_dp_send_error_msg; [done|done|apply Hw|done|]. intros rs Hrs _. by apply HQ, well_remotes.
Qed.

(** Reading the length of a complete message. *)
Lemma wp_header_length d s msg d1 Q :
  delivered d s msg → Q (Z.of_nat (length msg), d1) → wp (lift (header_length msg) d1) Q.
Proof.
  intros Hd HQ. run_step. unfold header_length. apply wp_bind, wp_load; [pose proof (de_header _ _ _ Hd); lia|].
  simpl. by rewrite (de_length _ _ _ Hd).
Qed.

Lemma wp_field msg off n d Q : (off + n ≤ length msg)%nat → Q (int_at msg off n, d) → wp (lift (load msg off n) d) Q.
Proof. intros Hl HQ. run_step. by apply wp_load. Qed.

Lemma copy_reply_handled d s msg loose type :
  dp_well d loose → delivered d s msg → handled d loose (b ← lift (make_copy_reply msg type); send b (Some s)).
Proof.
  intros Hw Hd. unfold handled. run_step. run_step. unfold make_copy_reply. apply wp_bind.
  unfold header_length. apply wp_bind, wp_load; [pose proof (de_header _ _ _ Hd); lia|].
  cbn [wp]. rewrite (de_length _ _ _ Hd), Nat2Z.id. apply wp_bind, wp_load_bytes; [done|].
  pose proof (de_header _ _ _ Hd). assert (length (bytes_at msg 0 (length msg)) = length msg) as Hl by (apply length_bytes_at; lia).
  apply wp_store; [lia|]. cbn beta iota.
  eapply send_well; [|exact Hw|by eapply delivered_sender|done].
  rewrite length_put_at; rewrite ?length_le_bytes, ?Hl; lia.
Qed.

(** A reply with a body of fixed length. *)
Lemma wp_reply_with len type s body d Q :
  (8 + length body ≤ len)%nat → Z.of_nat len <= UINT16_MAX →
  (∀ b, length b = len → Q (b, d)) → wp (lift (reply_with len type s body) d) Q.
Proof.
  intros Hb Hmax HQ. run_step. unfold reply_with, make_openflow_reply. apply wp_bind.
  apply wp_make_openflow_xid; [lia|done|]. intros b Hl. apply wp_memcpy; [lia|]. apply HQ. rewrite length_put_at; lia.
Qed.

Lemma get_config_handled d s msg loose :
  dp_well d loose → delivered d s msg → handled d loose (recv_get_config_request (Some s) msg).
Proof.
  intros Hw Hd. unfold handled, recv_get_config_request. run_step. run_step. run_step.
  apply wp_reply_with; [rewrite length_app, !length_le_bytes; simpl; lia|done|]. intros b Hl. cbn beta iota delta [fst snd].
  eapply send_well; [lia|exact Hw|by eapply delivered_sender|done].
Qed.

(** A datapath with other settings. *)
Lemma well_core d d' loose :
  dp_well d loose → dp_env d' = dp_env d → chain d' = chain d → ports d' = ports d → local_port d' = local_port d →
  port_list d' = port_list d → bufs d' = bufs d → buffers d' = buffers d → buffer_idx d' = buffer_idx d →
  0 <= flags d' < 65536 → 0 <= miss_send_len d' < 65536 → (length (dp_desc d') < DESC_STR_LEN)%nat → dp_well d' loose.
Proof.
  intros [[Hac Hr] [H1 H2 H3] [S1 S2 S3 S4 S5] [T1 T2 T3 T4]] Ee Ec Ep El Epl Eb Ebu Ei Hf Hm Hde.
  assert (∀ r, port_of d' r = port_of d r) as Hp by (intros []; simpl; by rewrite ?Ep, ?El).
  split.
  - split; by rewrite ?Ee, ?Ec.
  - split; [by rewrite Ep|by rewrite Epl|]. intros r. rewrite Epl, Hp. apply H3.
  - split; unfold saved; by rewrite ?Ebu, ?Ei, ?Eb.
  - split; [done|done| |done]. intros r p. rewrite Hp. apply T3.
Qed.

Lemma set_config_handled d s msg loose :
  dp_well d loose → delivered d s msg → (12 ≤ length msg)%nat → handled d loose (recv_set_config (Some s) msg).
Proof.
  intros Hw Hd Hl. unfold handled, recv_set_config. run_step. apply wp_field; [lia|]. cbn beta iota delta [fst snd].
  set (f := if _ : bool then _ else _). run_step. run_step. run_step. apply wp_field; [lia|]. run.
  apply (well_core d); [done..| |apply htons_range|apply Hw].
  assert (0 <= ntohs (int_at msg 8 2) .& OFPC_FRAG_MASK < 2 ^ 16) as Hr by (apply land_range; [lia|apply htons_range]).
  unfold f. destruct (_ && _); [|done].
  apply (lor_range _ _ 16); [lia|by apply land_range|done].
Qed.

Lemma port_descs_ok rs d Q :
  (∀ r, r ∈ rs → is_Some (port_of d r)) → (∀ l, Q (l, d)) → wp (port_descs rs d) Q.
Proof.
  intros Hrs HQ. revert Q HQ. induction rs as [|r rs IH]; intros Q HQ; cbn [port_descs]; [by run|].
  destruct (Hrs r) as [p Hp]; [left|]. run_step. eapply wp_read_port_of; [exact Hp|]. cbn beta iota delta [fst snd].
  run_step. apply IH; [|intros l; by run]. intros r' Hr'. apply Hrs. by right.
Qed.

Lemma features_handled d s msg loose :
  dp_well d loose → delivered d s msg → handled d loose (recv_features_request (Some s) msg).
Proof.
  intros Hw Hd. unfold handled, recv_features_request, dp_send_features_reply. run_step. run_step. run_step. run_step.
  apply wp_reply_with; [rewrite !length_app, !length_le_bytes; simpl; lia|done|]. intros b Hl.
  cbn beta iota delta [fst snd]. run_step. apply port_descs_ok.
  { intros r Hr. destruct (po_up _ (dw_ports _ _ Hw) r Hr) as (p & n & Hp & _). by eexists. }
  intros l. cbn beta iota delta [fst snd]. run_step.
  eapply send_well; [rewrite length_app; lia|exact Hw|by eapply delivered_sender|]. intros v d' Hd'. by run.
Qed.

(** ** Ports *)

Lemma lookup_port_eq d no : dp_lookup_port no d = Ok (named d no, d).
Proof. reflexivity. Qed.

Lemma named_port d loose no r :
  dp_well d loose → 0 <= no → named d no = Some r → ∃ p, port_of d r = Some p ∧ port_typed p.
Proof.
  intros Hw Hno Hr. assert (is_Some (port_of d r)) as [p Hp].
  { unfold named in Hr. destruct (no <? DP_MAX_PORTS) eqn:E.
    - injection Hr as <-. apply Z.ltb_lt in E. unfold DP_MAX_PORTS in E. apply lookup_lt_is_Some.
      rewrite (po_slots _ (dw_ports _ _ Hw)). lia.
    - destruct (no =? OFPP_LOCAL); [|done]. destruct (local_port d) as [p|] eqn:El; [|done].
      injection Hr as <-. simpl. by rewrite El. }
  exists p. split; [done|]. by eapply (dt_ports _ (dw_typed _ _ Hw)).
Qed.

(** A port may change, except for its number and its device. *)
Lemma well_write d loose r p p' :
  dp_well d loose → port_of d r = Some p → port_no p' = port_no p →
  (is_Some (pnetdev p) → is_Some (pnetdev p')) → port_typed p' → dp_well (set_port r p' d) loose.
Proof.
  intros [[Hac Hr] [H1 H2 H3] [S1 S2 S3 S4 S5] [T1 T2 T3 T4]] Hp Hno Hdev Ht.
  assert (is_Some (port_of d r)) as Hs by by eexists.
  split.
  - split; [by destruct r|by destruct r].
  - split; [destruct r; simpl; by rewrite ?length_insert|by destruct r|]. intros r' Hr'.
    assert (r' ∈ port_list d) as Hl by (by destruct r). destruct (H3 r' Hl) as (q & n & Hq & Hn & Hnum).
    rewrite port_of_set by done. case_decide as E; [subst r'|by eauto].
    rewrite Hp in Hq. injection Hq as <-. destruct Hdev as [n' Hn']; [by eexists|]. exists p', n'. split_and!; [done|done|congruence].
  - destruct r; by split.
  - split; [by destruct r|by destruct r| |by destruct r]. intros r' q. rewrite port_of_set by done.
    case_decide; [by intros [= <-]|by apply T3].
Qed.

Lemma write_port_well d loose r p p' Q :
  dp_well d loose → port_of d r = Some p → port_no p' = port_no p →
  (is_Some (pnetdev p) → is_Some (pnetdev p')) → port_typed p' →
  (dp_well (set_port r p' d) loose → Q (tt, set_port r p' d)) → wp (write_port r p' d) Q.
Proof. intros Hw Hp Hno Hdev Ht HQ. apply wp_write_port, HQ. by eapply well_write. Qed.

(** The port that a message names has been set up. *)
Definition set_up d (no : Z) : Prop := ∀ r p, named d no = Some r → port_of d r = Some p → is_Some (pnetdev p).

Lemma port_mod_handled d s msg loose :
  dp_well d loose → delivered d s msg → (32 ≤ length msg)%nat → set_up d (ntohs (int_at msg 8 2)) →
  handled d loose (recv_port_mod (Some s) msg).
Proof.
  intros Hw Hd Hl Hup. unfold handled, recv_port_mod, update_port_flags. run_step. run_step. apply wp_field; [lia|].
  cbn beta iota delta [fst snd]. set (no := ntohs _) in *. run_step. rewrite lookup_port_eq. cbn [wp fst snd].
  destruct (named d no) as [r|] eqn:Er; [|by run].
  destruct (named_port d loose no r) as (p & Hp & Ht); [done|apply htons_range|done|].
  destruct (Hup r p Er Hp) as [n Hn]. run_step. run_step. apply wp_load_bytes; [unfold ETH_ADDR_LEN; lia|].
  run_step. eapply wp_read_port_of; [exact Hp|]. cbn beta iota delta [fst snd].
  run_step. eapply wp_lift_deref; [exact Hn|]. cbn beta iota delta [fst snd].
  destruct (negb _); [by run|]. run_step. apply wp_field; [lia|]. cbn beta iota delta [fst snd].
  destruct (truth _); [|by run]. run_step. apply wp_field; [lia|]. cbn beta iota delta [fst snd].
  eapply write_port_well; [exact Hw|exact Hp|done|done| |intros; by run].
  destruct Ht as [T1 T2 T3 T4 T5 T6]. split; try done.
  apply lor_range; [lia|by apply land_range|]. apply land_range; [lia|apply htonl_range].
Qed.

(** An error message that quotes the message. *)
Lemma quote_handled d s msg loose type code r :
  dp_well d loose → delivered d s msg →
  handled d loose (len ← lift (header_length msg); dp_send_error_msg (Some s) type code msg (Z.to_nat len);; mret r).
Proof.
  intros Hw Hd. unfold handled. run_step. eapply wp_header_length; [exact Hd|]. cbn beta iota delta [fst snd]. run_step.
  rewrite Nat2Z.id. eapply error_well; [done|apply Hd|exact Hw|by eapply delivered_sender|]. intros d' Hd'. by run.
Qed.

Lemma queue_config_handled d s msg loose :
  dp_well d loose → delivered d s msg → (10 ≤ length msg)%nat →
  (∀ p, ports d !! Z.to_nat (ntohs (int_at msg 8 2)) = Some p → port_no p = ntohs (int_at msg 8 2) → is_Some (pnetdev p)) →
  handled d loose (recv_queue_get_config_request (Some s) msg).
Proof.
  intros Hw Hd Hl Hup. unfold handled, recv_queue_get_config_request. run_step. apply wp_field; [lia|].
  cbn beta iota delta [fst snd]. set (no := ntohs _) in *.
  assert (∀ type code r, handled d loose _) as Hbad by (intros; by apply (quote_handled d s msg loose type code r)).
  destruct (no <? OFPP_MAX) eqn:Emax; [|apply Hbad]. apply Z.ltb_lt in Emax. run_step. rewrite lookup_port_eq. cbn [wp fst snd].
  destruct (named d no) as [r|] eqn:Er; [|apply Hbad].
  destruct (named_port d loose no r) as (p & Hp & Ht); [done|apply htons_range|done|].
  run_step. eapply wp_read_port_of; [exact Hp|]. cbn beta iota delta [fst snd].
  destruct (port_no p =? no) eqn:E; [|apply Hbad]. cbn [negb]. apply Z.eqb_eq in E.
  run_step. apply wp_reply_with; [rewrite length_le_bytes; lia|done|]. intros b Hb. cbn beta iota delta [fst snd].
  run_step. run_step. unfold queues_of.
  assert (is_Some (pnetdev p)) as [n Hn].
  { unfold named in Er. destruct (no <? DP_MAX_PORTS); [injection Er as <-; by apply Hup|].
    destruct (no =? OFPP_LOCAL) eqn:El; [|done]. apply Z.eqb_eq in El. unfold OFPP_MAX, OFPP_LOCAL in *. lia. }
  rewrite Hn. cbn [deref mbind comp_bind wp]. run_step.
  eapply send_well; [rewrite length_app; lia|exact Hw|by eapply delivered_sender|]. intros v d' Hd'. by run.
Qed.

(** ** Statistics *)

(** Starting a reply in several parts. *)
Lemma start_dump_well d loose i r cb Q :
  dp_well d loose → remotes (dp_env d) !! i = Some r → r_dump r = None →
  (∀ d', dp_well d' loose → Q (tt, d')) → wp (remote_start_dump i cb d) Q.
Proof.
  intros Hw Hr Hn HQ. unfold remote_start_dump, write_remote. run_step. run_step.
  run_step. eapply wp_lift_deref; [exact Hr|]. cbn beta iota delta [fst snd].
  run_step. apply wp_lift_assert; [by rewrite Hn|]. cbn beta iota delta [fst snd]. apply wp_on_env.
  run_step. run_step. run_step. eapply wp_lift_deref; [exact Hr|]. cbn beta iota delta [fst snd]. run_step.
  apply HQ, well_remotes; [done|]. pose proof (di_remotes _ _ (dw_inv _ _ Hw)) as Hrs.
  apply Forall_insert; [done|]. exact (Forall_lookup_1 _ _ _ _ Hrs Hr).
Qed.

(** What the table says of the body is enough for the functions that read it. *)
Lemma stats_init_ok i st init body :
  stats descs !! i = Some st → st_init st = Some init → min_body st <= Z.of_nat (length body) →
  ∃ r, init body = Ok r.
Proof.
  intros Hst Hi Hl. destruct i as [|[|[|[|[|[|[|i]]]]]]]; try done; injection Hst as <-; try done;
    injection Hi as <-; simpl in Hl.
  - unfold flow_stats_init, load_bytes. rewrite (proj2 (Nat.leb_le _ _)) by lia. by eexists.
  - unfold aggregate_stats_init, load_bytes. rewrite (proj2 (Nat.leb_le _ _)) by lia. by eexists.
  - unfold port_stats_init, load. rewrite (proj2 (Nat.leb_le _ _)) by lia. by eexists.
  - unfold queue_stats_init, load. rewrite !(proj2 (Nat.leb_le _ _)) by lia. by eexists.
  - unfold vendor_stats_init, load. rewrite (proj2 (Nat.leb_le _ _)) by lia. by eexists.
Qed.

Lemma stats_handled d s msg loose :
  dp_well d loose → delivered d s msg → (12 ≤ length msg)%nat → handled d loose (recv_stats_request descs s msg).
Proof.
  intros Hw Hd Hl. unfold handled, recv_stats_request. run_step. eapply wp_header_length; [exact Hd|].
  cbn beta iota delta [fst snd]. run_step. apply wp_field; [lia|]. cbn beta iota delta [fst snd].
  destruct (list_find _ _) as [[i st]|] eqn:Ef; [|by run]. apply list_find_Some in Ef as (Hst & _ & _).
  run_step. run_step. apply wp_load_bytes; [lia|]. cbn beta iota delta [fst snd].
  assert (u64 (Z.of_nat (length msg) - 12) = Z.of_nat (length (drop 12 msg))) as ->.
  { rewrite length_drop. pose proof (de_max _ _ _ Hd). unfold u64, UINT16_MAX in *. rewrite Z.mod_small; lia. }
  destruct (_ || _) eqn:Eb; [by run|]. apply orb_false_iff in Eb as [Eb%Z.ltb_ge _].
  destruct (de_sender _ _ _ Hd) as (r & Hr & Hn). run_step.
  assert (∀ c : Z * stats_state, wp ((let '(err, state) := c in
      if truth err then mret err
      else remote_start_dump (s_remote s) (mk_stats_dump_cb false (s_xid s) i state);; mret 0) d)
    (λ '(_, d'), dp_well d' loose)) as Hrest.
  { intros [err state]. destruct (truth err); [by run|]. run_step. eapply start_dump_well; [exact Hw|exact Hr|exact Hn|].
    intros d' Hd'. by run. }
  destruct (st_init st) as [init|] eqn:Ei; [|run_step; exact (Hrest (0, no_stats_state))].
  destruct (stats_init_ok i st init (drop 12 msg) Hst Ei Eb) as [c Hc]. run_step. rewrite Hc. exact (Hrest c).
Qed.

(** ** Flow modifications *)

Lemma well_rest d d' loose loose' :
  dp_well d loose → same_rest d d' → dp_inv d' loose' → dp_well d' loose'.
Proof.
  intros [_ [H1 H2 H3] [S1 S2 S3 S4 S5] [T1 T2 T3 T4]] Hs Hinv. unfold same_rest in Hs.
  assert (∀ r, port_of d' r = port_of d r) as Hp by (intros r; rewrite Hs; by destruct r).
  split; [done| | |].
  - split; [by rewrite Hs|by rewrite Hs|]. intros r Hr. rewrite Hp. apply H3. by rewrite Hs in Hr.
  - rewrite Hs. by split.
  - split; [by rewrite Hs|by rewrite Hs| |by rewrite Hs]. intros r p. rewrite Hp. apply T3.
Qed.

Lemma flow_mod_handled d s msg loose :
  dp_well d loose → delivered d s msg → (72 ≤ length msg)%nat → ntohl (int_at msg 64 4) = UINT32_MAX →
  wp (recv_flow depth (Some s) msg d) (λ '(_, d'), dp_well d' loose ∨ ∃ p, dp_well d' (p :: loose)).
Proof.
  intros Hw Hd Hl Hb. pose proof Hd as [D1 D2 D3 D4 D5].
  assert (∃ ofm, flow_mod_at msg = Ok ofm ∧ fm_length ofm = Z.of_nat (length msg) ∧ fm_buffer_id ofm = UINT32_MAX)
    as (ofm & E & E1 & E2).
  { unfold flow_mod_at. rewrite (proj2 (Nat.leb_le _ _)) by done. by eexists. }
  pose proof (recv_flow_spec depth (Some s) msg ofm d loose (dw_inv _ _ Hw)) as Hspec.
  destruct (wp_inv _ _ (Hspec ltac:(split; try done; by eapply delivered_sender) E2)) as ([r d'] & Er & Hres).
  pose proof (keeps_flow_mod (Some s) msg ltac:(intros ? E'; rewrite E in E'; by injection E' as <-) d) as Hk.
  rewrite Er in Hk |- *. cbn [wp]. destruct Hres as [Hi|(_ & _ & p & _ & Hi)]; [left|right; exists p]; by eapply well_rest.
Qed.

(** ** Vendor extensions *)

Lemma queue_error_well d s msg loose code Q :
  dp_well d loose → delivered d s msg → (∀ d', dp_well d' loose → Q (tt, d')) → wp (queue_error (Some s) code msg d) Q.
Proof.
  intros Hw Hd HQ. unfold queue_error. run_step. eapply wp_header_length; [exact Hd|]. cbn beta iota delta [fst snd].
  rewrite Nat2Z.id. eapply error_well; [done|apply Hd|exact Hw|by eapply delivered_sender|done].
Qed.

Lemma delivered_write d s msg r p : delivered d s msg → delivered (set_port r p d) s msg.
Proof. intros [D1 D2 D3 D4 D5]. split; try done. by destruct r. Qed.

Lemma free_queue_ok fuel p no :
  num_queues p <= NETDEV_MAX_QUEUES → 0 <= no →
  ∃ r, free_queue fuel p no = Ok r ∧ ∀ n, r = Some n → 0 <= n < NETDEV_MAX_QUEUES.
Proof.
  intros Hq. revert no. induction fuel as [|fuel IH]; intros no Hno; cbn [free_queue]; [by exists None|].
  destruct (num_queues p <=? no) eqn:E; [by exists None|]. apply Z.leb_gt in E.
  rewrite (proj2 (Z.ltb_lt _ _)) by lia. cbn [assert_c mbind comp_bind].
  destruct (existsb _ _); [apply IH; lia|]. exists (Some no). split; [done|]. intros n [= <-]. lia.
Qed.

(** Changes of the queues of a port. *)
Lemma queues_well d loose r p n n' l :
  dp_well d loose → port_of d r = Some p → pnetdev p = Some n → port_typed p → Forall queue_typed l →
  dp_well (set_port r (p <| pnetdev := Some n' |> <| queue_list := l |>) d) loose.
Proof.
  intros Hw Hp Hn [T1 T2 T3 T4 T5 T6] Hl. eapply well_write; [exact Hw|exact Hp|done|by eexists|].
  split; try done.
Qed.

Lemma modify_queue_well d s msg loose r p id prop rate Q :
  dp_well d loose → delivered d s msg → port_of d r = Some p → port_typed p → is_Some (pnetdev p) →
  0 <= id < 2 ^ 32 → 0 <= prop < 65536 → 0 <= rate < 65536 →
  (∀ d', dp_well d' loose → Q (tt, d')) → wp (modify_queue (Some s) msg r p id prop rate d) Q.
Proof.
  intros Hw Hd Hp Ht [n Hn] Hid Hprop Hrate HQ. unfold modify_queue. pose proof Ht as [T1 T2 T3 T4 T5 T6].
  assert (∀ n' l, Forall queue_typed l → dp_well (set_port r (p <| pnetdev := Some n' |> <| queue_list := l |>) d) loose)
    as Hset by (intros n' l Hl; by eapply queues_well).
  destruct (dp_lookup_queue p id) as [i|].
  - run_step. eapply wp_lift_deref; [exact Hn|]. cbn beta iota delta [fst snd].
    destruct (netdev_class n) as [error n']. destruct (truth error).
    + run_step. apply wp_write_port. cbn beta iota delta [fst snd].
      eapply queue_error_well; [|by apply delivered_write|done].
      specialize (Hset n' (queue_list p) T5). by destruct p.
    + apply wp_write_port, HQ, Hset. apply Forall_alter; [done|]. intros q Hq [Q1 Q2 Q3 Q4 Q5]. by split.
  - run_step. run_step. unfold port_add_queue.
    destruct (free_queue_ok (Z.to_nat 65536) p 1) as (no & -> & Hno); [by apply T4|lia|].
    cbn [mbind comp_bind wp]. destruct no as [no|]; cbn beta iota delta [fst snd].
    + change (0 =? EXFULL) with false. cbn iota. run_step. eapply wp_lift_deref; [exact Hn|]. cbn beta iota delta [fst snd].
      destruct (netdev_class n) as [error n']. run_step. apply wp_write_port. cbn beta iota delta [fst snd].
      set (q := mk_sw_queue _ _ _ _ _ _ _). assert (queue_typed q) as Hq.
      { split; try done; [repeat constructor; done|by apply Hno]. }
      specialize (Hset n' (queue_list p ++ [q]) ltac:(by apply Forall_app_2; [|constructor; [|constructor]])).
      destruct (truth error); [eapply queue_error_well; [exact Hset|by apply delivered_write|done]|].
      run_step. by apply HQ.
    + rewrite Z.eqb_refl. by eapply queue_error_well.
Qed.

Lemma queue_modify_well d s msg loose Q :
  dp_well d loose → delivered d s msg → (42 ≤ length msg)%nat →
  (∀ d', dp_well d' loose → Q (tt, d')) → wp (recv_of_exp_queue_modify (Some s) msg d) Q.
Proof.
  intros Hw Hd Hl HQ. unfold recv_of_exp_queue_modify. run_step. apply wp_field; [lia|]. cbn beta iota delta [fst snd].
  run_step. apply wp_field; [lia|]. cbn beta iota delta [fst snd].
  destruct (_ || _); [by eapply queue_error_well|].
  do 3 (run_step; apply wp_field; [lia|]; cbn beta iota delta [fst snd]).
  run_step. rewrite lookup_port_eq. cbn [wp fst snd]. destruct (named d _) as [r|] eqn:Er; [|by eapply queue_error_well].
  destruct (named_port d loose _ r Hw (proj1 (htons_range _)) Er) as (p & Hp & Ht).
  run_step. eapply wp_read_port_of; [exact Hp|]. cbn beta iota delta [fst snd].
  destruct (truth _) eqn:Eu; [|by eapply queue_error_well].
  eapply modify_queue_well; [done..|by apply (pt_used _ Ht)|apply htonl_range|apply htons_range|apply htons_range|done].
Qed.

Lemma queue_delete_well d s msg loose Q :
  dp_well d loose → delivered d s msg → (28 ≤ length msg)%nat → named d (ntohs (int_at msg 16 2)) ≠ None →
  (∀ d', dp_well d' loose → Q (tt, d')) → wp (recv_of_exp_queue_delete (Some s) msg d) Q.
Proof.
  intros Hw Hd Hl Hnamed HQ. unfold recv_of_exp_queue_delete.
  do 2 (run_step; apply wp_field; [lia|]; cbn beta iota delta [fst snd]).
  run_step. rewrite lookup_port_eq. cbn [wp fst snd]. destruct (named d _) as [r|] eqn:Er; [|done].
  destruct (named_port d loose _ r Hw (proj1 (htons_range _)) Er) as (p & Hp & Ht).
  run_step. run_step. cbn [deref wp]. run_step. eapply wp_read_port_of; [exact Hp|]. cbn beta iota delta [fst snd].
  destruct (pnetdev p) as [n|] eqn:Hn; [|by eapply queue_error_well].
  destruct (dp_lookup_queue p _) as [i|]; [|by eapply queue_error_well].
  destruct (netdev_class n) as [e n']. apply wp_write_port, HQ. eapply queues_well; [done..|].
  destruct Ht as [_ _ _ _ T5 _]. by apply Forall_delete.
Qed.

(** The messages of the vendor extensions that are handled: long enough for what the
    handlers read, not deleting a queue of a port that does not exist, and not asking
    for the protection of the emergency entries. *)
Definition vendor_survivable d msg : Prop :=
  (ntohl (int_at msg 8 4) = PRIVATE_VENDOR_ID →
     (14 ≤ length msg)%nat ∧ ntohs (int_at msg 12 2) ≠ PRIVATEOPT_EMERG_FLOW_PROTECTION) ∧
  (ntohl (int_at msg 8 4) = OPENFLOW_VENDOR_ID →
     (16 ≤ length msg)%nat ∧
     let subtype := ntohl (int_at msg 12 4) in
     (subtype = OFP_EXT_QUEUE_MODIFY → (42 ≤ length msg)%nat) ∧
     (subtype = OFP_EXT_QUEUE_DELETE → (28 ≤ length msg)%nat ∧ named d (ntohs (int_at msg 16 2)) ≠ None) ∧
     (subtype = OFP_EXT_SET_DESC → ∃ s, c_string DESC_STR_LEN (drop 16 msg) = Ok s)).

Lemma ext_handled d s msg loose :
  dp_well d loose → delivered d s msg → vendor_survivable d msg → ntohl (int_at msg 8 4) = OPENFLOW_VENDOR_ID →
  handled d loose (of_ext_recv_msg (Some s) msg).
Proof.
  intros Hw Hd [_ Hs] Hv. destruct (Hs Hv) as (Hl & H1 & H2 & H3). unfold handled, of_ext_recv_msg.
  run_step. apply wp_field; [lia|]. cbn beta iota delta [fst snd]. set (subtype := ntohl (int_at msg 12 4)) in *. cbv zeta in *.
  destruct (subtype =? OFP_EXT_QUEUE_MODIFY) eqn:E1.
  { apply Z.eqb_eq in E1. run_step. eapply queue_modify_well; [done|done|by apply H1|]. intros d' Hd'. by run. }
  destruct (subtype =? OFP_EXT_QUEUE_DELETE) eqn:E2.
  { apply Z.eqb_eq in E2. run_step. destruct (H2 E2). eapply queue_delete_well; [done..|]. intros d' Hd'. by run. }
  destruct (subtype =? OFP_EXT_SET_DESC) eqn:E3; [|by run].
  apply Z.eqb_eq in E3. destruct (H3 E3) as [str Hstr]. run_step. unfold recv_of_set_dp_desc. run_step. run_step.
  rewrite Hstr. cbn [wp]. run. destruct Hw as [Hi Hp Hsv [T1 T2 T3 T4]]. apply (well_core d); [by split|done..|].
  simpl. rewrite length_take. unfold DESC_STR_LEN. lia.
Qed.

Lemma vendor_handled d s msg loose :
  dp_well d loose → delivered d s msg → (12 ≤ length msg)%nat → vendor_survivable d msg →
  handled d loose (recv_vendor (Some s) msg).
Proof.
  intros Hw Hd Hl Hs. unfold handled, recv_vendor. run_step. apply wp_field; [lia|]. cbn beta iota delta [fst snd].
  destruct (_ =? PRIVATE_VENDOR_ID) eqn:E1.
  { apply Z.eqb_eq in E1. destruct (proj1 Hs E1) as [Hl' Hn]. unfold private_recv_msg. run_step.
    apply wp_field; [lia|]. cbn beta iota delta [fst snd]. destruct (_ || _); [by run|].
    rewrite (proj2 (Z.eqb_neq _ _) Hn). destruct (_ =? _); by run. }
  destruct (_ =? OPENFLOW_VENDOR_ID) eqn:E2; [apply Z.eqb_eq in E2; by apply ext_handled|by apply quote_handled].
Qed.

(** ** The dispatch *)

(** The messages that are handled, whatever else they contain: not packets to be sent
    out and, in flow modifications, no buffered packet; ports that have been set up;
    and the vendor extensions above.  The version was not checked for every type of
    message before. *)
Record survivable d msg : Prop := {
  sv_version : int_at msg 0 1 = OFP_VERSION;
  sv_packet_out : int_at msg 1 1 ≠ OFPT_PACKET_OUT;
  sv_flow_mod : int_at msg 1 1 = OFPT_FLOW_MOD → (72 ≤ length msg)%nat → ntohl (int_at msg 64 4) = UINT32_MAX;
  sv_port_mod : int_at msg 1 1 = OFPT_PORT_MOD → (32 ≤ length msg)%nat → set_up d (ntohs (int_at msg 8 2));
  sv_queues : int_at msg 1 1 = OFPT_QUEUE_GET_CONFIG_REQUEST → (10 ≤ length msg)%nat ∧
    ∀ p, ports d !! Z.to_nat (ntohs (int_at msg 8 2)) = Some p → port_no p = ntohs (int_at msg 8 2) →
      is_Some (pnetdev p);
  sv_vendor : int_at msg 1 1 = OFPT_VENDOR → (12 ≤ length msg)%nat → vendor_survivable d msg;
}.

Lemma control_input_spec s msg d loose :
  dp_well d loose → delivered d s msg → survivable d msg →
  wp (fwd_control_input descs depth s msg d) (λ '(_, d'), dp_well d' loose ∨
    int_at msg 1 1 = OFPT_FLOW_MOD ∧ ∃ p, dp_well d' (p :: loose)).
Proof.
  intros Hw Hd [Hv Hpo Hfm Hpm Hq Hve]. unfold fwd_control_input. pose proof (de_header _ _ _ Hd) as H8.
  run_step. eapply wp_header_length; [exact Hd|]. cbn beta iota delta [fst snd]. rewrite Z.ltb_irrefl.
  run_step. apply wp_field; [lia|]. cbn beta iota delta [fst snd]. rewrite Hv.
  run_step. apply wp_lift_assert; [done|]. cbn beta iota delta [fst snd].
  run_step. apply wp_field; [lia|]. cbn beta iota delta [fst snd]. set (type := int_at msg 1 1) in *.
  assert (∀ m, handled d loose m → wp (m d) (λ '(_, d'), dp_well d' loose ∨
    type = OFPT_FLOW_MOD ∧ ∃ p, dp_well d' (p :: loose))) as Hh.
  { intros m Hm. eapply wp_mono; [exact Hm|]. intros [v d'] ?. by left. }
  assert (∀ n (m : M datapath Z), ((n ≤ length msg)%nat → handled d loose m) →
    wp ((if Z.of_nat (length msg) <? Z.of_nat n then mret (- EFAULT) else m) d) (λ '(_, d'), dp_well d' loose ∨
    type = OFPT_FLOW_MOD ∧ ∃ p, dp_well d' (p :: loose))) as Hm.
  { intros n m Hm. destruct (_ <? _) eqn:E; [run; by left|]. apply Z.ltb_ge in E. apply Hh, Hm. lia. }
  unfold handler_of.
  destruct (type =? OFPT_BARRIER_REQUEST); [apply (Hm 8%nat); intros _; by apply copy_reply_handled|].
  destruct (type =? OFPT_FEATURES_REQUEST); [apply (Hm 8%nat); intros _; by apply features_handled|].
  destruct (type =? OFPT_GET_CONFIG_REQUEST); [apply (Hm 8%nat); intros _; by apply get_config_handled|].
  destruct (type =? OFPT_SET_CONFIG); [apply (Hm 12%nat); intros; by apply set_config_handled|].
  rewrite (proj2 (Z.eqb_neq _ _) Hpo).
  destruct (type =? OFPT_FLOW_MOD) eqn:E.
  { apply Z.eqb_eq in E. destruct (_ <? 72) eqn:El; [run; by left|]. apply Z.ltb_ge in El.
    eapply wp_mono; [apply flow_mod_handled; [exact Hw|done|lia|apply Hfm; [done|lia]]|].
    intros [v d'] [?|?]; [by left|by right]. }
  destruct (type =? OFPT_PORT_MOD) eqn:E2.
  { apply Z.eqb_eq in E2. apply (Hm 32%nat). intros Hl. by apply port_mod_handled; auto. }
  destruct (type =? OFPT_STATS_REQUEST); [apply (Hm 12%nat); intros; by apply stats_handled|].
  destruct (type =? OFPT_ECHO_REQUEST); [apply (Hm 8%nat); intros _; by apply copy_reply_handled|].
  destruct (type =? OFPT_ECHO_REPLY); [apply (Hm 8%nat); intros _; unfold handled, recv_echo_reply; by run|].
  destruct (type =? OFPT_QUEUE_GET_CONFIG_REQUEST) eqn:E3.
  { apply Z.eqb_eq in E3. apply (Hm 8%nat). intros _. destruct (Hq E3). by apply queue_config_handled. }
  destruct (type =? OFPT_VENDOR) eqn:E4.
  { apply Z.eqb_eq in E4. apply (Hm 12%nat). intros Hl. apply vendor_handled; auto. }
  run_step. eapply error_well; [done|apply Hd|exact Hw|by eapply delivered_sender|]. intros d' Hd'. run. by left.
Qed.

(** C1: No message from a controller crashes the switch, whatever its type, length and
    contents, except those that the conditions name; handling it loses no flow entry
    (but one, for a modification), no packet buffer and no port, and the switch is
    ready for the next message. *)
Theorem control_input_safe s msg d loose :
  dp_well d loose → delivered d s msg → survivable d msg →
  wp (fwd_control_input descs depth s msg d) (λ '(_, d'),
    (dp_inv d' loose ∨ int_at msg 1 1 = OFPT_FLOW_MOD ∧ ∃ p, dp_inv d' (p :: loose)) ∧
    ports_ok d' ∧ saved_ok d').
Proof.
  intros Hw Hd Hs. eapply wp_mono; [by apply (control_input_spec s msg d loose)|].
  intros [v d'] [[]|(? & p & [])]; split_and!; eauto.
Qed.

(** After any such message every field that messages can set is in the range of its
    type in C, whatever the message contained: configuration, ports, queues, counters
    and the description. *)
Theorem control_input_typed s msg d loose :
  dp_well d loose → delivered d s msg → survivable d msg →
  wp (fwd_control_input descs depth s msg d) (λ '(_, d'), dp_typed d').
Proof.
  intros Hw Hd Hs. eapply wp_mono; [by apply (control_input_spec s msg d loose)|].
  by intros [v d'] [[]|(? & p & [])].
Qed.

(** ** Messages that crash the switch *)

Lemma field_eq msg off n d : (off + n ≤ length msg)%nat → lift (load msg off n) d = Ok (int_at msg off n, d).
Proof. intros Hl. apply lift_ok. unfold load. by rewrite (proj2 (Nat.leb_le _ _)). Qed.

Lemma read_port_eq r p d : port_of d r = Some p → read_port r d = Ok (p, d).
Proof. intros Hp. unfold read_port, mbind, M_bind, get, lift, deref. destruct r; simpl in Hp; by rewrite Hp. Qed.

(** The dispatch calls the handler. *)
Lemma dispatch_eq s msg d n h :
  delivered d s msg → int_at msg 0 1 = OFP_VERSION → handler_of descs depth (int_at msg 1 1) = Some (n, h) →
  n <= Z.of_nat (length msg) → fwd_control_input descs depth s msg d = h s msg d.
Proof.
  intros Hd Hv Hh Hn. unfold fwd_control_input. pose proof (de_header _ _ _ Hd).
  rewrite (bind_ok _ _ _ (Z.of_nat (length msg)) d).
  2: { apply lift_ok. unfold header_length, load. rewrite (proj2 (Nat.leb_le _ _)) by lia. simpl.
       by rewrite (de_length _ _ _ Hd). }
  rewrite Z.ltb_irrefl, (bind_ok _ _ _ _ _ (field_eq msg 0 1 d ltac:(lia))), Hv.
  rewrite (bind_ok _ _ _ tt d) by done. rewrite (bind_ok _ _ _ _ _ (field_eq msg 1 1 d ltac:(lia))), Hh.
  by rewrite (proj2 (Z.ltb_ge _ _)).
Qed.


End control.

End DpControl.
