(* ===== verification/DpRunFacts.v ===== *)
(** * The main loop

    What the expiry of flow entries does to the flow tables, and which messages it
    sends. *)

From S2P Require Import Prelude Ofp Ofpbuf Flow FlowFacts SwitchFlow SwitchFlowFacts Rconn.
From S2P Require Import RconnFacts Env EnvFacts Table TableSeq Chain ChainFacts DpAct DpActFacts.
From S2P Require Import Datapath DpMsg DpFacts DpFlow DpStats DpRun.
Import Ofp Ofpbuf Flow FlowFacts SwitchFlow SwitchFlowFacts Env EnvFacts Table TableSeq Chain ChainFacts
  DpAct DpActFacts Datapath DpMsg DpFacts DpFlow DpStats DpRun.

Module DpRunFacts.

(** The messages about entries that expired, in order. *)
Fixpoint send_reports (msec sec : Z) (fs : list sw_flow) (rs : list remote) : comp (list remote) :=
  match fs with
  | [] => Ok rs
  | f :: fs =>
      rs ← (if truth (send_flow_rem f) && negb (truth (emerg_flow f)) then
              b ← update_openflow_length (flow_removed_bytes msec f (reason f));
              send_all sec b rs
            else Ok rs);
      send_reports msec sec fs rs
  end.

Lemma dp_send_flow_end_eq p f e :
  heap e !! p = Some f → remotes_ok (remotes e) →
  ∃ rs, remotes_ok rs ∧ dp_send_flow_end p (reason f) e = Ok (tt, e <| remotes := rs |>) ∧
    (if truth (send_flow_rem f) && negb (truth (emerg_flow f)) then
       b ← update_openflow_length (flow_removed_bytes (now_msec e) f (reason f));
       send_all (now_sec e) b (remotes e)
     else Ok (remotes e)) = Ok rs.
Proof.
  intros Hf Hok. unfold dp_send_flow_end.
  rewrite (bind_ok _ _ _ f e) by (unfold read_flow, mbind, M_bind, get, lift, deref; by rewrite Hf).
  rewrite (bind_ok _ _ _ e e) by done.
  assert (e <| remotes := remotes e |> = e) as Ee by by destruct e.
  destruct (truth (send_flow_rem f)); cbn [negb andb]; [|exists (remotes e); by rewrite Ee].
  destruct (truth (emerg_flow f)); cbn [negb andb]; [exists (remotes e); by rewrite Ee|].
  pose proof (flow_removed_bytes_length (now_msec e) f (reason f)) as Hl.
  assert (wp (update_openflow_length (flow_removed_bytes (now_msec e) f (reason f))) (λ b, (8 ≤ length b)%nat)) as Hu.
  { apply wp_update_openflow_length; [done|]. intros b' Hb'. by rewrite Hb'. }
  destruct (wp_inv _ _ Hu) as (b & Eb & Hb).
  destruct (wp_inv _ _ (wp_send_all (now_sec e) b (remotes e) Hok Hb)) as (rs & Es & Hrs & _).
  exists rs. split; [done|]. rewrite Eb. cbn [mbind comp_bind]. split; [|done].
  unfold send_openflow_buffer, mbind, M_bind, lift, get. rewrite Eb. cbn beta iota. by rewrite Es.
Qed.

Lemma end_flows_eq l fs e :
  NoDup l → Forall2 (λ p f, heap e !! p = Some f) l fs → remotes_ok (remotes e) →
  ∃ rs, remotes_ok rs ∧ send_reports (now_msec e) (now_sec e) fs (remotes e) = Ok rs ∧
    end_flows l e = Ok (tt, e <| heap := free_all l (heap e) |> <| remotes := rs |>).
Proof.
  intros Hn Hl. revert e Hn Hl. revert fs. induction l as [|p l IH]; intros fs e Hn Hl Hok.
  - apply Forall2_nil_inv_l in Hl as ->. exists (remotes e). split_and!; [done|done|]. by destruct e.
  - apply Forall2_cons_inv_l in Hl as (f & fs' & Hf & Hl & ->). apply NoDup_cons in Hn as [Hp Hn].
    destruct (dp_send_flow_end_eq p f e Hf Hok) as (rs & Hrs & E1 & E2).
    set (e1 := e <| remotes := rs |>). set (e2 := e1 <| heap := delete p (heap e) |>).
    destruct (IH fs' e2 Hn) as (rs' & Hrs' & E3 & E4); [|done|].
    { apply Forall2_same_length_lookup in Hl as [Hlen Hl]. apply Forall2_same_length_lookup. split; [done|].
      intros i q g Hq Hg. change (delete p (heap e) !! q = Some g). rewrite lookup_delete_ne; [by eapply Hl|].
      intros <-. apply Hp. by eapply list_elem_of_lookup_2. }
    exists rs'. split_and!; [done| |].
    + cbn [send_reports]. rewrite E2. exact E3.
    + cbn [end_flows]. rewrite (bind_ok _ _ _ f e) by (unfold read_flow, mbind, M_bind, get, lift, deref; by rewrite Hf).
      rewrite (bind_ok _ _ _ _ _ E1), (bind_ok _ _ _ tt e2).
      2: { unfold flow_free, read_flow, mbind, M_bind, get, lift, deref. change (heap (e <| remotes := rs |>)) with (heap e).
           by rewrite Hf. }
      rewrite E4. by rewrite free_all_cons.
Qed.

(** Freeing entries that no table holds. *)
Lemma accounted_free_all (good : list Z → Prop) e e' (c : sw_chain switch_table) dead loose :
  heap e' = free_all dead (heap e) → accounted good e c (dead ++ loose) → accounted good e' c loose.
Proof.
  intros Hh Hac. eapply accounted_frame; [| |exact Hac].
  - intros q Hq. rewrite Hh, lookup_free_all_out; [done|]. intros Hd.
    eapply (accounted_apart good e c (dead ++ loose) q); [done|apply elem_of_app; by left|done].
  - apply (account_free e e' dead); [done|]. eapply account_perm; [|apply Hac]. solve_Permutation.
Qed.

Lemma Forall2_exists {A B} (P : A → B → Prop) l : (∀ x, x ∈ l → ∃ y, P x y) → ∃ k, Forall2 P l k.
Proof.
  induction l as [|x l IH]; intros H; [by exists []|]. destruct (H x) as [y Hy]; [left|].
  destruct IH as [k Hk]; [intros; apply H; by right|]. exists (y :: k). by constructor.
Qed.

Lemma flow_timeout_keep now f : expired now f = false → (flow_timeout now f).2 = f.
Proof. unfold expired, flow_timeout. by repeat case_match. Qed.

(** The timeouts of an entry, in seconds, are over: since it last matched a packet, and
    since it was created.  Zero means that there is none. *)
Definition idle_over (now : Z) (f : sw_flow) : Prop :=
  idle_timeout f ≠ 0 ∧ u64 (used f + 1000 * idle_timeout f) < now.

Definition hard_over (now : Z) (f : sw_flow) : Prop :=
  hard_timeout f ≠ 0 ∧ u64 (created f + 1000 * hard_timeout f) < now.

#[export] Instance idle_over_dec now f : Decision (idle_over now f).
Proof. unfold idle_over. apply _. Defined.

Lemma flow_timeout_spec now f :
  (expired now f = true ↔ idle_over now f ∨ hard_over now f) ∧
  (expired now f = true → (flow_timeout now f).2 =
     f <| reason := if decide (idle_over now f) then OFPRR_IDLE_TIMEOUT else OFPRR_HARD_TIMEOUT |>).
Proof.
  assert (∀ t n, negb (n =? OFP_FLOW_PERMANENT) && (u64 (t + n * 1000) <? now) = true ↔
    n ≠ 0 ∧ u64 (t + 1000 * n) < now) as H.
  { intros t n. rewrite andb_true_iff, negb_true_iff, Z.eqb_neq, Z.ltb_lt. by rewrite (Z.mul_comm n). }
  pose proof (H (used f) (idle_timeout f)) as Hi. pose proof (H (created f) (hard_timeout f)) as Hh.
  fold (idle_over now f) in Hi. fold (hard_over now f) in Hh. unfold expired, flow_timeout.
  destruct (_ && _); [rewrite decide_True by (by apply Hi); simpl; tauto|].
  rewrite decide_False by (by intros ?%Hi). destruct (_ && _); (split; [|done]); split; try done; tauto.
Qed.

(** C21: In the first iteration of the main loop in a new second, every entry of the
    ordinary tables whose idle or hard timeout has passed is removed from its table and
    freed, and the controllers get the message about it that it asks for, with the
    reason, which is the idle timeout if both have passed; every other entry stays as
    it is, and the emergency entries never expire. *)
Theorem expire_flows_exact d loose :
  dp_inv d loose → now_sec (dp_env d) ≠ last_timeout d →
  let e := dp_env d in
  let dead := select e (expired (now_msec e)) (owned (tables (chain d))) in
  (∀ p, p ∈ dead ↔ p ∈ owned (tables (chain d)) ∧
     ∃ g, heap e !! p = Some g ∧ (idle_over (now_msec e) g ∨ hard_over (now_msec e) g)) ∧
  wp (expire_flows d) (λ '(_, d'),
    dp_inv d' loose ∧ last_timeout d' = now_sec e ∧
    owned (tables (chain d')) = reject e (expired (now_msec e)) (owned (tables (chain d))) ∧
    emerg_owned (chain d') = emerg_owned (chain d) ∧
    (∀ p, heap (dp_env d') !! p = if decide (p ∈ dead) then None else heap e !! p) ∧
    ∃ fs, Forall2 (λ p f, ∃ g, heap e !! p = Some g ∧
        f = g <| reason := if decide (idle_over (now_msec e) g) then OFPRR_IDLE_TIMEOUT else OFPRR_HARD_TIMEOUT |>)
        dead fs ∧
      send_reports (now_msec e) (now_sec e) fs (remotes e) = Ok (remotes (dp_env d'))).
Proof.
  intros [Hac Hr] Hnow e dead. split.
  { intros p. unfold dead. rewrite select_elem. unfold holds_at. destruct (heap e !! p) as [g|].
    - rewrite (proj1 (flow_timeout_spec _ _)). split; [intros []; eauto|]. by intros (? & ? & [= <-] & ?).
    - split; [by intros [] |]. by intros (_ & ? & ? & _). }
  unfold expire_flows. run_step. run_step.
  rewrite (proj2 (Z.eqb_neq _ _) Hnow). cbn [negb]. run_step. apply wp_on_env.
  eapply wp_mono; [apply (op_timeout stored_actions _ _ loose Hac)|].
  intros [[c del] e1] (Hac1 & Hr1 & -> & Ho & He & Hto & Ee1). fold e dead in Hac1, Hr1, Ho, He, Hto, Ee1 |- *.
  cbn beta iota delta [fst snd]. run_step. run_step. run_step. apply wp_on_env.
  set (d1 := upd chain _ _). change (dp_env d1) with e1.
  destruct (Forall2_exists (λ p f, ∃ g, heap e !! p = Some g ∧ f = (flow_timeout (now_msec e) g).2) dead) as [fs Hfs].
  { intros p [Hp _]%select_elem. unfold holds_at in Hp. destruct (heap e !! p) as [g|]; [by eauto|done]. }
  assert (Forall2 (λ p f, heap e1 !! p = Some f) dead fs) as Hfs1.
  { apply Forall2_same_length_lookup in Hfs as [Hlen Hfs]. apply Forall2_same_length_lookup. split; [done|].
    intros i p f Hp Hf. destruct (Hfs i p f Hp Hf) as (g & Hg & ->). rewrite Hto, Hg.
    apply list_elem_of_lookup_2, select_elem in Hp as [_ Hp]. by rewrite decide_True. }
  assert (NoDup dead) as Hnd.
  { destruct Hac1 as [_ _ [Hn _] _]. by apply NoDup_app in Hn as (_ & _ & [Hn _]%NoDup_app). }
  destruct (end_flows_eq dead fs e1 Hnd Hfs1) as (rs & Hrs & Erep & ->); [by rewrite Hr1|].
  cbn [wp]. run. split_and!; [split|..]; try done.
  - by eapply (accounted_free_all _ e1); [|exact Hac1].
  - intros p. change (free_all dead (heap e1) !! p = if decide (p ∈ dead) then None else heap e !! p).
    rewrite lookup_free_all. case_decide as Hp; [done|]. rewrite Hto. case_decide as Hpo; [|done].
    destruct (heap e !! p) as [g|] eqn:Hg; [|done]. simpl. f_equal.
    apply flow_timeout_keep. apply not_true_is_false. intros Hx. apply Hp, select_elem. split; [|done].
    by rewrite (holds_at_some _ _ _ _ Hg).
  - exists fs. split; [|rewrite Hr1 in Erep; rewrite Ee1 in Erep; exact Erep].
    apply Forall2_same_length_lookup in Hfs as [Hlen Hfs]. apply Forall2_same_length_lookup. split; [done|].
    intros i p f Hp Hf. destruct (Hfs i p f Hp Hf) as (g & Hg & ->). exists g. split; [done|].
    apply (proj2 (flow_timeout_spec _ _)). apply list_elem_of_lookup_2, select_elem in Hp as [Hp _].
    by rewrite (holds_at_some _ _ _ _ Hg) in Hp.
Qed.

End DpRunFacts.
