(* ===== verification/DpProps.v ===== *)
(** * Concrete datapaths

    A switch with three ports and a controller, on which the properties of the
    datapath are instantiated, and runs of it that show where the code fails. *)

From S2P Require Import Prelude Ofp Ofpbuf Flow FlowFacts SwitchFlow SwitchFlowFacts Rconn.
From S2P Require Import RconnFacts RconnProps Env EnvFacts Table TableSeq Chain ChainFacts.
From S2P Require Import ChainProps DpAct DpActFacts Datapath DpMsg DpFacts DpFlow DpFlowFacts.
From S2P Require Import DpPacket DpOutput DpForward DpCrash DpStats DpRun DpControl DpRunFacts.
Import Ofp Ofpbuf Flow FlowFacts SwitchFlow SwitchFlowFacts Env EnvFacts Table TableSeq Chain ChainFacts
  ChainProps DpAct DpActFacts Datapath DpMsg DpFacts DpFlow DpFlowFacts DpPacket DpOutput DpForward DpCrash DpStats DpRun DpControl DpRunFacts.

Module DpProps.

#[local] Existing Instance zero_malloc.

(** ** A switch *)

Definition ex_netdev : netdev := mk_netdev [] (replicate 6 1) [0; 0; 0; 0] 1500 [] [] [] [].

Definition ex_port (no : Z) : sw_port :=
  zero_port <| pflags := SWP_USED |> <| pnetdev := Some ex_netdev |> <| port_no := no |>.

Definition ex_frame : list Z := replicate 12 2 ++ [8; 6] ++ replicate 46 0.

Definition ex_packet : ofpbuf := mk_ofpbuf (replicate 130 0 ++ ex_frame) 130 60 None None None None.

Definition ex_dp (e : env) (c : sw_chain switch_table) : datapath := {|
  dp_env := e; chain := c; last_timeout := 0; dp_id := 1; dp_desc := []; flags := 0; miss_send_len := 20;
  ports := [zero_port; ex_port 1; ex_port 2; ex_port 3] ++ replicate 251 zero_port;
  local_port := None; port_list := [port_at 1; port_at 2; port_at 3]; listeners := [];
  bufs := {[1%positive := ex_packet]};
  buffers := replicate 256 (mk_packet_buffer None 0 0); buffer_idx := 0 |}.

(** The entry that sends every packet to a port. *)
Definition ex_entry (no : Z) : sw_flow :=
  (new_flow 8) <| key := any_key |> <| priority := 5 |> <| sf_acts := output_action no 0 |>.

Definition ex_env (h : gmap ptr sw_flow) : env :=
  (env_of h) <| remotes := [mk_remote RconnProps.probing None] |>.

Definition empty_dp : datapath := ex_dp (ex_env ∅) fresh_chain.

Definition loaded (no : Z) : env * sw_chain switch_table :=
  match chain_insert fresh_chain 1%positive false (ex_env {[1%positive := ex_entry no]}) with
  | Ok ((_, c), e) => (e, c)
  | _ => (ex_env ∅, fresh_chain)
  end.

Definition loaded_dp (no : Z) : datapath := ex_dp (fst (loaded no)) (snd (loaded no)).

Lemma ex_remotes_ok : remotes_ok [mk_remote RconnProps.probing None].
Proof. apply Forall_singleton, RconnProps.probing_ok. Qed.

Lemma empty_dp_inv : dp_inv empty_dp [].
Proof.
  split; [|apply ex_remotes_ok]. apply fresh_chain_accounted. split; [constructor|].
  intros p. simpl. rewrite lookup_empty. split; [by intros []|by intros ?%not_elem_of_nil].
Qed.

Section loaded.
Context (no : Z) (Hno : no = 2 ∨ no = OFPP_TABLE).

Lemma ex_actions_valid : valid_actions any_key (output_action no 0).
Proof. exists [output_action no 0]. split; [reflexivity|]. destruct Hno as [->| ->]; repeat constructor. Qed.

Lemma ex_entry_ok : entry_ok (ex_entry no).
Proof. split; [apply any_key_ok|done|]. eapply valid_actions_acts_ok, ex_actions_valid. Qed.

(** The entry went into the linear table. *)
Lemma loaded_spec :
  accounted stored_actions (fst (loaded no)) (snd (loaded no)) [] ∧ remotes (fst (loaded no)) = [mk_remote RconnProps.probing None] ∧
  1%positive ∈ owned (tables (snd (loaded no))) ∧
  ∃ s, heap (fst (loaded no)) !! 1%positive = Some ((ex_entry no) <| serial := s |>).
Proof.
  pose proof (op_insert stored_actions (ex_env {[1%positive := ex_entry no]}) fresh_chain [1%positive] 1%positive
    false) as H.
  assert (match chain_insert fresh_chain 1%positive false (ex_env {[1%positive := ex_entry no]}) with
          | Ok ((r, _), _) => r =? 0 | _ => false end = true) as H0 by (destruct Hno as [->| ->]; vm_compute; reflexivity).
  unfold loaded. destruct (wp_inv _ _ (H
    ltac:(apply fresh_chain_accounted; eapply account_dom; [|exact (account_single 1%positive (ex_entry no))]; intros q; reflexivity)

    ltac:(split; [left|exists (ex_entry no); split_and!;
      [reflexivity|apply ex_entry_ok|eexists; apply ex_actions_valid]]))) as ([[r c'] e'] & E & [Hac Hr] & Hcase).
  rewrite E in H0 |- *. apply Z.eqb_eq in H0 as ->. cbn [fst snd].
  destruct Hcase as [(? & _)|(_ & f & s & Hf & Hj & _)]; [done|].
  destruct (joins_entry _ _ _ _ _ _ Hj) as [Hown Hs].
  split_and!; [exact Hac|exact Hr|exact Hown|]. exists s. etransitivity; [exact Hs|]. by injection Hf as <-.
Qed.

Lemma loaded_dp_inv : dp_inv (loaded_dp no) [].
Proof.
  destruct loaded_spec as (Hac & Hr & _). split; [exact Hac|].
  change (remotes_ok (remotes (fst (loaded no)))). rewrite Hr. apply ex_remotes_ok.
Qed.

(** It is the only entry. *)
Lemma loaded_entries p f :
  p ∈ owned (tables (snd (loaded no))) → heap (fst (loaded no)) !! p = Some f → ∃ s, f = (ex_entry no) <| serial := s |>.
Proof.
  intros Hp Hf. destruct loaded_spec as (_ & _ & _ & s & Hs).
  assert (owned (tables (snd (loaded no))) = [1%positive]) as E by (destruct Hno as [->| ->]; vm_compute; reflexivity).
  rewrite E in Hp. apply list_elem_of_singleton in Hp as ->. exists s.
  injection (eq_trans (eq_sym Hf) Hs) as ->. reflexivity.
Qed.

End loaded.

Lemma ex_saved_ok e c : saved_ok (ex_dp e c).
Proof.
  assert (∀ i p, buffers (ex_dp e c) !! i = Some p → p = mk_packet_buffer None 0 0) as Hp.
  { intros i p [-> _]%lookup_replicate. done. }
  split; try done.
  - intros i p ->%Hp. done.
  - intros b (i & p & ->%Hp & Hb). done.
  - intros i j p q b ->%Hp _ Hb. done.
Qed.

Lemma ex_unsaved e c b : ¬ saved (ex_dp e c) b.
Proof. intros (i & p & [-> _]%lookup_replicate & Hb). done. Qed.

Lemma ex_ports_ok e c : ports_ok (ex_dp e c).
Proof.
  split; [reflexivity|apply (bool_decide_unpack _); reflexivity|].
  intros r Hr. cbn [port_list ex_dp] in Hr.
  repeat (apply elem_of_cons in Hr as [->|Hr]; [do 2 eexists; repeat split|]). by apply not_elem_of_nil in Hr.
Qed.

Lemma ex_packet_ok : wf ex_packet ∧ Forall is_byte (base ex_packet).
Proof.
  split; [apply leb_complete; reflexivity|]. apply (bool_decide_unpack _). reflexivity.
Qed.

Lemma ex_received e c : received (ex_dp e c) 1%positive (port_at 1) (ex_port 1) ex_packet.
Proof.
  split; try reflexivity; [apply ex_unsaved|apply ex_packet_ok|apply ex_packet_ok| |done|done].
  apply leb_complete. reflexivity.
Qed.


(** ** Flow modifications *)

(** Sends everything to port 3. *)
Definition ex_flow_mod (command : Z) : list Z :=
  [OFP_VERSION; OFPT_FLOW_MOD; 0; 80; 0; 0; 0; 7] ++ [0; 0x3f; 0xff; 0xff] ++ replicate 44 0
  ++ [0; command; 0; 0; 0; 0; 0; 5] ++ replicate 4 255 ++ [255; 255; 0; 0] ++ output_action 3 0.

Definition ex_ofm (command : Z) : ofp_flow_mod :=
  match flow_mod_at (ex_flow_mod command) with
  | Ok ofm => ofm
  | _ => mk_ofp_flow_mod 0 (match_at [] 0) 0 0 0 0 0 0 0 0 []
  end.

Definition ex_sender : option sender := Some (mk_sender 0 7).

Lemma ex_flow_mod_msg command d :
  0 <= command < 256 → length (remotes (dp_env d)) = 1%nat →
  flow_mod_msg d ex_sender (ex_flow_mod command) (ex_ofm command).
Proof.
  intros Hc Hr. split; try reflexivity; [|apply Z.leb_le; reflexivity|].
  - repeat apply Forall_app_2; repeat constructor; unfold is_byte; lia || done.
  - unfold sender_ok, ex_sender. simpl. lia.
Qed.

Lemma loaded_remotes : length (remotes (dp_env (loaded_dp 2))) = 1%nat.
Proof. destruct (loaded_spec 2 (or_introl eq_refl)) as (_ & Hr & _). change (length (remotes (fst (loaded 2))) = 1%nat). by rewrite Hr. Qed.

Lemma flow_mod_accounts_witness :
  wp (recv_flow 3 ex_sender (ex_flow_mod 1) (loaded_dp 2)) (λ '(r, d'),
    dp_inv d' [] ∨
    ((fm_command (ex_ofm 1) = OFPFC_MODIFY ∨ fm_command (ex_ofm 1) = OFPFC_MODIFY_STRICT) ∧ r = 0 ∧
     ∃ p, heap (dp_env (loaded_dp 2)) !! p = None ∧ dp_inv d' [p])).
Proof.
  apply flow_mod_accounts; [apply (loaded_dp_inv 2 (or_introl eq_refl))| |reflexivity].
  apply ex_flow_mod_msg; [lia|apply loaded_remotes].
Defined.

Lemma add_flow_exact_witness :
  ∃ d1 p f, recv_flow 3 ex_sender (ex_flow_mod 0) empty_dp = Ok (0, d1) ∧ dp_inv d1 [] ∧
    owned (tables (chain d1)) ≡ₚ [p] ∧ heap (dp_env d1) = {[p := f]} ∧
    key f = mod_key (ex_ofm 0) ∧ sf_acts f = output_action 3 0.
Proof.
  assert (match recv_flow 3 ex_sender (ex_flow_mod 0) empty_dp with Ok (r, _) => r =? 0 | _ => false end = true) as H0
    by (vm_compute; reflexivity).
  destruct (add_flow_exact 3 ex_sender (ex_flow_mod 0) (ex_ofm 0) empty_dp [])
    as (d1 & _ & Hinv & [(p & f & _ & Hreq & (old & rest & _ & Hl & Hl' & _ & Hh) & _ & Hr & _)|(r & Hr & _ & _ & E)]).
  - apply empty_dp_inv.
  - apply ex_saved_ok.
  - apply ex_flow_mod_msg; [lia|reflexivity].
  - reflexivity.
  - exists d1, p, f. assert (mod_table (ex_ofm 0) empty_dp = []) as E by (vm_compute; reflexivity).
    rewrite E in Hl. apply Permutation_nil_l in Hl. symmetry in Hl. apply app_nil in Hl as [-> ->].
    split_and!; [by apply Hr|exact Hinv|exact Hl'|exact Hh|apply Hreq|apply Hreq].
  - rewrite E in H0. apply Z.eqb_eq in H0. destruct Hr as [-> | ->]; discriminate.
Defined.

Lemma mod_flow_leaks_witness :
  wp (recv_flow 3 ex_sender (ex_flow_mod 1) (loaded_dp 2)) (λ '(r, d'), r = 0 ∧
    ∃ p, heap (dp_env (loaded_dp 2)) !! p = None ∧ is_Some (heap (dp_env d') !! p) ∧ p ∉ chain_owned (chain d')).
Proof.
  apply (mod_flow_leaks 3 ex_sender (ex_flow_mod 1) (ex_ofm 1) (loaded_dp 2) []);
    [apply (loaded_dp_inv 2 (or_introl eq_refl))|apply ex_flow_mod_msg; [lia|apply loaded_remotes]|reflexivity|by left| | |reflexivity|].
  - vm_compute. reflexivity.
  - exists [output_action 3 0]. split; [reflexivity|]. repeat constructor.
  - vm_compute. discriminate.
Defined.

(** ** Packets *)

Lemma save_retrieve_witness :
  wp (save_buffer 1%positive empty_dp) (λ '(id, d1), id ≠ UINT32_MAX ∧
    wp (retrieve_buffer id d1) (λ '(r, d2), ∃ c y, r = Some c ∧ bufs d2 !! c = Some y ∧ contents y = ex_frame)).
Proof.
  eapply wp_mono; [apply (save_retrieve empty_dp 1%positive ex_packet); [apply ex_saved_ok|reflexivity|apply ex_unsaved]|].
  intros [id d1] (_ & _ & _ & Hid & Hr). cbn beta iota.
  assert (id ≠ UINT32_MAX) as Hne.
  { rewrite Hid. intros (p & old & Hp & Ho & _). apply lookup_replicate in Hp as [-> _]. done. }
  split; [exact Hne|]. eapply wp_mono; [exact (Hr Hne)|].
  intros [r d2] (_ & c & y & -> & Hy & Hc & _). exists c, y. by split_and!.
Defined.



Definition ex_extract : Z * flow * ofpbuf :=
  match flow_extract ex_packet 1 with Ok r => r | _ => (0, zero_flow, ex_packet) end.

Lemma ex_extract_eq : flow_extract ex_packet (port_no (ex_port 1)) = Ok (ex_extract.1.1, ex_extract.1.2, ex_extract.2).
Proof. vm_compute. reflexivity. Qed.




(** ** Messages and packets that crash the switch *)

Lemma ex_looping :
  looping (loaded_dp OFPP_TABLE) 1%positive (port_at 1) (ex_port 1) ex_packet
    ex_extract.1.1 ex_extract.1.2 ex_extract.2 0 [].
Proof.
  pose proof (or_intror eq_refl : OFPP_TABLE = 2 ∨ OFPP_TABLE = OFPP_TABLE) as Hno. split.
  - by apply loaded_dp_inv.
  - apply ex_ports_ok.
  - apply ex_received.
  - apply (bool_decide_unpack _). reflexivity.
  - apply ex_extract_eq.
  - destruct (loaded_spec OFPP_TABLE Hno) as (_ & _ & Hown & s & Hs).
    exists 1%positive, ((ex_entry OFPP_TABLE) <| serial := s |>).
    split_and!; [exact Hown|exact Hs|vm_compute; reflexivity].
  - intros e g He Hg _. destruct (loaded_entries OFPP_TABLE Hno e g He Hg) as [s ->]. reflexivity.
Qed.

Lemma table_action_loops_witness :
  validate_actions any_key (output_action OFPP_TABLE 0) 8 = Ok ACT_VALIDATION_OK ∧
  fwd_port_input 1000 1%positive (port_at 1) (loaded_dp OFPP_TABLE) = NoFuel.
Proof.
  apply (table_action_loops 1000 _ _ _ _ _ _ _ _ _ _ any_key ex_looping); [lia|discriminate].
Defined.

Lemma packet_out_controller_crashes_witness :
  recv_packet_out 3 ex_sender (packet_out_controller 7 1 65535 ex_frame) empty_dp = Abort.
Proof.
  apply packet_out_controller_crashes; [apply ex_saved_ok| |done|lia|discriminate|lia].
  apply (bool_decide_unpack _). reflexivity.
Defined.

(** ** Messages *)

Definition ex_descs : descriptions := mk_descriptions [] [] [] [].

Lemma ex_port_typed no : 0 <= no < 65536 → port_typed (ex_port no).
Proof. intros Hno. split; [done|by repeat (apply Forall_cons; split; [done|])|done|done|constructor|by eexists]. Qed.

Lemma ex_typed e c : dp_typed (ex_dp e c).
Proof.
  split; [done|done| |apply leb_complete; reflexivity]. intros [i|] p Hp; [|done].
  change (([zero_port; ex_port 1; ex_port 2; ex_port 3] ++ replicate 251 zero_port) !! i = Some p) in Hp.
  assert (port_typed zero_port) as Hz by
    (split; [done|by repeat (apply Forall_cons; split; [done|])|done|done|constructor|done]).
  apply list_elem_of_lookup_2, elem_of_app in Hp as [Hp|[-> _]%elem_of_replicate]; [|done].
  repeat (apply elem_of_cons in Hp as [->|Hp]; [first [exact Hz|apply ex_port_typed; lia]|]).
  by apply not_elem_of_nil in Hp.
Qed.

Lemma empty_dp_well : dp_well empty_dp [].
Proof. split; [apply empty_dp_inv|apply ex_ports_ok|apply ex_saved_ok|apply ex_typed]. Qed.

(** Takes port 2 down. *)
Definition ex_port_mod (no : Z) : list Z :=
  [OFP_VERSION; OFPT_PORT_MOD; 0; 32; 0; 0; 0; 9; 0; no] ++ replicate 6 1 ++ [0; 0; 0; 1; 0; 0; 0; 1]
  ++ replicate 8 0.

Lemma ex_delivered no : 0 <= no < 256 → delivered empty_dp (mk_sender 0 9) (ex_port_mod no).
Proof.
  intros Hno. split.
  - repeat apply Forall_app_2; repeat constructor; unfold is_byte; lia || done.
  - apply leb_complete. reflexivity.
  - reflexivity.
  - apply Z.leb_le. reflexivity.
  - eexists. split; reflexivity.
Qed.

Lemma ex_survivable : survivable empty_dp (ex_port_mod 2).
Proof.
  split; try done. intros _ _ r p Hr Hp. injection Hr as <-. injection Hp as <-. by eexists.
Qed.

Lemma control_input_safe_witness :
  wp (fwd_control_input ex_descs 3 (mk_sender 0 9) (ex_port_mod 2) empty_dp) (λ '(_, d'),
    (dp_inv d' [] ∨ int_at (ex_port_mod 2) 1 1 = OFPT_FLOW_MOD ∧ ∃ p, dp_inv d' [p]) ∧ ports_ok d' ∧ saved_ok d').
Proof. apply control_input_safe; [apply empty_dp_well|apply ex_delivered; lia|apply ex_survivable]. Defined.

Lemma control_input_typed_witness :
  wp (fwd_control_input ex_descs 3 (mk_sender 0 9) (ex_port_mod 2) empty_dp) (λ '(_, d'), dp_typed d').
Proof. apply (control_input_typed ex_descs 3 _ _ _ []); [apply empty_dp_well|apply ex_delivered; lia|apply ex_survivable]. Defined.


(** ** Expiry *)

(** The entry of [loaded_dp] with a hard timeout of one second, two seconds later. *)
Definition overdue_entry : sw_flow :=
  (default (ex_entry 2) (heap (dp_env (loaded_dp 2)) !! 1%positive)) <| hard_timeout := 1 |>.

Definition overdue_dp : datapath :=
  (loaded_dp 2) <| dp_env := (dp_env (loaded_dp 2)) <| heap := <[1%positive := overdue_entry]> (heap (dp_env (loaded_dp 2))) |>
    <| now_msec := 2000 |> <| now_sec := 2 |> |>.

Lemma overdue_dp_inv : dp_inv overdue_dp [].
Proof.
  destruct (loaded_dp_inv 2 (or_introl eq_refl)) as [Hac Hr]. split; [|exact Hr].
  destruct (loaded_spec 2 (or_introl eq_refl)) as (_ & _ & _ & s & Hs).
  change (heap (dp_env (loaded_dp 2)) !! 1%positive = Some ((ex_entry 2) <| serial := s |>)) in Hs.
  assert (overdue_entry = (ex_entry 2) <| serial := s |> <| hard_timeout := 1 |>) as E
    by (unfold overdue_entry; by rewrite Hs).
  eapply (accounted_touch _ (dp_env (loaded_dp 2))); [exact Hs|reflexivity| | |exact Hac]; rewrite E; by try split.
Qed.

Lemma expire_flows_exact_witness :
  wp (expire_flows overdue_dp) (λ '(_, d'), dp_inv d' [] ∧ last_timeout d' = 2 ∧
    owned (tables (chain overdue_dp)) = [1%positive] ∧ owned (tables (chain d')) = [] ∧
    heap (dp_env d') !! 1%positive = None).
Proof.
  destruct (expire_flows_exact overdue_dp []) as [Hdead Hwp].
  - apply overdue_dp_inv.
  - vm_compute. discriminate.
  - eapply wp_mono; [exact Hwp|]. intros [u d'] (Hi & Hl & Ho & _ & Hh & _).
    assert (owned (tables (chain overdue_dp)) = [1%positive]) as E by (vm_compute; reflexivity).
    split_and!; [exact Hi|rewrite Hl; reflexivity|exact E| |].
    + rewrite Ho. vm_compute. reflexivity.
    + rewrite Hh. rewrite decide_True; [reflexivity|]. apply Hdead. rewrite E. split; [left|].
      exists overdue_entry. split; [vm_compute; reflexivity|]. right. split; [vm_compute; discriminate|vm_compute; reflexivity].
Defined.

End DpProps.
