(* ===== verification/DpStatsFacts.v ===== *)
(** * Statistics

    Asking for statistics changes nothing, and a reply that never ends. *)

From S2P Require Import Prelude Ofp Ofpbuf Flow FlowFacts SwitchFlow SwitchFlowFacts Rconn.
From S2P Require Import RconnFacts RconnProps Env EnvFacts Table TableLinear TableHash TableSeq.
From S2P Require Import Chain ChainFacts ChainProps DpAct DpActFacts Datapath DpMsg DpFacts DpFlow.
From S2P Require Import DpForward DpStats DpRun DpProps.
Import Ofp Ofpbuf Flow FlowFacts SwitchFlow SwitchFlowFacts Env EnvFacts Table TableSeq Chain ChainFacts
  ChainProps DpAct DpActFacts Datapath DpMsg DpFacts DpFlow DpForward DpStats DpRun DpProps.

Module DpStatsFacts.

(** ** Computations that change nothing *)

Definition stable {S A} (m : M S A) : Prop := ∀ s, match m s with Ok (_, s') => s' = s | _ => True end.

Lemma stable_ret {S A} (a : A) : stable (mret a : M S A).
Proof. by intros s. Qed.

Lemma stable_get {S} : stable (get : M S S).
Proof. by intros s. Qed.

Lemma stable_lift {S A} (c : comp A) : stable (lift c : M S A).
Proof. intros s. unfold lift. by destruct c. Qed.

Lemma stable_bind {S A B} (m : M S A) (f : A → M S B) : stable m → (∀ a, stable (f a)) → stable (m ≫= f).
Proof.
  intros Hm Hf s. unfold mbind, M_bind. specialize (Hm s). destruct (m s) as [[a s']| |]; [|done..]. subst s'.
  apply Hf.
Qed.

Lemma stable_read p : stable (read_flow p).
Proof. apply stable_bind; [apply stable_get|]. intros. apply stable_lift. Qed.

Lemma stable_on_env {A} (m : M env A) : stable m → stable (on_env m).
Proof.
  intros Hm d. unfold on_env. specialize (Hm (dp_env d)). destruct (m (dp_env d)) as [[a e]| |]; [|done..]. subst e.
  by destruct d.
Qed.

Create HintDb stable.
#[export] Hint Resolve stable_ret stable_get stable_lift stable_read stable_on_env : stable.

Ltac stable_step :=
  lazymatch goal with
  | |- stable (_ ≫= _) => apply stable_bind
  | |- stable (match _ with _ => _ end) => case_match
  | |- stable _ => solve [auto with stable]
  | |- _ => intros
  end.
Ltac stable := repeat stable_step.

(** ** Dumps of the tables *)

Section iterate.
Context {A : Type} (cb : callback A) (Hcb : ∀ p a, stable (cb p a)).

Lemma linear_iterate_stable l k out start pos a : stable (TableLinear.iterate_loop l k out start cb pos a).
Proof. revert a. induction l as [|p l IH]; intros a; cbn [TableLinear.iterate_loop]; stable. Qed.

Lemma hash_iterate_stable l i k out pos a : stable (TableHash.iterate_loop l i k out pos cb a).
Proof. revert a i. induction l as [|[p|] l IH]; intros a i; cbn [TableHash.iterate_loop]; stable. Qed.

Lemma hash_table_stable th k out pos a : stable (TableHash.table_hash_iterate th k out pos cb a).
Proof.
  unfold TableHash.table_hash_iterate, TableHash.table_hash_lookup, TableHash.read_bucket.
  stable. apply hash_iterate_stable.
Qed.

Lemma hash2_iterate_stable l k out pos a : stable (TableHash.iterate2_loop l k out pos cb a).
Proof.
  revert pos a. induction l as [|t l IH]; intros pos a; cbn [TableHash.iterate2_loop]; [stable|].
  apply stable_bind; [apply hash_table_stable|]. stable.
Qed.

Lemma switch_table_stable (t : switch_table) k out pos a : stable (t_iterate A t k out pos cb a).
Proof. destruct t; [apply hash2_iterate_stable|apply linear_iterate_stable]. Qed.

End iterate.

Section dumps.
Context `{Malloc}.

Lemma flow_callback_stable idx now p b : stable (flow_stats_dump_callback idx now p b).
Proof. unfold flow_stats_dump_callback. stable. Qed.

Lemma flow_loop_stable ts k rq now idx pos b : stable (flow_stats_loop ts k rq now idx pos b).
Proof.
  revert idx pos b. induction ts as [|t ts IH]; intros idx pos b; cbn [flow_stats_loop]; [stable|].
  case_match; [|stable]. apply stable_bind; [apply switch_table_stable, flow_callback_stable|]. stable.
Qed.

Lemma flow_dump_stable state b : stable (flow_stats_dump state b).
Proof.
  unfold flow_stats_dump. destruct state; [stable| |stable..]. apply stable_bind; [stable|]. intros d.
  apply stable_bind; [|stable]. case_match; [|apply stable_on_env, flow_loop_stable].
  apply stable_bind; [stable|]. intros t. apply stable_bind; [|stable].
  apply stable_on_env, switch_table_stable, flow_callback_stable.
Qed.

End dumps.

#[local] Existing Instance zero_malloc.

(** ** A reply without end *)

(** An entry that sends the packets of one port to port 2. *)
Definition port_entry (i : nat) : sw_flow :=
  (new_flow 8) <| key := any_key <| kflow := zero_flow <| in_port := htons (Z.of_nat i) |> |>
                                <| wildcards := OFPFW_ALL .& Z.lnot OFPFW_IN_PORT |> |>
    <| priority := 5 |> <| sf_acts := output_action 2 0 |>.

Fixpoint insert_entries (c : sw_chain switch_table) (l : list nat) : M env (sw_chain switch_table) :=
  match l with
  | [] => mret c
  | i :: l => c ← insert_entry c (port_entry i); insert_entries c l
  end.

(** A switch with 43 such entries. *)
Definition full : env * sw_chain switch_table :=
  match insert_entries fresh_chain (seq 1 43) (ex_env ∅) with
  | Ok (c, e) => (e, c)
  | _ => (ex_env ∅, fresh_chain)
  end.

Definition full_dp : datapath := ex_dp (fst full) (snd full).

(** A request for the statistics of all entries. *)
Definition all_flows_request : list Z :=
  [0; 0x3f; 0xff; 0xff] ++ replicate 36 0 ++ [0xff; 0; 255; 255].

(** The parts of the reply: each has a header of 12 bytes. *)
Fixpoint dump_parts (n : nat) (state : stats_state) : M datapath (list (Z * nat)) :=
  match n with
  | O => mret []
  | S n =>
      '(err, state, buffer) ← flow_stats_dump state (replicate 12 0);
      l ← dump_parts n state;
      mret ((err, length buffer) :: l)
  end.

Definition dump_step (state : stats_state) : option (Z * stats_state * nat) :=
  match flow_stats_dump state (replicate 12 0) full_dp with
  | Ok ((err, state, buffer), _) => Some (err, state, length buffer)
  | _ => None
  end.

Definition first_part : stats_state := flow_stats_state 0 zero_position all_flows_request.
Definition next_part : stats_state := flow_stats_state 1 zero_position all_flows_request.

Lemma dump_step_eq state err state' n :
  dump_step state = Some (err, state', n) →
  ∃ buffer, flow_stats_dump state (replicate 12 0) full_dp = Ok ((err, state', buffer), full_dp) ∧ length buffer = n.
Proof.
  unfold dump_step. pose proof (flow_dump_stable state (replicate 12 0) full_dp) as Hs.
  destruct (flow_stats_dump _ _ _) as [[[[e s] b] d]| |]; [|done..]. intros [= <- <- <-]. subst d. by exists b.
Qed.

(** C36: A request for the statistics of flow entries can be answered by messages without
    end: when the last entry of the linear table, which has serial number 0, fills a
    part of the reply, the next part starts with the first entry again.  A switch with
    43 entries of one output action each does so. *)
Theorem flow_dump_endless :
  flow_stats_init all_flows_request = Ok (0, first_part) ∧
  ∀ n, dump_parts n first_part full_dp = Ok (replicate n (1, 4140%nat), full_dp).
Proof.
  split; [vm_compute; reflexivity|].
  assert (dump_step first_part = Some (1, next_part, 4140%nat)) as E1 by (vm_compute; reflexivity).
  assert (dump_step next_part = Some (1, next_part, 4140%nat)) as E2 by (vm_compute; reflexivity).
  apply dump_step_eq in E1 as (b1 & E1 & L1). apply dump_step_eq in E2 as (b2 & E2 & L2).
  assert (∀ n, dump_parts n next_part full_dp = Ok (replicate n (1, 4140%nat), full_dp)) as Hnext.
  { induction n as [|n IH]; [done|]. cbn [dump_parts]. rewrite (bind_ok _ _ _ _ _ E2). cbn beta iota.
    rewrite (bind_ok _ _ _ _ _ IH), L2. done. }
  intros [|n]; [done|]. cbn [dump_parts]. rewrite (bind_ok _ _ _ _ _ E1). cbn beta iota.
  rewrite (bind_ok _ _ _ _ _ (Hnext n)), L1. done.
Qed.


End DpStatsFacts.
