(* ===== verification/LearningSwitch.v ===== *)
(** * lib/learning-switch.c: the controller's learning switch

    A learning switch controls one datapath over a connection: it learns where
    stations are from the packets that the datapath sends it, and answers with flow
    entries and packets to send.  A [session] is the switch and the connection; the
    counter of queued packets of the switch is that of the connection.  Times are
    [now], in seconds, and [msec], in milliseconds.  The handler of flow statistics
    follows a list of actions whose lengths it does not check against zero; its
    loop takes the number of steps that it may make as an argument. *)

From S2P Require Import Prelude Ofp Tag MacLearning Stp Ofpbuf Flow Rconn Env OfpMsg.
Import Ofp MacLearning Ofpbuf Flow Env OfpMsg.

Module LearningSwitch.

Definition P_DISABLED : Z := 1 << 0.
Definition P_LISTENING : Z := 1 << 1.
Definition P_LEARNING : Z := 1 << 2.
Definition P_FORWARDING : Z := 1 << 3.
Definition P_BLOCKING : Z := 1 << 4.

Definition LLONG_MIN : Z := - 2 ^ 63.

Record lswitch := mk_lswitch {
  max_idle : Z;
  datapath_id : Z;
  capabilities : Z;
  last_features_request : Z;
  ml : option mac_learning;
  next_query : Z;
  last_query : Z;
  last_reply : Z;
  port_states : list Z;
  query_xid : Z;
  n_flows : Z;
  n_no_recv : Z;
  n_no_send : Z;
}.
#[export] Instance lswitch_eta : Eta lswitch := λ s,
  mk_lswitch (max_idle s) (datapath_id s) (capabilities s) (last_features_request s) (ml s)
    (next_query s) (last_query s) (last_reply s) (port_states s) (query_xid s) (n_flows s)
    (n_no_recv s) (n_no_send s).

Record session := mk_session { sw : lswitch; conn : Rconn.rconn }.
#[export] Instance session_eta : Eta session := λ s, mk_session (sw s) (conn s).

Section switch.
Context (now msec : Z).

(** ** Sending *)

Definition upd_sw (f : lswitch → lswitch) : M session unit := modify (λ s, s <| sw := f (sw s) |>).

Definition random_uint32 : M session Z := λ s,
  let '(x, rc) := Rconn.alloc_xid (conn s) in Ok (x, s <| conn := rc |>).

Definition make_openflow (len : nat) (type : Z) : M session (list Z) :=
  xid ← random_uint32;
  lift (make_openflow_xid len type xid).

Definition queue_tx (b : list Z) : M session unit := λ s,
  '(_, rc) ← Rconn.rconn_send_with_limit now b 10 (conn s); Ok (tt, s <| conn := rc |>).

Definition rconn_send (b : list Z) : M session Z := λ s,
  '(r, rc) ← Rconn.rconn_send now b false (conn s); Ok (r, s <| conn := rc |>).

Definition send_features_request : M session unit :=
  s ← get;
  if last_features_request (sw s) + 1 <=? now then
    b ← make_openflow 8 OFPT_FEATURES_REQUEST;
    queue_tx b;;
    b ← make_openflow 12 OFPT_SET_CONFIG;
    queue_tx (put_at b 8 (le_bytes 2 0 ++ le_bytes 2 (htons OFP_DEFAULT_MISS_SEND_LEN)));;
    upd_sw (λ sw, sw <| last_features_request := now |>)
  else mret tt.

Definition schedule_query (delay : Z) (sw : lswitch) : lswitch :=
  if (next_query sw =? LLONG_MIN) || (msec + delay <? next_query sw)
  then sw <| next_query := msec + delay |> else sw.

Definition lswitch_create (table : option mac_learning) (max_idle : Z) (rc : Rconn.rconn)
    : comp session :=
  let sw := mk_lswitch max_idle 0 0 (now - 1) table LLONG_MIN LLONG_MIN LLONG_MIN
              (replicate Stp.STP_MAX_PORTS P_DISABLED) 0 0 0 0 in
  '(_, s) ← send_features_request (mk_session sw rc);
  Ok s.

(** ** Spanning tree states *)

Definition get_port_state (sw : lswitch) (port_no : Z) : comp Z :=
  if (Z.of_nat Stp.STP_MAX_PORTS <=? port_no) || negb (truth (capabilities sw .& OFPC_STP))
  then Ok P_FORWARDING
  else deref (port_states sw !! Z.to_nat port_no).

Definition may_learn (sw : lswitch) (port_no : Z) : comp bool :=
  state ← get_port_state sw port_no; Ok (truth (state .& (P_LEARNING .| P_FORWARDING))).

Definition may_recv (sw : lswitch) (port_no : Z) (any_actions : bool) : comp bool :=
  state ← get_port_state sw port_no;
  Ok (negb (truth (if any_actions then state .& (P_DISABLED .| P_LISTENING .| P_BLOCKING)
                   else state .& (P_DISABLED .| P_LISTENING .| P_BLOCKING .| P_LEARNING)))).

Definition may_send (sw : lswitch) (port_no : Z) : comp bool :=
  state ← get_port_state sw port_no; Ok (truth (state .& P_FORWARDING)).

(** The port description at offset [opp] of a message. *)
Definition process_phy_port (msg : list Z) (opp : nat) : M session unit :=
  s ← get;
  no ← lift (load msg opp 2);
  let port_no := ntohs no in
  if truth (capabilities (sw s) .& OFPC_STP) && (port_no <? Z.of_nat Stp.STP_MAX_PORTS) then
    config ← lift (load msg (opp + 24) 4);
    state ← lift (load msg (opp + 28) 4);
    let config := ntohl config in
    let state := ntohl state in
    let new_port_state :=
      if negb (truth (config .& (OFPPC_NO_STP .| OFPPC_PORT_DOWN)))
         && negb (truth (state .& OFPPS_LINK_DOWN))
      then
        let stp := state .& OFPPS_STP_MASK in
        if stp =? OFPPS_STP_LISTEN then P_LISTENING
        else if stp =? OFPPS_STP_LEARN then P_LEARNING
        else if stp =? OFPPS_STP_FORWARD then P_FORWARDING
        else if stp =? OFPPS_STP_BLOCK then P_BLOCKING
        else P_DISABLED
      else P_FORWARDING in
    old ← lift (deref (port_states (sw s) !! Z.to_nat port_no));
    if negb (old =? new_port_state) then
      upd_sw (λ sw, schedule_query 1000
        (sw <| port_states := <[Z.to_nat port_no := new_port_state]> (port_states sw) |>))
    else mret tt
  else mret tt.

Fixpoint process_ports (msg : list Z) (n opp : nat) : M session unit :=
  match n with
  | O => mret tt
  | S n => process_phy_port msg opp;; process_ports msg n (opp + 48)
  end.

Definition process_switch_features (osf : list Z) : M session unit :=
  len ← lift (load osf 2 2);
  let n_ports := u64 (ntohs len - 32) / 48 in
  id ← lift (load osf 8 8);
  caps ← lift (load osf 24 4);
  upd_sw (λ sw, sw <| datapath_id := ntohll id |> <| capabilities := ntohl caps |>);;
  process_ports osf (Z.to_nat n_ports) 32;;
  s ← get;
  if truth (capabilities (sw s) .& OFPC_STP) then upd_sw (schedule_query 1000) else mret tt.

Definition process_port_status (ops : list Z) : M session unit := process_phy_port ops 16.

Definition process_echo_request (rq : list Z) : M session unit :=
  b ← lift (make_echo_reply rq); queue_tx b.

(** ** Packets *)

(** Learns the source of a packet from port [in_port]. *)
Definition learn_source (f : flow) (in_port : Z) : M session unit :=
  s ← get;
  learn ← lift (may_learn (sw s) in_port);
  match ml (sw s) with
  | Some table =>
      if learn : bool then
        '(_, table) ← lift (mac_learning_learn now (dl_src f) 0 in_port table);
        upd_sw (λ sw, sw <| ml := Some table |>)
      else mret tt
  | None => mret tt
  end.

(** The label [drop_it]: sets up a flow that drops the packets. *)
Definition drop_packets (f : flow) (buffer_id : Z) : M session unit :=
  s ← get;
  if 0 <=? max_idle (sw s) then queue_tx (make_add_flow f buffer_id (u16 (max_idle (sw s))) 0)
  else mret tt.

(** The port for a destination, or all ports. *)
Definition choose_port (dst : list Z) : M session Z :=
  s ← get;
  match ml (sw s) with
  | Some table =>
      learned_port ← lift (mac_learning_lookup table dst 0);
      ok ← lift (may_send (sw s) learned_port);
      mret (if ok : bool then learned_port else OFPP_FLOOD)
  | None => mret OFPP_FLOOD
  end.

Definition send_packet (f : flow) (packet : list Z) (buffer_id in_port out_port : Z) : M session unit :=
  s ← get;
  if (0 <=? max_idle (sw s))
     && (match ml (sw s) with None => true | Some _ => false end || negb (out_port =? OFPP_FLOOD)) then
    queue_tx (make_add_simple_flow f buffer_id out_port (u16 (max_idle (sw s))));;
    if buffer_id =? UINT32_MAX then queue_tx (make_unbuffered_packet_out packet in_port out_port)
    else mret tt
  else
    queue_tx (if buffer_id =? UINT32_MAX then make_unbuffered_packet_out packet in_port out_port
              else make_buffered_packet_out buffer_id in_port out_port).

Definition process_packet_in (opi : list Z) : M session unit :=
  in_port ← lift (load opi 14 2);
  let in_port := ntohs in_port in
  len ← lift (load opi 2 2);
  let pkt_len := u64 (ntohs len - 18) in
  '(_, f, pkt) ← lift (flow_extract (mk_ofpbuf opi 18 (Z.to_nat pkt_len) None None None None) in_port);
  learn_source f in_port;;
  id ← lift (load opi 8 4);
  let buffer_id := ntohl id in
  s ← get;
  if eth_addr_is_reserved (dl_src f) then drop_packets f buffer_id
  else
    recv ← lift (may_recv (sw s) in_port false);
    if negb recv then drop_packets f buffer_id
    else
      out_port ← choose_port (dl_dst f);
      if in_port =? out_port then drop_packets f buffer_id
      else send_packet f (contents pkt) buffer_id in_port out_port.

(** ** Flow statistics *)

(** Whether an action at offset [a] or after it, up to [e], outputs to a port that
    may not send. *)
Fixpoint actions_blocked (fuel : nat) (sw : lswitch) (osr : list Z) (a e : Z) : comp bool :=
  if a <? e then
    match fuel with
    | O => NoFuel
    | S fuel =>
        len ← load osr (Z.to_nat (a + 2)) 2;
        let len := ntohs len in
        if e - a <? len then Ok false
        else if truth (len mod 8) then Ok false
        else
          type ← load osr (Z.to_nat a) 2;
          if type =? htons OFPAT_OUTPUT then
            port ← load osr (Z.to_nat (a + 4)) 2;
            ok ← may_send sw (ntohs port);
            if negb ok then Ok true else actions_blocked fuel sw osr (a + len) e
          else actions_blocked fuel sw osr (a + len) e
    end
  else Ok false.

(** The message that deletes a flow. *)
Definition delete_flow_message (match_ : list Z) : M session (list Z) :=
  ofm ← make_openflow 72 OFPT_FLOW_MOD;
  mret (put_at (put_at ofm 8 match_) 56 (le_bytes 2 OFPFC_DELETE_STRICT)).

(** [ofs] is the offset of the statistics of a flow. *)
Definition process_flow_stats (fuel : nat) (osr : list Z) (ofs : Z) : M session unit :=
  s ← get;
  len ← lift (load osr (Z.to_nat ofs) 2);
  let e := ofs + ntohs len in
  let actions := ofs + sizeof_flow_stats in
  w ← lift (load osr (Z.to_nat (ofs + 4)) 4);
  no_recv ←
    (if negb (truth (w .& htonl OFPFW_IN_PORT)) then
       in_port ← lift (load osr (Z.to_nat (ofs + 8)) 2);
       recv ← lift (may_recv (sw s) (ntohs in_port) (actions <? e));
       mret (negb recv)
     else mret false);
  no_send ← (if no_recv : bool then mret false else lift (actions_blocked fuel (sw s) osr actions e));
  upd_sw (λ sw, sw <| n_no_recv := n_no_recv sw + (if no_recv then 1 else 0) |>
                   <| n_no_send := n_no_send sw + (if no_send then 1 else 0) |>);;
  if (no_recv : bool) || no_send then
    match_ ← lift (load_bytes osr (Z.to_nat (ofs + 4)) 40);
    b ← delete_flow_message match_;
    _ ← rconn_send b;
    mret tt
  else mret tt.

Fixpoint stats_loop (n fuel : nat) (osr : list Z) (fs : option (Z * flow_stats_iterator)) : M session unit :=
  match fs with
  | None => mret tt
  | Some (ofs, i) =>
      match n with
      | O => lift NoFuel
      | S n =>
          upd_sw (λ sw, sw <| n_flows := n_flows sw + 1 |>);;
          process_flow_stats fuel osr ofs;;
          fs ← lift (flow_stats_next osr i);
          stats_loop n fuel osr fs
      end
  end.

Definition process_stats_reply (fuel : nat) (osr : list Z) : M session unit :=
  s ← get;
  type ← lift (load osr 8 2);
  xid ← lift (load osr 4 4);
  if (last_query (sw s) =? LLONG_MIN) || negb (type =? htons OFPST_FLOW)
     || negb (xid =? query_xid (sw s))
  then mret tt
  else
    fs ← lift (flow_stats_first osr);
    stats_loop (length osr) fuel osr fs;;
    flags ← lift (load osr 10 2);
    if negb (truth (flags .& htons OFPSF_REPLY_MORE))
    then upd_sw (λ sw, sw <| last_query := LLONG_MIN |> <| last_reply := LLONG_MIN |>)
    else upd_sw (λ sw, sw <| last_reply := msec |>).

(** ** Running *)

(** Asks the datapath for all its flows. *)
Definition send_query : M session unit :=
  xid ← random_uint32;
  upd_sw (λ sw, sw <| last_query := msec |> <| query_xid := xid |> <| n_flows := 0 |>
                   <| n_no_recv := 0 |> <| n_no_send := 0 |>);;
  b ← lift (make_openflow_xid 56 OFPT_STATS_REQUEST xid);
  let b := put_at b 8 (le_bytes 2 (htons OFPST_FLOW) ++ le_bytes 2 (htons 0)
                       ++ le_bytes 4 (htonl OFPFW_ALL)) in
  let b := put_at b 52 [0xff] in
  error ← rconn_send (put_at b 54 (le_bytes 2 (htons OFPP_NONE)));
  if truth error then upd_sw (schedule_query 1000) else mret tt.

(** Waits for replies that were asked for: whether there are any to wait for. *)
Definition wait_for_replies : M session bool :=
  s ← get;
  waiting ←
    (if negb (last_reply (sw s) =? LLONG_MIN) then
       if 10000 <? msec - last_reply (sw s) then
         upd_sw (λ sw, schedule_query 0 (sw <| last_reply := LLONG_MIN |> <| last_query := LLONG_MIN |>));;
         mret false
       else mret true
     else mret false);
  if waiting : bool then mret true
  else
    s ← get;
    if negb (last_query (sw s) =? LLONG_MIN) then
      if 10000 <? msec - last_query (sw s) then
        upd_sw (λ sw, schedule_query 0 (sw <| last_query := LLONG_MIN |>));;
        mret false
      else mret true
    else mret false.

Definition lswitch_run : M session unit :=
  s ← get;
  match ml (sw s) with
  | Some table =>
      '(table, _) ← lift (mac_learning_run now table None);
      upd_sw (λ sw, sw <| ml := Some table |>)
  | None => mret tt
  end;;
  waiting ← wait_for_replies;
  if waiting : bool then mret tt
  else
    s ← get;
    if negb (next_query (sw s) =? LLONG_MIN) && (next_query (sw s) <=? msec) then
      upd_sw (λ sw, sw <| next_query := LLONG_MIN |>);;
      if negb (Rconn.rconn_is_connected (conn s)) then upd_sw (schedule_query 1000)
      else send_query
    else mret tt.

(** For how many milliseconds [wait_timeout] and [lswitch_wait] let the caller sleep, at
    most: the timers that are set, where zero wakes it at once. *)
Definition wait_timeout (started : Z) : Z :=
  let timeout := 10000 - (msec - started) in if timeout <=? 0 then 0 else timeout.

Definition lswitch_wait (sw : lswitch) : comp (list Z) :=
  learning ← match ml sw with Some table => mac_learning_wait now table | None => Ok None end;
  Ok (option_list learning ++
      (if negb (last_reply sw =? LLONG_MIN) then [wait_timeout (last_reply sw)]
       else if negb (last_query sw =? LLONG_MIN) then [wait_timeout (last_query sw)] else [])).

(** ** Messages *)

(** The handlers: type of message, minimal size, function. *)
Definition processors (fuel : nat) : list (Z * Z * option (list Z → M session unit)) :=
  [(OFPT_ECHO_REQUEST, 8, Some process_echo_request);
   (OFPT_FEATURES_REPLY, 32, Some process_switch_features);
   (OFPT_PACKET_IN, 18, Some process_packet_in);
   (OFPT_PORT_STATUS, 64, Some process_port_status);
   (OFPT_STATS_REPLY, 12, Some (process_stats_reply fuel));
   (OFPT_FLOW_REMOVED, 88, None)].

Definition lswitch_process_packet (fuel : nat) (msg : list Z) : M session unit :=
  type ← lift (load msg 1 1);
  s ← get;
  if (datapath_id (sw s) =? 0) && negb (type =? OFPT_ECHO_REQUEST) && negb (type =? OFPT_FEATURES_REPLY)
  then send_features_request
  else
    match find (λ p, p.1.1 =? type) (processors fuel) with
    | Some (_, min_size, handler) =>
        if Z.of_nat (length msg) <? min_size then mret tt
        else match handler with Some h => h msg | None => mret tt end
    | None => mret tt
    end.

End switch.

End LearningSwitch.
