(* ===== verification/LearningSwitchFacts.v ===== *)
(** * The learning switch handles every message

    Whatever message a datapath sends, of whatever type, length and contents, the
    learning switch handles it without a crash and keeps its state consistent,
    except for flow statistics with an action of length zero, on which it loops for
    ever.  A station that has been seen is then reached by unicast. *)

From S2P Require Import Prelude Ofp Tag MacLearning MacLearningFacts Stp Ofpbuf Flow FlowFacts Rconn.
From S2P Require Import RconnFacts Env EnvFacts OfpMsg LearningSwitch.
Import Ofp Tag MacLearning MacLearningFacts Ofpbuf Flow FlowFacts RconnFacts Env EnvFacts OfpMsg LearningSwitch.

Module LearningSwitchFacts.

(** ** The invariant *)

Record session_ok (s : session) : Prop := {
  se_conn : rconn_ok (conn s);
  se_ports : length (port_states (sw s)) = Stp.STP_MAX_PORTS;
  se_table t : ml (sw s) = Some t → ml_ok t;
}.

(** [m] runs to its end from every consistent session, and leaves it consistent,
    with a result that satisfies [P]. *)
Definition yields {A} (m : M session A) (P : A → Prop) : Prop :=
  ∀ s, session_ok s → wp (m s) (λ '(a, s'), P a ∧ session_ok s').

Definition safe {A} (m : M session A) : Prop := yields m (λ _, True).

Lemma yields_mono {A} (m : M session A) (P Q : A → Prop) :
  yields m P → (∀ a, P a → Q a) → yields m Q.
Proof. intros H HPQ s Hs. eapply wp_mono; [by apply H|]. intros [a s'] [? ?]. auto. Qed.

Lemma yields_ret {A} (a : A) (P : A → Prop) : P a → yields (mret a) P.
Proof. by intros Ha s Hs. Qed.

Lemma yields_bind {A B} (m : M session A) (f : A → M session B) (P : A → Prop) (Q : B → Prop) :
  yields m P → (∀ a, P a → yields (f a) Q) → yields (m ≫= f) Q.
Proof.
  intros Hm Hf s Hs. apply wp_M_bind. eapply wp_mono; [by apply Hm|]. intros [a s'] [Ha Hs'].
  by apply Hf.
Qed.

Lemma yields_get : yields get session_ok.
Proof. by intros s Hs. Qed.

Lemma yields_lift {A} (c : comp A) (P : A → Prop) : wp c P → yields (lift c) P.
Proof. intros Hc s Hs. apply wp_lift. eapply wp_mono; [exact Hc|]. done. Qed.

Lemma yields_upd f P : P tt →
  (∀ x, length (port_states (f x)) = length (port_states x) ∧ ml (f x) = ml x) → yields (upd_sw f) P.
Proof.
  intros HP Hf s [H1 H2 H3]. destruct (Hf (sw s)) as [E1 E2]. split; [done|].
  split; simpl; [done|by rewrite E1|by rewrite E2].
Qed.

Section switch.
Context (now msec : Z).

Lemma yields_random : safe random_uint32.
Proof.
  intros s [H1 H2 H3]. unfold random_uint32, Rconn.alloc_xid.
  destruct (Rconn.rc_xids (conn s)) as [|x l] eqn:E; simpl; (split; [done|]); split; simpl; try done.
  by eapply rconn_ok_core; [| |exact H1].
Qed.

Lemma yields_make_openflow len type :
  (8 ≤ len)%nat → Z.of_nat len <= UINT16_MAX → yields (make_openflow len type) (λ b, length b = len).
Proof.
  intros H8 Hmax. unfold make_openflow. eapply yields_bind; [apply yields_random|]. intros xid _.
  apply yields_lift. unfold make_openflow_xid. rewrite (proj2 (Nat.leb_le _ _)), (proj2 (Z.leb_le _ _)) by done.
  cbn [assert_c mbind comp_bind wp]. unfold ofp_header_bytes.
  rewrite !length_app, !length_le_bytes, length_replicate. simpl. lia.
Qed.

Lemma yields_queue_tx b : has_header b → safe (queue_tx now b).
Proof.
  intros Hb s [H1 H2 H3]. unfold queue_tx. apply wp_bind.
  eapply wp_mono; [by apply rconn_send_with_limit_ok|]. intros [r rc] Hrc. by split.
Qed.

Lemma yields_rconn_send b : has_header b → safe (rconn_send now b).
Proof.
  intros Hb s [H1 H2 H3]. unfold rconn_send. apply wp_bind.
  eapply wp_mono; [by apply rconn_send_ok|]. intros [r rc] Hrc. by split.
Qed.

Lemma schedule_query_same d x :
  length (port_states (schedule_query msec d x)) = length (port_states x) ∧ ml (schedule_query msec d x) = ml x.
Proof. unfold schedule_query. by destruct (_ || _). Qed.

(** ** Message lengths *)

Lemma length_put_at_n mem off src n :
  length mem = n → (off + length src ≤ n)%nat → length (put_at mem off src) = n.
Proof. intros <-. apply length_put_at. Qed.

Lemma length_match_bytes m : length (m_dl_src m) = 6%nat → length (m_dl_dst m) = 6%nat →
  length (match_bytes m) = 40%nat.
Proof. intros H1 H2. unfold match_bytes. rewrite !length_app, !length_le_bytes, H1, H2. done. Qed.

Lemma length_header type len xid : length (ofp_header_bytes type len xid) = 8%nat.
Proof. unfold ofp_header_bytes. by rewrite !length_app, !length_le_bytes. Qed.

Lemma length_make_flow_mod c f n : length (dl_src f) = 6%nat → length (dl_dst f) = 6%nat →
  length (make_flow_mod c f n) = 72%nat.
Proof.
  intros H1 H2. unfold make_flow_mod.
  repeat (apply length_put_at_n; [|rewrite ?length_header, ?length_le_bytes, ?length_match_bytes by done; lia]).
  apply length_replicate.
Qed.

Lemma length_make_add_flow f id idle n : length (dl_src f) = 6%nat → length (dl_dst f) = 6%nat →
  length (make_add_flow f id idle n) = 72%nat.
Proof.
  intros H1 H2. unfold make_add_flow.
  do 3 (apply length_put_at_n; [|rewrite length_le_bytes; lia]). by apply length_make_flow_mod.
Qed.

Lemma length_make_add_simple_flow f id port idle : length (dl_src f) = 6%nat → length (dl_dst f) = 6%nat →
  length (make_add_simple_flow f id port idle) = 80%nat.
Proof.
  intros H1 H2. unfold make_add_simple_flow, output_action_bytes.
  rewrite length_app, length_make_add_flow, !length_app, !length_le_bytes by done. done.
Qed.

Lemma packet_out_header n id i o l : has_header (packet_out_bytes n id i o ++ l).
Proof. unfold has_header, packet_out_bytes, ofp_header_bytes. rewrite !length_app, !length_le_bytes. simpl. lia. Qed.

Lemma buffered_header id i o : has_header (make_buffered_packet_out id i o).
Proof. rewrite <-(app_nil_r (make_buffered_packet_out id i o)). apply packet_out_header. Qed.

(** ** Handlers *)

Create HintDb safe.

(** One step of a handler; reads inside the message by arithmetic. *)
Ltac safe_step :=
  lazymatch goal with
  | |- safe ?m => change (yields m (λ _, True))
  | |- yields (get ≫= _) _ => eapply yields_bind; [apply yields_get|intros ?s0 ?Hs0]
  | |- yields (lift (load _ _ _) ≫= _) _ =>
      eapply yields_bind; [apply yields_lift, (wp_load _ _ _ (λ _, True)); [|done]|intros ? _]
  | |- yields (upd_sw _ ≫= _) _ => eapply (yields_bind _ _ (λ _, True)); [apply yields_upd; [done|]|intros ? _]
  | |- yields (upd_sw _) _ => apply yields_upd; [done|]
  | |- yields (_ ≫= _) _ => eapply yields_bind; [solve [eauto with safe]|intros ? ?]
  | |- yields (mret _) _ => by apply yields_ret
  | |- yields (if ?b then _ else _) _ => destruct b
  end; cbn beta iota delta [fst snd].

#[local] Hint Resolve yields_queue_tx yields_random yields_rconn_send : safe.

Lemma send_features_request_safe : safe (send_features_request now).
Proof.
  unfold send_features_request. safe_step. safe_step. safe_step.
  2: { by safe_step. }
  eapply yields_bind; [apply (yields_make_openflow 8); [lia|done]|]. intros b Hb. cbn beta in Hb.
  eapply yields_bind; [apply yields_queue_tx; unfold has_header; lia|]. intros _ _.
  eapply yields_bind; [apply (yields_make_openflow 12); [lia|done]|]. intros b' Hb'. cbn beta in Hb'.
  eapply yields_bind; [apply yields_queue_tx; unfold has_header|].
  - rewrite length_put_at, Hb'; [lia|]. rewrite length_app, !length_le_bytes. lia.
  - intros _ _. by safe_step.
Qed.

Lemma lswitch_create_safe table idle rc :
  rconn_ok rc → (∀ t, table = Some t → ml_ok t) →
  wp (lswitch_create now table idle rc) session_ok.
Proof.
  intros Hrc Ht. unfold lswitch_create. apply wp_bind.
  eapply wp_mono; [apply send_features_request_safe|by intros [[] s'] [_ ?]].
  by split.
Qed.

Lemma get_port_state_ok s no : session_ok s → 0 <= no → wp (get_port_state (sw s) no) (λ _, True).
Proof.
  intros Hs Hno. unfold get_port_state. destruct (_ || _) eqn:E; [done|].
  apply orb_false_iff in E as [E _]. apply Z.leb_gt in E.
  destruct (lookup_lt_is_Some_2 (port_states (sw s)) (Z.to_nat no)) as [x ->]; [|done].
  rewrite (se_ports _ Hs). lia.
Qed.

Lemma may_learn_ok s no : session_ok s → 0 <= no → wp (may_learn (sw s) no) (λ _, True).
Proof. intros Hs Hno. apply wp_bind. by eapply wp_mono; [apply get_port_state_ok|]. Qed.

Lemma may_recv_ok s no a : session_ok s → 0 <= no → wp (may_recv (sw s) no a) (λ _, True).
Proof. intros Hs Hno. apply wp_bind. by eapply wp_mono; [apply get_port_state_ok|]. Qed.

Lemma may_send_ok s no : session_ok s → 0 <= no → wp (may_send (sw s) no) (λ _, True).
Proof. intros Hs Hno. apply wp_bind. by eapply wp_mono; [apply get_port_state_ok|]. Qed.

Lemma ntohs_nonneg x : 0 <= ntohs x.
Proof. apply htons_range. Qed.

Lemma process_phy_port_safe msg opp :
  (opp + 32 ≤ length msg)%nat → safe (process_phy_port msec msg opp).
Proof.
  intros Hl. unfold process_phy_port. do 3 safe_step; [lia|]. destruct (_ && _) eqn:E; [|by safe_step].
  apply andb_true_iff in E as [_ E]. apply Z.ltb_lt in E.
  do 2 (safe_step; [lia|]). set (st := if _ && _ then _ else _). clearbody st.
  destruct (lookup_lt_is_Some_2 (port_states (sw s0)) (Z.to_nat (ntohs a))) as [old Eold].
  { rewrite (se_ports _ Hs0). pose proof (ntohs_nonneg a). lia. }
  eapply yields_bind; [apply yields_lift; rewrite Eold; by apply (wp_ok _ (λ _, True))|]. intros x _.
  destruct (negb _); [|by safe_step]. apply yields_upd; [done|]. intros y.
  destruct (schedule_query_same 1000 (y <| port_states := <[Z.to_nat (ntohs a) := st]> (port_states y) |>)) as [-> ->].
  simpl. by rewrite length_insert.
Qed.

Lemma process_ports_safe msg n opp :
  (opp + 48 * n ≤ length msg)%nat → safe (process_ports msec msg n opp).
Proof.
  revert opp. induction n as [|n IH]; intros opp Hl; cbn [process_ports]; [by safe_step; safe_step|].
  eapply yields_bind; [apply process_phy_port_safe; lia|]. intros _ _. apply IH. lia.
Qed.

(** What the connection delivers: whole messages. *)
Record delivered (msg : list Z) : Prop := {
  dl_bytes : Forall is_byte msg;
  dl_header : (8 ≤ length msg)%nat;
  dl_length : ntohs (int_at msg 2 2) = Z.of_nat (length msg);
}.

Lemma yields_length {B} msg (f : Z → M session B) P :
  delivered msg → (∀ len, ntohs len = Z.of_nat (length msg) → yields (f len) P) →
  yields (lift (load msg 2 2) ≫= f) P.
Proof.
  intros Hd Hf. eapply (yields_bind _ _ (λ len, ntohs len = Z.of_nat (length msg))); [|done].
  apply yields_lift, wp_load; [pose proof (dl_header _ Hd); lia|apply Hd].
Qed.

Lemma process_switch_features_safe msg :
  delivered msg → (32 ≤ length msg)%nat → safe (process_switch_features msec msg).
Proof.
  intros Hd Hl. pose proof (ntohs_nonneg (int_at msg 2 2)) as Hn.
  pose proof (htons_range (int_at msg 2 2)) as Hr. change (htons (int_at msg 2 2)) with (ntohs (int_at msg 2 2)) in Hr.
  rewrite (dl_length _ Hd) in Hn, Hr. unfold process_switch_features, safe.
  apply yields_length; [done|]. intros len Elen. rewrite Elen.
  unfold u64. rewrite Z.mod_small by lia. do 2 (safe_step; [lia|]).
  safe_step; [done|]. eapply yields_bind; [apply process_ports_safe|].
  - assert (48 * ((Z.of_nat (length msg) - 32) / 48) <= Z.of_nat (length msg) - 32)
      by (apply Z.mul_div_le; lia).
    assert (0 <= (Z.of_nat (length msg) - 32) / 48) by (apply Z.div_pos; lia). lia.
  - intros _ _. safe_step. safe_step; [|by safe_step]. apply yields_upd; [done|]. apply schedule_query_same.
Qed.

Lemma process_echo_request_safe msg : delivered msg → safe (process_echo_request now msg).
Proof.
  intros Hd. unfold process_echo_request, make_echo_reply.
  eapply (yields_bind _ _ has_header); [|intros b Hb; by apply yields_queue_tx].
  apply yields_lift, wp_bind, wp_load; [pose proof (dl_header _ Hd); lia|].
  rewrite (dl_length _ Hd), Nat2Z.id. apply wp_bind, wp_load_bytes; [lia|].
  unfold bytes_at. rewrite drop_0, take_ge by lia. pose proof (dl_header _ Hd).
  apply wp_memcpy; [simpl; lia|]. unfold has_header. rewrite length_put_at; simpl; lia.
Qed.

(** ** Packets *)

(** Enough random numbers to come for a tag. *)
Definition tags_ahead (s : session) : Prop := ∀ t, ml (sw s) = Some t → Exists makes_tag (ml_random t).

(** What the switch knows after a frame from [src] came in by [in_port]. *)
Definition knows_more (src : list Z) (in_port : Z) (learn : bool) (t t' : mac_learning) : Prop :=
  ml_ok t' ∧ stations t' =
    if learn && negb (eth_addr_is_multicast src) then learned now src 0 in_port (stations t) else stations t.

Lemma learn_source_spec f in_port s :
  session_ok s → tags_ahead s → 0 <= in_port < 65536 →
  wp (learn_source now f in_port s) (λ '(_, s'), session_ok s' ∧ conn s' = conn s ∧
    sw s' = (sw s) <| ml := ml (sw s') |> ∧ ∃ learn, may_learn (sw s) in_port = Ok learn ∧
    match ml (sw s) with
    | Some t => ∃ t', ml (sw s') = Some t' ∧ knows_more (dl_src f) in_port learn t t'
    | None => ml (sw s') = None
    end).
Proof.
  intros Hs Ht Hp. unfold learn_source. run_step. run_step.
  destruct (wp_inv _ _ (may_learn_ok s in_port Hs ltac:(lia))) as (learn & El & _).
  run_step. rewrite El. run_step. cbn [wp fst snd]. destruct s as [x rc]. cbn [sw conn] in *.
  destruct (ml x) as [t|] eqn:Em; cbn [fst snd].
  - pose proof (se_table _ Hs t Em) as Hok. destruct learn.
    + destruct (learn_total now (dl_src f) 0 in_port t Hok Hp (Ht t Em)) as (r & t' & Er & Hok' & Est).
      run_step. run_step. rewrite Er. cbn [wp fst snd]. unfold upd_sw. run_step.
      split_and!; [|done|by destruct x|].
      * destruct Hs as [H1 H2 H3]. split; simpl in *; [done..|]. by intros ? [= <-].
      * exists true. split; [done|]. exists t'. split; [done|]. split; [done|]. rewrite Est.
        by destruct (eth_addr_is_multicast _).
    + run_step. split_and!; [done|done|by destruct x|]. exists false. split; [done|].
      exists t. by split_and!.
  - run_step. split_and!; [done|done|by destruct x|]. exists learn. by destruct x.
Qed.

Lemma flow_addresses f : flow_range f → length (dl_src f) = 6%nat ∧ length (dl_dst f) = 6%nat.
Proof. intros Hf. split; apply Hf. Qed.

Lemma drop_packets_safe f id : flow_range f → safe (drop_packets now f id).
Proof.
  intros [H1 H2]%flow_addresses. unfold drop_packets. do 2 safe_step. safe_step; [|by safe_step].
  apply yields_queue_tx. unfold has_header. rewrite length_make_add_flow by done. lia.
Qed.

Lemma choose_port_ok dst : yields (choose_port dst) (λ p, 0 <= p < 65536).
Proof.
  unfold choose_port. safe_step. destruct (ml (sw s0)) as [t|] eqn:Em; [|by apply yields_ret].
  assert (wp (mac_learning_lookup t dst 0) (λ p, 0 <= p < 65536)) as Hl.
  { pose proof (se_table _ Hs0 t Em) as Hok. eapply wp_mono; [by apply lookup_refines|]. intros p ->.
    destruct (eth_addr_is_multicast dst); [done|]. unfold MacLearningFacts.port_of.
    destruct (find _ _) as [st|] eqn:Ef; [|done]. simpl.
    apply find_some in Ef as [Hin _]. by eapply stations_port. }
  eapply yields_bind; [by apply yields_lift|]. intros p Hp. cbn beta in Hp.
  eapply yields_bind; [apply yields_lift, may_send_ok; [done|lia]|]. intros ok _.
  apply yields_ret. by destruct ok.
Qed.

Lemma send_packet_safe f pkt id in_port out_port : flow_range f → safe (send_packet now f pkt id in_port out_port).
Proof.
  intros [H1 H2]%flow_addresses. unfold send_packet. do 2 safe_step. safe_step.
  - eapply yields_bind; [apply yields_queue_tx|].
    { unfold has_header. rewrite length_make_add_simple_flow by done. lia. }
    intros _ _. safe_step; [|by safe_step]. apply yields_queue_tx, packet_out_header.
  - apply yields_queue_tx. destruct (_ =? _); [apply packet_out_header|apply buffered_header].
Qed.

(** The part of [process_packet_in] after learning. *)
Definition answer (f : flow) (pkt : list Z) (buffer_id in_port : Z) : M session unit :=
  s ← get;
  if eth_addr_is_reserved (dl_src f) then drop_packets now f buffer_id
  else
    recv ← lift (may_recv (sw s) in_port false);
    if negb recv then drop_packets now f buffer_id
    else
      out_port ← choose_port (dl_dst f);
      if in_port =? out_port then drop_packets now f buffer_id
      else send_packet now f pkt buffer_id in_port out_port.

Lemma answer_safe f pkt id in_port : flow_range f → 0 <= in_port → safe (answer f pkt id in_port).
Proof.
  intros Hf Hp. unfold answer. do 2 safe_step. safe_step; [by apply drop_packets_safe|].
  eapply yields_bind; [apply yields_lift, may_recv_ok; done|]. intros recv _.
  safe_step; [by apply drop_packets_safe|].
  eapply yields_bind; [apply choose_port_ok|]. intros out _.
  safe_step; [by apply drop_packets_safe|by apply send_packet_safe].
Qed.

(** The packet inside a packet-in message. *)
Definition packet_of (opi : list Z) : ofpbuf := mk_ofpbuf opi 18 (length opi - 18) None None None None.
Definition port_field (opi : list Z) : Z := ntohs (int_at opi 14 2).
Definition buffer_field (opi : list Z) : Z := ntohl (int_at opi 8 4).

Lemma process_packet_in_eq opi s :
  session_ok s → tags_ahead s → delivered opi → (18 ≤ length opi)%nat →
  ∃ r f pkt s1, flow_extract (packet_of opi) (port_field opi) = Ok (r, f, pkt) ∧ flow_range f ∧
    contents pkt = drop 18 opi ∧ learn_source now f (port_field opi) s = Ok (tt, s1) ∧
    process_packet_in now opi s = answer f (drop 18 opi) (buffer_field opi) (port_field opi) s1.
Proof.
  intros Hs Ht Hd Hl. pose proof (htons_range (int_at opi 14 2)) as Hp.
  change (0 <= port_field opi < 65536) in Hp.
  assert (wf (packet_of opi)) as Hwf by (unfold wf, Ofpbuf.allocated; cbn [packet_of base data size]; lia).
  destruct (flow_extract_ok (packet_of opi) (port_field opi) Hwf (dl_bytes _ Hd) Hp)
    as (r & f & pkt & Ef & Hf & Hx & _).
  assert (contents pkt = drop 18 opi) as Ec.
  { unfold contents. rewrite (ex_base _ _ _ _ Hx), (ex_data _ _ _ _ Hx), (ex_size _ _ _ _ Hx).
    unfold packet_of, bytes_at. simpl base. simpl size. simpl data. apply take_ge. rewrite length_drop. lia. }
  destruct (wp_inv _ _ (learn_source_spec f (port_field opi) s Hs Ht Hp)) as ([[] s1] & El & _).
  exists r, f, pkt, s1. split_and!; [done..|]. unfold process_packet_in.
  rewrite (bind_ok _ _ _ _ _ (lift_ok _ _ _ (load_eq opi 14 2 ltac:(lia)))).
  fold (port_field opi).
  rewrite (bind_ok _ _ _ _ _ (lift_ok _ _ _ (load_eq opi 2 2 ltac:(lia)))).
  rewrite (dl_length _ Hd). pose proof (htons_range (int_at opi 2 2)) as Hr.
  change (htons (int_at opi 2 2)) with (ntohs (int_at opi 2 2)) in Hr. rewrite (dl_length _ Hd) in Hr.
  assert (Z.to_nat (u64 (Z.of_nat (length opi) - 18)) = (length opi - 18)%nat) as ->
    by (unfold u64; rewrite Z.mod_small; lia).
  rewrite (bind_ok _ _ _ _ _ (lift_ok _ _ _ Ef)). rewrite (bind_ok _ _ _ _ _ El).
  rewrite (bind_ok _ _ _ _ _ (lift_ok _ _ _ (load_eq opi 8 4 ltac:(lia)))).
  rewrite Ec. reflexivity.
Qed.

Lemma process_packet_in_safe opi s :
  session_ok s → tags_ahead s → delivered opi → (18 ≤ length opi)%nat →
  wp (process_packet_in now opi s) (λ '(_, s'), session_ok s').
Proof.
  intros Hs Ht Hd Hl. pose proof (htons_range (int_at opi 14 2)) as Hp.
  change (0 <= port_field opi < 65536) in Hp.
  destruct (process_packet_in_eq opi s Hs Ht Hd Hl) as (r & f & pkt & s1 & _ & Hf & _ & El & ->).
  pose proof (learn_source_spec f (port_field opi) s Hs Ht Hp) as Hsp. rewrite El in Hsp.
  destruct Hsp as [Hs1 _]. eapply wp_mono; [apply answer_safe; [done|lia|done]|]. by intros [[] s'] [_ ?].
Qed.

(** ** Flow statistics *)

Definition length_at (osr : list Z) (off : Z) : Z := ntohs (int_at osr (Z.to_nat off) 2).

(** The actions between [a] and [e], as the handler follows them, have no action of
    length zero. *)
Inductive walk (osr : list Z) (e : Z) : Z → Prop :=
| walk_end a : e <= a → walk osr e a
| walk_stop a : a < e → e - a < length_at osr (a + 2) ∨ length_at osr (a + 2) mod 8 ≠ 0 → walk osr e a
| walk_step a : a < e → length_at osr (a + 2) ≠ 0 → walk osr e (a + length_at osr (a + 2)) → walk osr e a.

Lemma length_at_range osr off : 0 <= length_at osr off < 65536.
Proof. apply htons_range. Qed.

Lemma wp_load_at osr off n Q :
  0 <= off → off + Z.of_nat n <= Z.of_nat (length osr) → Q (int_at osr (Z.to_nat off) n) →
  wp (load osr (Z.to_nat off) n) Q.
Proof. intros H1 H2. apply wp_load. lia. Qed.

Lemma actions_blocked_ok fuel s osr a e :
  session_ok s → 0 <= a → e <= Z.of_nat (length osr) → (e - a) mod 8 = 0 → walk osr e a →
  e - a <= 8 * Z.of_nat fuel → wp (actions_blocked fuel (sw s) osr a e) (λ _, True).
Proof.
  intros Hs. revert a. induction fuel as [|fuel IH]; intros a Ha He Hm Hw Hf; cbn [actions_blocked].
  - rewrite (proj2 (Z.ltb_ge a e)) by lia. done.
  - destruct (Z.ltb_spec a e) as [Hlt|]; [|done]. assert (8 <= e - a) by zlia.
    apply wp_bind, wp_load_at; [lia..|]. fold (length_at osr (a + 2)).
    pose proof (length_at_range osr (a + 2)) as Hr. set (len := length_at osr (a + 2)) in *.
    destruct (Z.ltb_spec (e - a) len) as [|Hle]; [done|].
    unfold truth. destruct (Z.eqb_spec (len mod 8) 0) as [Em|]; [|done]. cbn [negb].
    assert (walk osr e (a + len) ∧ 8 <= len) as [Hw' H8].
    { destruct Hw as [a ?|a ? Hstop|a ? Hnz Hw]; subst len; [lia|lia|]. split; [done|zlia]. }
    assert ((e - (a + len)) mod 8 = 0) by zlia.
    apply wp_bind, wp_load_at; [lia..|]. destruct (_ =? htons OFPAT_OUTPUT); [|apply IH; try done; lia].
    apply wp_bind, wp_load_at; [lia..|].
    apply wp_bind. eapply wp_mono; [apply may_send_ok; [done|apply ntohs_nonneg]|]. intros ok _.
    destruct ok; [|done]. apply IH; try done; lia.
Qed.

(** An element that the iterator has found. *)
Record element (osr : list Z) (ofs : Z) (i : flow_stats_iterator) : Prop := {
  el_start : 0 <= ofs;
  el_min : sizeof_flow_stats <= length_at osr ofs;
  el_actions : (length_at osr ofs - sizeof_flow_stats) mod 8 = 0;
  el_next : it_pos i = ofs + length_at osr ofs;
  el_end : it_pos i <= it_end i;
  el_inside : it_end i <= Z.of_nat (length osr);
}.

Lemma flow_stats_next_ok osr i :
  0 <= it_pos i <= it_end i → it_end i <= Z.of_nat (length osr) → Z.of_nat (length osr) < 2 ^ 63 →
  wp (flow_stats_next osr i) (λ r, ∀ ofs i', r = Some (ofs, i') → element osr ofs i' ∧
    ofs = it_pos i ∧ it_end i' = it_end i).
Proof.
  intros Hp He Hm. unfold flow_stats_next, u64. rewrite Z.mod_small by lia. unfold sizeof_flow_stats.
  destruct (Z.ltb_spec (it_end i - it_pos i) 88) as [|H88]; [done|].
  apply wp_bind, wp_load_at; [lia..|]. fold (length_at osr (it_pos i)).
  destruct (Z.ltb_spec (length_at osr (it_pos i)) 88) as [|Hl]; [done|].
  destruct (Z.ltb_spec (it_end i - it_pos i) (length_at osr (it_pos i))) as [|Hle]; [done|].
  unfold truth. destruct (Z.eqb_spec ((length_at osr (it_pos i) - 88) mod 8) 0) as [Em|]; [|done].
  intros ofs i' [= <- <-]. split_and!; [|done|done]. split; simpl; try done; lia.
Qed.

Lemma process_flow_stats_safe fuel osr ofs i :
  element osr ofs i → walk osr (ofs + length_at osr ofs) (ofs + sizeof_flow_stats) →
  Z.of_nat (length osr) <= 8 * Z.of_nat fuel → safe (process_flow_stats now fuel osr ofs).
Proof.
  intros [H1 H2 H3 H4 H5 H6] Hw Hf. unfold process_flow_stats, sizeof_flow_stats in *. do 2 safe_step.
  eapply (yields_bind _ _ (λ len, ntohs len = length_at osr ofs)); [by apply yields_lift, wp_load_at; [lia..|]|].
  intros len ->. safe_step; [lia|].
  eapply (yields_bind _ _ (λ _, True)); [|intros no_recv _].
  { safe_step; [|by safe_step]. safe_step; [lia|].
    eapply yields_bind; [apply yields_lift, may_recv_ok; [done|apply ntohs_nonneg]|]. intros recv _. by safe_step. }
  eapply (yields_bind _ _ (λ _, True)); [|intros no_send _].
  { safe_step; [by safe_step|]. apply yields_lift, actions_blocked_ok; try done; try lia.
    by replace (ofs + length_at osr ofs - (ofs + 88)) with (length_at osr ofs - 88) by lia. }
  safe_step; [done|]. safe_step; [|by safe_step].
  eapply (yields_bind _ _ (λ m, length m = 40%nat)).
  { apply yields_lift, wp_load_bytes; [lia|]. apply length_bytes_at. lia. }
  intros m Hm. unfold delete_flow_message.
  eapply (yields_bind _ _ has_header).
  { eapply yields_bind; [apply (yields_make_openflow 72); [lia|done]|]. intros b Hb. cbn beta in Hb.
    apply yields_ret. unfold has_header.
    rewrite (length_put_at_n _ _ _ 72); [lia| |rewrite length_le_bytes; lia].
    apply length_put_at_n; [done|lia]. }
  intros b Hb. eapply yields_bind; [by apply yields_rconn_send|]. intros r _. by safe_step.
Qed.

(** The elements that the iterator finds have no action of length zero. *)
Inductive walks (osr : list Z) : option (Z * flow_stats_iterator) → Prop :=
| walks_none : walks osr None
| walks_some ofs i : walk osr (ofs + length_at osr ofs) (ofs + sizeof_flow_stats) →
    (∀ fs, flow_stats_next osr i = Ok fs → walks osr fs) → walks osr (Some (ofs, i)).

Lemma stats_loop_safe n fuel osr fs :
  Z.of_nat (length osr) <= 8 * Z.of_nat fuel → Z.of_nat (length osr) < 2 ^ 63 → walks osr fs →
  (∀ ofs i, fs = Some (ofs, i) → element osr ofs i ∧ it_end i - ofs <= Z.of_nat n) →
  safe (stats_loop now n fuel osr fs).
Proof.
  intros Hf Hm Hw. revert n. induction Hw as [|ofs i Hw Hn IH]; intros n He.
  { destruct n; cbn [stats_loop]; by safe_step; safe_step. }
  destruct (He ofs i eq_refl) as [Hel Hlen]. pose proof Hel as [H1 H2 H3 H4 H5 H6].
  unfold sizeof_flow_stats in H2. destruct n as [|n]; [lia|]. cbn [stats_loop]. do 2 safe_step; [done|].
  eapply yields_bind; [by eapply process_flow_stats_safe|]. intros _ _.
  destruct (wp_inv _ _ (flow_stats_next_ok osr i ltac:(lia) H6 Hm)) as (fs & Efs & Hfs).
  eapply (yields_bind _ _ (λ r, r = fs)); [by apply yields_lift; rewrite Efs|]. intros r ->.
  apply IH; [done|]. intros ofs' i' E. destruct (Hfs ofs' i' E) as (Hel' & -> & ->). split; [done|lia].
Qed.

Lemma flow_stats_first_ok osr :
  delivered osr → (12 ≤ length osr)%nat →
  wp (flow_stats_first osr) (λ r, ∀ ofs i, r = Some (ofs, i) → element osr ofs i ∧
    ofs = 12 ∧ it_end i = Z.of_nat (length osr)).
Proof.
  intros Hd Hl. unfold flow_stats_first. apply wp_bind, wp_load; [lia|]. rewrite (dl_length _ Hd).
  pose proof (length_at_range osr 2) as Hr. unfold length_at in Hr. change (Z.to_nat 2) with 2%nat in Hr.
  rewrite (dl_length _ Hd) in Hr. eapply wp_mono; [apply flow_stats_next_ok; simpl; lia|].
  intros r Hok ofs i E. destruct (Hok ofs i E) as (? & -> & ->). split_and!; [done|done|simpl; lia].
Qed.

(** A reply that the handler gets through. *)
Definition finite_reply (msg : list Z) : Prop := ∀ fs, flow_stats_first msg = Ok fs → walks msg fs.

Lemma process_stats_reply_safe fuel msg :
  delivered msg → (12 ≤ length msg)%nat → finite_reply msg → Z.of_nat (length msg) <= 8 * Z.of_nat fuel →
  safe (process_stats_reply now msec fuel msg).
Proof.
  intros Hd Hl Hw Hf. unfold process_stats_reply. do 2 safe_step. do 2 (safe_step; [lia|]).
  safe_step; [by safe_step|].
  destruct (wp_inv _ _ (flow_stats_first_ok msg Hd Hl)) as (fs & Efs & Hfs).
  eapply (yields_bind _ _ (λ r, r = fs)); [by apply yields_lift; rewrite Efs|]. intros r ->.
  pose proof (length_at_range msg 2) as Hr. unfold length_at in Hr. change (Z.to_nat 2) with 2%nat in Hr.
  rewrite (dl_length _ Hd) in Hr. eapply yields_bind; [apply stats_loop_safe; try done; [lia|by apply Hw|]|].
  { intros ofs i E. destruct (Hfs ofs i E) as (? & -> & ->). split; [done|lia]. }
  intros _ _. safe_step; [lia|]. safe_step; by safe_step.
Qed.

Lemma process_packet_safe fuel msg s :
  session_ok s → tags_ahead s → delivered msg →
  (int_at msg 1 1 = OFPT_STATS_REPLY → finite_reply msg) → Z.of_nat (length msg) <= 8 * Z.of_nat fuel →
  wp (lswitch_process_packet now msec fuel msg s) (λ '(_, s'), session_ok s').
Proof.
  intros Hs Ht Hd Hw Hf. pose proof (dl_header _ Hd) as H8.
  assert (∀ m : M session unit, safe m → wp (m s) (λ '(_, s'), session_ok s')) as Hsafe.
  { intros m Hm. eapply wp_mono; [by apply Hm|]. by intros [[] s'] [_ ?]. }
  unfold lswitch_process_packet.
  rewrite (bind_ok _ _ _ _ _ (lift_ok _ _ _ (load_eq msg 1 1 ltac:(lia)))).
  rewrite (bind_ok get _ s s s eq_refl). destruct (_ && _); [apply Hsafe, send_features_request_safe|].
  unfold processors. cbn [find fst].
  destruct (Z.eqb_spec OFPT_ECHO_REQUEST (int_at msg 1 1)).
  { destruct (_ <? _); [done|]. by apply Hsafe, process_echo_request_safe. }
  destruct (Z.eqb_spec OFPT_FEATURES_REPLY (int_at msg 1 1)).
  { destruct (Z.ltb_spec (Z.of_nat (length msg)) 32); [done|]. apply Hsafe, process_switch_features_safe; [done|lia]. }
  destruct (Z.eqb_spec OFPT_PACKET_IN (int_at msg 1 1)).
  { destruct (Z.ltb_spec (Z.of_nat (length msg)) 18); [done|]. apply process_packet_in_safe; try done; lia. }
  destruct (Z.eqb_spec OFPT_PORT_STATUS (int_at msg 1 1)).
  { destruct (Z.ltb_spec (Z.of_nat (length msg)) 64); [done|]. apply Hsafe, process_phy_port_safe; lia. }
  destruct (Z.eqb_spec OFPT_STATS_REPLY (int_at msg 1 1)).
  { destruct (Z.ltb_spec (Z.of_nat (length msg)) 12); [done|].
    apply Hsafe, process_stats_reply_safe; try done; [lia|]. by apply Hw. }
  destruct (Z.eqb_spec OFPT_FLOW_REMOVED (int_at msg 1 1)); [|done]. by destruct (_ <? _).
Qed.

(** ** Running *)

Lemma make_xid_ok n type xid : (8 ≤ n)%nat → Z.of_nat n <= UINT16_MAX →
  ∃ b, make_openflow_xid n type xid = Ok b ∧ length b = n ∧
    take 8 b = ofp_header_bytes type n xid.
Proof.
  intros H8 Hmax. unfold make_openflow_xid. rewrite (proj2 (Nat.leb_le _ _)), (proj2 (Z.leb_le _ _)) by done.
  eexists. split; [reflexivity|]. rewrite length_app, length_header, length_replicate. split; [lia|].
  by apply take_app_length'.
Qed.

(** The query for all flows. *)
Definition flow_query (xid : Z) (b : list Z) : Prop :=
  length b = 56%nat ∧ take 8 b = ofp_header_bytes OFPT_STATS_REQUEST 56 xid.

Lemma take_put_at mem off src n : (n ≤ off)%nat → (off ≤ length mem)%nat → take n (put_at mem off src) = take n mem.
Proof.
  intros H1 H2. unfold put_at. rewrite take_app_le by (rewrite length_take; lia).
  by rewrite take_take, Nat.min_l.
Qed.

Lemma flow_query_put xid b off src :
  flow_query xid b → (8 ≤ off)%nat → (off + length src ≤ 56)%nat → flow_query xid (put_at b off src).
Proof.
  intros [Hl Ht] H1 H2. split; [by apply length_put_at_n|]. by rewrite take_put_at by lia.
Qed.

(** What remains of a query when its message is handed over. *)
Lemma send_query_eq s : ∃ q xid s1, flow_query xid q ∧ last_query (sw s1) = msec ∧ query_xid (sw s1) = xid ∧
  port_states (sw s1) = port_states (sw s) ∧ ml (sw s1) = ml (sw s) ∧ next_query (sw s1) = next_query (sw s) ∧
  conn s1 = (Rconn.alloc_xid (conn s)).2 ∧
  send_query now msec s = (error ← rconn_send now q;
    if truth error then upd_sw (schedule_query msec 1000) else mret tt : M session unit) s1.
Proof.
  unfold send_query. destruct (Rconn.alloc_xid (conn s)) as [xid rc] eqn:Ex.
  rewrite (bind_ok random_uint32 _ s xid (s <| conn := rc |>)) by (unfold random_uint32; by rewrite Ex).
  destruct (make_xid_ok 56 OFPT_STATS_REQUEST xid) as (b & Eb & Hl & Ht); [lia|done|].
  rewrite (bind_ok (upd_sw _) _ _ _ _ eq_refl), (bind_ok _ _ _ _ _ (lift_ok _ _ _ Eb)).
  eexists _, xid, _. split; [|split_and!; [..|reflexivity]; reflexivity].
  repeat (apply flow_query_put; [|lia|rewrite ?length_app, ?length_le_bytes; simpl; lia]). by split.
Qed.

Lemma alloc_xid_ok rc : rconn_ok rc → rconn_ok (Rconn.alloc_xid rc).2.
Proof.
  intros Hrc. unfold Rconn.alloc_xid. destruct (Rconn.rc_xids rc); [done|]. by eapply rconn_ok_core; [| |exact Hrc].
Qed.

Lemma query_header xid q : flow_query xid q → has_header q.
Proof. intros [Hl _]. unfold has_header. lia. Qed.

Lemma send_query_safe : safe (send_query now msec).
Proof.
  intros s [H1 H2 H3]. destruct (send_query_eq s) as (q & xid & s1 & Hq & _ & _ & E1 & E2 & _ & E4 & ->).
  assert (session_ok s1) as Hs1.
  { split; [rewrite E4; by apply alloc_xid_ok|by rewrite E1|by rewrite E2]. }
  cut (safe (error ← rconn_send now q;
    if truth error then upd_sw (schedule_query msec 1000) else mret tt : M session unit)); [intros Hs; by apply Hs|].
  eapply yields_bind; [by eapply yields_rconn_send, query_header|]. intros r _. safe_step; [|by safe_step].
  safe_step. apply schedule_query_same.
Qed.

Lemma wait_for_replies_safe : safe (wait_for_replies msec).
Proof.
  unfold wait_for_replies. do 2 safe_step. eapply (yields_bind _ _ (λ _, True)).
  - repeat safe_step. intros x. by destruct (schedule_query_same 0 (x <| last_reply := LLONG_MIN |> <| last_query := LLONG_MIN |>)) as [-> ->].
  - intros waiting _. safe_step; [by safe_step|]. repeat safe_step.
    intros x. by destruct (schedule_query_same 0 (x <| last_query := LLONG_MIN |>)) as [-> ->].
Qed.

Lemma run_table_safe t s : session_ok s → ml (sw s) = Some t →
  wp (('(table, _) ← lift (mac_learning_run now t None); upd_sw (λ sw, sw <| ml := Some table |>)) s)
    (λ '(_, s'), session_ok s').
Proof.
  intros [H1 H2 H3] Et. destruct (wp_inv _ _ (run_refines now t None (H3 t Et))) as ([t' r] & E & Ht & _).
  rewrite (bind_ok _ _ _ _ _ (lift_ok _ s _ E)). split; simpl; [done|done|]. by intros ? [= <-].
Qed.

Lemma run_queries_safe :
  safe (waiting ← wait_for_replies msec;
        if waiting : bool then mret tt
        else
          s ← get;
          if negb (next_query (sw s) =? LLONG_MIN) && (next_query (sw s) <=? msec) then
            upd_sw (λ sw, sw <| next_query := LLONG_MIN |>);;
            if negb (Rconn.rconn_is_connected (conn s)) then upd_sw (schedule_query msec 1000)
            else send_query now msec
          else mret tt).
Proof.
  eapply yields_bind; [apply wait_for_replies_safe|]. intros w _. safe_step; [by safe_step|].
  do 2 safe_step; [|by safe_step]. safe_step; [done|]. safe_step; [|apply send_query_safe].
  safe_step. apply schedule_query_same.
Qed.

Lemma lswitch_run_safe : safe (lswitch_run now msec).
Proof.
  intros s Hs. unfold lswitch_run. rewrite (bind_ok get _ s s s eq_refl). apply wp_M_bind.
  apply (wp_mono _ (λ '(_, s'), session_ok s')).
  - destruct (ml (sw s)) as [t|] eqn:Et; [by apply run_table_safe|done].
  - intros [[] s'] Hs'. by apply run_queries_safe.
Qed.

(** What the controller's main loop does with a switch. *)
Inductive lcall := LRun | LMessage (msg : list Z).

Definition run_lcall (fuel : nat) (c : lcall) : M session unit :=
  match c with
  | LRun => lswitch_run now msec
  | LMessage msg => lswitch_process_packet now msec fuel msg
  end.

Definition lcall_ok (fuel : nat) (c : lcall) (s : session) : Prop :=
  match c with
  | LRun => True
  | LMessage msg => tags_ahead s ∧ delivered msg ∧
      (int_at msg 1 1 = OFPT_STATS_REPLY → finite_reply msg) ∧ Z.of_nat (length msg) <= 8 * Z.of_nat fuel
  end.

(** C15: the learning switch does its periodic work, and handles every message that the
    connection delivers, whatever its type, length and contents: it terminates, reads
    nothing outside the message, and its table of stations, its port states and its
    connection stay consistent.  The exception are flow statistics in which an action
    has length zero. *)
Theorem lswitch_calls_safe fuel c s :
  session_ok s → lcall_ok fuel c s → wp (run_lcall fuel c s) (λ '(_, s'), session_ok s').
Proof.
  intros Hs Hc. destruct c as [|msg].
  - eapply wp_mono; [by apply lswitch_run_safe|]. by intros [[] s'] [_ ?].
  - destruct Hc as (? & ? & ? & ?). by apply process_packet_safe.
Qed.

(** A query is due. *)
Definition due (x : lswitch) : Prop := next_query x ≠ LLONG_MIN ∧ next_query x <= msec.

Lemma schedule_due x : 0 <= msec → due (schedule_query msec 0 x).
Proof.
  intros Hm. unfold due, schedule_query. destruct (_ || _) eqn:E; simpl; [unfold LLONG_MIN; lia|].
  apply orb_false_iff in E as [E1 E2]. apply Z.eqb_neq in E1. apply Z.ltb_ge in E2. lia.
Qed.

(** The switch stops waiting for replies after ten seconds. *)
Lemma stops_waiting s :
  0 <= msec → last_query (sw s) ≠ LLONG_MIN → 10000 < msec - last_query (sw s) →
  last_reply (sw s) = LLONG_MIN ∨ 10000 < msec - last_reply (sw s) →
  ∃ s', wait_for_replies msec s = Ok (false, s') ∧ conn s' = conn s ∧ due (sw s').
Proof.
  intros Hm Hq Ho Hr. unfold wait_for_replies. rewrite (bind_ok get _ s s s eq_refl).
  destruct (Z.eqb_spec (last_reply (sw s)) LLONG_MIN) as [E|E]; cbn [negb].
  - rewrite (bind_ok _ _ _ _ _ eq_refl), (bind_ok get _ s s s eq_refl).
    rewrite (proj2 (Z.eqb_neq (last_query (sw s)) LLONG_MIN)), (proj2 (Z.ltb_lt 10000 _)) by done. cbn [negb].
    eexists. split; [reflexivity|]. split; [done|]. by apply schedule_due.
  - destruct Hr as [Hr|Hr]; [done|]. rewrite (proj2 (Z.ltb_lt 10000 _)) by done.
    set (x := schedule_query msec 0 ((sw s) <| last_reply := LLONG_MIN |> <| last_query := LLONG_MIN |>)).
    rewrite (bind_ok _ _ s false (s <| sw := x |>) eq_refl), (bind_ok get _ _ _ _ eq_refl).
    assert (last_query x = LLONG_MIN) as Ex by (unfold x, schedule_query; by destruct (_ || _)).
    cbn [sw]. change (sw (s <| sw := x |>)) with x. rewrite Ex. cbn [negb].
    eexists. split; [reflexivity|]. split; [done|]. by apply schedule_due.
Qed.

Lemma expire_step s : session_ok s →
  ∃ s1, (match ml (sw s) with
         | Some table =>
             '(table, _) ← lift (mac_learning_run now table None); upd_sw (λ sw, sw <| ml := Some table |>)
         | None => mret tt
         end : M session unit) s = Ok (tt, s1) ∧
    session_ok s1 ∧ conn s1 = conn s ∧ last_query (sw s1) = last_query (sw s) ∧ last_reply (sw s1) = last_reply (sw s).
Proof.
  intros Hs. destruct (ml (sw s)) as [t|] eqn:Et; [|by exists s].
  destruct (wp_inv _ _ (run_table_safe t s Hs Et)) as ([[] s1] & E & Hs1). exists s1. rewrite E.
  split_and!; try done; destruct (wp_inv _ _ (run_refines now t None (se_table _ Hs t Et))) as ([t' r] & E' & _);
    rewrite (bind_ok _ _ _ _ _ (lift_ok _ s _ E')) in E; injection E as <-; reflexivity.
Qed.

Lemma xid_stream rc : RconnFacts.stream (Rconn.alloc_xid rc).2 = RconnFacts.stream rc ∧
  Rconn.rconn_is_connected (Rconn.alloc_xid rc).2 = Rconn.rconn_is_connected rc.
Proof. unfold Rconn.alloc_xid. by destruct (Rconn.rc_xids rc). Qed.

(** A query that is sent. *)
Lemma send_query_sends s :
  session_ok s → Rconn.rconn_is_connected (conn s) = true →
  wp (send_query now msec s) (λ '(_, s'), last_query (sw s') = msec ∧
    (is_Some (Rconn.rc_vconn (conn s')) → ∃ q, flow_query (query_xid (sw s')) q ∧
       RconnFacts.stream (conn s') = RconnFacts.stream (conn s) ++ [q])).
Proof.
  intros Hs Hc. destruct (send_query_eq s) as (q & xid & s1 & Hq & El & Ex & _ & _ & _ & Ec & ->).
  destruct (xid_stream (conn s)) as [Est Ecn]. rewrite <-Ec in Est, Ecn. rewrite Hc in Ecn.
  pose proof (alloc_xid_ok _ (se_conn _ Hs)) as Hok. rewrite <-Ec in Hok.
  destruct (wp_inv _ _ (rconn_send_ok now q false _ Hok (query_header _ _ Hq))) as ([r rc] & E & _).
  assert (rconn_send now q s1 = Ok (r, s1 <| conn := rc |>)) as E' by (unfold rconn_send; by rewrite E).
  rewrite (bind_ok _ _ _ _ _ E').
  assert (is_Some (Rconn.rc_vconn rc) → ∃ q, flow_query xid q ∧ RconnFacts.stream rc = RconnFacts.stream (conn s) ++ [q]).
  { intros Hv. exists q. split; [done|]. rewrite <-Est. by eapply (rconn_send_stream now q false). }
  destruct (truth r); simpl; [|by rewrite Ex].
  unfold schedule_query. destruct (_ || _); simpl; by rewrite Ex.
Qed.

(** The switch does not wait for ever for the flow statistics that it asked for:
    when neither a reply nor the rest of a reply has come for ten seconds, and the
    datapath is connected, it sends a new query, with a new transaction id, and waits
    for that one. *)
Theorem query_retried s :
  session_ok s → 0 <= msec → last_query (sw s) ≠ LLONG_MIN → 10000 < msec - last_query (sw s) →
  last_reply (sw s) = LLONG_MIN ∨ 10000 < msec - last_reply (sw s) →
  Rconn.rconn_is_connected (conn s) = true →
  wp (lswitch_run now msec s) (λ '(_, s'), last_query (sw s') = msec ∧
    (is_Some (Rconn.rc_vconn (conn s')) → ∃ q, flow_query (query_xid (sw s')) q ∧
       RconnFacts.stream (conn s') = RconnFacts.stream (conn s) ++ [q])).
Proof.
  intros Hs Hm Hq Ho Hr Hc. unfold lswitch_run. rewrite (bind_ok get _ s s s eq_refl).
  destruct (expire_step s Hs) as (s1 & E1 & Hs1 & Ec1 & Eq1 & Er1). rewrite (bind_ok _ _ _ _ _ E1).
  destruct (stops_waiting s1) as (s2 & E2 & Ec2 & Hn2 & Hd2); try (rewrite ?Eq1, ?Er1; done).
  assert (session_ok s2) as Hs2.
  { pose proof (wait_for_replies_safe s1 Hs1) as H. rewrite E2 in H. apply H. }
  rewrite (bind_ok _ _ _ _ _ E2), (bind_ok get _ _ _ _ eq_refl).
  rewrite (proj2 (Z.eqb_neq (next_query (sw s2)) LLONG_MIN)), (proj2 (Z.leb_le _ msec)) by done. cbn [negb andb].
  rewrite (bind_ok (upd_sw _) _ _ _ _ eq_refl), Ec2, Ec1, Hc. cbn [negb].
  set (s3 := s2 <| sw := _ |>). assert (conn s3 = conn s) as Ec3 by (by rewrite <-Ec1).
  rewrite <-Ec3. apply send_query_sends; [|by rewrite Ec3]. destruct Hs2. by split.
Qed.

(** An action of length zero that is not an output. *)
Lemma empty_action_loops fuel x osr a e :
  0 <= a → a < e → a + 8 <= Z.of_nat (length osr) → length_at osr (a + 2) = 0 →
  int_at osr (Z.to_nat a) 2 ≠ htons OFPAT_OUTPUT → actions_blocked fuel x osr a e = NoFuel.
Proof.
  intros Ha He Hl H0 Ht. induction fuel as [|fuel IH]; cbn [actions_blocked];
    rewrite (proj2 (Z.ltb_lt a e)) by done; [done|].
  rewrite (load_eq osr (Z.to_nat (a + 2)) 2) by lia. cbn [mbind comp_bind]. fold (length_at osr (a + 2)). rewrite H0.
  rewrite (proj2 (Z.ltb_ge (e - a) 0)) by lia. change (truth (0 mod 8)) with false. cbn iota.
  rewrite (load_eq osr (Z.to_nat a) 2) by lia. cbn [mbind comp_bind]. rewrite (proj2 (Z.eqb_neq _ _)) by done.
  by rewrite Z.add_0_r.
Qed.

Lemma bind_nofuel {S A B} (m : M S A) (f : A → M S B) s : m s = NoFuel → (m ≫= f) s = NoFuel.
Proof. unfold mbind, M_bind. by intros ->. Qed.

(** A reply with the statistics of a flow whose first action has length zero
    hangs the controller: the handler never gets past the action, whatever the number
    of steps it may make. *)
Theorem empty_action_hangs fuel msg s :
  delivered msg → (108 ≤ length msg)%nat → int_at msg 1 1 = OFPT_STATS_REPLY →
  datapath_id (sw s) ≠ 0 → last_query (sw s) ≠ LLONG_MIN →
  int_at msg 8 2 = htons OFPST_FLOW → int_at msg 4 4 = query_xid (sw s) →
  length_at msg 12 = 96 → truth (int_at msg 16 4 .& htonl OFPFW_IN_PORT) = true →
  int_at msg 100 2 ≠ htons OFPAT_OUTPUT → length_at msg 102 = 0 →
  lswitch_process_packet now msec fuel msg s = NoFuel.
Proof.
  intros Hd Hl Ety Hid Hq Est Exid El Ew Ea E0. unfold lswitch_process_packet.
  rewrite (bind_ok _ _ _ _ _ (lift_ok _ _ _ (load_eq msg 1 1 ltac:(lia)))).
  rewrite (bind_ok get _ s s s eq_refl), Ety, (proj2 (Z.eqb_neq (datapath_id (sw s)) 0)) by done.
  cbn [andb]. change (find _ (processors now msec fuel))
    with (Some (OFPT_STATS_REPLY, 12, Some (process_stats_reply now msec fuel))).
  cbn iota beta. rewrite (proj2 (Z.ltb_ge _ _)) by lia. unfold process_stats_reply.
  rewrite (bind_ok get _ s s s eq_refl).
  rewrite (bind_ok _ _ _ _ _ (lift_ok _ _ _ (load_eq msg 8 2 ltac:(lia)))).
  rewrite (bind_ok _ _ _ _ _ (lift_ok _ _ _ (load_eq msg 4 4 ltac:(lia)))).
  rewrite Est, Exid, !Z.eqb_refl, (proj2 (Z.eqb_neq (last_query (sw s)) LLONG_MIN)) by done. cbn [negb orb].
  assert (flow_stats_first msg = Ok (Some (12, mk_iterator 108 (Z.of_nat (length msg))))) as ->.
  { unfold flow_stats_first. rewrite load_eq by lia. cbn [mbind comp_bind]. rewrite (dl_length _ Hd).
    unfold flow_stats_next, u64, sizeof_flow_stats. simpl it_end. simpl it_pos.
    pose proof (length_at_range msg 2) as Hr. unfold length_at in Hr. change (Z.to_nat 2) with 2%nat in Hr.
    rewrite (dl_length _ Hd) in Hr. rewrite Z.mod_small by lia. rewrite (proj2 (Z.ltb_ge _ 88)) by lia.
    rewrite load_eq by lia. cbn [mbind comp_bind]. change (ntohs (int_at msg (Z.to_nat 12) 2)) with (length_at msg 12).
    rewrite El. rewrite !(proj2 (Z.ltb_ge _ _)) by lia. cbn [truth]. simpl. do 3 f_equal. f_equal. lia. }
  rewrite (bind_ok _ _ _ _ _ (lift_ok _ _ _ eq_refl)). apply bind_nofuel.
  destruct (length msg) as [|n] eqn:En; [lia|]. cbn [stats_loop]. unfold upd_sw.
  rewrite (bind_ok (modify _) _ _ _ _ eq_refl). apply bind_nofuel. unfold process_flow_stats.
  rewrite (bind_ok get _ _ _ _ eq_refl).
  rewrite (bind_ok _ _ _ _ _ (lift_ok _ _ _ (load_eq msg (Z.to_nat 12) 2 ltac:(lia)))).
  change (ntohs (int_at msg (Z.to_nat 12) 2)) with (length_at msg 12). rewrite El.
  rewrite (bind_ok _ _ _ _ _ (lift_ok _ _ _ (load_eq msg (Z.to_nat (12 + 4)) 4 ltac:(lia)))).
  change (Z.to_nat (12 + 4)) with 16%nat. rewrite Ew. cbn [negb].
  rewrite (bind_ok (mret false) _ _ _ _ eq_refl). apply bind_nofuel. unfold sizeof_flow_stats, lift.
  rewrite empty_action_loops; [done|lia..|exact E0|exact Ea].
Qed.

End switch.

(** ** Unicast *)

(** A datapath without spanning tree: every port forwards. *)
Definition plain (x : lswitch) : Prop := truth (capabilities x .& OFPC_STP) = false.

Lemma plain_state x no : plain x → get_port_state x no = Ok P_FORWARDING.
Proof. intros H. unfold get_port_state. by rewrite H, orb_true_r. Qed.

(** Messages handed to the connection one after the other. *)
Fixpoint sends (now : Z) (msgs : list (list Z)) (rc : Rconn.rconn) : comp Rconn.rconn :=
  match msgs with
  | [] => Ok rc
  | b :: msgs => '(_, rc) ← Rconn.rconn_send_with_limit now b 10 rc; sends now msgs rc
  end.

(** [m] leaves the switch alone. *)
Definition frames {A} (m : M session A) : Prop := ∀ s a s', m s = Ok (a, s') → sw s' = sw s.

Lemma frames_bind {A B} (m : M session A) (f : A → M session B) :
  frames m → (∀ a, frames (f a)) → frames (m ≫= f).
Proof.
  intros Hm Hf s b s'. unfold mbind, M_bind. destruct (m s) as [[a s1]| |] eqn:E; [|done..].
  intros Eb. by rewrite (Hf a s1 b s' Eb), (Hm s a s1 E).
Qed.

Lemma frames_ret {A} (a : A) : frames (mret a).
Proof. by intros s b s' [= _ <-]. Qed.

Lemma frames_get : frames get.
Proof. by intros s b s' [= _ <-]. Qed.

Lemma frames_lift {A} (c : comp A) : frames (lift c).
Proof. intros s b s'. unfold lift. destruct c; [|done..]. by intros [= _ <-]. Qed.

Lemma frames_queue_tx now b : frames (queue_tx now b).
Proof.
  intros s a s'. unfold queue_tx. destruct (Rconn.rconn_send_with_limit _ _ _ _) as [[r rc]| |]; [|done..].
  by intros [= _ <-].
Qed.

Lemma answer_frames now f pkt id in_port : frames (answer now f pkt id in_port).
Proof.
  assert (∀ f id, frames (drop_packets now f id)) as Hdrop.
  { intros f0 id0. unfold drop_packets. apply frames_bind; [apply frames_get|]. intros s.
    destruct (_ <=? _); [apply frames_queue_tx|apply frames_ret]. }
  unfold answer, choose_port, send_packet. apply frames_bind; [apply frames_get|]. intros s.
  destruct (eth_addr_is_reserved _); [done|]. apply frames_bind; [apply frames_lift|]. intros recv.
  destruct (negb recv); [done|]. apply frames_bind.
  { apply frames_bind; [apply frames_get|]. intros s1. destruct (ml (sw s1)); [|apply frames_ret].
    do 2 (apply frames_bind; [apply frames_lift|]; intros ?). apply frames_ret. }
  intros out. destruct (_ =? _); [done|]. apply frames_bind; [apply frames_get|]. intros s1.
  destruct (_ && _); [|apply frames_queue_tx]. apply frames_bind; [apply frames_queue_tx|]. intros [].
  destruct (_ =? _); [apply frames_queue_tx|apply frames_ret].
Qed.

(** The messages that forward a packet to a port that is known. *)
Definition unicast (x : lswitch) (f : flow) (pkt : list Z) (buffer_id in_port out_port : Z) : list (list Z) :=
  make_add_simple_flow f buffer_id out_port (u16 (max_idle x)) ::
  (if buffer_id =? UINT32_MAX then [make_unbuffered_packet_out pkt in_port out_port] else []).

(** Sending to the port where the destination was last seen. *)
Lemma answer_unicast now f pkt id in_port port s t :
  session_ok s → flow_range f → 0 <= in_port → plain (sw s) → ml (sw s) = Some t → 0 <= max_idle (sw s) →
  eth_addr_is_reserved (dl_src f) = false → eth_addr_is_multicast (dl_dst f) = false →
  MacLearningFacts.port_of (dl_dst f) 0 (stations t) = Some port → in_port ≠ port → port ≠ OFPP_FLOOD →
  wp (answer now f pkt id in_port s) (λ '(_, s'),
    sends now (unicast (sw s) f pkt id in_port port) (conn s) = Ok (conn s')).
Proof.
  intros Hs Hf Hp Hpl Em Hidle Hres Hmc Hport Hne Hfl.
  destruct (wp_inv _ _ (answer_safe now f pkt id in_port Hf Hp s Hs)) as ([[] s'] & E & _).
  rewrite E. cbn [wp]. revert E. unfold answer. rewrite (bind_ok get _ s s s eq_refl), Hres.
  assert (may_recv (sw s) in_port false = Ok true) as Er by (unfold may_recv; by rewrite plain_state).
  rewrite (bind_ok _ _ _ _ _ (lift_ok _ _ _ Er)). cbn [negb].
  assert (choose_port (dl_dst f) s = Ok (port, s)) as Ec.
  { unfold choose_port. rewrite (bind_ok get _ s s s eq_refl), Em.
    destruct (wp_inv _ _ (lookup_refines t (dl_dst f) 0 (se_table _ Hs t Em))) as (p & Ep & Hpv).
    rewrite Hmc, Hport in Hpv. simpl in Hpv. subst p. rewrite (bind_ok _ _ _ _ _ (lift_ok _ _ _ Ep)).
    assert (may_send (sw s) port = Ok true) as Es by (unfold may_send; by rewrite plain_state).
    by rewrite (bind_ok _ _ _ _ _ (lift_ok _ _ _ Es)). }
  rewrite (bind_ok _ _ _ _ _ Ec), (proj2 (Z.eqb_neq in_port port)) by done. unfold send_packet.
  rewrite (bind_ok get _ s s s eq_refl), Em, (proj2 (Z.leb_le _ _)), (proj2 (Z.eqb_neq port OFPP_FLOOD)) by done.
  cbn [andb orb negb]. unfold unicast. cbn [sends]. unfold mbind at 1, M_bind at 1, queue_tx at 1.
  destruct (Rconn.rconn_send_with_limit _ _ _ _) as [[r rc]| |]; [|done..]. cbn [mbind comp_bind].
  destruct (id =? UINT32_MAX); [|by intros [= <-]]. unfold queue_tx. simpl conn. cbn [sends].
  destruct (Rconn.rconn_send_with_limit _ _ _ _) as [[r2 rc2]| |]; [|done..]. by intros [= <-].
Qed.

Lemma learned_plain now f p s s' t :
  session_ok s → tags_ahead s → plain (sw s) → ml (sw s) = Some t → 0 <= p < 65536 →
  learn_source now f p s = Ok (tt, s') →
  session_ok s' ∧ conn s' = conn s ∧ sw s' = (sw s) <| ml := ml (sw s') |> ∧
  ∃ t', ml (sw s') = Some t' ∧
    stations t' = if eth_addr_is_multicast (dl_src f) then stations t
                  else learned now (dl_src f) 0 p (stations t).
Proof.
  intros Hs Ht Hpl Em Hp E. pose proof (learn_source_spec now f p s Hs Ht Hp) as H. rewrite E in H.
  destruct H as (? & ? & ? & learn & El & H). unfold may_learn in El. rewrite plain_state in El by done.
  injection El as <-. rewrite Em in H. destruct H as (t' & Et' & _ & Est). split_and!; [done..|].
  exists t'. split; [done|]. rewrite Est. by destruct (eth_addr_is_multicast _).
Qed.

Lemma plain_ml x y : plain x → plain (x <| ml := y |>).
Proof. done. Qed.

(** A station is reached by unicast once it has been seen.  When a packet from a
    station has come in by one port, and then a packet to it by another, on a
    datapath without spanning tree, the switch sends exactly a flow entry for the
    second packet that outputs to the first port, and the packet itself if the
    datapath has not kept it: it does not flood, even if its table was full. *)
Theorem learned_station_unicast now1 now2 opi1 opi2 r1 f1 x1 r2 f2 x2 s t :
  session_ok s → tags_ahead s → ml (sw s) = Some t → plain (sw s) → 0 <= max_idle (sw s) →
  delivered opi1 → (18 ≤ length opi1)%nat → delivered opi2 → (18 ≤ length opi2)%nat →
  flow_extract (packet_of opi1) (port_field opi1) = Ok (r1, f1, x1) →
  flow_extract (packet_of opi2) (port_field opi2) = Ok (r2, f2, x2) →
  dl_dst f2 = dl_src f1 → dl_src f2 ≠ dl_src f1 → eth_addr_is_multicast (dl_src f1) = false →
  eth_addr_is_reserved (dl_src f2) = false →
  port_field opi1 ≠ port_field opi2 → port_field opi1 ≠ OFPP_FLOOD →
  wp (process_packet_in now1 opi1 s) (λ '(_, s1), tags_ahead s1 →
    wp (process_packet_in now2 opi2 s1) (λ '(_, s2),
      sends now2 (unicast (sw s) f2 (drop 18 opi2) (buffer_field opi2) (port_field opi2) (port_field opi1))
        (conn s1) = Ok (conn s2))).
Proof.
  intros Hs Ht Em Hpl Hidle Hd1 Hl1 Hd2 Hl2 Ef1 Ef2 Edst Hsrc Hmc Hres Hne Hfl.
  destruct (wp_inv _ _ (process_packet_in_safe now1 opi1 s Hs Ht Hd1 Hl1)) as ([[] s1] & E1 & Hs1).
  rewrite E1. cbn [wp]. intros Ht1.
  pose proof (htons_range (int_at opi1 14 2) : 0 <= port_field opi1 < 65536) as Hp1.
  pose proof (htons_range (int_at opi2 14 2) : 0 <= port_field opi2 < 65536) as Hp2.
  assert (sw s1 = (sw s) <| ml := ml (sw s1) |> ∧ ∃ t1, ml (sw s1) = Some t1 ∧
    stations t1 = learned now1 (dl_src f1) 0 (port_field opi1) (stations t)) as [Esw (t1 & Em1 & Est1)].
  { destruct (process_packet_in_eq now1 opi1 s Hs Ht Hd1 Hl1) as (r & f & pkt & s0 & Ef & _ & _ & El & Eq).
    assert (f = f1) as -> by congruence. rewrite Eq in E1. rewrite (answer_frames _ _ _ _ _ _ _ _ E1).
    destruct (learned_plain now1 f1 _ s s0 t Hs Ht Hpl Em Hp1 El) as (_ & _ & ? & H). by rewrite Hmc in H. }
  assert (plain (sw s1)) as Hpl1 by (rewrite Esw; by apply plain_ml).
  destruct (process_packet_in_eq now2 opi2 s1 Hs1 Ht1 Hd2 Hl2) as (r & f & pkt & s2 & Ef & Hf & _ & El & ->).
  assert (f = f2) as -> by congruence.
  destruct (learned_plain now2 f2 _ s1 s2 t1 Hs1 Ht1 Hpl1 Em1 Hp2 El) as (Hs2 & <- & Esw2 & t2 & Em2 & Est2).
  assert (max_idle (sw s2) = max_idle (sw s)) as Eidle by (by rewrite Esw2, Esw).
  eapply wp_mono; [apply (answer_unicast now2 f2 (drop 18 opi2) (buffer_field opi2) (port_field opi2)
    (port_field opi1) s2 t2); try done; try lia; [rewrite Esw2; by apply plain_ml|by rewrite Edst|]|].
  - rewrite Edst, Est2, Est1. destruct (eth_addr_is_multicast (dl_src f2)); [apply port_of_learned_eq|].
    apply port_of_learned_twice. congruence.
  - intros [[] s3]. unfold unicast. by rewrite Eidle.
Qed.

End LearningSwitchFacts.
