(* ===== verification/ControlLoop.v ===== *)
(** * The learning switch and the datapath together

    What becomes of the messages of the learning switch in the datapath: the flow
    entries that it asks for, and whether they match the packets that they are for;
    and the deletions that it asks for to implement the spanning tree. *)

From S2P Require Import Prelude Ofp Tag MacLearning MacLearningFacts Stp Ofpbuf Flow FlowFacts SwitchFlow.
From S2P Require Import SwitchFlowFacts Rconn RconnFacts Env EnvFacts OfpMsg LearningSwitch.
From S2P Require Import LearningSwitchFacts Table TableSeq Chain ChainFacts DpAct DpActFacts Datapath DpMsg.
From S2P Require Import DpFlow DpFacts DpFlowFacts DpPacket DpOutput DpForward.
Import Ofp Ofpbuf Flow FlowFacts SwitchFlow SwitchFlowFacts Env EnvFacts OfpMsg Table TableSeq Chain ChainFacts
  DpAct DpActFacts Datapath DpMsg DpFlow DpFacts DpFlowFacts DpPacket DpOutput DpForward.

Module ControlLoop.

(** ** Extracted flows *)

(** A flow with zero in the fields that its packet does not have. *)
Definition normal (f : flow) : Prop :=
  (dl_type f = htons ETH_TYPE_IP → nw_tos f .& 0xfc = nw_tos f ∧
     (nw_proto f ≠ IP_TYPE_TCP → nw_proto f ≠ IP_TYPE_UDP → nw_proto f ≠ IP_TYPE_ICMP →
      tp_src f = 0 ∧ tp_dst f = 0)) ∧
  (dl_type f ≠ htons ETH_TYPE_IP → nw_tos f = 0 ∧ tp_src f = 0 ∧ tp_dst f = 0 ∧
     (dl_type f ≠ htons ETH_TYPE_ARP → nw_proto f = 0 ∧ nw_src f = 0 ∧ nw_dst f = 0)).

(** The fields above the link layer are zero. *)
Definition blank (f : flow) : Prop :=
  nw_src f = 0 ∧ nw_dst f = 0 ∧ nw_tos f = 0 ∧ nw_proto f = 0 ∧ tp_src f = 0 ∧ tp_dst f = 0.

Lemma blank_normal f : blank f → normal f.
Proof. intros (? & ? & E & ? & ? & ?). split; [rewrite E|]; done. Qed.

(** [c] has a result with [Q], if it has one. *)
Definition pc {A} (c : comp A) (Q : A → Prop) : Prop := ∀ a, c = Ok a → Q a.

Lemma pc_ok {A} (a : A) (Q : A → Prop) : Q a → pc (Ok a) Q.
Proof. by intros HQ b [= <-]. Qed.

Lemma pc_bind {A B} (c : comp A) (k : A → comp B) (P : A → Prop) (Q : B → Prop) :
  pc c P → (∀ a, P a → pc (k a) Q) → pc (c ≫= k) Q.
Proof. intros Hc Hk. destruct c as [a| |]; [|by intros ? ?..]. exact (Hk a (Hc a eq_refl)). Qed.

Lemma pc_any {A B} (c : comp A) (k : A → comp B) (Q : B → Prop) :
  (∀ a, pc (k a) Q) → pc (c ≫= k) Q.
Proof. intros Hk. by apply (pc_bind _ _ (λ _, True)). Qed.

Ltac pc_step :=
  lazymatch goal with
  | |- pc (Ok _) _ => apply pc_ok
  | |- pc (_ ≫= _) _ => apply pc_any; intros ?
  | |- pc (let '(_, _) := ?x in _) _ => destruct x
  | |- pc (match ?x with Some _ => _ | None => _ end) _ => destruct x
  end.

Lemma extract_l4_normal b p f : tp_src f = 0 → tp_dst f = 0 →
  pc (extract_l4 b p f) (λ '(f', _),
    dl_type f' = dl_type f ∧ nw_tos f' = nw_tos f ∧
    (nw_proto f' ≠ IP_TYPE_TCP → nw_proto f' ≠ IP_TYPE_UDP → nw_proto f' ≠ IP_TYPE_ICMP →
      tp_src f' = 0 ∧ tp_dst f' = 0)).
Proof.
  intros H1 H2. unfold extract_l4.
  destruct (Z.eqb_spec (nw_proto f) IP_TYPE_TCP); [repeat pc_step; done|].
  destruct (Z.eqb_spec (nw_proto f) IP_TYPE_UDP); [repeat pc_step; done|].
  destruct (Z.eqb_spec (nw_proto f) IP_TYPE_ICMP); [repeat pc_step; done|]. by pc_step.
Qed.

Lemma extract_ip_normal b p f : blank f → dl_type f = htons ETH_TYPE_IP →
  pc (extract_ip b p f) (λ '(_, f', _), normal f').
Proof.
  intros Hb Ht. pose proof Hb as (_ & _ & _ & _ & H5 & H6). unfold extract_ip.
  pc_step. pc_step. pc_step; [|pc_step; by apply blank_normal].
  do 5 pc_step. set (f1 := f <| nw_tos := _ |> <| nw_proto := _ |> <| nw_src := _ |> <| nw_dst := _ |>).
  assert (nw_tos f1 .& 0xfc = nw_tos f1) as Etos by (subst f1; simpl; by rewrite <-Z.land_assoc).
  destruct (negb _).
  - eapply pc_bind; [by apply extract_l4_normal|]. intros [f2 p2] (E1 & E2 & E3). pc_step.
    split; [intros _; by rewrite E2|]. rewrite E1. intros Hn. by destruct Hn.
  - pc_step. split; [done|]. intros Hn. by destruct Hn.
Qed.

Lemma extract_arp_normal b p f : blank f → dl_type f = htons ETH_TYPE_ARP →
  pc (extract_arp b p f) (λ '(_, f', _), normal f').
Proof.
  intros Hb Ht. pose proof Hb as (_ & _ & H3 & _ & H5 & H6). unfold extract_arp.
  pc_step. pc_step. pc_step; [|pc_step; by apply blank_normal]. do 6 pc_step.
  destruct (_ && _); (split; simpl; rewrite Ht; [done|]); intros _; split_and!; try done; intros Hn; by destruct Hn.
Qed.

Lemma extract_l3_normal eth b p f : blank f → pc (extract_l3 eth b p f) (λ '(_, f', _), normal f').
Proof.
  intros Hb. unfold extract_l3. apply (pc_bind _ _ (λ '(f', _), blank f')).
  { unfold extract_vlan. destruct (_ =? _); [|by pc_step]. repeat pc_step; done. }
  intros [f1 b1] Hb1. do 2 pc_step. set (f2 := f1 <| dl_src := _ |> <| dl_dst := _ |>).
  assert (blank f2) as Hb2 by done.
  destruct (Z.eqb_spec (dl_type f2) (htons ETH_TYPE_IP)); [by apply extract_ip_normal|].
  destruct (Z.eqb_spec (dl_type f2) (htons ETH_TYPE_ARP)); [by apply extract_arp_normal|].
  pc_step. by apply blank_normal.
Qed.

Lemma flow_extract_normal p port : pc (flow_extract p port) (λ '(_, f, _), normal f).
Proof.
  unfold flow_extract. set (f := zero_flow <| dl_vlan := _ |> <| in_port := _ |>).
  assert (blank f) as Hb by done. pc_step. pc_step. pc_step; [|pc_step; by apply blank_normal].
  pc_step. destruct (_ <=? _); [by apply extract_l3_normal|].
  apply (pc_bind _ _ (λ r, ∀ f' b', r = Some (f', b') → blank f')).
  { unfold extract_llc. pc_step; [|by pc_step]. pc_step. apply pc_any. intros [];
      repeat pc_step; by intros f' b' [= <- _]. }
  intros [[f' b']|] Hr; [apply extract_l3_normal; by eapply Hr|]. pc_step. by apply blank_normal.
Qed.

(** ** The controller's flow entry *)

(** The structure that the datapath reads from the message. *)
Definition learned_mod (f : flow) (id port idle : Z) : ofp_flow_mod :=
  {| fm_length := 80; fm_match := flow_fill_match (f <| nw_tos := 0 |>) 0; fm_cookie := 0;
     fm_command := OFPFC_ADD; fm_idle_timeout := idle; fm_hard_timeout := OFP_FLOW_PERMANENT;
     fm_priority := 0; fm_buffer_id := id; fm_out_port := 0; fm_flags := 0;
     fm_actions := output_action port 0 |}.

Lemma learned_mod_at f id port idle :
  flow_range f → 0 <= id < 2 ^ 32 → port ≠ OFPP_CONTROLLER → 0 <= port < 65536 → 0 <= idle < 65536 →
  flow_mod_at (make_add_simple_flow f id port idle) = Ok (learned_mod f id port idle).
Proof.
  intros [] Hid Hc Hp Hi. unfold make_add_simple_flow.
  assert ((htons port =? htons OFPP_CONTROLLER) = false) as ->.
  { apply Z.eqb_neq. intros E. apply Hc. apply (f_equal ntohs) in E. by rewrite !ntohs_htons in E. }
  destruct f as [ns nd ip vl ty ts td ds dd pcp tos pr pd]; simpl in *.
  destruct fr_dl_src0 as [Hs _], fr_dl_dst0 as [Hd _].
  do 7 (destruct ds as [|? ds]; try done). do 7 (destruct dd as [|? dd]; try done).
  transitivity (Ok {| fm_length := 80;
    fm_match := {| m_wildcards := 0; m_in_port := le_int (le_bytes 2 ip); m_dl_src := [z; z0; z1; z2; z3; z4];
      m_dl_dst := [z5; z6; z7; z8; z9; z10]; m_dl_vlan := le_int (le_bytes 2 vl);
      m_dl_vlan_pcp := le_int (le_bytes 1 pcp); m_dl_type := le_int (le_bytes 2 ty); m_nw_tos := 0;
      m_nw_proto := le_int (le_bytes 1 pr); m_nw_src := le_int (le_bytes 4 ns);
      m_nw_dst := le_int (le_bytes 4 nd); m_tp_src := le_int (le_bytes 2 ts);
      m_tp_dst := le_int (le_bytes 2 td) |};
    fm_cookie := 0; fm_command := OFPFC_ADD; fm_idle_timeout := ntohs (le_int (le_bytes 2 (htons idle)));
    fm_hard_timeout := OFP_FLOW_PERMANENT; fm_priority := 0; fm_buffer_id := ntohl (le_int (le_bytes 4 (htonl id))); fm_out_port := 0;
    fm_flags := 0; fm_actions := output_action port 0 |}); [reflexivity|].
  rewrite !le_int_bytes by first [done|apply htons_range|apply htonl_range]. rewrite ntohs_htons, ntohl_htonl by done. reflexivity.
Qed.

Lemma normal_match f : normal f → extracted_match (f <| nw_tos := 0 |>) 0.
Proof.
  assert (∀ b, ¬ wild 0 b) as Hw by (intros b Hb; apply Hb, Z.land_0_l).
  intros [Hip Hno]. destruct (decide (dl_type f = htons ETH_TYPE_IP)) as [E|E].
  - destruct (Hip E) as [_ Htp].
    destruct (decide (nw_proto f = IP_TYPE_TCP ∨ nw_proto f = IP_TYPE_UDP ∨ nw_proto f = IP_TYPE_ICMP)).
    + by apply em_ip_ports.
    + destruct Htp; try tauto. apply em_ip_other; try done; simpl; tauto.
  - destruct (Hno E) as (_ & H1 & H2 & H3).
    destruct (decide (dl_type f = htons ETH_TYPE_ARP)) as [E'|E']; [by apply em_arp|].
    destruct (H3 E') as (? & ? & ?). by apply em_other.
Qed.

Lemma range_no_tos f : flow_range f → flow_range (f <| nw_tos := 0 |>).
Proof. intros []. by split. Qed.

Lemma learned_key f id port idle :
  flow_range f → normal f → mod_key (learned_mod f id port idle) = make_key (f <| nw_tos := 0 |>) 0.
Proof. intros Hf Hn. apply extract_fill_match; [by apply range_no_tos|done|by apply normal_match]. Qed.

(** The entry matches the packets that it is for only if their type of service is
    zero. *)
Lemma learned_hits f g : flow_range f → key g = make_key (f <| nw_tos := 0 |>) 0 → hits f g = true ↔ nw_tos f = 0.
Proof.
  intros Hf Hk. unfold hits. rewrite Hk.
  rewrite (proj2 (exact_match_is_equality (mk_sw_flow_key f 0 0 0) (make_key (f <| nw_tos := 0 |>) 0)
    ltac:(by split; [apply range_no_tos|..]) Hf eq_refl)).
  split; intros E; [apply (f_equal (λ k, nw_tos k)) in E; exact E|]. destruct f. simpl in *. by subst.
Qed.

Lemma flow_mod_bytes command f n : flow_range f → Forall is_byte (make_flow_mod command f n).
Proof.
  intros Hf. unfold make_flow_mod.
  repeat apply put_at_is_byte; [by apply Forall_replicate| | |apply le_bytes_is_byte].
  - unfold ofp_header_bytes. repeat apply Forall_app_2; first [apply le_bytes_is_byte|by repeat constructor].
  - unfold match_bytes. repeat apply Forall_app_2; try apply le_bytes_is_byte; try apply Hf; by repeat constructor.
Qed.

Lemma add_flow_bytes f id idle n : flow_range f → Forall is_byte (make_add_flow f id idle n).
Proof. intros Hf. do 3 (apply put_at_is_byte; [|apply le_bytes_is_byte]). by apply flow_mod_bytes. Qed.

Section loop.
Context `{Malloc}.

Lemma learned_msg d s f id port idle :
  flow_range f → 0 <= id < 2 ^ 32 → port ≠ OFPP_CONTROLLER → 0 <= port < 65536 → 0 <= idle < 65536 → sender_ok (dp_env d) s →
  flow_mod_msg d s (make_add_simple_flow f id port idle) (learned_mod f id port idle).
Proof.
  intros Hf Hid Hc Hp Hi Hs. assert (length (make_add_simple_flow f id port idle) = 80%nat) as Hl.
  { apply LearningSwitchFacts.length_make_add_simple_flow; apply Hf. }
  split; [|by apply learned_mod_at|by rewrite Hl|by rewrite Hl|done].
  apply Forall_app_2; [by apply add_flow_bytes|].
  unfold output_action_bytes. repeat apply Forall_app_2; apply le_bytes_is_byte.
Qed.

(** What the tables do with the flow [f] that the controller's entry sends to [r2]: the
    entry matches it only if its type of service is zero. *)
Definition verdict d f r2 : Prop :=
  (nw_tos f = 0 → directed d f r2 0) ∧
  (nw_tos f ≠ 0 → ∀ q h, q ∈ owned (tables (chain d)) → heap (dp_env d) !! q = Some h → hits f h = false).

(** The message for the flow was obeyed in [d]. *)
Lemma learned_directs d d' loose f id r2 idle e g :
  dp_inv d loose → flow_range f → normal f →
  (∀ q h, q ∈ owned (tables (chain d)) → heap (dp_env d) !! q = Some h → hits f h = false) →
  installed (learned_mod f id (number_of r2) idle) e g d d' → verdict d' f r2.
Proof.
  intros Hinv Hf Hn Hnone (_ & Hreq & Hj & _).
  pose proof (mod_table_nodup (learned_mod f id (number_of r2) idle) d loose Hinv) as Hnd.
  destruct (joins_entry _ _ _ _ _ _ Hj) as [Hin He].
  change (mod_table _ d') with (owned (tables (chain d'))) in *. change (mod_table _ d) with (owned (tables (chain d))) in *.
  pose proof (rq_key _ _ _ Hreq) as Hk. rewrite learned_key in Hk by done.
  pose proof (learned_hits f g Hf Hk) as Hg.
  assert (∀ q h, q ∈ owned (tables (chain d')) → heap (dp_env d') !! q = Some h → hits f h = true → h = g) as Honly.
  { intros q h Hq Hh Hhit. destruct (joins_other _ _ _ _ _ _ q Hnd Hj Hq) as [->|[Hq' E]]; [congruence|].
    rewrite E in Hh. by rewrite (Hnone q h Hq' Hh) in Hhit. }
  split; intros Ht.
  - split; [exists e, g; split_and!; try done; by apply Hg|]. intros q h Hq Hh Hhit.
    rewrite (Honly q h Hq Hh Hhit). apply Hreq.
  - intros q h Hq Hh. destruct (hits f h) eqn:Hhit; [|done]. rewrite (Honly q h Hq Hh Hhit) in Hhit.
    destruct Ht. by apply Hg.
Qed.

(** Counting a packet makes no difference. *)
Lemma verdict_counted d d' f r2 e g now n :
  heap (dp_env d) !! e = Some g → heap (dp_env d') = <[e := flow_used now n g]> (heap (dp_env d)) →
  chain d' = chain d → verdict d f r2 → verdict d' f r2.
Proof.
  intros He Hh Hc [H1 H2]. unfold verdict, directed in *. rewrite Hc.
  assert (∀ q h, heap (dp_env d') !! q = Some h → ∃ h0, heap (dp_env d) !! q = Some h0 ∧
    hits f h = hits f h0 ∧ sf_acts h = sf_acts h0) as Hsame.
  { intros q h. rewrite Hh, lookup_insert_Some. intros [[<- <-]|[_ Hq]]; [by exists g|by exists h]. }
  split; intros Ht.
  - destruct (H1 Ht) as [(q & h & Hq & Hqh & Hhit) Hall]. split.
    + destruct (decide (q = e)) as [->|Hne]; [exists e, (flow_used now n g)|exists q, h]; rewrite Hh.
      * rewrite lookup_insert_eq. rewrite He in Hqh. by injection Hqh as <-.
      * by rewrite lookup_insert_ne.
    + intros q' h' Hq' Hh' Hhit'. destruct (Hsame q' h' Hh') as (h0 & Hh0 & E1 & E2). rewrite E2.
      apply (Hall q' h0); [done|done|congruence].
  - intros q h Hq Hqh. destruct (Hsame q h Hqh) as (h0 & Hh0 & -> & _). by eapply H2.
Qed.

(** [y] was sent from port [r1] by port [r2]. *)
Definition relayed d b (y : ofpbuf) r1 r2 d' : Prop :=
  (r2 = r1 → (∀ q, is_Some (bufs d' !! q) ↔ is_Some (bufs d !! q)) ∧ ∀ r', port_of d' r' = port_of d r') ∧
  (r2 ≠ r1 → bufs d' = delete b (bufs d) ∧
     ∀ r', port_of d' r' = if decide (r2 = r') then port_after (contents y) <$> port_of d r' else port_of d r').

(** The packet that waits for the entry. *)
Lemma learned_buffered depth d loose f id r1 r2 idle p g b y :
  dp_inv d loose → ports_ok d → saved_ok d → r1 ∈ port_list d → r2 ∈ port_list d → id ≠ UINT32_MAX →
  in_port f = htons (number_of r1) → packet_named d id = Some b →
  bufs d !! b = Some y → wf y → Forall is_byte (base y) → heap (dp_env d) !! p = Some g →
  let ofm := learned_mod f id (number_of r2) idle in
  wp (apply_to_buffer (S depth) (Some p) ofm (Z.of_nat (length (fm_actions ofm))) d) (λ '(r, d'), r = 0 ∧
    dp_inv d' loose ∧ chain d' = chain d ∧
    heap (dp_env d') = <[p := flow_used (now_msec (dp_env d)) (length (contents y)) g]> (heap (dp_env d)) ∧
    relayed d b y r1 r2 d').
Proof.
  intros Hinv Hpok Hok Hr1 Hr2 Hid Hin Hn Hy Hwf Hb Hg ofm.
  destruct (po_up _ Hpok r1 Hr1) as (p1 & n1 & Hp1 & _ & _). destruct (po_up _ Hpok r2 Hr2) as (p2 & n2 & Hp2 & _ & _).
  pose proof (number_of_range r1 d (po_slots _ Hpok) ltac:(eauto)) as Hn1.
  pose proof (number_of_cases r2 d (po_slots _ Hpok) ltac:(eauto)) as Hn2. unfold OFPP_LOCAL in Hn2.
  destruct (flow_extract_ok y (number_of r1) Hwf Hb ltac:(lia)) as (frag & k & y' & Ek & _ & Hex & Hk).
  destruct (extracted_contents _ _ _ _ Hex) as (Ec & _ & Ewf). specialize (Ewf Hwf).
  rewrite (apply_named (S depth) p g ofm _ d b y frag k y'); try done.
  2: { change (m_in_port (fm_match ofm)) with (in_port f). by rewrite Hin, ntohs_htons by lia. }
  set (d1 := served p g id b y' d). change (fm_actions ofm) with (output_action (number_of r2) 0).
  change (served _ _ _ _ _ _) with d1.
  assert (port_list d1 = port_list d ∧ ports d1 = ports d ∧ local_port d1 = local_port d ∧ chain d1 = chain d) as (E1 & E2 & E3 & E4)
    by (unfold d1, served, emptied; by repeat case_match).
  assert (∀ r, port_of d1 r = port_of d r) as E5 by (intros [i|]; unfold port_of; by rewrite ?E2, ?E3).
  assert (ports_ok d1) as Hpok1.
  { destruct Hpok as [P1 P2 P3]. split; [by rewrite E2|by rewrite E1|]. intros r. rewrite E1, E5. apply P3. }
  assert (∀ q, is_Some (<[b := y']> (bufs d) !! q) ↔ is_Some (bufs d !! q)) as Hdom.
  { intros q. destruct (decide (q = b)) as [->|Hq]; [rewrite lookup_insert_eq, Hy; split; eauto|].
    by rewrite lookup_insert_ne. }
  run_step. rewrite execute_output by (done || lia || unfold OFPP_CONTROLLER; lia). cbn [kflow].
  rewrite Hk, ntohs_htons by lia.
  eapply wp_mono; [apply (unicast_output depth d1 b y' r1 r2); try done; [by rewrite E1..|apply lookup_insert_eq]|].
  intros [[] d'] (F1 & F2 & Hback & Hout). cbn beta iota delta [fst snd]. run.
  assert (heap (dp_env d1) = <[p := flow_used (now_msec (dp_env d)) (length (contents y)) g]> (heap (dp_env d))) as Hh
    by (rewrite <-Ec, length_contents by done; done).
  split_and!; [done| |by rewrite F2|by rewrite F1|split].
  - destruct Hinv as [Hac Hr]. split; [|by rewrite F1]. rewrite F1, F2, E4.
    by eapply (accounted_touch _ (dp_env d)); [exact Hg|exact Hh|apply flow_used_same| |].
  - intros Hrr. destruct (Hback Hrr) as [-> Hports]. split; [exact Hdom|]. intros r'. by rewrite Hports, E5.
  - intros Hrr. destruct (Hout Hrr) as [-> Hports]. split; [apply delete_insert_eq|].
    intros r'. by rewrite Hports, !E5, Ec.
Qed.

(** The packet that a message with buffer id [id] is about. *)
Definition awaited d (id : Z) : option ptr := if id =? UINT32_MAX then None else packet_named d id.

(** Every packet of the flow [f] that comes by port [r1] while the flow tables are those
    of [d] leaves by port [r2]. *)
Definition forwards (depth : nat) (loose : list ptr) d f r1 r2 : Prop :=
  ∀ d1 b p x frag x',
    heap (dp_env d1) = heap (dp_env d) → chain d1 = chain d → dp_inv d1 loose → ports_ok d1 →
    r1 ∈ port_list d1 → r2 ∈ port_list d1 → received d1 b r1 p x →
    flow_extract x (port_no p) = Ok (frag, f, x') →
    wp (fwd_port_input (S depth) b r1 d1) (λ '(_, d2), dp_inv d2 loose ∧ sent_by d1 b x x' f r1 r2 d2).

Lemma verdict_forwards depth loose d f r1 r2 : verdict d f r2 → nw_tos f = 0 → forwards depth loose d f r1 r2.
Proof.
  intros [Hv _] Ht d1 b p x frag x' Eh Ec Hinv Hpok Hr1 Hr2 Hrc Hx.
  eapply (unicast_spec depth d1 b r1 p x frag f x' r2 0); try done. unfold directed. rewrite Eh, Ec. by apply Hv.
Qed.

Lemma port_of_rest d d' r : same_rest d d' → port_of d' r = port_of d r.
Proof. intros ->. by destruct r. Qed.

Lemma ports_ok_rest d d' : same_rest d d' → ports_ok d → ports_ok d'.
Proof.
  intros Hs [H1 H2 H3]. assert (ports d' = ports d ∧ port_list d' = port_list d) as [E1 E2] by by rewrite Hs.
  split; [by rewrite E1|by rewrite E2|]. intros r. rewrite E2, (port_of_rest d) by done. apply H3.
Qed.

Lemma relayed_rest d d1 b y r1 r2 d' : same_rest d d1 → relayed d1 b y r1 r2 d' → relayed d b y r1 r2 d'.
Proof.
  intros Hs [H1 H2]. pose proof (λ r, port_of_rest d d1 r Hs) as Hp. assert (bufs d1 = bufs d) as Eb by by rewrite Hs.
  rewrite Eb in H1, H2. split; intros Hrr.
  - destruct (H1 Hrr) as [E1 E2]. split; [done|]. intros r. by rewrite E2.
  - destruct (H2 Hrr) as [E1 E2]. split; [done|]. intros r. by rewrite E2, Hp.
Qed.

(** A refused message. *)
Lemma learned_refused d d1 ofm r :
  same_rest d d1 → saved_ok d →
  let id := fm_buffer_id ofm in
  ∃ d', flow_mod_fail None ofm r d1 = Ok (r, d') ∧ dp_env d' = dp_env d1 ∧ chain d' = chain d1 ∧
    bufs d' = match awaited d id with Some b => delete b (bufs d) | None => bufs d end ∧
    ∀ r', port_of d' r' = port_of d r'.
Proof.
  intros Hs Hok id. pose proof (λ r, port_of_rest d d1 r Hs) as Hport.
  assert (bufs d1 = bufs d) as Eb by by rewrite Hs. unfold awaited. destruct (Z.eqb_spec id UINT32_MAX) as [Hid|Hid].
  - exists d1. by rewrite fail_none.
  - exists (discarded d1 id). rewrite fail_buffered by (done || by eapply saved_ok_rest).
    change (fm_buffer_id ofm) with id. unfold discarded. rewrite (packet_named_rest d d1) by done.
    destruct (packet_named d id) as [b|]; [|done].
    assert (∃ S, emptied d1 id = d1 <| buffers := S |>) as [S ->].
    { unfold emptied. destruct (buffers d1 !! slot_of id); [destruct (_ =? _)|]; [by eexists|exists (buffers d1)..];
        by destruct d1. }
    split_and!; [done..|simpl; by rewrite Eb|]. intros r'. rewrite <-Hport. by destruct r'.
Qed.


(** ** Deleting flows for the spanning tree *)

Lemma delete_message_command m s msg s' :
  length m = 40%nat → LearningSwitch.delete_flow_message m s = Ok (msg, s') →
  length msg = 72%nat ∧ int_at msg 56 2 = OFPFC_DELETE_STRICT.
Proof.
  intros Hm. unfold LearningSwitch.delete_flow_message, LearningSwitch.make_openflow, LearningSwitch.random_uint32.
  unfold mbind, M_bind. destruct (Rconn.alloc_xid _) as [xid rc].
  assert (∃ ofm, make_openflow_xid 72 OFPT_FLOW_MOD xid = Ok ofm ∧ length ofm = 72%nat) as (ofm & E & Hl)
    by (by eexists).
  unfold lift. rewrite E. intros [= <- _].
  assert (length (put_at ofm 8 m) = 72%nat) as Hl' by (rewrite length_put_at; lia).
  split; [rewrite length_put_at; [done|]; simpl; lia|].
  exact (f_equal le_int (bytes_at_put_at _ 56 (le_bytes 2 OFPFC_DELETE_STRICT) ltac:(rewrite Hl'; lia))).
Qed.

(** C40: The message by which the learning switch deletes a flow that uses a port which
    the spanning tree disabled is never obeyed: the command is not in network byte
    order, and the datapath answers that it does not know it. *)
Theorem stp_delete_ignored depth sender m s msg s' d :
  length m = 40%nat → LearningSwitch.delete_flow_message m s = Ok (msg, s') →
  recv_flow depth sender msg d = Ok (- ENODEV, d).
Proof.
  intros Hm Hmsg. destruct (delete_message_command m s msg s' Hm Hmsg) as [Hl Hc].
  assert (∃ ofm, flow_mod_at msg = Ok ofm ∧ fm_command ofm = 0x400) as (ofm & Hat & Hcmd).
  { unfold flow_mod_at. rewrite Hl. eexists. split; [reflexivity|]. simpl. by rewrite Hc. }
  unfold recv_flow. rewrite (bind_ok _ _ _ _ _ (lift_ok _ d _ Hat)), Hcmd. reflexivity.
Qed.

End loop.
End ControlLoop.
