(* ===== verification/ControllerProps.v ===== *)
(** * A controller and its datapath

    The theorems on the learning switch, and on the learning switch together with the
    datapath, at concrete sessions, messages and packets. *)

From S2P Require Import Prelude Ofp Tag MacLearning MacLearningFacts Stp Ofpbuf Flow FlowFacts SwitchFlow.
From S2P Require Import SwitchFlowFacts Rconn RconnFacts RconnProps Env EnvFacts OfpMsg LearningSwitch.
From S2P Require Import LearningSwitchFacts Table Chain ChainFacts DpAct Datapath DpMsg DpFlow DpFacts.
From S2P Require Import DpFlowFacts DpPacket DpOutput DpForward DpProps ControlLoop.
Import Ofp Flow Env OfpMsg MacLearning MacLearningFacts LearningSwitch LearningSwitchFacts ControlLoop.

Module ControllerProps.

(** A session with the peer of [RconnProps], on a datapath without spanning tree. *)
Definition ex_switch : lswitch :=
  mk_lswitch 60 1 0 LLONG_MIN (Some ex_table) LLONG_MIN 5 LLONG_MIN (replicate 255 0) 9 0 0 0.
Definition ex_session : session := mk_session ex_switch RconnProps.probing.

Lemma ex_session_ok : session_ok ex_session.
Proof.
  split; [apply RconnProps.probing_ok|reflexivity|]. intros t [= <-].
  apply mac_learning_create_ok, ex_random.
Qed.

Lemma ex_tags_ahead : tags_ahead ex_session.
Proof. intros t [= <-]. apply ex_random. Qed.

(** A packet-in message with a frame that was not buffered. *)
Definition ex_packet_in (port : Z) (dst src : list Z) : list Z :=
  [OFP_VERSION; OFPT_PACKET_IN; 0; 78; 0; 0; 0; 0] ++ replicate 4 255 ++ [0; 60; 0; port; 0; 0]
  ++ dst ++ src ++ [9; 0] ++ replicate 46 0.

Lemma ex_packet_in_delivered port x y : is_byte port → is_byte x → is_byte y →
  delivered (ex_packet_in port (ex_mac x) (ex_mac y)).
Proof.
  intros Hp Hx Hy. split; [|apply leb_complete; reflexivity|reflexivity].
  repeat apply Forall_app_2; repeat constructor; done || apply Hp || apply Hx || apply Hy.
Qed.

Lemma lswitch_calls_safe_witness :
  wp (run_lcall 100 100000 10 (LMessage (ex_packet_in 3 (ex_mac 1) (ex_mac 7))) ex_session)
    (λ '(_, s'), session_ok s').
Proof.
  apply lswitch_calls_safe; [apply ex_session_ok|].
  split_and!; [apply ex_tags_ahead|by apply ex_packet_in_delivered|discriminate|].
  apply Z.leb_le. reflexivity.
Defined.

Lemma query_retried_witness :
  wp (lswitch_run 100 100000 ex_session) (λ '(_, s'), last_query (sw s') = 100000).
Proof.
  eapply wp_mono; [apply query_retried; [apply ex_session_ok|lia|discriminate|reflexivity|left; reflexivity|reflexivity]|].
  intros [[] s'] [H _]. exact H.
Defined.

(** The statistics of a flow with an empty action. *)
Definition ex_stats : list Z :=
  [OFP_VERSION; OFPT_STATS_REPLY; 0; 108; 9; 0; 0; 0; 0; 1; 0; 0] ++ [0; 96; 0; 0; 0; 0x3f; 0xff; 0xff]
  ++ replicate 80 0 ++ [0xff; 0xff; 0; 0; 0; 0; 0; 0].

Lemma empty_action_hangs_witness :
  lswitch_process_packet 100 100000 1000 ex_stats ex_session = NoFuel.
Proof.
  apply empty_action_hangs; try reflexivity; try discriminate.
  split; [apply (bool_decide_unpack _); reflexivity|apply leb_complete; reflexivity|reflexivity].
Defined.

(** What [flow_extract] makes of the frame of a packet-in message. *)
Definition ex_extracted (opi : list Z) : Z * flow * Ofpbuf.ofpbuf :=
  match flow_extract (packet_of opi) (port_field opi) with
  | Ok r => r
  | _ => (0, zero_flow, packet_of opi)
  end.

(** Station 7 sends to station 1 by port 3, then station 1 answers by port 5. *)
Definition ex_ask : list Z := ex_packet_in 3 (ex_mac 1) (ex_mac 7).
Definition ex_reply : list Z := ex_packet_in 5 (ex_mac 7) (ex_mac 1).

Lemma learned_station_unicast_witness :
  wp (process_packet_in 100 ex_ask ex_session) (λ '(_, s1), tags_ahead s1 →
    wp (process_packet_in 101 ex_reply s1) (λ '(_, s2),
      sends 101 (unicast ex_switch (ex_extracted ex_reply).1.2 (drop 18 ex_reply) UINT32_MAX 5 3) (conn s1)
        = Ok (conn s2))).
Proof.
  apply (learned_station_unicast 100 101 ex_ask ex_reply
    (ex_extracted ex_ask).1.1 (ex_extracted ex_ask).1.2 (ex_extracted ex_ask).2
    (ex_extracted ex_reply).1.1 (ex_extracted ex_reply).1.2 (ex_extracted ex_reply).2 ex_session ex_table);
    [apply ex_session_ok|apply ex_tags_ahead|reflexivity|reflexivity|discriminate|
     by apply ex_packet_in_delivered|apply leb_complete; reflexivity|
     by apply ex_packet_in_delivered|apply leb_complete; reflexivity|vm_compute; reflexivity..| | | | | ];
    vm_compute; discriminate || reflexivity.
Defined.

Import Chain ChainFacts Datapath DpFlow DpFacts DpFlowFacts DpPacket DpOutput DpForward DpProps.

#[local] Existing Instance zero_malloc.

(** The packet of [DpProps], saved with the id 773 for the controller, and received once more. *)
Definition waiting_dp : datapath :=
  empty_dp <| bufs := <[2%positive := ex_packet]> (bufs empty_dp) |>
    <| buffers := <[5%nat := mk_packet_buffer (Some 2%positive) 3 0]> (buffers empty_dp) |>.

Lemma waiting_saved_ok : saved_ok waiting_dp.
Proof.
  eapply (slot_write (empty_dp <| bufs := bufs waiting_dp |>) _ 5 (mk_packet_buffer None 0 0));
    [|reflexivity|reflexivity|done|done| |].
  - pose proof (ex_unsaved (dp_env empty_dp) (chain empty_dp)) as Hn.
    destruct (ex_saved_ok (dp_env empty_dp) (chain empty_dp)). split; try done. intros b Hb. by destruct (Hn b).
  - intros q (i & p & Hp & Hq). change (buffers waiting_dp) with (<[5%nat := mk_packet_buffer (Some 2%positive) 3 0]>
      (replicate 256 (mk_packet_buffer None 0 0))) in Hp.
    apply list_lookup_insert_Some in Hp as [(_ & <- & _)|[_ [-> _]%lookup_replicate]]; [|done].
    injection Hq as <-. by eexists.
  - intros q _ Hq. by destruct (ex_unsaved (dp_env empty_dp) (chain empty_dp) q).
Qed.

(** The switch after the controller's answer, which sends the flow to port 2. *)
Definition after_dp : datapath :=
  match recv_flow 4 ex_sender (make_add_simple_flow ex_extract.1.2 773 2 60) waiting_dp with
  | Ok (_, d') => d'
  | _ => waiting_dp
  end.

Lemma after_eq :
  recv_flow 4 ex_sender (make_add_simple_flow ex_extract.1.2 773 2 60) waiting_dp = Ok (0, after_dp).
Proof.
  assert (match recv_flow 4 ex_sender (make_add_simple_flow ex_extract.1.2 773 2 60) waiting_dp with
          | Ok (r, _) => r =? 0 | _ => false end = true) as H by (vm_compute; reflexivity).
  unfold after_dp. destruct (recv_flow _ _ _ _) as [[r d']| |]; [|done..]. by apply Z.eqb_eq in H as ->.
Qed.

Lemma after_rest :
  ports after_dp = <[2%nat := port_after ex_frame (ex_port 2)]> (ports empty_dp) ∧
  port_list after_dp = port_list empty_dp ∧ flags after_dp = 0 ∧
  buffers after_dp = <[5%nat := mk_packet_buffer None 3 0]> (buffers empty_dp).
Proof. split_and!; vm_compute; reflexivity. Qed.

#[local] Opaque after_dp.

Lemma after_ports_ok : ports_ok after_dp.
Proof.
  destruct after_rest as (E1 & E2 & _). pose proof (ex_ports_ok (dp_env empty_dp) (chain empty_dp)) as [H1 H2 _].
  split; [by rewrite E1, length_insert|by rewrite E2|]. intros r Hr. rewrite E2 in Hr.
  change (port_list empty_dp) with [port_at 1; port_at 2; port_at 3] in Hr. unfold port_of. rewrite E1.
  rewrite !elem_of_cons, elem_of_nil in Hr. destruct Hr as [->|[->|[->|[]]]].
  - exists (ex_port 1), ex_netdev. split_and!; vm_compute; reflexivity.
  - exists (port_after ex_frame (ex_port 2)), (ex_netdev <| nd_sent := [(ex_frame, 0)] |>). split_and!; vm_compute; reflexivity.
  - exists (ex_port 3), ex_netdev. split_and!; vm_compute; reflexivity.
Qed.

Lemma after_received :
  bufs after_dp = {[1%positive := ex_packet]} → port_of after_dp (port_at 1) = Some (ex_port 1) →
  received after_dp 1%positive (port_at 1) (ex_port 1) ex_packet.
Proof.
  destruct after_rest as (_ & _ & E1 & E2). intros Hb Hp.
  split; [rewrite Hb; reflexivity| |apply ex_packet_ok|apply ex_packet_ok|apply leb_complete; reflexivity|exact Hp|
    clear; done|reflexivity|rewrite E1; clear; done].
  intros (i & p & Hi & Hq). rewrite E2 in Hi. clear - Hi Hq.
  by apply list_lookup_insert_Some in Hi as [(_ & <- & _)|[_ [-> _]%lookup_replicate]].
Qed.


Definition ex_delete : list Z :=
  match delete_flow_message (replicate 40 0) ex_session with Ok (msg, _) => msg | _ => [] end.

Lemma stp_delete_ignored_witness : recv_flow 3 ex_sender ex_delete empty_dp = Ok (- ENODEV, empty_dp).
Proof.
  apply (stp_delete_ignored 3 ex_sender (replicate 40 0) ex_session ex_delete
    (match delete_flow_message (replicate 40 0) ex_session with Ok (_, s) => s | _ => ex_session end)).
  - reflexivity.
  - vm_compute. reflexivity.
Defined.

End ControllerProps.
