(* ===== verification/RateLimit.v ===== *)
(** * secchan/ratelimit.c: limiting the rate of packet-in messages

    The secure channel sends packet-in messages on to the controller at a limited
    rate: a token bucket admits messages directly, and those that it does not admit
    wait in one queue per port, which are drained in turn.  A queue (lib/queue.c) is
    the list of its packets; [random] is the stream of [random_uint32], of which the
    limiter has used [n_random] numbers; times are passed to the operations, in
    milliseconds to the bucket and in seconds to the connection.  Overflow of the
    signed product in [rate_limit_start] is undefined in C, and is an [Abort] here. *)

From S2P Require Import Prelude Ofp Ofpbuf Flow SwitchFlow Rconn Env.
Import Ofp.

Module RateLimit.

Definition INT_MAX : Z := 2 ^ 31 - 1.
Definition TIME_UPDATE_INTERVAL : Z := 100.

(** ** Queues *)

Abbreviation ofp_queue := (list (list Z)).

Definition queue_init : ofp_queue := [].

Definition queue_push_tail (q : ofp_queue) (b : list Z) : ofp_queue := q ++ [b].

(** The first packet must be there. *)
Definition queue_pop_head (q : ofp_queue) : comp (list Z * ofp_queue) :=
  match q with [] => Abort | b :: q => Ok (b, q) end.

(** ** The limiter *)

(** The settings that the limiter uses, after parsing. *)
Record settings := mk_settings { rate_limit : Z; burst_limit : Z }.

Record rate_limiter := mk_limiter {
  rl_settings : settings;
  remote_rconn : Rconn.rconn;
  queues : list ofp_queue;
  n_queued : Z;
  next_tx_port : Z;
  last_fill : Z;
  tokens : Z;
  n_normal : Z;
  n_limited : Z;
  n_queue_dropped : Z;
  n_tx_dropped : Z;
  n_random : nat;
}.
#[export] Instance limiter_eta : Eta rate_limiter := λ r,
  mk_limiter (rl_settings r) (remote_rconn r) (queues r) (n_queued r) (next_tx_port r) (last_fill r)
    (tokens r) (n_normal r) (n_limited r) (n_queue_dropped r) (n_tx_dropped r) (n_random r).

Section limiter.
Context (random : nat → Z).

(** The longest of the queues [qs], which start at index [i], and of the queue at
    [longest] of length [len]; and how many random numbers have been used then. *)
Fixpoint longest_loop (qs : list ofp_queue) (i longest len : nat) (n_longest : Z) (pos : nat) : nat * nat :=
  match qs with
  | [] => (longest, pos)
  | q :: qs =>
      if (len <? length q)%nat then longest_loop qs (S i) i (length q) 1 pos
      else if (len =? length q)%nat then
        let n_longest := n_longest + 1 in
        if negb (truth (random pos mod n_longest)) then longest_loop qs (S i) i len n_longest (S pos)
        else longest_loop qs (S i) longest len n_longest (S pos)
      else longest_loop qs (S i) longest len n_longest pos
  end.

Definition drop_packet (rl : rate_limiter) : comp rate_limiter :=
  q ← deref (queues rl !! 0%nat);
  let '(longest, pos) := longest_loop (queues rl) 0 0 (length q) 1 (n_random rl) in
  q ← deref (queues rl !! longest);
  '(_, q) ← queue_pop_head q;
  Ok (rl <| queues := <[longest := q]> (queues rl) |> <| n_queued := n_queued rl - 1 |>
         <| n_random := pos |>).

(** The rest of the loop, of [n] iterations, from [i] on. *)
Fixpoint dequeue_loop (n : nat) (i : Z) (rl : rate_limiter) : comp (list Z * rate_limiter) :=
  match n with
  | O => Abort
  | S n =>
      let port := (next_tx_port rl + i) mod OFPP_MAX in
      q ← deref (queues rl !! Z.to_nat port);
      if negb (length q =? 0)%nat then
        '(b, q) ← queue_pop_head q;
        Ok (b, rl <| next_tx_port := (port + 1) mod OFPP_MAX |> <| n_queued := n_queued rl - 1 |>
                  <| queues := <[Z.to_nat port := q]> (queues rl) |>)
      else dequeue_loop n (i + 1) rl
  end.

Definition dequeue_packet (rl : rate_limiter) : comp (list Z * rate_limiter) :=
  dequeue_loop (Z.to_nat OFPP_MAX) 0 rl.

Definition refill_bucket (msec : Z) (rl : rate_limiter) : rate_limiter :=
  let s := rl_settings rl in
  let t := (msec - last_fill rl) * rate_limit s + tokens rl in
  if 1000 <=? t then rl <| last_fill := msec |> <| tokens := Z.min t (burst_limit s * 1000) |> else rl.

Definition get_token (rl : rate_limiter) : bool * rate_limiter :=
  if 1000 <=? tokens rl then (true, rl <| tokens := tokens rl - 1000 |>) else (false, rl).

(** ** Callbacks *)

(** Whether the message is a packet-in message (secchan.c). *)
Definition get_ofp_packet_in (msg : list Z) : comp bool :=
  type ← load msg 1 1;
  Ok ((type =? OFPT_PACKET_IN) && (18 <=? length msg)%nat).

(** Whether the message was taken from its way to the controller. *)
Definition rate_limit_local_packet_cb (msg : list Z) (rl : rate_limiter) : comp (bool * rate_limiter) :=
  opi ← get_ofp_packet_in msg;
  if negb opi then Ok (false, rl)
  else
    reason ← load msg 16 1;
    if reason =? OFPR_ACTION then Ok (false, rl)
    else
      let '(ok, rl) := if n_queued rl =? 0 then get_token rl else (false, rl) in
      if ok : bool then Ok (false, rl <| n_normal := n_normal rl + 1 |>)
      else
        in_port ← load msg 14 2;
        let port := ntohs in_port mod OFPP_MAX in
        rl ← (if burst_limit (rl_settings rl) <=? n_queued rl then drop_packet rl else Ok rl);
        q ← deref (queues rl !! Z.to_nat port);
        Ok (true, rl <| queues := <[Z.to_nat port := queue_push_tail q msg]> (queues rl) |>
                     <| n_queued := n_queued rl + 1 |> <| n_limited := n_limited rl + 1 |>).

(** The loop from iteration [i] on, for at most [n] iterations; with the limiter, the
    packets that are handed to the connection. *)
Fixpoint drain (n : nat) (now i : Z) (rl : rate_limiter) : comp (list (list Z) * rate_limiter) :=
  match n with
  | O => NoFuel
  | S n =>
      if n_queued rl =? 0 then Ok ([], rl)
      else
        let '(ok, rl) := get_token rl in
        if negb (ok && (i <? 50)) then Ok ([], rl)
        else
          '(b, rl) ← dequeue_packet rl;
          '(r, rc) ← Rconn.rconn_send_with_limit now b 10 (remote_rconn rl);
          '(l, rl) ← drain n now (i + 1)
            (rl <| remote_rconn := rc |> <| n_tx_dropped := n_tx_dropped rl + (if truth r then 1 else 0) |>);
          Ok (b :: l, rl)
  end.

Definition rate_limit_periodic_cb (now msec : Z) (rl : rate_limiter) : comp (list (list Z) * rate_limiter) :=
  drain 51 now 0 (refill_bucket msec rl).

(** For how many milliseconds the caller may sleep, if a packet waits. *)
Definition rate_limit_wait_cb (rl : rate_limiter) : option Z :=
  if n_queued rl =? 0 then None
  else if 1000 <=? tokens rl then Some 0 else Some (TIME_UPDATE_INTERVAL / 2).

Definition rate_limit_start (s : settings) (msec : Z) (remote : Rconn.rconn) : comp rate_limiter :=
  assert_c (rate_limit s * 100 <=? INT_MAX);;
  Ok (mk_limiter s remote (replicate (Z.to_nat OFPP_MAX) queue_init) 0 0 msec (rate_limit s * 100) 0 0 0 0 0).

End limiter.
End RateLimit.
