(* ===== verification/RateLimitFacts.v ===== *)
(** * The rate limiter

    The limiter never crashes and keeps at most [burst_limit] messages; it passes no
    more messages than the rate allows; it serves the ports in turn and each of them
    in order; and what it drops comes from the longest queue. *)

From S2P Require Import Prelude Ofp Ofpbuf Flow SwitchFlow Rconn RconnFacts RconnProps Env RateLimit.
Import Ofp RconnFacts RateLimit.

Module RateLimitFacts.

(** ** Queues *)

Definition size (qs : list ofp_queue) : nat := sum_list_with length qs.

Lemma size_insert qs i q q' :
  qs !! i = Some q → (size (<[i := q']> qs) + length q = size qs + length q')%nat.
Proof.
  revert i. induction qs as [|x qs IH]; intros [|i] Hi; try done; simpl in *.
  - injection Hi as ->. unfold size. simpl. lia.
  - specialize (IH i Hi). unfold size in *. simpl. lia.
Qed.

Lemma size_nonempty qs : (0 < size qs)%nat → ∃ i q, qs !! i = Some q ∧ q ≠ [].
Proof.
  induction qs as [|q qs IH]; unfold size in *; simpl; [lia|]. destruct q as [|b q].
  - intros H. destruct (IH H) as (i & q & Hi & Hq). by exists (S i), q.
  - intros _. by exists 0%nat, (b :: q).
Qed.

Lemma size_replicate n : size (replicate n []) = 0%nat.
Proof. induction n; [done|]. unfold size in *. simpl. done. Qed.

(** The queue that a message waits in. *)
Definition home (msg : list Z) : nat := Z.to_nat (ntohs (int_at msg 14 2) mod OFPP_MAX).

Lemma max_pos : (0 < Z.to_nat OFPP_MAX)%nat.
Proof. apply Nat2Z.inj_lt. rewrite Z2Nat.id; done. Qed.

Lemma home_bound msg : (home msg < Z.to_nat OFPP_MAX)%nat.
Proof. unfold home. pose proof (Z.mod_pos_bound (ntohs (int_at msg 14 2)) OFPP_MAX ltac:(done)). lia. Qed.

Record limiter_ok (rl : rate_limiter) : Prop := {
  lo_length : length (queues rl) = Z.to_nat OFPP_MAX;
  lo_queued : n_queued rl = Z.of_nat (size (queues rl));
  lo_bound : n_queued rl <= burst_limit (rl_settings rl);
  lo_burst : 1 <= burst_limit (rl_settings rl);
  lo_port : 0 <= next_tx_port rl < OFPP_MAX;
  lo_tokens : 0 <= tokens rl;
  lo_remote : rconn_ok (remote_rconn rl);
  lo_home i q b : queues rl !! i = Some q → b ∈ q → has_header b ∧ home b = i;
}.

(** ** Dropping *)

Section random.
Context (random : nat → Z).

(** The result is one of the longest queues. *)
Lemma longest_loop_spec qs all i longest len n pos q :
  all = take i all ++ qs → (i ≤ length all)%nat → all !! longest = Some q → length q = len →
  (∀ q', q' ∈ take i all → (length q' ≤ len)%nat) →
  ∃ q', all !! (longest_loop random qs i longest len n pos).1 = Some q' ∧
    ∀ q'', q'' ∈ all → (length q'' ≤ length q')%nat.
Proof.
  revert i longest len n pos q. induction qs as [|x qs IH]; intros i longest len n pos q Ea Hi Hq Hl Hmax; simpl.
  - exists q. split; [done|]. intros q'' Hq''. rewrite Ea, app_nil_r in Hq''. rewrite Hl. by apply Hmax.
  - assert (all !! i = Some x) as Hx.
    { rewrite Ea. rewrite lookup_app_r by (rewrite length_take; lia). rewrite length_take, Nat.min_l by lia.
      by rewrite Nat.sub_diag. }
    assert (take (S i) all = take i all ++ [x]) as Et by (by apply take_S_r).
    assert (all = take (S i) all ++ qs) as Ea' by (by rewrite Et, <-app_assoc).
    assert (S i ≤ length all)%nat as Hi' by (apply lookup_lt_Some in Hx; lia).
    assert (∀ m, (len ≤ m)%nat → (length x ≤ m)%nat → ∀ q', q' ∈ take (S i) all → (length q' ≤ m)%nat) as Hm.
    { intros m H1 H2 q'. rewrite Et, elem_of_app, list_elem_of_singleton. intros [Hq'| ->]; [|done].
      specialize (Hmax q' Hq'). lia. }
    destruct (Nat.ltb_spec len (length x)); [eapply IH; eauto; apply Hm; lia|].
    destruct (Nat.eqb_spec len (length x)) as [E|E]; [|by eapply IH; eauto].
    destruct (negb _); eapply IH; eauto.
Qed.

Lemma drop_packet_spec rl :
  limiter_ok rl → n_queued rl ≠ 0 →
  ∃ i b q pos, queues rl !! i = Some (b :: q) ∧ (∀ q', q' ∈ queues rl → (length q' ≤ S (length q))%nat) ∧
    drop_packet random rl = Ok (rl <| queues := <[i := q]> (queues rl) |>
      <| n_queued := n_queued rl - 1 |> <| n_random := pos |>).
Proof.
  intros Hok Hn. unfold drop_packet.
  destruct (lookup_lt_is_Some_2 (queues rl) 0) as [q0 Eq0]; [rewrite (lo_length _ Hok); apply max_pos|].
  rewrite Eq0. cbn [deref mbind comp_bind].
  destruct (longest_loop_spec (queues rl) (queues rl) 0 0 (length q0) 1 (n_random rl) q0) as (q' & Hq' & Hmax);
    [done|lia|done|done|by intros ? ?%not_elem_of_nil|].
  destruct (longest_loop _ _ _ _ _ _ _) as [i pos]. cbn [fst] in Hq'. rewrite Hq'. cbn [deref mbind comp_bind].
  destruct q' as [|b q].
  - destruct (size_nonempty (queues rl)) as (k & x & Hk & Hx).
    { pose proof (lo_queued _ Hok). lia. }
    apply list_elem_of_lookup_2, Hmax in Hk. destruct x; [done|]. simpl in Hk. lia.
  - exists i, b, q, pos. split_and!; try done.
Qed.

(** ** Dequeuing *)

(** The port at distance [k] from the next one to be served. *)
Definition port_at (rl : rate_limiter) (k : Z) : nat := Z.to_nat ((next_tx_port rl + k) mod OFPP_MAX).

Lemma port_at_bound rl k : (port_at rl k < Z.to_nat OFPP_MAX)%nat.
Proof. unfold port_at. pose proof (Z.mod_pos_bound (next_tx_port rl + k) OFPP_MAX ltac:(done)). lia. Qed.

Lemma port_at_inj rl j k : 0 <= j < OFPP_MAX → 0 <= k < OFPP_MAX → port_at rl j = port_at rl k → j = k.
Proof.
  unfold port_at. intros Hj Hk E.
  pose proof (Z.mod_pos_bound (next_tx_port rl + j) OFPP_MAX ltac:(done)).
  pose proof (Z.mod_pos_bound (next_tx_port rl + k) OFPP_MAX ltac:(done)).
  apply Z2Nat.inj in E; [|lia..].
  pose proof (Z.div_mod (next_tx_port rl + j) OFPP_MAX ltac:(done)).
  pose proof (Z.div_mod (next_tx_port rl + k) OFPP_MAX ltac:(done)). unfold OFPP_MAX in *. lia.
Qed.

(** The limiter after the first packet of port [i], at distance [k], has left. *)
Definition served (rl : rate_limiter) (k : Z) (q : ofp_queue) : rate_limiter :=
  rl <| next_tx_port := ((next_tx_port rl + k) mod OFPP_MAX + 1) mod OFPP_MAX |>
     <| n_queued := n_queued rl - 1 |> <| queues := <[port_at rl k := q]> (queues rl) |>.

Lemma dequeue_loop_spec rl n i k b q :
  i <= k < i + Z.of_nat n → length (queues rl) = Z.to_nat OFPP_MAX →
  queues rl !! port_at rl k = Some (b :: q) → (∀ j, i <= j < k → queues rl !! port_at rl j = Some []) →
  dequeue_loop n i rl = Ok (b, served rl k q).
Proof.
  intros Hk Hl Hq. revert i Hk. induction n as [|n IH]; intros i Hk Hempty; [lia|]. cbn [dequeue_loop].
  fold (port_at rl i). destruct (decide (i = k)) as [->|Hne].
  - rewrite Hq. reflexivity.
  - rewrite Hempty by lia. cbn [deref mbind comp_bind length Nat.eqb negb]. apply IH; [lia|].
    intros j Hj. apply Hempty. lia.
Qed.

(** Either the next [n] ports have nothing, or one of them is the first that has. *)
Lemma first_waiting rl (n : nat) :
  length (queues rl) = Z.to_nat OFPP_MAX →
  (∀ j, 0 <= j < Z.of_nat n → queues rl !! port_at rl j = Some []) ∨
  ∃ k b q, (k < n)%nat ∧ queues rl !! port_at rl (Z.of_nat k) = Some (b :: q) ∧
    ∀ j, 0 <= j < Z.of_nat k → queues rl !! port_at rl j = Some [].
Proof.
  intros Hl. induction n as [|n [Hn|(k & b & q & Hk & Hq)]]; [left; lia| |right; exists k, b, q; split; [lia|done]].
  destruct (lookup_lt_is_Some_2 (queues rl) (port_at rl (Z.of_nat n))) as [[|b q] Hq].
  { rewrite Hl. apply port_at_bound. }
  - left. intros j Hj. destruct (decide (j = Z.of_nat n)) as [->|]; [done|]. apply Hn. lia.
  - right. exists n, b, q. split; [lia|done].
Qed.

Lemma port_at_served rl k q j : port_at (served rl k q) j = port_at rl (k + 1 + j).
Proof.
  unfold port_at. change (next_tx_port (served rl k q)) with (((next_tx_port rl + k) mod OFPP_MAX + 1) mod OFPP_MAX).
  rewrite Z.add_mod_idemp_l, <-Z.add_assoc, Z.add_mod_idemp_l by done. do 2 f_equal. lia.
Qed.

Lemma served_length rl k q : length (queues (served rl k q)) = length (queues rl).
Proof. apply length_insert. Qed.

(** The first packets of those of the next [n] ports that have any. *)
Definition heads (rl : rate_limiter) (n : nat) : list (list Z) :=
  omap (λ k, queues rl !! port_at rl (Z.of_nat k) ≫= head) (seq 0 n).

Lemma omap_none {A B} (f : A → option B) (l : list A) : (∀ x, x ∈ l → f x = None) → omap f l = [].
Proof.
  induction l as [|x l IH]; intros H; [done|]. cbn [omap list_omap]. rewrite H by left. apply IH.
  intros y Hy. apply H. by right.
Qed.

Lemma omap_fmap {A B C} (f : B → option C) (g : A → B) (l : list A) : omap f (g <$> l) = omap (λ x, f (g x)) l.
Proof. induction l as [|x l IH]; [done|]. cbn [omap list_omap fmap list_fmap]. case_match; by rewrite <-IH. Qed.

Lemma omap_ext_in {A B} (f g : A → option B) (l : list A) : (∀ x, x ∈ l → f x = g x) → omap f l = omap g l.
Proof.
  induction l as [|x l IH]; intros H; [done|]. cbn [omap list_omap]. rewrite H by left.
  rewrite IH by (intros y Hy; apply H; by right). done.
Qed.

Lemma heads_served rl n k b q :
  (k < n)%nat → Z.of_nat n <= OFPP_MAX → queues rl !! port_at rl (Z.of_nat k) = Some (b :: q) →
  (∀ j, 0 <= j < Z.of_nat k → queues rl !! port_at rl j = Some []) →
  heads rl n = b :: heads (served rl (Z.of_nat k) q) (n - k - 1).
Proof.
  intros Hk Hn Hq Hempty. unfold heads. replace n with (k + (1 + (n - k - 1)))%nat at 1 by lia.
  rewrite !seq_app, !omap_app, (omap_none _ (seq 0 k)).
  2: { intros j Hj. apply elem_of_seq in Hj. by rewrite Hempty by lia. }
  cbn [app seq omap list_omap]. rewrite Nat.add_0_l, Hq. cbn [mbind option_bind head app]. f_equal.
  rewrite <-(Nat.add_0_r (k + 1)), <-(fmap_add_seq (k + 1) 0), omap_fmap. apply omap_ext_in.
  intros j Hj. apply elem_of_seq in Hj. rewrite port_at_served.
  change (queues (served rl (Z.of_nat k) q)) with (<[port_at rl (Z.of_nat k) := q]> (queues rl)).
  rewrite list_lookup_insert_ne.
  - by replace (Z.of_nat (k + 1 + j)) with (Z.of_nat k + 1 + Z.of_nat j) by lia.
  - intros E. apply port_at_inj in E; lia.
Qed.

(** Dequeuing takes the first packet of the first port in turn that has one. *)
Lemma dequeue_spec rl :
  limiter_ok rl → n_queued rl ≠ 0 →
  ∃ k b q, (k < Z.to_nat OFPP_MAX)%nat ∧ queues rl !! port_at rl (Z.of_nat k) = Some (b :: q) ∧
    (∀ j, 0 <= j < Z.of_nat k → queues rl !! port_at rl j = Some []) ∧
    dequeue_packet rl = Ok (b, served rl (Z.of_nat k) q).
Proof.
  intros Hok Hn. pose proof (lo_length _ Hok) as Hl.
  destruct (first_waiting rl (Z.to_nat OFPP_MAX) Hl) as [Hnone|(k & b & q & Hk & Hq & Hbefore)].
  - destruct (size_nonempty (queues rl)) as (i & q & Hi & Hq); [pose proof (lo_queued _ Hok); lia|].
    pose proof (lookup_lt_Some _ _ _ Hi) as Hi'. pose proof (lo_port _ Hok) as Hp. rewrite Hl in Hi'.
    assert (port_at rl ((Z.of_nat i - next_tx_port rl) mod OFPP_MAX) = i) as E.
    { unfold port_at. rewrite Z.add_mod_idemp_r by done.
      replace (next_tx_port rl + (Z.of_nat i - next_tx_port rl)) with (Z.of_nat i) by lia.
      rewrite Z.mod_small by lia. lia. }
    specialize (Hnone ((Z.of_nat i - next_tx_port rl) mod OFPP_MAX)). rewrite E, Hi in Hnone.
    destruct Hq. pose proof (Z.mod_pos_bound (Z.of_nat i - next_tx_port rl) OFPP_MAX ltac:(done)).
    rewrite Z2Nat.id in Hnone by done. by injection (Hnone ltac:(done)).
  - exists k, b, q. split_and!; [done..|]. apply dequeue_loop_spec; try done. lia.
Qed.

(** ** The invariant *)

(** A packet leaves the queue [i]. *)
Lemma pop_ok rl rl' i b q :
  limiter_ok rl → queues rl !! i = Some (b :: q) → queues rl' = <[i := q]> (queues rl) →
  n_queued rl' = n_queued rl - 1 → rl_settings rl' = rl_settings rl → 0 <= next_tx_port rl' < OFPP_MAX →
  tokens rl' = tokens rl → remote_rconn rl' = remote_rconn rl → limiter_ok rl'.
Proof.
  intros [H1 H2 H3 H4 H5 H6 H7 H8] Hi Eq En Es Hp Et Er. pose proof (size_insert _ _ _ q Hi) as Hs. simpl in Hs.
  split; rewrite ?Eq, ?En, ?Es, ?Et, ?Er; try done; try lia; [by rewrite length_insert|].
  intros j q' b' Hj Hb. apply list_lookup_insert_Some in Hj as [(<- & <- & _)|[_ Hj]]; [|by eapply H8].
  eapply H8; [exact Hi|]. by right.
Qed.

Lemma served_ok rl k b q :
  limiter_ok rl → queues rl !! port_at rl k = Some (b :: q) → limiter_ok (served rl k q).
Proof. intros Hok Hq. eapply pop_ok; try done. by apply Z.mod_pos_bound. Qed.

(** A message joins its queue. *)
Lemma push_ok rl msg q :
  limiter_ok rl → has_header msg → n_queued rl < burst_limit (rl_settings rl) →
  queues rl !! home msg = Some q →
  limiter_ok (rl <| queues := <[home msg := queue_push_tail q msg]> (queues rl) |>
                 <| n_queued := n_queued rl + 1 |> <| n_limited := n_limited rl + 1 |>).
Proof.
  intros [H1 H2 H3 H4 H5 H6 H7 H8] Hm Hlt Hq. pose proof (size_insert _ _ _ (queue_push_tail q msg) Hq) as Hs.
  unfold queue_push_tail in *. rewrite length_app in Hs. simpl in Hs.
  set (rl' := rl <| queues := _ |> <| n_queued := _ |> <| n_limited := _ |>).
  assert (queues rl' = <[home msg := q ++ [msg]]> (queues rl)) as Eq by done.
  assert (n_queued rl' = n_queued rl + 1 ∧ rl_settings rl' = rl_settings rl) as [En Es] by done.
  split; rewrite ?Eq, ?En, ?Es; try done; try lia; [by rewrite length_insert|].
  clear rl' Eq En Es. intros j q' b' Hj Hb. apply list_lookup_insert_Some in Hj as [(<- & <- & _)|[_ Hj]]; [|by eapply H8].
  apply elem_of_app in Hb as [Hb|Hb]; [by eapply H8|]. by apply list_elem_of_singleton in Hb as ->.
Qed.

(** The fields that taking a token leaves alone. *)
Lemma spend_ok rl t : limiter_ok rl → 0 <= t → limiter_ok (rl <| tokens := t |>).
Proof. intros [H1 H2 H3 H4 H5 H6 H7 H8] Ht. by split. Qed.

Lemma refill_ok msec rl : limiter_ok rl → limiter_ok (refill_bucket msec rl).
Proof.
  intros [H1 H2 H3 H4 H5 H6 H7 H8]. unfold refill_bucket. destruct (Z.leb_spec 1000 ((msec - last_fill rl) * rate_limit (rl_settings rl) + tokens rl));
    [|by split]. split; try done. cbn. lia.
Qed.

(** ** Draining *)

Lemma concat_insert (qs : list ofp_queue) i q q' :
  qs !! i = Some q → concat (<[i := q']> qs) ++ q ≡ₚ concat qs ++ q'.
Proof.
  revert i. induction qs as [|x qs IH]; intros [|i] Hi; try done; simpl in *.
  - injection Hi as ->. solve_Permutation.
  - specialize (IH i Hi). rewrite <-!app_assoc. by rewrite IH.
Qed.

Lemma concat_pop (qs : list ofp_queue) i b q :
  qs !! i = Some (b :: q) → concat qs ≡ₚ b :: concat (<[i := q]> qs).
Proof.
  intros Hi. pose proof (concat_insert qs i (b :: q) q Hi) as H.
  apply (Permutation_app_inv_r q). rewrite <-H. solve_Permutation.
Qed.

(** What remains of an iteration that passes the packet [b]. *)
Definition passed (rl : rate_limiter) (rc : Rconn.rconn) (d : Z) : rate_limiter :=
  rl <| remote_rconn := rc |> <| n_tx_dropped := d |>.

Lemma passed_ok rl rc d : limiter_ok rl → rconn_ok rc → limiter_ok (passed rl rc d).
Proof. intros [H1 H2 H3 H4 H5 H6 H7 H8] Hr. by split. Qed.

(** An iteration: it stops, or one packet leaves for one message's worth of tokens. *)
Lemma drain_step n now i rl :
  limiter_ok rl →
  (∃ rl', drain (S n) now i rl = Ok ([], rl') ∧ limiter_ok rl' ∧ queues rl' = queues rl ∧
     rl_settings rl' = rl_settings rl ∧ last_fill rl' = last_fill rl ∧ tokens rl' <= tokens rl ∧
     (n_queued rl = 0 ∨ tokens rl < 1000 ∨ 50 <= i)) ∨
  (i < 50 ∧ 1000 <= tokens rl ∧ ∃ k b q rc d, (k < Z.to_nat OFPP_MAX)%nat ∧
     queues rl !! port_at rl (Z.of_nat k) = Some (b :: q) ∧
     (∀ j, 0 <= j < Z.of_nat k → queues rl !! port_at rl j = Some []) ∧
     let rl' := passed (served (rl <| tokens := tokens rl - 1000 |>) (Z.of_nat k) q) rc d in
     limiter_ok rl' ∧ drain (S n) now i rl = ('(l, rl') ← drain n now (i + 1) rl'; Ok (b :: l, rl'))).
Proof.
  intros Hok. cbn [drain]. destruct (Z.eqb_spec (n_queued rl) 0) as [E|E].
  { left. exists rl. split_and!; first [done|lia|by left]. }
  unfold get_token. destruct (Z.leb_spec 1000 (tokens rl)) as [Ht|Ht]; cbn [andb].
  2: { left. exists rl. split_and!; first [done|lia|auto]. }
  set (rl1 := rl <| tokens := tokens rl - 1000 |>).
  assert (limiter_ok rl1) as Hok1 by (apply spend_ok; [done|lia]).
  destruct (Z.ltb_spec i 50) as [Hi|Hi]; cbn [negb].
  2: { left. exists rl1. split_and!; first [done|cbn; lia|auto]. }
  right. split_and!; [done..|].
  destruct (dequeue_spec rl1 Hok1 E) as (k & b & q & Hk & Hq & Hbefore & Edeq).
  rewrite Edeq. cbn [mbind comp_bind]. pose proof (served_ok rl1 _ _ _ Hok1 Hq) as Hok2.
  destruct (lo_home _ Hok _ _ b Hq) as [Hb _]; [left|].
  destruct (wp_inv _ _ (rconn_send_with_limit_ok now b 10 _ (lo_remote _ Hok2) Hb)) as ([r rc] & Er & Hrc).
  rewrite Er. cbn [mbind comp_bind].
  exists k, b, q, rc, (n_tx_dropped (served rl1 (Z.of_nat k) q) + (if truth r then 1 else 0)).
  split_and!; try done. by apply passed_ok.
Qed.

Lemma drain_spec n now i rl :
  limiter_ok rl → i <= 50 → 51 <= i + Z.of_nat n →
  wp (drain n now i rl) (λ '(l, rl'), limiter_ok rl' ∧ rl_settings rl' = rl_settings rl ∧
    last_fill rl' = last_fill rl ∧ 1000 * Z.of_nat (length l) <= tokens rl - tokens rl' ∧
    concat (queues rl) ≡ₚ l ++ concat (queues rl')).
Proof.
  revert i rl. induction n as [|n IH]; intros i rl Hok Hi Hn; [lia|].
  destruct (drain_step n now i rl Hok) as [(rl' & -> & Hok' & Eq & Es & Ef & Ht & _)|
    (Hi' & Ht & k & b & q & rc & d & _ & Hq & _ & Hok' & ->)].
  { split_and!; try done; [simpl; lia|by rewrite Eq]. }
  apply wp_bind. eapply wp_mono; [apply IH; [done|lia..]|]. clear IH Hok'.
  intros [l rl'] (Hok' & Es & Ef & Hl & Hp). cbn in Es, Ef, Hl. split_and!; [done..|cbn [length]; lia|].
  rewrite (concat_pop _ _ _ _ Hq). by apply Permutation_skip.
Qed.

(** Every port that waits is served before one is served twice. *)
Lemma drain_heads n m now i rl :
  limiter_ok rl → 51 <= i + Z.of_nat n → Z.of_nat m <= OFPP_MAX →
  Z.of_nat (length (heads rl m)) <= 50 - i → 1000 * Z.of_nat (length (heads rl m)) <= tokens rl →
  wp (drain n now i rl) (λ '(l, _), heads rl m `prefix_of` l).
Proof.
  revert m i rl. induction n as [|n IH]; intros m i rl Hok Hn Hm Hc Ht; [lia|].
  destruct (first_waiting rl m (lo_length _ Hok)) as [Hnone|(k & b & q & Hk & Hq & Hbefore)].
  { destruct (wp_inv _ _ (drain_spec (S n) now i rl Hok ltac:(lia) Hn)) as ([l rl'] & -> & _).
    unfold heads. rewrite omap_none; [apply prefix_nil|]. intros j Hj. apply elem_of_seq in Hj. by rewrite Hnone by lia. }
  rewrite (heads_served rl m k b q) in * by done. cbn [length] in Hc, Ht.
  pose proof (size_insert _ _ _ q Hq) as Hs. cbn [length] in Hs. pose proof (lo_queued _ Hok) as Hqd.
  destruct (drain_step n now i rl Hok) as [(_ & _ & _ & _ & _ & _ & _ & Hstop)|
    (_ & _ & k' & b' & q' & rc & d & Hk' & Hq' & Hbefore' & Hok' & ->)]; [lia|].
  assert (k' = k) as ->.
  { destruct (lt_eq_lt_dec k' k) as [[Hlt|?]|Hlt]; [|done|].
    - rewrite Hbefore in Hq' by lia. done.
    - rewrite Hbefore' in Hq by lia. done. }
  rewrite Hq in Hq'. injection Hq' as <- <-.
  set (rl' := passed _ _ _) in *. change (heads (served rl (Z.of_nat k) q)) with (heads rl') in *.
  apply wp_bind. eapply wp_mono; [apply (IH (m - k - 1)%nat); [done|lia..|]|]; [change (tokens rl') with (tokens rl - 1000); lia|].
  intros [l rl''] Hl. by apply prefix_cons.
Qed.

(** ** Events *)

(** A message from the datapath, or a round of the main loop at the given times. *)
Inductive event := Message (msg : list Z) | Round (now msec : Z).

(** The messages that are subject to the limit. *)
Definition limited (msg : list Z) : bool :=
  (int_at msg 1 1 =? OFPT_PACKET_IN) && (18 <=? length msg)%nat && negb (int_at msg 16 1 =? OFPR_ACTION).

(** An event: the limited messages that are passed on, by the relay or by the limiter. *)
Definition run_event (ev : event) (rl : rate_limiter) : comp (list (list Z) * rate_limiter) :=
  match ev with
  | Message msg =>
      '(taken, rl) ← rate_limit_local_packet_cb random msg rl;
      Ok (if taken : bool then [] else if limited msg then [msg] else [], rl)
  | Round now msec => rate_limit_periodic_cb now msec rl
  end.

Fixpoint run_events (evs : list event) (rl : rate_limiter) : comp (list (list Z) * rate_limiter) :=
  match evs with
  | [] => Ok ([], rl)
  | ev :: evs =>
      '(l, rl) ← run_event ev rl;
      '(l', rl) ← run_events evs rl;
      Ok (l ++ l', rl)
  end.

Definition arrivals (ev : event) : list (list Z) :=
  match ev with Message msg => if limited msg then [msg] else [] | Round _ _ => [] end.

(** Messages have a header, and the clock has not passed [t]. *)
Definition event_ok (t : Z) (ev : event) : Prop :=
  match ev with Message msg => has_header msg | Round _ msec => msec <= t end.

(** The tokens that there will have been at time [t]. *)
Definition credit (t : Z) (rl : rate_limiter) : Z :=
  tokens rl + (t - last_fill rl) * rate_limit (rl_settings rl).

(** What an event, or several, did: the messages [arrived] came, [l] were passed on,
    and some were dropped, which happens only when the queues are full. *)
Record accounts (t : Z) (rl : rate_limiter) (arrived l : list (list Z)) (rl' : rate_limiter) : Prop := {
  ac_ok : limiter_ok rl';
  ac_settings : rl_settings rl' = rl_settings rl;
  ac_fill : last_fill rl <= t → last_fill rl' <= t;
  ac_credit : 1000 * Z.of_nat (length l) + credit t rl' <= credit t rl;
  ac_messages : ∃ dropped, concat (queues rl) ++ arrived ≡ₚ l ++ dropped ++ concat (queues rl') ∧
    (n_queued rl + Z.of_nat (length arrived) <= burst_limit (rl_settings rl) → dropped = []);
}.

Lemma size_concat (qs : list ofp_queue) : size qs = length (concat qs).
Proof. induction qs as [|q qs IH]; [done|]. unfold size in *. simpl. by rewrite length_app, IH. Qed.

Lemma queued_concat rl : limiter_ok rl → n_queued rl = Z.of_nat (length (concat (queues rl))).
Proof. intros Hok. by rewrite <-size_concat, (lo_queued _ Hok). Qed.

Lemma accounts_refl t rl : limiter_ok rl → accounts t rl [] [] rl.
Proof. intros Hok. split; try done. exists []. by rewrite app_nil_r. Qed.

Lemma accounts_trans t rl a l rl1 a' l' rl2 :
  limiter_ok rl → accounts t rl a l rl1 → accounts t rl1 a' l' rl2 → accounts t rl (a ++ a') (l ++ l') rl2.
Proof.
  intros Hok [H1 H2 H3 H4 (d & Hd & Hd')] [G1 G2 G3 G4 (e & He & He')]. split; [done|congruence|auto| |].
  - rewrite length_app. lia.
  - exists (d ++ e). split.
    + rewrite app_assoc, Hd, <-!app_assoc, He. solve_Permutation.
    + rewrite length_app. intros Hb. rewrite Hd' in * by lia. rewrite H2 in He'. rewrite He'; [done|].
      apply Permutation_length in Hd. rewrite !length_app in Hd. cbn [app] in Hd.
      rewrite (queued_concat rl1), (queued_concat rl) in * by done. lia.
Qed.

(** ** Messages *)

Lemma local_packet_eq msg rl :
  has_header msg → rate_limit_local_packet_cb random msg rl =
    if negb (limited msg) then Ok (false, rl)
    else if (n_queued rl =? 0) && (1000 <=? tokens rl)
    then Ok (false, rl <| tokens := tokens rl - 1000 |> <| n_normal := n_normal rl + 1 |>)
    else
      rl ← (if burst_limit (rl_settings rl) <=? n_queued rl then drop_packet random rl else Ok rl);
      q ← deref (queues rl !! home msg);
      Ok (true, rl <| queues := <[home msg := queue_push_tail q msg]> (queues rl) |>
                   <| n_queued := n_queued rl + 1 |> <| n_limited := n_limited rl + 1 |>).
Proof.
  intros Hm. unfold has_header in Hm. unfold rate_limit_local_packet_cb, get_ofp_packet_in, limited.
  rewrite (load_eq msg 1 1) by lia. cbn [mbind comp_bind].
  destruct (_ =? OFPT_PACKET_IN); cbn [andb negb]; [|done].
  destruct (Nat.leb_spec 18 (length msg)); cbn [andb negb]; [|done].
  rewrite (load_eq msg 16 1) by lia. cbn [mbind comp_bind]. destruct (_ =? OFPR_ACTION); cbn [negb]; [done|].
  unfold get_token. destruct (n_queued rl =? 0), (1000 <=? tokens rl); cbn [andb]; try done;
    rewrite load_eq by lia; done.
Qed.

(** Room for one more packet. *)
Lemma make_room_spec rl :
  limiter_ok rl →
  wp (if burst_limit (rl_settings rl) <=? n_queued rl then drop_packet random rl else Ok rl) (λ rl',
    limiter_ok rl' ∧ rl_settings rl' = rl_settings rl ∧ tokens rl' = tokens rl ∧ last_fill rl' = last_fill rl ∧
    n_queued rl' < burst_limit (rl_settings rl) ∧
    ∃ dropped, concat (queues rl) ≡ₚ dropped ++ concat (queues rl') ∧
      (n_queued rl < burst_limit (rl_settings rl) → dropped = [])).
Proof.
  intros Hok. pose proof (lo_bound _ Hok). pose proof (lo_burst _ Hok).
  destruct (Z.leb_spec (burst_limit (rl_settings rl)) (n_queued rl)) as [Hf|Hf].
  - destruct (drop_packet_spec rl Hok ltac:(lia)) as (i & b & q & pos & Hi & _ & ->). set (rl' := rl <| queues := _ |> <| n_queued := _ |> <| n_random := _ |>).
    split_and!; try done; [by eapply (pop_ok rl rl' i b q); try done; apply Hok|cbn; lia|].
    exists [b]. split; [by apply concat_pop|lia].
  - split_and!; try done. by exists [].
Qed.

Lemma enqueue_spec t msg rl :
  limiter_ok rl → has_header msg →
  wp (rl ← (if burst_limit (rl_settings rl) <=? n_queued rl then drop_packet random rl else Ok rl);
      q ← deref (queues rl !! home msg);
      Ok (true, rl <| queues := <[home msg := queue_push_tail q msg]> (queues rl) |>
                   <| n_queued := n_queued rl + 1 |> <| n_limited := n_limited rl + 1 |>))
    (λ '(taken, rl'), taken = true ∧ accounts t rl [msg] [] rl').
Proof.
  intros Hok Hm. apply wp_bind. eapply wp_mono; [by apply make_room_spec|]. cbn beta.
  intros rl1 (Hok1 & Es & Et & Ef & Hlt & d & Hd & Hd').
  destruct (lookup_lt_is_Some_2 (queues rl1) (home msg)) as [q Hq].
  { rewrite (lo_length _ Hok1). apply home_bound. }
  rewrite Hq. cbn [deref mbind comp_bind wp]. split; [done|].
  pose proof (push_ok rl1 msg q Hok1 Hm ltac:(by rewrite Es) Hq) as Hok2. split.
  - exact Hok2.
  - exact Es.
  - cbn. by rewrite Ef.
  - unfold credit. cbn. rewrite Es, Et, Ef. lia.
  - exists d. split; [|intros Hb; apply Hd'; simpl in Hb; lia]. cbn [app].
    change (queues _) with (<[home msg := queue_push_tail q msg]> (queues rl1)) at 2.
    pose proof (concat_insert _ _ _ (queue_push_tail q msg) Hq) as Hc. unfold queue_push_tail in *.
    rewrite Hd, <-app_assoc. apply Permutation_app_head, (Permutation_app_inv_r q). rewrite Hc. solve_Permutation.
Qed.

Lemma message_spec t msg rl :
  limiter_ok rl → has_header msg →
  wp (run_event (Message msg) rl) (λ '(l, rl'), accounts t rl (arrivals (Message msg)) l rl').
Proof.
  intros Hok Hm. unfold run_event, arrivals. rewrite local_packet_eq by done.
  destruct (limited msg) eqn:El; cbn [negb]; [|by apply accounts_refl].
  destruct ((n_queued rl =? 0) && (1000 <=? tokens rl)) eqn:E.
  - apply andb_true_iff in E as [E0 Et]. apply Z.eqb_eq in E0. apply Z.leb_le in Et.
    split; try done; [destruct Hok; split; try done; cbn; lia|unfold credit; cbn; lia|].
    exists []. split; [cbn [app]; by rewrite Permutation_app_comm|done].
  - apply wp_bind. eapply wp_mono; [by apply (enqueue_spec t)|]. by intros [taken rl'] [-> Ha].
Qed.

Lemma round_spec t now msec rl :
  limiter_ok rl → msec <= t →
  wp (run_event (Round now msec) rl) (λ '(l, rl'), accounts t rl [] l rl').
Proof.
  intros Hok Ht. unfold run_event, rate_limit_periodic_cb.
  eapply wp_mono; [apply drain_spec; [by apply refill_ok|lia..]|].
  intros [l rl'] (Hok' & Es & Ef & Hl & Hp). revert Es Ef Hl Hp. unfold refill_bucket.
  destruct (Z.leb_spec 1000 ((msec - last_fill rl) * rate_limit (rl_settings rl) + tokens rl));
    intros Es Ef Hl Hp; cbn in Es, Ef, Hl; (split; [done|done|rewrite Ef; lia| |]);
    try (exists []; rewrite app_nil_r; done); unfold credit; rewrite Es, Ef; nia.
Qed.

Lemma events_spec t evs rl :
  limiter_ok rl → Forall (event_ok t) evs →
  wp (run_events evs rl) (λ '(l, rl'), accounts t rl (evs ≫= arrivals) l rl').
Proof.
  intros Hok Hev. revert rl Hok. induction Hev as [|ev evs Hev _ IH]; intros rl Hok; cbn [run_events].
  { by apply accounts_refl. }
  apply wp_bind. apply (wp_mono _ (λ '(l, rl'), accounts t rl (arrivals ev) l rl')).
  { destruct ev; [by apply message_spec|by apply round_spec]. }
  intros [l rl1] H1. apply wp_bind. eapply wp_mono; [apply IH, H1|]. intros [l' rl2] H2.
  by eapply accounts_trans.
Qed.

Lemma heads_refill msec rl n : heads (refill_bucket msec rl) n = heads rl n.
Proof. unfold refill_bucket. by destruct (1000 <=? _). Qed.

Lemma refill_more msec rl :
  last_fill rl <= msec → 0 <= rate_limit (rl_settings rl) →
  tokens rl <= burst_limit (rl_settings rl) * 1000 → tokens rl <= tokens (refill_bucket msec rl).
Proof. intros Hf Hr Hb. unfold refill_bucket. destruct (1000 <=? _); [cbn|]; nia. Qed.

(** ** Theorems *)

(** C17: whatever messages arrive and whenever the main loop runs, the limiter does not
    crash and keeps at most [burst_limit] messages.  Up to any time, the messages
    subject to the limit that reach the controller are no more than the tokens that
    there were and those that the rate has since added pay for.  Every such message
    that arrived is passed on once, or still waits, or was dropped, and none is
    dropped unless the queues are full. *)
Theorem rate_limited t evs rl :
  limiter_ok rl → Forall (event_ok t) evs → last_fill rl <= t → 0 <= rate_limit (rl_settings rl) →
  wp (run_events evs rl) (λ '(l, rl'), limiter_ok rl' ∧
    0 <= n_queued rl' <= burst_limit (rl_settings rl) ∧
    1000 * Z.of_nat (length l) <= tokens rl + (t - last_fill rl) * rate_limit (rl_settings rl) ∧
    ∃ dropped, concat (queues rl) ++ (evs ≫= arrivals) ≡ₚ l ++ dropped ++ concat (queues rl') ∧
      (n_queued rl + Z.of_nat (length (evs ≫= arrivals)) <= burst_limit (rl_settings rl) → dropped = [])).
Proof.
  intros Hok Hev Hf Hr. eapply wp_mono; [by apply (events_spec t)|].
  intros [l rl'] [H1 H2 H3 H4 H5]. specialize (H3 Hf). pose proof (lo_bound _ H1) as Hb. rewrite H2 in Hb.
  pose proof (lo_tokens _ H1). split_and!; [done|rewrite (lo_queued _ H1); lia|done| |done].
  unfold credit in H4. rewrite H2 in H4. nia.
Qed.

(** C30: the ports are served in turn.  When there are tokens for one packet of every
    port that has packets waiting, of which there are at most fifty, and the clock has
    not gone back since the bucket was filled, a round of the main loop first sends the oldest packet of each of these ports, in the order of
    the ports from the next one on, before it sends a second packet of any. *)
Theorem rate_limit_fair now msec rl :
  limiter_ok rl → last_fill rl <= msec → 0 <= rate_limit (rl_settings rl) →
  tokens rl <= burst_limit (rl_settings rl) * 1000 →
  Z.of_nat (length (heads rl (Z.to_nat OFPP_MAX))) <= 50 →
  1000 * Z.of_nat (length (heads rl (Z.to_nat OFPP_MAX))) <= tokens rl →
  wp (rate_limit_periodic_cb now msec rl) (λ '(l, _), heads rl (Z.to_nat OFPP_MAX) `prefix_of` l).
Proof.
  intros Hok Hf Hr Hb Hc Ht. pose proof (refill_more msec rl Hf Hr Hb) as Hm.
  unfold rate_limit_periodic_cb. rewrite <-(heads_refill msec) in Hc, Ht |- *.
  assert (0 <= OFPP_MAX) by done. apply drain_heads; [by apply refill_ok|lia..].
Qed.

End random.

(** ** A limiter *)

Definition ex_limiter : rate_limiter :=
  mk_limiter (mk_settings 1000 250) RconnProps.probing (replicate (Z.to_nat OFPP_MAX) queue_init) 0 0 0 100000 0 0 0 0 0.

Lemma ex_limiter_started : rate_limit_start (mk_settings 1000 250) 0 RconnProps.probing = Ok ex_limiter.
Proof. reflexivity. Qed.

Lemma ex_limiter_ok : limiter_ok ex_limiter.
Proof.
  split; [apply length_replicate| |done|done|done|done|apply RconnProps.probing_ok|].
  - change (0 = Z.of_nat (size (replicate (Z.to_nat OFPP_MAX) []))). by rewrite size_replicate.
  - intros i q b [-> _]%lookup_replicate Hb. by apply not_elem_of_nil in Hb.
Qed.

(** A packet-in message from a port. *)
Definition ex_message (port : Z) : list Z :=
  [OFP_VERSION; OFPT_PACKET_IN; 0; 18; 0; 0; 0; 0; 255; 255; 255; 255; 0; 0; 0; port; OFPR_NO_MATCH; 0].

Lemma rate_limited_witness :
  wp (run_events (λ _, 7) [Message (ex_message 1); Round 0 20; Message (ex_message 2)] ex_limiter)
    (λ '(l, _), 1000 * Z.of_nat (length l) <= 120000).
Proof.
  eapply wp_mono; [apply (rate_limited (λ _, 7) 20 _ ex_limiter)|].
  - apply ex_limiter_ok.
  - repeat constructor; unfold event_ok, has_header; simpl; lia.
  - done.
  - done.
  - intros [l rl'] (_ & _ & H & _). exact H.
Defined.

(** Two ports wait. *)
Definition ex_join (port : Z) (rl : rate_limiter) : rate_limiter :=
  rl <| queues := <[home (ex_message port) := queue_push_tail [] (ex_message port)]> (queues rl) |>
     <| n_queued := n_queued rl + 1 |> <| n_limited := n_limited rl + 1 |>.
Definition ex_waiting : rate_limiter := ex_join 2 (ex_join 1 ex_limiter).

Lemma ex_replicate i : (i < Z.to_nat OFPP_MAX)%nat → replicate (Z.to_nat OFPP_MAX) queue_init !! i = Some [].
Proof. intros Hi. by apply lookup_replicate_2. Qed.

Lemma ex_waiting_ok : limiter_ok ex_waiting.
Proof.
  assert (home (ex_message 1) = 1%nat ∧ home (ex_message 2) = 2%nat) as [E1 E2] by (split; reflexivity).
  apply (push_ok (ex_join 1 ex_limiter)); [|unfold has_header; simpl; lia|done|].
  - apply (push_ok ex_limiter); [apply ex_limiter_ok|unfold has_header; simpl; lia|done|].
    apply ex_replicate, home_bound.
  - unfold ex_join. change (queues _) with (<[home (ex_message 1) := [ex_message 1]]> (queues ex_limiter)).
    rewrite E1, E2, list_lookup_insert_ne by done. apply ex_replicate. unfold OFPP_MAX. lia.
Qed.

Lemma two_queues n m1 m2 i : (i < n)%nat →
  <[2%nat := [m2]]> (<[1%nat := [m1]]> (replicate n ([] : ofp_queue))) !! i =
    Some (if decide (i = 1)%nat then [m1] else if decide (i = 2)%nat then [m2] else []).
Proof.
  intros Hi. rewrite !list_lookup_insert, !length_insert, length_replicate, lookup_replicate_2 by done.
  repeat case_decide; try done; lia.
Qed.

Lemma heads_two rl n m1 m2 :
  next_tx_port rl = 0 → Z.of_nat n <= OFPP_MAX → (3 ≤ n)%nat →
  (∀ i, (i < n)%nat → queues rl !! i =
     Some (if decide (i = 1)%nat then [m1] else if decide (i = 2)%nat then [m2] else [])) →
  heads rl n = [m1; m2].
Proof.
  intros Ep Hn H3 Hq.
  assert (∀ k, (k < n)%nat → queues rl !! port_at rl (Z.of_nat k) ≫= head =
    if decide (k = 1)%nat then Some m1 else if decide (k = 2)%nat then Some m2 else None) as Hk.
  { intros k Hk. unfold port_at. rewrite Ep, Z.add_0_l, Z.mod_small, Nat2Z.id, Hq by lia.
    by repeat case_decide. }
  unfold heads. replace n with (3 + (n - 3))%nat by lia. rewrite seq_app, omap_app.
  rewrite (omap_none _ (seq (0 + 3) (n - 3))).
  - cbn [seq omap list_omap]. by rewrite !Hk by lia.
  - intros k [H1 H2]%elem_of_seq. rewrite Hk by lia. by repeat case_decide; [lia..|].
Qed.

Lemma ex_queues i : (i < Z.to_nat OFPP_MAX)%nat → queues ex_waiting !! i =
  Some (if decide (i = 1)%nat then [ex_message 1] else if decide (i = 2)%nat then [ex_message 2] else []).
Proof.
  change (queues ex_waiting) with (<[home (ex_message 2) := [ex_message 2]]>
    (<[home (ex_message 1) := [ex_message 1]]> (replicate (Z.to_nat OFPP_MAX) queue_init))).
  assert (home (ex_message 1) = 1%nat ∧ home (ex_message 2) = 2%nat) as [-> ->] by (split; reflexivity).
  generalize (Z.to_nat OFPP_MAX). intros n. apply two_queues.
Qed.

Lemma rate_limit_fair_witness :
  wp (rate_limit_periodic_cb 0 20 ex_waiting) (λ '(l, _), [ex_message 1; ex_message 2] `prefix_of` l).
Proof.
  assert (heads ex_waiting (Z.to_nat OFPP_MAX) = [ex_message 1; ex_message 2]) as E.
  { apply heads_two; [reflexivity|unfold OFPP_MAX; lia|unfold OFPP_MAX; lia|apply ex_queues]. }
  rewrite <-E. apply (rate_limit_fair 0 20 ex_waiting);
    [apply ex_waiting_ok|discriminate|discriminate|discriminate|rewrite E; discriminate..].
Defined.

End RateLimitFacts.
