(* ===== verification/Stream.v ===== *)
(** * lib/vconn-stream.c: messages over a byte stream

    OpenFlow messages are written to a socket one after the other, and cut out of the
    bytes that a socket delivers by the length in their headers.  The socket is the
    environment: [sk_in] are the pieces in which the peer's bytes will arrive, followed
    by [sk_end] (no more bytes yet, the end of the stream, or an error), [sk_out] the
    results of the next writes, [sk_connect] those of the next checks whether the
    connection is complete.  The poll loop calls [stream_do_tx] for a stream with a
    waiter when the socket becomes writable.  A buffer is the list of its bytes. *)

From S2P Require Import Prelude Ofp Rconn.
Import Ofp Rconn.

Module Stream.

Definition EPROTO : Z := 71.

(** ** Sockets *)

Record socket := mk_socket {
  sk_connect : list Z;
  sk_in : list (list Z);
  sk_end : Z;
  sk_out : list Z;
  sk_written : list Z;
}.
#[export] Instance socket_eta : Eta socket := λ s,
  mk_socket (sk_connect s) (sk_in s) (sk_end s) (sk_out s) (sk_written s).

(** read(2) of at most [want] bytes: the bytes, or zero at the end, or an error. *)
Definition read (want : nat) (sk : socket) : (list Z + Z) * socket :=
  match sk_in sk with
  | [] => (inr (sk_end sk), sk)
  | c :: l =>
      (inl (take want c), sk <| sk_in := match drop want c with [] => l | c => c :: l end |>)
  end.

(** write(2): the number of bytes that were taken, or a negative error. *)
Definition write (b : list Z) (sk : socket) : Z * socket :=
  match sk_out sk with
  | [] => (- EAGAIN, sk)
  | r :: l =>
      if r <? 0 then (r, sk <| sk_out := l |>)
      else
        let n := Z.min r (Z.of_nat (length b)) in
        (n, sk <| sk_out := l |> <| sk_written := sk_written sk ++ take (Z.to_nat n) b |>)
  end.

(** ** Streams *)

Record stream_vconn := mk_stream {
  s_fd : socket;
  rxbuf : option (list Z);
  txbuf : option (list Z);
  tx_waiter : bool;
}.
#[export] Instance stream_eta : Eta stream_vconn := λ s, mk_stream (s_fd s) (rxbuf s) (txbuf s) (tx_waiter s).

Definition new_stream_vconn (fd : socket) : stream_vconn := mk_stream fd None None false.

Definition stream_connect (s : stream_vconn) : Z * stream_vconn :=
  match sk_connect (s_fd s) with
  | [] => (EAGAIN, s)
  | r :: l => (r, s <| s_fd := (s_fd s) <| sk_connect := l |> |>)
  end.

(** The number of bytes to read next, or a message that is complete, or an error. *)
Inductive wanted := Want (n : nat) | Complete | Broken.

Definition want_bytes (rx : list Z) : comp wanted :=
  if (length rx <? 8)%nat then Ok (Want (8 - length rx))
  else
    len ← load rx 2 2;
    let length_ := ntohs len in
    if length_ <? 8 then Ok Broken
    else
      let want := u64 (length_ - Z.of_nat (length rx)) in
      Ok (if want =? 0 then Complete else Want (Z.to_nat want)).

(** The code from the label [again] on, with the result, the message and the stream. *)
Fixpoint recv_again (fuel : nat) (rx : list Z) (s : stream_vconn) : comp (Z * list Z * stream_vconn) :=
  match fuel with
  | O => NoFuel
  | S fuel =>
      w ← want_bytes rx;
      match w with
      | Broken => Ok (EPROTO, [], s <| rxbuf := Some rx |>)
      | Complete => Ok (0, rx, s <| rxbuf := None |>)
      | Want want =>
          let '(r, fd) := read want (s_fd s) in
          let s := s <| s_fd := fd |> in
          match r with
          | inl ((_ :: _) as bytes) =>
              let rx := rx ++ bytes in
              if (length bytes =? want)%nat then
                if (8 <? length rx)%nat then Ok (0, rx, s <| rxbuf := None |>)
                else recv_again fuel rx s
              else Ok (EAGAIN, [], s <| rxbuf := Some rx |>)
          | inl [] | inr 0 => Ok (if truth (Z.of_nat (length rx)) then EPROTO else EOF, [], s <| rxbuf := Some rx |>)
          | inr errno => Ok (errno, [], s <| rxbuf := Some rx |>)
          end
      end
  end.

Definition stream_recv (s : stream_vconn) : comp (Z * list Z * stream_vconn) :=
  recv_again 2 (default [] (rxbuf s)) s.

Definition stream_clear_txbuf (s : stream_vconn) : stream_vconn := s <| txbuf := None |> <| tx_waiter := false |>.

(** The socket is writable. *)
Definition stream_do_tx (s : stream_vconn) : comp stream_vconn :=
  b ← deref (txbuf s);
  let '(n, fd) := write b (s_fd s) in
  let s := s <| s_fd := fd |> in
  if n <? 0 then
    if negb (n =? - EAGAIN) then Ok (stream_clear_txbuf s) else Ok (s <| tx_waiter := true |>)
  else if 0 <? n then
    let b := drop (Z.to_nat n) b in
    let s := s <| txbuf := Some b |> in
    if (length b =? 0)%nat then Ok (stream_clear_txbuf s) else Ok (s <| tx_waiter := true |>)
  else Ok (s <| tx_waiter := true |>).

Definition stream_send (s : stream_vconn) (b : list Z) : Z * stream_vconn :=
  match txbuf s with
  | Some _ => (EAGAIN, s)
  | None =>
      let '(n, fd) := write b (s_fd s) in
      let s := s <| s_fd := fd |> in
      if n =? Z.of_nat (length b) then (0, s)
      else if (0 <=? n) || (n =? - EAGAIN) then
        (0, s <| txbuf := Some (if 0 <? n then drop (Z.to_nat n) b else b) |> <| tx_waiter := true |>)
      else (- n, s)
  end.

(** ** Waiting *)

Inductive wait_type := WAIT_CONNECT | WAIT_RECV | WAIT_SEND.
Inductive poll_event := POLLIN | POLLOUT.

(** The event that wakes the caller, besides that of the waiter. *)
Definition stream_wait (s : stream_vconn) (w : wait_type) : option poll_event :=
  match w with
  | WAIT_CONNECT => Some POLLOUT
  | WAIT_SEND => match txbuf s with Some _ => None | None => Some POLLOUT end
  | WAIT_RECV => Some POLLIN
  end.

End Stream.
