(* ===== verification/StreamFacts.v ===== *)
(** * Messages survive the byte stream

    Whatever pieces the network cuts the stream into, and however often a write takes
    only a part of a message, the receiver gets exactly the messages that the sender's
    stream accepted, whole and in order. *)

From S2P Require Import Prelude Ofp Rconn Stream.
Import Ofp Rconn Stream.

Module StreamFacts.

(** A message whose header has its length. *)
Definition framed (m : list Z) : Prop := (8 ≤ length m)%nat ∧ ntohs (int_at m 2 2) = Z.of_nat (length m).

Definition pieces_ok (sk : socket) : Prop := Forall (λ c, c ≠ []) (sk_in sk).

(** What the receiver has not delivered yet. *)
Definition unread (rx : list Z) (s : stream_vconn) : list Z := rx ++ concat (sk_in (s_fd s)).

(** Reading leaves the other half of a socket alone. *)
Definition same_out (sk sk' : socket) : Prop :=
  sk_out sk' = sk_out sk ∧ sk_written sk' = sk_written sk ∧ sk_connect sk' = sk_connect sk.

Lemma read_some want sk :
  pieces_ok sk → sk_in sk ≠ [] → (0 < want)%nat →
  ∃ bytes sk', read want sk = (inl bytes, sk') ∧ bytes ≠ [] ∧ (length bytes ≤ want)%nat ∧
    concat (sk_in sk) = bytes ++ concat (sk_in sk') ∧ pieces_ok sk' ∧ same_out sk sk'.
Proof.
  intros Hok Hne Hw. unfold pieces_ok, read in *. destruct (sk_in sk) as [|c l]; [done|].
  apply Forall_cons in Hok as [Hc Hl]. eexists _, _. split; [reflexivity|].
  split; [destruct c, want; done || lia|]. split; [rewrite length_take; lia|].
  cbn [concat sk_in]. rewrite <-(take_drop want c) at 1. change (sk_in (sk <| sk_in := ?x |>)) with x.
  destruct (drop want c) as [|y d] eqn:E; cbn [concat]; rewrite ?app_nil_r, <-?app_assoc; split_and!; try done.
  by constructor.
Qed.

Lemma prefix_short (a b c : list Z) : a `prefix_of` b ++ c → (length a ≤ length b)%nat → a `prefix_of` b.
Proof.
  intros Ha Hl. destruct (prefix_weak_total a b (b ++ c)) as [?|Hb]; [done|by apply prefix_app_r|done|].
  by rewrite (prefix_length_eq b a).
Qed.

Lemma want_header rx : (length rx < 8)%nat → want_bytes rx = Ok (Want (8 - length rx)).
Proof. intros H. unfold want_bytes. by rewrite (proj2 (Nat.ltb_lt _ _)). Qed.

Lemma want_body rx m :
  framed m → rx `prefix_of` m → (8 ≤ length rx)%nat →
  want_bytes rx = Ok (if decide (length rx = length m) then Complete else Want (length m - length rx)).
Proof.
  intros [H8 Hm] Hp Hl. pose proof (prefix_length _ _ Hp) as Hlm. unfold want_bytes.
  rewrite (proj2 (Nat.ltb_ge _ _)), load_eq by lia. cbn [mbind comp_bind].
  assert (int_at rx 2 2 = int_at m 2 2) as ->.
  { destruct Hp as [k ->]. unfold int_at, bytes_at. rewrite drop_app_le, take_app_le by (rewrite ?length_drop; lia). done. }
  rewrite Hm, (proj2 (Z.ltb_ge _ _)) by lia. unfold u64.
  pose proof (htons_range (int_at m 2 2)) as Hr. fold (ntohs (int_at m 2 2)) in Hr. 
  case_decide as E.
  - rewrite E, Z.sub_diag. done.
  - rewrite Z.mod_small by (change (htons (int_at m 2 2)) with (ntohs (int_at m 2 2)) in Hr; lia).
    rewrite (proj2 (Z.eqb_neq _ _)) by lia. do 2 f_equal. lia.
Qed.

(** ** Receiving *)

(** The receiver has part of the first of the messages [msgs], of which the rest, and
    perhaps not all, is under way. *)
Record receiving (msgs : list (list Z)) (rx : list Z) (s : stream_vconn) : Prop := {
  rg_framed : Forall framed msgs;
  rg_pieces : pieces_ok (s_fd s);
  rg_bytes : unread rx s `prefix_of` concat msgs;
  rg_partial : match msgs with [] => rx = [] | m :: _ => (length rx < length m)%nat end;
}.

Definition receiver_ok msgs s : Prop := receiving msgs (default [] (rxbuf s)) s.

(** What a call does: it delivers the first message, or it leaves the receiver waiting;
    if there are bytes, it reads some. *)
Definition same_tx (s s' : stream_vconn) : Prop :=
  txbuf s' = txbuf s ∧ tx_waiter s' = tx_waiter s ∧ same_out (s_fd s) (s_fd s').

Definition recv_result (msgs : list (list Z)) (rx : list Z) (s : stream_vconn) : Z * list Z * stream_vconn → Prop :=
  λ '(r, b, s'),
    let pending s := length (concat (sk_in (s_fd s))) in
    (pending s' ≤ pending s)%nat ∧ (sk_in (s_fd s) ≠ [] → (pending s' < pending s)%nat) ∧
    same_tx s s' ∧
    ((r = 0 ∧ ∃ msgs', msgs = b :: msgs' ∧ receiver_ok msgs' s' ∧ unread rx s = b ++ unread [] s' ∧ rxbuf s' = None) ∨
     (r ≠ 0 ∧ receiver_ok msgs s' ∧ unread (default [] (rxbuf s')) s' = unread rx s)).

(** The first message is complete. *)
Lemma deliver m msgs rx s s' :
  Forall framed (m :: msgs) → pieces_ok (s_fd s') → rx ++ concat (sk_in (s_fd s)) `prefix_of` concat (m :: msgs) →
  rx ++ concat (sk_in (s_fd s)) = m ++ concat (sk_in (s_fd s')) → rxbuf s' = None → receiver_ok msgs s'.
Proof.
  intros [Hm Hf]%Forall_cons Hp Hu E En. unfold receiver_ok. rewrite En. split; try done.
  - rewrite E in Hu. by apply prefix_app_inv in Hu.
  - destruct msgs as [|m' msgs]; [done|]. apply Forall_cons in Hf as [[H8 _] _]. simpl. lia.
Qed.

(** Nothing to read. *)
Lemma recv_nothing fuel msgs rx s n :
  receiving msgs rx s → want_bytes rx = Ok (Want n) → sk_in (s_fd s) = [] →
  wp (recv_again (S fuel) rx s) (recv_result msgs rx s).
Proof.
  intros Hr Hw Hin. cbn [recv_again]. rewrite Hw. cbn [mbind comp_bind]. unfold read. rewrite Hin.
  assert (∀ r, r ≠ 0 → recv_result msgs rx s (r, [], s <| s_fd := s_fd s |> <| rxbuf := Some rx |>)) as Hres.
  { intros r Hr0. unfold recv_result. cbn. split; [done|]. split; [done|]. split; [done|]. right.
    split; [done|]. split; [|done]. unfold receiver_ok. cbn. destruct Hr. by split. }
  destruct (sk_end (s_fd s)) as [|e|e]; [|by apply Hres..]. apply Hres. by destruct (truth _).
Qed.

(** A part of what is wanted. *)
Lemma recv_part msgs rx s bytes sk' :
  receiving msgs rx s → pieces_ok sk' → same_out (s_fd s) sk' → concat (sk_in (s_fd s)) = bytes ++ concat (sk_in sk') → bytes ≠ [] →
  match msgs with [] => False | m :: _ => (length (rx ++ bytes) < length m)%nat end →
  recv_result msgs rx s (EAGAIN, [], s <| s_fd := sk' |> <| rxbuf := Some (rx ++ bytes) |>).
Proof.
  intros [H1 H2 H3 H4] Hp Ho E Hb Hl. unfold recv_result. cbn. rewrite E, length_app.
  destruct bytes as [|x bytes]; [done|]. cbn [length]. split; [lia|]. split; [lia|]. split; [done|]. right.
  split; [done|]. unfold receiver_ok, unread in *. cbn. split; [|by rewrite E, <-app_assoc].
  split; try done; [unfold unread; cbn; by rewrite <-app_assoc, <-E|by destruct msgs].
Qed.

Lemma framed_prefix m msgs rx s bytes sk' :
  unread rx s `prefix_of` concat (m :: msgs) → concat (sk_in (s_fd s)) = bytes ++ concat (sk_in sk') →
  (length (rx ++ bytes) ≤ length m)%nat → rx ++ bytes `prefix_of` m.
Proof.
  intros Hu E Hl. apply (prefix_short _ _ (concat msgs)); [|done]. etrans; [|exact Hu].
  unfold unread. rewrite E, app_assoc. by apply prefix_app_r.
Qed.

(** The header is there. *)
Lemma recv_body fuel m msgs rx s :
  Forall framed (m :: msgs) → pieces_ok (s_fd s) → unread rx s `prefix_of` concat (m :: msgs) →
  (8 ≤ length rx < length m)%nat → wp (recv_again (S fuel) rx s) (recv_result (m :: msgs) rx s).
Proof.
  intros Hf Hp Hu [H8 Hlm]. assert (receiving (m :: msgs) rx s) as Hr by by split.
  assert (rx `prefix_of` m) as Hpre.
  { apply (prefix_short _ _ (concat msgs)); [|lia]. etrans; [|exact Hu]. by apply prefix_app_r. }
  pose proof (want_body rx m ltac:(by apply Forall_cons in Hf as [? _]) Hpre H8) as Hw.
  rewrite decide_False in Hw by lia.
  destruct (decide (sk_in (s_fd s) = [])) as [Hin|Hin]; [by eapply recv_nothing|].
  destruct (read_some (length m - length rx) (s_fd s) Hp Hin ltac:(lia)) as (bytes & sk' & Er & Hb & Hl & E & Hp' & Ho).
  cbn [recv_again]. rewrite Hw. cbn [mbind comp_bind]. rewrite Er. destruct bytes as [|x bytes]; [done|].
  set (bs := x :: bytes) in *. destruct (Nat.eqb_spec (length bs) (length m - length rx)) as [El|El].
  - rewrite (proj2 (Nat.ltb_lt 8 _)) by (rewrite length_app; lia).
    assert (rx ++ bs = m) as Em.
    { apply prefix_length_eq; [|rewrite length_app; lia].
      eapply framed_prefix; [exact Hu|exact E|]. rewrite length_app. lia. }
    unfold recv_result. cbn. rewrite E, length_app, Em. assert (0 < length bs)%nat by (simpl; lia).
    split; [lia|]. split; [lia|]. split; [done|]. left. split; [done|]. exists msgs.
    split; [done|]. assert (unread rx s = m ++ concat (sk_in sk')) as Eu.
    { unfold unread. by rewrite E, app_assoc, Em. }
    split; [|done]. eapply (deliver m msgs rx s); try done.
  - apply recv_part; try done. rewrite length_app. lia.
Qed.

(** Reading the header first. *)
Lemma recv_result_step msgs rx s rx1 s1 res :
  unread rx1 s1 = unread rx s → (length (concat (sk_in (s_fd s1))) < length (concat (sk_in (s_fd s))))%nat →
  same_tx s s1 → recv_result msgs rx1 s1 res → recv_result msgs rx s res.
Proof.
  intros Eu Hl (T1 & T2 & T3 & T4 & T5). destruct res as [[r b] s']. unfold recv_result, same_tx, same_out.
  rewrite Eu, T1, T2, T3, T4, T5. intros (H1 & _ & H2 & H3). split; [lia|]. split; [lia|]. by split.
Qed.

Lemma recv_header m msgs rx s bytes sk' :
  Forall framed (m :: msgs) → unread rx s `prefix_of` concat (m :: msgs) → pieces_ok sk' → same_out (s_fd s) sk' →
  concat (sk_in (s_fd s)) = bytes ++ concat (sk_in sk') → bytes ≠ [] → length (rx ++ bytes) = 8%nat →
  wp (recv_again 1 (rx ++ bytes) (s <| s_fd := sk' |>)) (recv_result (m :: msgs) rx s).
Proof.
  intros Hf Hu Hp Ho E Hb Hl. set (s1 := s <| s_fd := sk' |>).
  pose proof Hf as [[H8 _] _]%Forall_cons.
  assert (unread (rx ++ bytes) s1 = unread rx s) as Eu by (unfold unread; cbn; by rewrite E, app_assoc).
  assert (length (concat (sk_in sk')) < length (concat (sk_in (s_fd s))))%nat as Hlt.
  { rewrite E, length_app. destruct bytes; [done|]. simpl. lia. }
  destruct (decide (length m = 8)%nat) as [Em|Em].
  - assert (rx ++ bytes = m) as Erx.
    { apply prefix_length_eq; [|lia]. eapply framed_prefix; [exact Hu|exact E|lia]. }
    cbn [recv_again]. rewrite Erx, (want_body m m), decide_True by (done || lia || by apply Forall_cons in Hf as [? _]).
    cbn [mbind comp_bind wp]. unfold recv_result. cbn. split; [lia|]. split; [done|]. split; [done|]. left.
    split; [done|]. exists msgs. split; [done|].
    assert (unread rx s = m ++ concat (sk_in sk')) as Es by (unfold unread; by rewrite E, app_assoc, Erx).
    split; [by eapply (deliver m msgs rx s)|done].
  - apply (wp_mono _ (recv_result (m :: msgs) (rx ++ bytes) s1)); [|intros res; by apply recv_result_step].
    apply recv_body; [done|done|by rewrite Eu|lia].
Qed.

Lemma recv_spec msgs s :
  receiver_ok msgs s → wp (stream_recv s) (recv_result msgs (default [] (rxbuf s)) s).
Proof.
  intros Hr. unfold stream_recv. unfold receiver_ok in Hr. set (rx := default [] (rxbuf s)) in *.
  destruct (Nat.ltb_spec (length rx) 8) as [H8|H8].
  2: { pose proof Hr as [Hf Hp Hu Hl]. destruct msgs as [|m msgs]; [rewrite Hl in H8; simpl in H8; lia|].
       by apply recv_body. }
  pose proof (want_header rx H8) as Hw.
  destruct (decide (sk_in (s_fd s) = [])) as [Hin|Hin]; [by eapply recv_nothing|].
  pose proof Hr as [Hf Hp Hu Hl].
  destruct (read_some (8 - length rx) (s_fd s) Hp Hin ltac:(lia)) as (bytes & sk' & Er & Hb & Hlb & E & Hp' & Ho).
  destruct msgs as [|m msgs].
  { apply prefix_nil_inv in Hu. unfold unread in Hu. rewrite E in Hu. by destruct rx, bytes. }
  cbn [recv_again]. rewrite Hw. cbn [mbind comp_bind]. rewrite Er. destruct bytes as [|x bytes]; [done|].
  set (bs := x :: bytes) in *. destruct (Nat.eqb_spec (length bs) (8 - length rx)) as [El|El].
  - rewrite (proj2 (Nat.ltb_ge 8 _)) by (rewrite length_app; lia).
    apply recv_header; try done. rewrite length_app. lia.
  - apply recv_part; try done. apply Forall_cons in Hf as [[? _] _]. rewrite length_app. lia.
Qed.

(** [n] calls, and the messages that they deliver. *)
Fixpoint receive (n : nat) (s : stream_vconn) : comp (list (list Z) * stream_vconn) :=
  match n with
  | O => Ok ([], s)
  | S n =>
      '(r, b, s) ← stream_recv s;
      '(l, s) ← receive n s;
      Ok (if r =? 0 then b :: l else l, s)
  end.

Lemma receive_spec n msgs s :
  receiver_ok msgs s →
  wp (receive n s) (λ '(l, s'), ∃ msgs', msgs = l ++ msgs' ∧ receiver_ok msgs' s' ∧
    unread (default [] (rxbuf s)) s = concat l ++ unread (default [] (rxbuf s')) s' ∧
    ((length (concat (sk_in (s_fd s))) ≤ n)%nat → sk_in (s_fd s') = [])).
Proof.
  revert msgs s. induction n as [|n IH]; intros msgs s Hok; cbn [receive].
  { exists msgs. split_and!; try done. intros Hn. pose proof (rg_pieces _ _ _ Hok) as Hp. unfold pieces_ok in Hp.
    destruct (sk_in (s_fd s)) as [|[|] l]; [done|by apply Forall_cons in Hp as [? _]|simpl in Hn; lia]. }
  apply wp_bind. eapply wp_mono; [by apply recv_spec|]. intros [[r b] s1] (Hle & Hlt & _ & Hcase).
  assert (∀ k, (k = length (concat (sk_in (s_fd s))) → k ≤ S n → length (concat (sk_in (s_fd s1))) ≤ n)%nat) as Hn.
  { intros k -> Hk. destruct (sk_in (s_fd s)) as [|c l] eqn:Ein; [simpl in Hle; lia|]. specialize (Hlt ltac:(done)). lia. }
  apply wp_bind. destruct Hcase as [(-> & msgs1 & -> & Hok1 & E & En)|(Hr & Hok1 & E)].
  - eapply wp_mono; [by apply IH|]. intros [l s'] (msgs' & -> & Hok' & E' & Hin). exists msgs'.
    split_and!; [done|done| |intros Hk; eapply Hin, Hn; done].
    rewrite En in E'. cbn [default] in E'. cbn [Z.eqb concat]. rewrite E, <-app_assoc. f_equal. exact E'.
  - eapply wp_mono; [by apply IH|]. intros [l s'] (msgs' & -> & Hok' & E' & Hin). exists msgs'.
    rewrite (proj2 (Z.eqb_neq r 0)) by done. rewrite <-E. split_and!; [done|done|done|intros Hk; eapply Hin, Hn; done].
Qed.

(** ** Sending *)

(** The user sends a message, or the socket becomes writable. *)
Inductive tx_event := Send (m : list Z) | Writable.

Definition run_tx (ev : tx_event) (s : stream_vconn) : comp (list (list Z) * stream_vconn) :=
  match ev with
  | Send m => let '(r, s) := stream_send s m in Ok (if r =? 0 then [m] else [], s)
  | Writable => if tx_waiter s then s ← stream_do_tx s; Ok ([], s) else Ok ([], s)
  end.

(** The messages that were accepted. *)
Fixpoint run_txs (evs : list tx_event) (s : stream_vconn) : comp (list (list Z) * stream_vconn) :=
  match evs with
  | [] => Ok ([], s)
  | ev :: evs => '(l, s) ← run_tx ev s; '(l', s) ← run_txs evs s; Ok (l ++ l', s)
  end.

(** Writes do not fail. *)
Definition healthy (sk : socket) : Prop := Forall (λ r, 0 <= r ∨ r = - EAGAIN) (sk_out sk).

(** The messages [l] were accepted. *)
Record sender_ok (l : list (list Z)) (s : stream_vconn) : Prop := {
  so_healthy : healthy (s_fd s);
  so_waiter : tx_waiter s = true → is_Some (txbuf s);
  so_bytes : sk_written (s_fd s) ++ default [] (txbuf s) = concat l;
}.

Lemma write_healthy b sk :
  healthy sk →
  (∃ sk', write b sk = (- EAGAIN, sk') ∧ healthy sk' ∧ sk_written sk' = sk_written sk) ∨
  (∃ n sk', write b sk = (Z.of_nat n, sk') ∧ (n ≤ length b)%nat ∧ healthy sk' ∧
     sk_written sk' = sk_written sk ++ take n b).
Proof.
  intros Hh. unfold healthy, write in *. destruct (sk_out sk) as [|r l] eqn:E.
  - left. exists sk. split_and!; try done. by rewrite E.
  - apply Forall_cons in Hh as [Hr Hl]. destruct (Z.ltb_spec r 0) as [Hn|Hn].
    + left. destruct Hr as [Hr| ->]; [lia|]. by eexists.
    + right. exists (Z.to_nat (Z.min r (Z.of_nat (length b)))).
      rewrite Z2Nat.id by lia. eexists. split; [reflexivity|]. split; [lia|done].
Qed.

Lemma concat_snoc (l : list (list Z)) m : concat (l ++ [m]) = concat l ++ m.
Proof. by rewrite concat_app; simpl; rewrite app_nil_r. Qed.

Lemma send_spec m l s :
  sender_ok l s →
  let '(r, s') := stream_send s m in sender_ok (if r =? 0 then l ++ [m] else l) s'.
Proof.
  intros [Hh Hw Hb]. unfold stream_send. destruct (txbuf s) as [b|] eqn:Et; [by split; rewrite ?Et|].
  simpl in Hb. rewrite app_nil_r in Hb.
  assert (tx_waiter s = false) as Hw0.
  { destruct (tx_waiter s); [|done]. destruct (Hw eq_refl). done. }
  destruct (write_healthy m (s_fd s) Hh) as [(sk' & -> & Hh' & Ew)|(n & sk' & -> & Hn & Hh' & Ew)].
  - rewrite (proj2 (Z.eqb_neq (- EAGAIN) _)) by (unfold EAGAIN; lia). cbn [orb Z.leb Z.eqb].
    change (0 <=? - EAGAIN) with false. rewrite Z.eqb_refl. cbn [orb Z.eqb].
    split; cbn; [done|done|]. by rewrite Ew, Hb, concat_snoc.
  - destruct (Z.eqb_spec (Z.of_nat n) (Z.of_nat (length m))) as [E|E].
    + cbn [Z.eqb]. split; cbn; [done|by rewrite Hw0|]. rewrite Et, Ew, Hb, take_ge by lia.
      by rewrite concat_snoc, app_nil_r.
    + rewrite (proj2 (Z.leb_le 0 _)) by lia. cbn [orb Z.eqb]. split; cbn; [done|done|].
      rewrite Ew, Hb, concat_snoc, <-app_assoc. f_equal.
      destruct (Z.ltb_spec 0 (Z.of_nat n)) as [H0|H0]; [by rewrite Nat2Z.id, take_drop|].
      by replace n with 0%nat by lia.
Qed.

Lemma do_tx_spec l s : sender_ok l s → tx_waiter s = true → wp (stream_do_tx s) (sender_ok l).
Proof.
  intros [Hh Hw Hb] Ht. destruct (Hw Ht) as [b Eb]. rewrite Eb in Hb. simpl in Hb.
  unfold stream_do_tx. rewrite Eb. cbn [deref mbind comp_bind].
  destruct (write_healthy b (s_fd s) Hh) as [(sk' & -> & Hh' & Ew)|(n & sk' & -> & Hn & Hh' & Ew)].
  - change (- EAGAIN <? 0) with true. rewrite Z.eqb_refl. cbn. split; cbn; [done|by rewrite Eb|by rewrite Eb, Ew].
  - rewrite (proj2 (Z.ltb_ge _ 0)) by lia. destruct (Z.ltb_spec 0 (Z.of_nat n)) as [H0|H0].
    + rewrite Nat2Z.id. destruct (Nat.eqb_spec (length (drop n b)) 0) as [E|E]; (split; cbn; [done|done|]).
      * apply length_zero_iff_nil in E. rewrite Ew, app_nil_r, <-Hb. f_equal.
        rewrite <-(take_drop n b) at 2. by rewrite E, app_nil_r.
      * by rewrite Ew, <-app_assoc, take_drop.
    + split; cbn; [done|by rewrite Eb|]. rewrite Eb, Ew. replace n with 0%nat by lia. by rewrite app_nil_r.
Qed.

Lemma run_txs_spec evs l s :
  sender_ok l s →
  wp (run_txs evs s) (λ '(l', s'), sender_ok (l ++ l') s' ∧ ∀ m, m ∈ l' → Send m ∈ evs).
Proof.
  revert l s. induction evs as [|ev evs IH]; intros l s Hok; cbn [run_txs].
  { cbn [wp]. rewrite app_nil_r. split; [done|]. by intros m ?%not_elem_of_nil. }
  apply wp_bind. apply (wp_mono _ (λ '(l', s'), sender_ok (l ++ l') s' ∧ ∀ m, m ∈ l' → Send m ∈ ev :: evs)).
  - destruct ev as [m|]; cbn [run_tx].
    + pose proof (send_spec m l s Hok) as Hs. destruct (stream_send s m) as [r s'].
      cbn [wp]. destruct (r =? 0); rewrite ?app_nil_r; (split; [done|]); intros m' Hm; [|by apply not_elem_of_nil in Hm].
      apply list_elem_of_singleton in Hm as ->. left.
    + destruct (tx_waiter s) eqn:Et; cbn [wp]; [|rewrite app_nil_r; split; [done|]; by intros m ?%not_elem_of_nil].
      apply wp_bind. eapply wp_mono; [by apply do_tx_spec|]. intros s' Hs. cbn [wp]. rewrite app_nil_r.
      split; [done|]. by intros m ?%not_elem_of_nil.
  - intros [l1 s1] [H1 H1']. apply wp_bind. eapply wp_mono; [by apply (IH (l ++ l1))|].
    intros [l2 s2] [H2 H2']. cbn [wp]. rewrite app_assoc. split; [done|].
    intros m [Hm|Hm]%elem_of_app; [by apply H1'|]. right. by apply H2'.
Qed.

(** C6: messages survive the byte stream.  A sender's messages are accepted or refused,
    and written piece by piece as the socket takes them, whatever the order of sends
    and writable events.  A receiver that gets the bytes written so far, cut into any
    pieces, delivers accepted messages only, whole, in order and each once; when the
    sender has nothing left to write, and the receiver is called once for every byte,
    it delivers them all. *)
Theorem stream_delivers evs out pieces end_ n :
  Forall (λ r, 0 <= r ∨ r = - EAGAIN) out → Forall (λ ev, ∀ m, ev = Send m → framed m) evs →
  Forall (λ c, c ≠ []) pieces →
  wp (run_txs evs (new_stream_vconn (mk_socket [] [] EAGAIN out []))) (λ '(accepted, s),
    concat pieces = sk_written (s_fd s) →
    wp (receive n (new_stream_vconn (mk_socket [] pieces end_ [] []))) (λ '(l, _),
      l `prefix_of` accepted ∧
      (txbuf s = None → (length (concat pieces) ≤ n)%nat → l = accepted))).
Proof.
  intros Hout Hev Hp. eapply wp_mono; [apply (run_txs_spec evs []); by split|].
  intros [accepted s] [[_ _ Hb] Hin] E. cbn [app] in Hb.
  assert (Forall framed accepted) as Hf.
  { apply Forall_forall. intros m Hm. rewrite Forall_forall in Hev. by eapply Hev; [apply Hin, Hm|]. }
  set (s0 := new_stream_vconn _). assert (receiver_ok accepted s0) as Hok.
  { split; [done|done| |].
    - exists (default [] (txbuf s)). unfold unread. cbn. by rewrite E.
    - destruct accepted as [|m l]; [done|]. apply Forall_cons in Hf as [[? _] _]. simpl. lia. }
  eapply wp_mono; [by apply receive_spec|]. intros [l s'] (rest & -> & Hok' & Eu & Hall).
  split; [by eexists|]. intros Et Hn. rewrite Et, app_nil_r in Hb. specialize (Hall Hn).
  destruct Hok' as [Hf' _ _ Hl]. destruct rest as [|m rest]; [by rewrite app_nil_r|].
  exfalso. unfold unread in Eu. rewrite Hall in Eu. cbn in Eu. rewrite E, Hb, app_nil_r, concat_app in Eu.
  apply (f_equal length) in Eu. rewrite !length_app in Eu. cbn [concat] in Eu. rewrite length_app in Eu. lia.
Qed.

Definition ex_hello : list Z := [OFP_VERSION; 0; 0; 8; 0; 0; 0; 1].
Definition ex_echo : list Z := [OFP_VERSION; 2; 0; 10; 0; 0; 0; 2; 7; 7].

(** The second message is written in two parts, and the bytes arrive in pieces of 5, 9
    and 4. *)
Lemma stream_delivers_witness :
  wp (receive 18 (new_stream_vconn (mk_socket []
       [take 5 (ex_hello ++ ex_echo); take 9 (drop 5 (ex_hello ++ ex_echo)); drop 14 (ex_hello ++ ex_echo)] EAGAIN [] [])))
    (λ '(l, _), l = [ex_hello; ex_echo]).
Proof.
  assert (framed ex_hello ∧ framed ex_echo) as [H1 H2] by (split; (split; [apply leb_complete|]; reflexivity)).
  assert (∃ s, run_txs [Send ex_hello; Send ex_echo; Writable] (new_stream_vconn (mk_socket [] [] EAGAIN [100; 3; 100] []))
    = Ok ([ex_hello; ex_echo], s) ∧ sk_written (s_fd s) = ex_hello ++ ex_echo ∧ txbuf s = None) as (s & E & Ew & Et)
    by (eexists; split; [vm_compute; reflexivity|split; reflexivity]).
  pose proof (stream_delivers [Send ex_hello; Send ex_echo; Writable] [100; 3; 100]
    [take 5 (ex_hello ++ ex_echo); take 9 (drop 5 (ex_hello ++ ex_echo)); drop 14 (ex_hello ++ ex_echo)] EAGAIN 18) as H.
  rewrite E in H. cbn [wp] in H. eapply wp_mono.
  - apply H; clear H E.
    + repeat (apply Forall_cons_2; [left; lia|]). constructor.
    + repeat (apply Forall_cons_2; [by intros m [= <-]|]). constructor.
    + repeat (apply Forall_cons_2; [discriminate|]). constructor.
    + by rewrite Ew.
  - intros [l s'] [_ Hl]. apply Hl; [exact Et|apply leb_complete; reflexivity].
Defined.

End StreamFacts.
