(* ===== verification/Vconn.v ===== *)
(** * lib/vconn.c: connections that agree on a version

    An active connection goes from CONNECTING through the exchange of hello messages
    to CONNECTED, or to an error.  The transport below it ([struct vconn_class]) is a
    type with its [connect], [send] and [recv] functions, the class [Transport]; its
    laws, and the byte stream of [Stream] as an instance of them, are in [VconnFacts].
    The random transaction ids are a list in the state.  Of the statistics, the
    counters that the exchange changes are modelled.  Names, logging, and the
    functions that block in the poll loop are left out. *)

From S2P Require Import Prelude Ofp Ofpbuf Flow SwitchFlow Rconn Env OfpMsg Stream.
From Stdlib Require Ascii String.
Import Ofp Env OfpMsg.

(** The fixed parts of the text of the error message. *)
Module ErrorText.
Import Ascii String.

Definition text (s : string) : list Z :=
  List.map (λ c, Z.of_nat (nat_of_ascii c)) (list_ascii_of_string s).

Definition we_support : list Z := text "We support versions 0x".
Definition to : list Z := text " to 0x".
Definition you_support : list Z := text " inclusive but you support no later than version 0x".
Definition stop : list Z := text ".".

End ErrorText.

Module Vconn.

Abbreviation EAGAIN := Rconn.EAGAIN.
Abbreviation EPROTO := Stream.EPROTO.
Definition EINPROGRESS : Z := 115.
Definition OFPET_HELLO_FAILED : Z := 0.
Definition OFPHFC_INCOMPATIBLE : Z := 0.

(** ** Transports *)

(** [struct vconn_class]: the functions return zero or an error; [t_recv] also the
    message. *)
Class Transport (T : Type) := {
  t_connect : T → Z * T;
  t_send : T → list Z → Z * T;
  t_recv : T → comp (Z * list Z * T);
}.

#[export] Instance stream_transport : Transport Stream.stream_vconn := {|
  t_connect := Stream.stream_connect;
  t_send := Stream.stream_send;
  t_recv := Stream.stream_recv;
|}.

(** ** Connections *)

Inductive vconn_state :=
| VCS_CONNECTING | VCS_SEND_HELLO | VCS_RECV_HELLO | VCS_CONNECTED | VCS_SEND_ERROR | VCS_DISCONNECTED.
#[export] Instance vconn_state_eq_dec : EqDecision vconn_state.
Proof. solve_decision. Defined.

Record ofpstat := mk_ofpstat {
  ofps_total : Z;
  ofps_hello : Z;
  ofps_error : Z;
  hello_fail : Z;
  hf_incompat : Z;
}.
#[export] Instance ofpstat_eta : Eta ofpstat := λ o,
  mk_ofpstat (ofps_total o) (ofps_hello o) (ofps_error o) (hello_fail o) (hf_incompat o).

Record vconn (T : Type) := mk_vconn {
  v_class : T;
  v_state : vconn_state;
  v_error : Z;
  v_min_version : Z;
  v_version : Z;
  ofps_rcvd : ofpstat;
  ofps_sent : ofpstat;
  v_xids : list Z;
}.
Arguments mk_vconn {T}.
Arguments v_class {T}.
Arguments v_state {T}.
Arguments v_error {T}.
Arguments v_min_version {T}.
Arguments v_version {T}.
Arguments ofps_rcvd {T}.
Arguments ofps_sent {T}.
Arguments v_xids {T}.
#[export] Instance vconn_eta T : Eta (vconn T) := λ v,
  mk_vconn (v_class v) (v_state v) (v_error v) (v_min_version v) (v_version v) (ofps_rcvd v) (ofps_sent v)
    (v_xids v).

Section vconn.
Context {T : Type} `{Transport T}.

(** [vconn_init]; the opener then sets the minimal version. *)
Definition vconn_init (t : T) (connect_status : Z) (xids : list Z) : vconn T :=
  let zero := mk_ofpstat 0 0 0 0 0 in
  mk_vconn t
    (if connect_status =? EAGAIN then VCS_CONNECTING
     else if connect_status =? 0 then VCS_SEND_HELLO else VCS_DISCONNECTED)
    connect_status (-1) (-1) zero zero xids.

Definition alloc_xid (v : vconn T) : Z * vconn T :=
  match v_xids v with [] => (0, v) | x :: l => (x, v <| v_xids := l |>) end.

Definition do_send (v : vconn T) (msg : list Z) : comp (Z * vconn T) :=
  assert_c (8 <=? length msg)%nat;;
  len ← load msg 2 2;
  assert_c (len =? htons (u16 (Z.of_nat (length msg))));;
  let '(r, t) := t_send (v_class v) msg in
  Ok (r, v <| v_class := t |>).

(** The messages that may have any version. *)
Definition any_version (type : Z) : bool :=
  (type =? OFPT_HELLO) || (type =? OFPT_ERROR) || (type =? OFPT_ECHO_REQUEST)
  || (type =? OFPT_ECHO_REPLY) || (type =? OFPT_VENDOR).

(** The asynchronous messages. *)
Definition asynchronous (type : Z) : bool :=
  (type =? OFPT_PACKET_IN) || (type =? OFPT_FLOW_REMOVED) || (type =? OFPT_PORT_STATUS).

Fixpoint do_recv (fuel : nat) (v : vconn T) : comp (Z * list Z * vconn T) :=
  match fuel with
  | O => NoFuel
  | S fuel =>
      '(r, msg, t) ← t_recv (v_class v);
      let v := v <| v_class := t |> in
      if truth r then Ok (r, [], v)
      else
        assert_c (8 <=? length msg)%nat;;
        version ← load msg 0 1;
        type ← load msg 1 1;
        if negb (version =? v_version v) && negb (any_version type) then
          if (v_version v <? 0) && asynchronous type then do_recv fuel v
          else Ok (EPROTO, [], v)
        else Ok (0, msg, v)
  end.

(** ** The exchange of versions *)

Definition disconnected (error : Z) (v : vconn T) : vconn T :=
  v <| v_state := VCS_DISCONNECTED |> <| v_error := error |>.

Definition vcs_connecting (v : vconn T) : comp (vconn T) :=
  let '(r, t) := t_connect (v_class v) in
  let v := v <| v_class := t |> in
  assert_c (negb (r =? EINPROGRESS));;
  Ok (if r =? 0 then v <| v_state := VCS_SEND_HELLO |>
      else if negb (r =? EAGAIN) then disconnected r v else v).

Definition vcs_send_hello (v : vconn T) : comp (vconn T) :=
  let '(xid, v) := alloc_xid v in
  b ← make_openflow_xid 8 OFPT_HELLO xid;
  '(r, v) ← do_send v b;
  Ok (if r =? 0 then
        v <| ofps_sent := (ofps_sent v) <| ofps_total := ofps_total (ofps_sent v) + 1 |>
                                        <| ofps_hello := ofps_hello (ofps_sent v) + 1 |> |>
          <| v_state := VCS_RECV_HELLO |>
      else if negb (r =? EAGAIN) then disconnected r v else v).

Definition vcs_recv_hello (fuel : nat) (v : vconn T) : comp (vconn T) :=
  '(r, b, v) ← do_recv fuel v;
  type ← (if r =? 0 then load b 1 1 else Ok 0);
  if (r =? 0) && (type =? OFPT_HELLO) then
    peer ← load b 0 1;
    let v := v <| v_version := Z.min OFP_VERSION peer |> in
    let v := v <| v_state := if v_version v <? v_min_version v then VCS_SEND_ERROR else VCS_CONNECTED |> in
    Ok (v <| ofps_rcvd := (ofps_rcvd v) <| ofps_total := ofps_total (ofps_rcvd v) + 1 |>
                                        <| ofps_hello := ofps_hello (ofps_rcvd v) + 1 |> |>)
  else
    let r := if r =? 0 then EPROTO else r in
    Ok (if negb (r =? EAGAIN) then disconnected r v else v).

(** ** The text of the error *)

Definition hex_digit (d : Z) : Z := if d <? 10 then 48 + d else 87 + d.

(** The hexadecimal digits of [x], the last ones first; [n] is the number of digits
    that an [int] may have. *)
Fixpoint hex_digits (n : nat) (x : Z) : list Z :=
  match n with
  | O => []
  | S n => hex_digit (x mod 16) :: (if x / 16 =? 0 then [] else hex_digits n (x / 16))
  end.

(** ["%02x"] *)
Definition hex (x : Z) : list Z :=
  let d := rev (hex_digits 8 (u32 x)) in
  replicate (2 - length d) 48 ++ d.

(** The text has at most 98 bytes: [snprintf] never cuts it. *)
Definition error_text (v : vconn T) : list Z :=
  ErrorText.we_support ++ hex (v_min_version v) ++ ErrorText.to ++ hex OFP_VERSION
  ++ ErrorText.you_support ++ hex (v_version v) ++ ErrorText.stop.

Definition vcs_send_error (v : vconn T) : comp (vconn T) :=
  let s := error_text v in
  let '(xid, v) := alloc_xid v in
  b ← make_openflow_xid 12 OFPT_ERROR xid;
  let b := put_at b 8 (le_bytes 2 (htons OFPET_HELLO_FAILED) ++ le_bytes 2 (htons OFPHFC_INCOMPATIBLE)) in
  let b := b ++ s in
  let b := put_at b 2 (le_bytes 2 (htons (u16 (Z.of_nat (length b))))) in
  '(r, v) ← do_send v b;
  let v :=
    if truth r then
      v <| ofps_sent := (ofps_sent v) <| ofps_total := ofps_total (ofps_sent v) + 1 |>
                                      <| ofps_error := ofps_error (ofps_sent v) + 1 |>
                                      <| hello_fail := hello_fail (ofps_sent v) + 1 |>
                                      <| hf_incompat := hf_incompat (ofps_sent v) + 1 |> |>
    else v in
  Ok (if negb (r =? EAGAIN) then disconnected (if truth r then r else EPROTO) v else v).

(** ** The operations *)

(** One round of the loop of [vconn_connect]: a result, or the new state. *)
Definition connect_step (fuel : nat) (v : vconn T) : comp (option Z * vconn T) :=
  match v_state v with
  | VCS_CONNECTING => v ← vcs_connecting v; Ok (None, v)
  | VCS_SEND_HELLO => v ← vcs_send_hello v; Ok (None, v)
  | VCS_RECV_HELLO => v ← vcs_recv_hello fuel v; Ok (None, v)
  | VCS_CONNECTED => Ok (Some 0, v)
  | VCS_SEND_ERROR => v ← vcs_send_error v; Ok (None, v)
  | VCS_DISCONNECTED => Ok (Some (v_error v), v)
  end.

Fixpoint connect_loop (n fuel : nat) (v : vconn T) : comp (Z * vconn T) :=
  match n with
  | O => NoFuel
  | S n =>
      let last_state := v_state v in
      '(r, v) ← connect_step fuel v;
      match r with
      | Some r => Ok (r, v)
      | None => if decide (v_state v = last_state) then Ok (EAGAIN, v) else connect_loop n fuel v
      end
  end.

(** The states are passed in order, at most five of them. *)
Definition vconn_connect (fuel : nat) (v : vconn T) : comp (Z * vconn T) :=
  assert_c (0 <=? v_min_version v);;
  connect_loop 5 fuel v.

Definition vconn_recv (fuel : nat) (v : vconn T) : comp (Z * list Z * vconn T) :=
  '(r, v) ← vconn_connect fuel v;
  if r =? 0 then do_recv fuel v else Ok (r, [], v).

Definition vconn_send (fuel : nat) (v : vconn T) (msg : list Z) : comp (Z * vconn T) :=
  '(r, v) ← vconn_connect fuel v;
  if r =? 0 then do_send v msg else Ok (r, v).

(** What the caller waits for; [None] if it should not wait at all. *)
Definition vconn_wait (v : vconn T) (wait : Stream.wait_type) : option Stream.wait_type :=
  match v_state v with
  | VCS_CONNECTING => Some Stream.WAIT_CONNECT
  | VCS_SEND_HELLO | VCS_SEND_ERROR => Some Stream.WAIT_SEND
  | VCS_RECV_HELLO => Some Stream.WAIT_RECV
  | VCS_CONNECTED => Some wait
  | VCS_DISCONNECTED => None
  end.

End vconn.
End Vconn.
