(* ===== verification/VconnFacts.v ===== *)
(** * The exchange of versions

    A transport that carries whole messages in order, the class [Channel], is all that
    the connection above it needs; the byte stream is one.  Over any such transport a
    connection reaches its user only when both peers have agreed on a version, sends
    a hello message before anything else, and delivers no message of another version. *)

From S2P Require Import Prelude Ofp Ofpbuf Flow SwitchFlow Rconn RconnFacts Env EnvFacts OfpMsg Stream StreamFacts Vconn.
Import Ofp Env OfpMsg RconnFacts StreamFacts Vconn.

Module VconnFacts.

(** ** Channels *)

(** [channel sent todo t]: the transport has accepted the messages [sent], and will
    deliver messages of [todo], in order.  The transports never report that a
    connection is in progress by EINPROGRESS. *)
Class Channel (T : Type) `{Transport T} := {
  channel : list (list Z) → list (list Z) → T → Prop;

  channel_framed sent todo t : channel sent todo t → Forall framed todo;

  channel_connect sent todo t :
    channel sent todo t → (t_connect t).1 ≠ EINPROGRESS ∧ channel sent todo (t_connect t).2;

  channel_send sent todo t b :
    channel sent todo t → framed b →
    channel (if (t_send t b).1 =? 0 then sent ++ [b] else sent) todo (t_send t b).2;

  channel_recv sent todo t :
    channel sent todo t →
    wp (t_recv t) (λ '(r, b, t'),
      (r = 0 ∧ ∃ todo', todo = b :: todo' ∧ channel sent todo' t') ∨ (r ≠ 0 ∧ channel sent todo t'));
}.

(** ** The byte stream *)

Lemma send_receiver todo s b : receiver_ok todo s → receiver_ok todo (Stream.stream_send s b).2.
Proof.
  intros Hr. assert (∀ sk t w, Stream.sk_in sk = Stream.sk_in (Stream.s_fd s) →
    receiver_ok todo (Stream.mk_stream sk (Stream.rxbuf s) t w)) as Hkeep.
  { intros sk t w E. destruct Hr as [H1 H2 H3 H4]. unfold receiver_ok.
    split; [done| | |done]; unfold pieces_ok, unread in *; simpl; by rewrite E. }
  unfold Stream.stream_send. destruct (Stream.txbuf s) eqn:Et; [done|].
  destruct (Stream.write b (Stream.s_fd s)) as [n sk] eqn:Ew.
  assert (Stream.sk_in sk = Stream.sk_in (Stream.s_fd s)) as E.
  { revert Ew. unfold Stream.write. destruct (Stream.sk_out _); [by intros [= _ <-]|]. destruct (_ <? 0); by intros [= _ <-]. }
  destruct (_ =? _); [by apply Hkeep|]. destruct (_ || _); by apply Hkeep.
Qed.

Lemma send_connect s b : Stream.sk_connect (Stream.s_fd (Stream.stream_send s b).2) = Stream.sk_connect (Stream.s_fd s).
Proof.
  unfold Stream.stream_send. destruct (Stream.txbuf s); [done|].
  destruct (Stream.write b (Stream.s_fd s)) as [n sk] eqn:Ew.
  assert (Stream.sk_connect sk = Stream.sk_connect (Stream.s_fd s)) as E.
  { revert Ew. unfold Stream.write. destruct (Stream.sk_out _); [by intros [= _ <-]|]. destruct (_ <? 0); by intros [= _ <-]. }
  destruct (_ =? _); [done|]. by destruct (_ || _).
Qed.

Lemma same_tx_sender l s s' : same_tx s s' → sender_ok l s → sender_ok l s'.
Proof.
  intros (E1 & E2 & E3 & E4 & _) [H1 H2 H3]. split; unfold healthy in *; by rewrite ?E1, ?E2, ?E3, ?E4.
Qed.

(** A stream on a socket that is writable now and then, and delivers messages. *)
#[export] Program Instance stream_channel : Channel Stream.stream_vconn := {|
  channel sent todo s := sender_ok sent s ∧ receiver_ok todo s ∧
    Forall (λ r, r ≠ EINPROGRESS) (Stream.sk_connect (Stream.s_fd s));
|}.
Next Obligation. intros sent todo s (_ & [] & _). done. Qed.
Next Obligation.
  intros sent todo s (Hs & Hr & Hc). simpl. unfold Stream.stream_connect.
  destruct (Stream.sk_connect (Stream.s_fd s)) as [|r l] eqn:E; [split; [done|]; simpl; split_and!; [done|done|by rewrite E]|].
  apply Forall_cons in Hc as [Hc Hl]. split; [done|]. split_and!; [|destruct Hr; by split|done].
  destruct Hs as [H1 H2 H3]. by split.
Qed.
Next Obligation.
  intros sent todo s b (Hs & Hr & Hc) _. simpl. pose proof (send_spec b sent s Hs) as Hsend.
  pose proof (send_receiver todo s b Hr). pose proof (send_connect s b) as Ec.
  destruct (Stream.stream_send s b) as [r s']. simpl in *. split_and!; [done|done|by rewrite Ec].
Qed.
Next Obligation.
  intros sent todo s (Hs & Hr & Hc). simpl. eapply wp_mono; [by apply recv_spec|].
  intros [[r b] s'] (_ & _ & Ht & Hcase). pose proof (same_tx_sender sent s s' Ht Hs) as Hs'.
  assert (Forall (λ r, r ≠ EINPROGRESS) (Stream.sk_connect (Stream.s_fd s'))) as Hc'.
  { destruct Ht as (_ & _ & _ & _ & E). by rewrite E. }
  destruct Hcase as [(-> & todo' & -> & Hr' & _)|(Hr0 & Hr' & _)]; [left|right]; eauto 6.
Qed.

(** ** Messages *)

Definition hello (xid : Z) : list Z := ofp_header_bytes OFPT_HELLO 8 xid.

(** A message that [do_send] takes: its header has its length. *)
Definition sendable (b : list Z) : Prop :=
  (8 ≤ length b)%nat ∧ Z.of_nat (length b) < 65536 ∧ int_at b 2 2 = htons (u16 (Z.of_nat (length b))).

Lemma sendable_framed b : sendable b → framed b.
Proof.
  intros (H8 & Hl & E). split; [done|]. unfold u16 in E. by rewrite E, Z.mod_small, ntohs_htons by lia.
Qed.

(** Whether a message may be delivered on a connection of version [ver]. *)
Definition acceptable (ver : Z) (b : list Z) : Prop :=
  int_at b 0 1 = ver ∨ any_version (int_at b 1 1) = true.

Section channel.
Context {T : Type} `{Channel T}.

Lemma do_send_spec v sent todo b :
  channel sent todo (v_class v) → sendable b →
  wp (do_send v b) (λ '(r, v'), v' = v <| v_class := v_class v' |> ∧
    channel (if r =? 0 then sent ++ [b] else sent) todo (v_class v')).
Proof.
  intros Hc Hb. pose proof Hb as (H8 & Hl & E). unfold do_send.
  rewrite (proj2 (Nat.leb_le _ _)), load_eq by lia. cbn [assert_c mbind comp_bind].
  rewrite E, Z.eqb_refl. cbn [assert_c mbind comp_bind].
  pose proof (channel_send sent todo (v_class v) b Hc (sendable_framed b Hb)) as Hs.
  destruct (t_send (v_class v) b) as [r t]. split; [done|exact Hs].
Qed.

(** Messages are taken from the channel in order; those before a delivered one were
    asynchronous and came before there was a version. *)
Lemma do_recv_spec fuel v sent todo :
  channel sent todo (v_class v) → (length todo < fuel)%nat →
  wp (do_recv fuel v) (λ '(r, b, v'), v' = v <| v_class := v_class v' |> ∧
    ∃ taken todo', todo = taken ++ todo' ∧ channel sent todo' (v_class v') ∧
      (r = 0 → framed b ∧ acceptable (v_version v) b ∧ ∃ skipped, taken = skipped ++ [b] ∧
         Forall (λ m, asynchronous (int_at m 1 1) = true) skipped ∧ (0 <= v_version v → skipped = []))).
Proof.
  revert v todo. induction fuel as [|fuel IH]; intros v todo Hc Hf; [lia|]. cbn [do_recv].
  apply wp_bind. eapply wp_mono; [by apply channel_recv|].
  intros [[r b] t] [(-> & todo' & -> & Hc')|[Hr Hc']].
  2: { assert (truth r = true) as -> by (unfold truth; by rewrite (proj2 (Z.eqb_neq r 0))). cbn [wp]. split; [done|].
       exists [], todo. by split_and!. }
  change (truth 0) with false. cbn iota.
  pose proof (channel_framed _ _ _ Hc) as [Hb _]%Forall_cons. pose proof Hb as [H8 _].
  rewrite (proj2 (Nat.leb_le _ _)), !load_eq by lia. cbn [assert_c mbind comp_bind].
  change (v_version (v <| v_class := t |>)) with (v_version v).
  destruct (Z.eqb_spec (int_at b 0 1) (v_version v)) as [Ev|Ev]; [|destruct (any_version _) eqn:Ea]; cbn [negb andb].
  1, 2: cbn [wp]; split; [done|]; exists [b], todo'; split_and!; try done; intros _; split_and!;
    [done|by (left + right)|exists []; by split_and!].
  destruct ((v_version v <? 0) && _) eqn:E.
  - apply andb_true_iff in E as [E1 E2]. apply Z.ltb_lt in E1.
    eapply wp_mono; [apply IH; [exact Hc'|simpl in Hf; lia]|]. intros [[r b'] v'] (Ev' & taken & todo2 & -> & Hc2 & Hr).
    split; [exact Ev'|]. exists (b :: taken), todo2. split_and!; [done|done|]. intros Hr0.
    destruct (Hr Hr0) as (Hf' & Ha & sk & -> & Hsk & _). split_and!; [done|done|].
    exists (b :: sk). split_and!; [done|by constructor|]. change (v_version (v <| v_class := t |>)) with (v_version v) in *. lia.
  - cbn [wp]. split; [done|]. exists [b], todo'. by split_and!.
Qed.

(** ** The invariant *)

Definition phase_ok (sent : list (list Z)) (v : vconn T) : Prop :=
  match v_state v with
  | VCS_CONNECTING | VCS_SEND_HELLO => v_version v = -1 ∧ sent = []
  | VCS_RECV_HELLO => v_version v = -1 ∧ ∃ xid, sent = [hello xid]
  | VCS_SEND_ERROR => v_version v < v_min_version v ∧ ∃ xid, sent = [hello xid]
  | VCS_CONNECTED => v_min_version v <= v_version v <= OFP_VERSION ∧ ∃ xid l, sent = hello xid :: l
  | VCS_DISCONNECTED => v_error v ≠ 0 ∧ (sent = [] ∨ ∃ xid l, sent = hello xid :: l)
  end.

(** Of the messages [todo] some may have been taken. *)
Record vconn_inv (sent todo : list (list Z)) (v : vconn T) : Prop := {
  vi_channel : channel sent todo (v_class v);
  vi_min : 0 <= v_min_version v;
  vi_phase : phase_ok sent v;
}.

(** How far a connection is. *)
Definition rank (s : vconn_state) : nat :=
  match s with
  | VCS_CONNECTING => 0 | VCS_SEND_HELLO => 1 | VCS_RECV_HELLO => 2 | VCS_SEND_ERROR => 3
  | VCS_CONNECTED | VCS_DISCONNECTED => 4
  end.

(** [v] became [v'], and is consistent. *)
Definition moved (sent todo : list (list Z)) (v v' : vconn T) : Prop :=
  ∃ sent' taken todo', todo = taken ++ todo' ∧ vconn_inv sent' todo' v' ∧ sent `prefix_of` sent' ∧
    v_min_version v' = v_min_version v ∧ (v_state v' = v_state v ∨ (rank (v_state v) < rank (v_state v'))%nat).

Lemma moved_refl sent todo v : vconn_inv sent todo v → moved sent todo v v.
Proof. intros Hi. exists sent, [], todo. split_and!; auto. Qed.

Lemma disconnect_moved sent todo v v' r :
  channel sent todo (v_class v') → 0 <= v_min_version v → v_min_version v' = v_min_version v → r ≠ 0 →
  (sent = [] ∨ ∃ xid l, sent = hello xid :: l) → (rank (v_state v) < 4)%nat →
  moved sent todo v (disconnected r v').
Proof. intros Hc Hm E Hr Hs Hk. exists sent, [], todo. split_and!; try done; [split; try done; simpl; lia|auto]. Qed.

Lemma alloc_xid_same (v : vconn T) : ∃ xid l, alloc_xid v = (xid, v <| v_xids := l |>).
Proof. unfold alloc_xid. destruct (v_xids v) as [|x l] eqn:E; [|by eexists _, _]. exists 0, []. destruct v. simpl in *. by subst. Qed.

Lemma connecting_spec sent todo v :
  vconn_inv sent todo v → v_state v = VCS_CONNECTING → wp (vcs_connecting v) (moved sent todo v).
Proof.
  intros [Hc Hm Hp] Es. unfold phase_ok in Hp. rewrite Es in Hp. destruct Hp as [Ev Esent]. unfold vcs_connecting.
  destruct (channel_connect sent todo (v_class v) Hc) as [Hr Hc']. destruct (t_connect (v_class v)) as [r t].
  simpl in Hr, Hc'. rewrite (proj2 (Z.eqb_neq r EINPROGRESS)) by done. cbn [negb assert_c mbind comp_bind wp].
  destruct (Z.eqb_spec r 0) as [->|Hr0]; [|destruct (Z.eqb_spec r EAGAIN) as [->|Hre]; cbn [negb]].
  - exists sent, [], todo. split_and!; first [done|by split|right; rewrite Es; simpl; lia].
  - exists sent, [], todo. split_and!; try done; [|by left]. split; try done. unfold phase_ok. simpl. by rewrite Es.
  - apply disconnect_moved; try done; [by left|rewrite Es; simpl; lia].
Qed.

Lemma make_hello xid : make_openflow_xid 8 OFPT_HELLO xid = Ok (hello xid).
Proof. reflexivity. Qed.

Lemma hello_sendable xid : sendable (hello xid).
Proof. split_and!; [apply leb_complete; reflexivity|done|reflexivity]. Qed.

Lemma send_hello_spec sent todo v :
  vconn_inv sent todo v → v_state v = VCS_SEND_HELLO → wp (vcs_send_hello v) (moved sent todo v).
Proof.
  intros [Hc Hm Hp] Es. unfold phase_ok in Hp. rewrite Es in Hp. destruct Hp as [Ev Esent]. unfold vcs_send_hello.
  destruct (alloc_xid_same v) as (xid & l & ->). rewrite make_hello. cbn [mbind comp_bind]. apply wp_bind.
  eapply wp_mono; [apply (do_send_spec _ sent todo); [exact Hc|apply hello_sendable]|].
  intros [r v'] [E Hc']. cbn [wp]. destruct (Z.eqb_spec r 0) as [->|Hr0]; [|destruct (Z.eqb_spec r EAGAIN) as [->|Hre]; cbn [negb]].
  - exists (sent ++ [hello xid]), [], todo. rewrite E. split_and!; try done; [|by eexists|right; rewrite Es; simpl; lia].
    split; try done. split; [done|]. exists xid. by rewrite Esent.
  - exists sent, [], todo. rewrite E. split_and!; try done; [|by left]. split; try done. unfold phase_ok. simpl. by rewrite Es.
  - apply disconnect_moved; try done; [by rewrite E|by left|rewrite Es; simpl; lia].
Qed.

Lemma recv_hello_spec fuel sent todo v :
  vconn_inv sent todo v → v_state v = VCS_RECV_HELLO → (length todo < fuel)%nat →
  wp (vcs_recv_hello fuel v) (moved sent todo v).
Proof.
  intros [Hc Hm Hp] Es Hf. unfold phase_ok in Hp. rewrite Es in Hp. destruct Hp as [Ev (xid & Esent)].
  unfold vcs_recv_hello. apply wp_bind. eapply wp_mono; [by apply (do_recv_spec fuel v sent todo)|].
  intros [[r b] v'] (E & taken & todo' & -> & Hc' & Hr).
  assert (∀ v2, moved sent todo' v v2 → moved sent (taken ++ todo') v v2) as Hmore.
  { intros v2 (s2 & t2 & d2 & -> & H2). exists s2, (taken ++ t2), d2. by rewrite app_assoc. }
  destruct (Z.eqb_spec r 0) as [->|Hr0]; cbn [andb].
  - destruct (Hr eq_refl) as ([H8 _] & _). rewrite !load_eq by lia. cbn [mbind comp_bind].
    destruct (_ =? OFPT_HELLO); cbn [mbind comp_bind wp negb Z.eqb].
    + apply Hmore. exists sent, [], todo'. rewrite E. cbn.
      destruct (Z.ltb_spec (Z.min OFP_VERSION (int_at b 0 1)) (v_min_version v)); split_and!; try done;
        try (right; rewrite Es; simpl; lia); (split; [done|done|]); unfold phase_ok; simpl; eauto.
      split; [lia|]. eauto.
    + apply Hmore, disconnect_moved; try done; [by rewrite E|eauto|rewrite Es; simpl; lia].
  - cbn [mbind comp_bind wp]. destruct (Z.eqb_spec r EAGAIN) as [->|Hre]; cbn [negb]; apply Hmore.
    + exists sent, [], todo'. rewrite E. split_and!; try done; [|by left]. split; try done. unfold phase_ok. simpl. rewrite Es. eauto.
    + apply disconnect_moved; try done; [by rewrite E|eauto|rewrite Es; simpl; lia].
Qed.

Lemma length_hex x : (length (hex x) ≤ 8)%nat.
Proof.
  assert (∀ n y, (length (hex_digits n y) ≤ n)%nat) as Hd.
  { induction n as [|n IH]; intros y; simpl; [done|]. destruct (_ =? 0); simpl; [lia|]. specialize (IH (y / 16)). lia. }
  unfold hex. rewrite length_app, length_replicate, length_rev. specialize (Hd 8%nat (u32 x)). lia.
Qed.

Lemma length_error_text (v : vconn T) : (length (error_text v) ≤ 98)%nat.
Proof.
  unfold error_text. rewrite !length_app. pose proof (length_hex (v_min_version v)). pose proof (length_hex OFP_VERSION).
  pose proof (length_hex (v_version v)). change (length ErrorText.we_support) with 22%nat.
  change (length ErrorText.to) with 6%nat. change (length ErrorText.you_support) with 51%nat.
  change (length ErrorText.stop) with 1%nat. assert (length (hex OFP_VERSION) = 2%nat) by reflexivity. lia.
Qed.

(** Setting the length of a message makes it sendable. *)
Lemma set_length_sendable b :
  (8 ≤ length b)%nat → Z.of_nat (length b) < 65536 →
  sendable (put_at b 2 (le_bytes 2 (htons (u16 (Z.of_nat (length b)))))).
Proof.
  intros H8 Hl. set (x := htons _). assert (length (put_at b 2 (le_bytes 2 x)) = length b) as E.
  { apply length_put_at. rewrite length_le_bytes. lia. }
  split_and!; rewrite ?E; [done|done|]. fold x.
  etransitivity; [exact (f_equal le_int (bytes_at_put_at b 2 (le_bytes 2 x) ltac:(lia)))|].
  apply le_int_bytes. apply htons_range.
Qed.

Lemma send_error_spec sent todo v :
  vconn_inv sent todo v → v_state v = VCS_SEND_ERROR →
  wp (vcs_send_error v) (λ v', moved sent todo v v' ∧ v_state v' ≠ VCS_CONNECTED).
Proof.
  intros [Hc Hm Hp] Es. unfold phase_ok in Hp. rewrite Es in Hp. destruct Hp as [Ev (xid0 & Esent)].
  unfold vcs_send_error. pose proof (length_error_text v) as Ht. generalize dependent (error_text v). intros txt Ht.
  destruct (alloc_xid_same v) as (xid & l & ->).
  assert (∃ b, make_openflow_xid 12 OFPT_ERROR xid = Ok b ∧ length b = 12%nat) as (b & -> & Hb) by (by eexists).
  cbn [mbind comp_bind]. apply wp_bind. set (b1 := put_at b 8 _ ++ txt).
  assert (8 ≤ length b1 < 200)%nat as [Hb8 Hb2].
  { subst b1. rewrite length_app, length_put_at, Hb; [lia|]. rewrite length_app, !length_le_bytes, Hb. lia. }
  eapply wp_mono; [apply (do_send_spec _ sent todo); [exact Hc|apply set_length_sendable; lia]|].
  set (b2 := put_at b1 2 _). intros [r v'] [E Hc']. cbn [wp].
  destruct (Z.eqb_spec r EAGAIN) as [->|Hre]; cbn [negb]; (split; [|rewrite E; simpl; by rewrite ?Es]).
  - exists sent, [], todo. rewrite E. split_and!; try done; [|by left]. split; try done. unfold phase_ok. simpl. rewrite Es. eauto.
  - assert (moved (if r =? 0 then sent ++ [b2] else sent) todo v
      (disconnected (if truth r then r else EPROTO) v')) as (s2 & t2 & d2 & -> & [A1 A2 A3] & B2 & B3 & B4).
    { apply disconnect_moved; try done; [by rewrite E|unfold truth; destruct (Z.eqb_spec r 0); done| |rewrite Es; simpl; lia].
      right. rewrite Esent. destruct (r =? 0); eauto. }
    exists s2, t2, d2. split_and!.
    + done.
    + destruct (truth r); by split.
    + etrans; [|exact B2]. destruct (r =? 0); [by apply prefix_app_r|done].
    + by destruct (truth r).
    + right. destruct (truth r); rewrite Es; simpl; lia.
Qed.

(** ** Connecting *)

(** A result of zero means that the connection is there. *)
Definition answers (r : Z) (v : vconn T) : Prop :=
  (r = 0 ↔ v_state v = VCS_CONNECTED) ∧ (v_state v = VCS_DISCONNECTED → r = v_error v).

Lemma connect_step_spec fuel sent todo v :
  vconn_inv sent todo v → (length todo < fuel)%nat →
  wp (connect_step fuel v) (λ '(r, v'), moved sent todo v v' ∧
    match r with
    | Some r => answers r v'
    | None => v_state v ≠ VCS_CONNECTED ∧ v_state v ≠ VCS_DISCONNECTED
    end).
Proof.
  intros Hi Hf. unfold connect_step. pose proof (vi_phase _ _ _ Hi) as Hp. unfold phase_ok in Hp.
  destruct (v_state v) eqn:Es.
  - apply wp_bind. eapply wp_mono; [by apply (connecting_spec sent todo)|]. by intros v' Hv.
  - apply wp_bind. eapply wp_mono; [by apply (send_hello_spec sent todo)|]. by intros v' Hv.
  - apply wp_bind. eapply wp_mono; [by apply (recv_hello_spec fuel sent todo)|]. by intros v' Hv.
  - split; [by apply moved_refl|]. split; [by rewrite Es|]. by rewrite Es.
  - apply wp_bind. eapply wp_mono; [by apply (send_error_spec sent todo)|]. by intros v' [Hv _].
  - split; [by apply moved_refl|]. split; [|done]. rewrite Es. destruct Hp as [Hp _]. by split.
Qed.

Lemma connect_loop_spec n fuel sent todo v :
  vconn_inv sent todo v → (length todo < fuel)%nat → (5 ≤ rank (v_state v) + n)%nat →
  wp (connect_loop n fuel v) (λ '(r, v'), moved sent todo v v' ∧ answers r v').
Proof.
  revert sent todo v. induction n as [|n IH]; intros sent todo v Hi Hf Hn; cbn [connect_loop].
  { destruct (v_state v); simpl in Hn; lia. }
  apply wp_bind. eapply wp_mono; [by apply (connect_step_spec fuel sent todo)|]. intros [[r|] v1] [Hm Hr]; [done|].
  destruct (decide (v_state v1 = v_state v)) as [E|E].
  { split; [done|]. split; rewrite E; [|tauto]. split; [done|tauto]. }
  pose proof Hm as (s1 & k1 & t1 & -> & Hi1 & Hp1 & Em1 & Hr1). rewrite length_app in Hf.
  destruct Hr1 as [?|Hr1]; [done|].
  destruct (wp_inv _ _ (IH s1 t1 v1 Hi1 ltac:(lia) ltac:(lia))) as ([r v2] & -> & Hm2 & Ha2). split; [|done].
  destruct Hm2 as (s2 & k2 & t2 & -> & Hi2 & Hp2 & Em2 & Hr2).
  exists s2, (k1 ++ k2), t2. split_and!; [by rewrite app_assoc|done|by etrans|congruence|].
  destruct Hr2 as [Hr2|Hr2]; [rewrite Hr2; auto|right; lia].
Qed.

Lemma connect_spec fuel sent todo v :
  vconn_inv sent todo v → (length todo < fuel)%nat →
  wp (vconn_connect fuel v) (λ '(r, v'), moved sent todo v v' ∧ answers r v').
Proof.
  intros Hi Hf. unfold vconn_connect. rewrite (proj2 (Z.leb_le 0 _)) by apply Hi. cbn [assert_c mbind comp_bind].
  apply connect_loop_spec; [done|done|lia].
Qed.

(** ** Calls *)

Inductive vcall := VConnect | VSend (msg : list Z) | VRecv.

Definition vcall_ok (c : vcall) : Prop := match c with VSend msg => sendable msg | _ => True end.

(** A call: the message that it delivers. *)
Definition run_vcall (fuel : nat) (c : vcall) (v : vconn T) : comp (list (list Z) * vconn T) :=
  match c with
  | VConnect => '(_, v) ← vconn_connect fuel v; Ok ([], v)
  | VSend msg => '(_, v) ← vconn_send fuel v msg; Ok ([], v)
  | VRecv => '(r, b, v) ← vconn_recv fuel v; Ok (if r =? 0 then [b] else [], v)
  end.

Fixpoint run_vcalls (fuel : nat) (cs : list vcall) (v : vconn T) : comp (list (list Z) * vconn T) :=
  match cs with
  | [] => Ok ([], v)
  | c :: cs => '(l, v) ← run_vcall fuel c v; '(l', v) ← run_vcalls fuel cs v; Ok (l ++ l', v)
  end.

(** From [v] to [v'] the messages [l] were delivered. *)
Definition delivers (sent todo : list (list Z)) (v : vconn T) (l sent' todo' : list (list Z)) (v' : vconn T) : Prop :=
  ∃ taken, todo = taken ++ todo' ∧ vconn_inv sent' todo' v' ∧ sent `prefix_of` sent' ∧
    v_min_version v' = v_min_version v ∧
    (v_state v = VCS_CONNECTED → v_state v' = VCS_CONNECTED ∧ v_version v' = v_version v) ∧
    l `sublist_of` taken ∧ (l ≠ [] → v_state v' = VCS_CONNECTED) ∧ Forall (acceptable (v_version v')) l.

Lemma connected_at_once fuel sent todo v :
  vconn_inv sent todo v → v_state v = VCS_CONNECTED → vconn_connect fuel v = Ok (0, v).
Proof.
  intros Hi Es. unfold vconn_connect. rewrite (proj2 (Z.leb_le 0 _)) by apply Hi. cbn [assert_c mbind comp_bind connect_loop].
  unfold connect_step. by rewrite Es.
Qed.

Lemma connect_delivers fuel sent todo v :
  vconn_inv sent todo v → (length todo < fuel)%nat →
  wp (vconn_connect fuel v) (λ '(r, v'), (∃ sent' todo', delivers sent todo v [] sent' todo' v') ∧ answers r v').
Proof.
  intros Hi Hf. destruct (wp_inv _ _ (connect_spec fuel sent todo v Hi Hf)) as ([r v'] & E & Hm & Ha). rewrite E.
  split; [|done]. destruct Hm as (s1 & k1 & t1 & -> & Hi1 & Hp1 & Em1 & _). exists s1, t1, k1.
  split_and!; try done; [|apply sublist_nil_l]. intros Es. rewrite (connected_at_once _ _ _ _ Hi Es) in E. by injection E as _ <-.
Qed.

Lemma delivers_trans sent todo v l s1 t1 v1 l' s2 t2 v2 :
  delivers sent todo v l s1 t1 v1 → delivers s1 t1 v1 l' s2 t2 v2 → delivers sent todo v (l ++ l') s2 t2 v2.
Proof.
  intros (k1 & -> & Hi1 & Hp1 & Em1 & Hc1 & Hl1 & Hn1 & Hv1) (k2 & -> & Hi2 & Hp2 & Em2 & Hc2 & Hl2 & Hn2 & Hv2).
  exists (k1 ++ k2). split_and!; [by rewrite app_assoc|done|by etrans|congruence| |by apply sublist_app| |].
  - intros Es. destruct (Hc1 Es) as [E1 E2]. destruct (Hc2 E1) as [E3 E4]. split; congruence.
  - intros Hl. destruct l; [by apply Hn2|]. apply Hc2, Hn1. done.
  - apply Forall_app. split; [|done]. destruct l as [|b l]; [done|].
    destruct (Hc2 (Hn1 ltac:(done))) as [_ E]. by rewrite E.
Qed.

(** The phase does not depend on the transport. *)
Lemma phase_class sent sent' (v : vconn T) t :
  v_state v = VCS_CONNECTED → sent `prefix_of` sent' → phase_ok sent v → phase_ok sent' (v <| v_class := t |>).
Proof.
  intros Es [k ->]. unfold phase_ok. simpl. rewrite Es. intros [Hv (xid & l & ->)]. split; [done|]. by exists xid, (l ++ k).
Qed.

Lemma call_spec fuel c sent todo v :
  vconn_inv sent todo v → vcall_ok c → (length todo < fuel)%nat →
  wp (run_vcall fuel c v) (λ '(l, v'), ∃ sent' todo', delivers sent todo v l sent' todo' v').
Proof.
  intros Hi Hok Hf. destruct c as [|msg|]; cbn [run_vcall]; unfold vconn_send, vconn_recv.
  - apply wp_bind. eapply wp_mono; [by apply (connect_delivers fuel sent todo)|]. by intros [r v'] [? _].
  - apply wp_bind, wp_bind. eapply wp_mono; [by apply (connect_delivers fuel sent todo)|]. intros [r v1] [Hd [Ha _]].
    destruct (Z.eqb_spec r 0) as [->|_]; [|done]. pose proof (proj1 Ha eq_refl) as Es.
    destruct Hd as (s1 & t1 & k1 & -> & [Hc1 Hm1 Hp1] & Hpre & Em & Hk & _ & _ & _).
    eapply wp_mono; [by apply (do_send_spec v1 s1 t1)|]. intros [r v2] [E Hc2]. cbn [wp].
    assert (s1 `prefix_of` (if r =? 0 then s1 ++ [msg] else s1)) as Hs by (destruct (r =? 0); [by apply prefix_app_r|done]).
    exists (if r =? 0 then s1 ++ [msg] else s1), t1, k1. split_and!.
    + done.
    + split; [done|by rewrite E|]. rewrite E. by eapply phase_class.
    + by etrans.
    + by rewrite E.
    + rewrite E. exact Hk.
    + apply sublist_nil_l.
    + done.
    + done.
  - apply wp_bind, wp_bind. eapply wp_mono; [by apply (connect_delivers fuel sent todo)|]. intros [r v1] [Hd [Ha _]].
    destruct (Z.eqb_spec r 0) as [->|Hr]; [|cbn [wp]; by rewrite (proj2 (Z.eqb_neq r 0))].
    pose proof (proj1 Ha eq_refl) as Es.
    destruct Hd as (s1 & t1 & k1 & -> & [Hc1 Hm1 Hp1] & Hpre & Em & Hk & _ & _ & _). rewrite length_app in Hf.
    eapply wp_mono; [apply (do_recv_spec fuel v1 s1 t1); [done|lia]|].
    intros [[r b] v2] (E & k2 & t2 & -> & Hc2 & Hr). cbn [wp].
    exists s1, t2, (k1 ++ k2). split_and!.
    + by rewrite app_assoc.
    + split; [done|by rewrite E|]. rewrite E. by apply (phase_class s1 s1).
    + done.
    + by rewrite E.
    + rewrite E. exact Hk.
    + destruct (Z.eqb_spec r 0) as [->|_]; [|apply sublist_nil_l].
      destruct (Hr eq_refl) as (_ & _ & sk & -> & _). by apply sublist_inserts_l, sublist_inserts_l.
    + intros _. by rewrite E.
    + destruct (Z.eqb_spec r 0) as [->|_]; [|done]. apply Forall_singleton. rewrite E. by apply Hr.
Qed.

Lemma calls_spec fuel cs sent todo v :
  vconn_inv sent todo v → Forall vcall_ok cs → (length todo < fuel)%nat →
  wp (run_vcalls fuel cs v) (λ '(l, v'), ∃ sent' todo', delivers sent todo v l sent' todo' v').
Proof.
  intros Hi Hcs. revert sent todo v Hi. induction Hcs as [|c cs Hc _ IH]; intros sent todo v Hi Hf; cbn [run_vcalls].
  { cbn [wp]. exists sent, todo, []. by split_and!. }
  apply wp_bind. eapply wp_mono; [by apply (call_spec fuel c sent todo v)|]. intros [l v1] (s1 & t1 & H1).
  pose proof H1 as (k1 & Et & Hi1 & _).
  apply wp_bind. eapply wp_mono; [apply (IH s1 t1 v1 Hi1); rewrite Et, length_app in Hf; lia|].
  intros [l' v2] (s2 & t2 & H2). exists s2, t2. by eapply delivers_trans.
Qed.

Lemma init_inv (t : T) status xids m todo :
  channel [] todo t → 0 <= m → vconn_inv [] todo ((vconn_init t status xids) <| v_min_version := m |>).
Proof.
  intros Hc Hm. split; [done|done|]. unfold phase_ok, vconn_init. simpl.
  destruct (status =? EAGAIN); [done|]. destruct (Z.eqb_spec status 0); [done|]. split; [done|by left].
Qed.

Lemma connect_loop_moves n fuel v v1 :
  connect_step fuel v = Ok (None, v1) → v_state v1 ≠ v_state v → connect_loop (S n) fuel v = connect_loop n fuel v1.
Proof. intros E Hn. cbn [connect_loop]. rewrite E. cbn [mbind comp_bind]. by rewrite decide_False. Qed.

(** The peer's hello message. *)
Lemma recv_hello_eq fuel v b t' sent todo :
  vconn_inv sent (b :: todo) v → v_state v = VCS_RECV_HELLO → t_recv (v_class v) = Ok (0, b, t') →
  int_at b 1 1 = OFPT_HELLO → (length (b :: todo) < fuel)%nat →
  ∃ v1, vcs_recv_hello fuel v = Ok v1 ∧ v_version v1 = Z.min OFP_VERSION (int_at b 0 1) ∧
    v_state v1 = if Z.min OFP_VERSION (int_at b 0 1) <? v_min_version v then VCS_SEND_ERROR else VCS_CONNECTED.
Proof.
  intros [Hc _ _] Es Hrecv Hty Hf. destruct fuel as [|fuel]; [lia|]. unfold vcs_recv_hello. cbn [do_recv]. rewrite Hrecv.
  pose proof (channel_framed _ _ _ Hc) as [[H8 _] _]%Forall_cons. cbn [mbind comp_bind].
  change (truth 0) with false. cbn iota. rewrite (proj2 (Nat.leb_le _ _)), !load_eq, Hty by lia.
  cbn [assert_c mbind comp_bind]. change (any_version OFPT_HELLO) with true. rewrite andb_false_r.
  cbn [mbind comp_bind Z.eqb]. rewrite !load_eq, Hty by lia. cbn [mbind comp_bind Z.eqb]. rewrite Z.eqb_refl.
  cbn [andb]. eexists. split; [reflexivity|]. split; [done|]. simpl. by destruct (_ <? _).
Qed.

(** A refused peer is sent an error. *)
Lemma refused_spec n fuel sent todo v :
  vconn_inv sent todo v → v_state v = VCS_SEND_ERROR → (length todo < fuel)%nat →
  wp (connect_loop (S (S n)) fuel v) (λ '(r, v'), r ≠ 0 ∧ (v_state v' = VCS_SEND_ERROR ∨ v_state v' = VCS_DISCONNECTED)).
Proof.
  intros Hi Es Hf. cbn [connect_loop].
  assert (connect_step fuel v = (v ← vcs_send_error v; Ok (None, v))) as -> by (unfold connect_step; by rewrite Es).
  rewrite Es. apply wp_bind, wp_bind.
  eapply wp_mono; [by apply (send_error_spec sent todo)|].
  intros v1 [(s1 & k1 & t1 & _ & Hi1 & _ & _ & Hr) Hn]. cbn [wp]. rewrite Es in Hr.
  destruct (decide (v_state v1 = VCS_SEND_ERROR)) as [E|E]; [by split; [|left]|].
  assert (v_state v1 = VCS_DISCONNECTED) as Ed.
  { destruct Hr as [?|Hr]; [done|]. destruct (v_state v1); simpl in Hr; done || lia. }
  unfold connect_step. rewrite Ed. cbn [mbind comp_bind wp]. split; [|by right].
  pose proof (vi_phase _ _ _ Hi1) as Hp. unfold phase_ok in Hp. rewrite Ed in Hp. by destruct Hp.
Qed.

(** ** Theorems *)

(** C10: a new connection, whatever the calls of its user and whatever its peer sends,
    never fails an assertion and always returns.  It is connected only with a version
    between the minimum and our own; the first message that it hands to the
    transport is a hello message; and the messages that it delivers, which it does
    only when it is connected, are messages of the peer, in order, of the version
    agreed on or of a type that may have any. *)
Theorem vconn_negotiates fuel cs t status xids m todo :
  channel [] todo t → 0 <= m → Forall vcall_ok cs → (length todo < fuel)%nat →
  wp (run_vcalls fuel cs ((vconn_init t status xids) <| v_min_version := m |>)) (λ '(l, v),
    ∃ sent taken todo', todo = taken ++ todo' ∧ channel sent todo' (v_class v) ∧ l `sublist_of` taken ∧
      (sent = [] ∨ ∃ xid rest, sent = hello xid :: rest) ∧
      (v_state v = VCS_CONNECTED → m <= v_version v <= OFP_VERSION) ∧
      (l ≠ [] → v_state v = VCS_CONNECTED) ∧ Forall (acceptable (v_version v)) l).
Proof.
  intros Hc Hm Hcs Hf. eapply wp_mono; [by apply (calls_spec fuel cs [] todo); [apply init_inv|..]|].
  intros [l v] (sent & todo' & taken & -> & [Hc' _ Hp] & _ & Em & _ & Hl & Hn & Hv).
  exists sent, taken, todo'. change (v_min_version _) with m in Em at 2. unfold phase_ok in Hp. rewrite Em in Hp.
  split_and!; try done; destruct (v_state v); naive_solver.
Qed.

(** The peer's hello message decides.  When it arrives, the connection is there at
    once if the version on which the peers agree, the lower of the two, is not below
    the minimum; otherwise it never is, and the user gets an error or is told to wait
    until the peer has been sent one. *)
Theorem hello_decides fuel v b t' sent todo :
  vconn_inv sent (b :: todo) v → v_state v = VCS_RECV_HELLO → t_recv (v_class v) = Ok (0, b, t') →
  int_at b 1 1 = OFPT_HELLO → (length (b :: todo) < fuel)%nat →
  let agreed := Z.min OFP_VERSION (int_at b 0 1) in
  wp (vconn_connect fuel v) (λ '(r, v'),
    (v_min_version v <= agreed → r = 0 ∧ v_state v' = VCS_CONNECTED ∧ v_version v' = agreed) ∧
    (agreed < v_min_version v → r ≠ 0 ∧ (v_state v' = VCS_SEND_ERROR ∨ v_state v' = VCS_DISCONNECTED))).
Proof.
  intros Hi Es Hrecv Hty Hf agreed.
  destruct (recv_hello_eq fuel v b t' sent todo Hi Es Hrecv Hty Hf) as (v1 & E1 & Ev1 & Es1).
  destruct (wp_inv _ _ (recv_hello_spec fuel sent (b :: todo) v Hi Es Hf)) as (v1' & E1' & Hm1).
  assert (v1' = v1) as -> by congruence. destruct Hm1 as (s1 & k1 & t1 & Et & Hi1 & _ & Em1 & _).
  unfold vconn_connect. rewrite (proj2 (Z.leb_le 0 _)) by apply Hi. cbn [assert_c mbind comp_bind].
  rewrite (connect_loop_moves 4 fuel v v1); [|unfold connect_step; by rewrite Es, E1|rewrite Es, Es1; by destruct (_ <? _)].
  fold agreed in Es1, Ev1. destruct (Z.ltb_spec agreed (v_min_version v)) as [Hlt|Hge].
  - eapply wp_mono; [apply (refused_spec 2 fuel s1 t1 v1); [done|done|]|].
    + apply (f_equal length) in Et. rewrite length_app in Et. lia.
    + intros [r v'] Hr. split; [lia|done].
  - cbn [connect_loop]. unfold connect_step. rewrite Es1. cbn [mbind comp_bind wp]. split; [done|lia].
Qed.

End channel.

(** ** A connection over a byte stream *)

(** The peer's hello and echo messages arrive together; [written] has been written. *)
Definition ex_stream (out written : list Z) : Stream.stream_vconn :=
  Stream.new_stream_vconn (Stream.mk_socket [] [ex_hello ++ ex_echo] EAGAIN out written).

Lemma ex_framed : Forall framed [ex_hello; ex_echo].
Proof. repeat constructor; try (apply leb_complete; reflexivity). Qed.

Lemma ex_channel out sent :
  Forall (λ r, 0 <= r ∨ r = - Rconn.EAGAIN) out → channel sent [ex_hello; ex_echo] (ex_stream out (concat sent)).
Proof.
  intros Hout. split_and!; [split; [done|done|apply app_nil_r]| |constructor].
  split; [apply ex_framed|by apply Forall_singleton|apply (bool_decide_unpack _); reflexivity|apply leb_complete; reflexivity].
Qed.

Lemma vconn_negotiates_witness :
  wp (run_vcalls 3 [VConnect; VRecv] ((vconn_init (ex_stream [100; 100] []) 0 [7]) <| v_min_version := 1 |>))
    (λ '(l, v), v_state v = VCS_CONNECTED → v_version v = 1).
Proof.
  eapply wp_mono; [apply (vconn_negotiates 3 [VConnect; VRecv] (ex_stream [100; 100] []) 0 [7] 1 [ex_hello; ex_echo])|].
  - apply (ex_channel [100; 100] []). repeat (apply Forall_cons_2; [left; lia|]). constructor.
  - lia.
  - by repeat constructor.
  - simpl. lia.
  - intros [l v] (sent & taken & todo' & _ & _ & _ & _ & Hv & _) Es. specialize (Hv Es). unfold OFP_VERSION in Hv. lia.
Defined.

(** The hello message has been sent. *)
Definition ex_waiting : vconn Stream.stream_vconn :=
  mk_vconn (ex_stream [] (hello 7)) VCS_RECV_HELLO 0 1 (-1) (mk_ofpstat 0 0 0 0 0) (mk_ofpstat 1 1 0 0 0) [].

Lemma hello_decides_witness :
  wp (vconn_connect 3 ex_waiting) (λ '(r, v'), r = 0 ∧ v_state v' = VCS_CONNECTED ∧ v_version v' = 1).
Proof.
  eapply wp_mono; [apply (hello_decides 3 ex_waiting ex_hello
    (Stream.mk_stream (Stream.mk_socket [] [ex_echo] EAGAIN [] (hello 7)) None None false) [hello 7] [ex_echo])|].
  - split; [apply (ex_channel [] [hello 7]); constructor|done|]. split; [done|]. by exists 7.
  - reflexivity.
  - vm_compute. reflexivity.
  - reflexivity.
  - simpl. lia.
  - intros [r v'] [Hok _]. apply Hok. apply Z.leb_le. reflexivity.
Defined.

End VconnFacts.
