(* ===== verification/Natfw.v ===== *)
(** * natfw-nslp: messages, events and the services of the dispatcher

    The NAT and firewall signalling protocol of src/nsis-ka/natfw-nslp: the parts of
    its messages (src/msg), the events that sessions process (include/events.h), the
    pool of external addresses of a NAT (src/nat_manager.cpp), the policy rules and the
    iptables commands that install them (src/policy_rule.cpp,
    src/iptables_policy_rule_installer.cpp), and what a session may ask of its
    dispatcher (src/dispatcher.cpp).

    What leaves the node is a log in the [world]: messages handed to GIST, the iptables
    commands run, timers started, answers to the user.  iptables itself is not part of
    the program: its exit status is only logged by the code, so that a list of commands
    is all there is to model.  Random numbers are lists of results to come.  Messages
    are passed as objects: their serialisation, and the locks of the shared objects,
    are left out. *)

From S2P Require Import Prelude.

Module Natfw.

(** ** Addresses (protlib) *)

(** An IPv4 address has 32 bits, an IPv6 address 128. *)
Record hostaddress := mk_host { ipv4flag : bool; ip : Z }.
#[export] Instance hostaddress_eq_dec : EqDecision hostaddress.
Proof. solve_decision. Defined.
#[export] Instance hostaddress_countable : Countable hostaddress.
Proof.
  apply (inj_countable' (λ a, (ipv4flag a, ip a)) (λ x, mk_host x.1 x.2)). by intros [].
Defined.

Record appladdress := mk_appl { a_host : hostaddress; a_protocol : Z; a_port : Z }.
#[export] Instance appladdress_eq_dec : EqDecision appladdress.
Proof. solve_decision. Defined.
#[export] Instance appladdress_countable : Countable appladdress.
Proof.
  apply (inj_countable' (λ a, (a_host a, a_protocol a, a_port a))
    (λ x, mk_appl x.1.1 x.1.2 x.2)). by intros [].
Defined.

Record netaddress := mk_net { n_host : hostaddress; pref_len : Z }.

(** The 32-bit words of an IPv6 address, from the most significant one. *)
Definition word6 (a : Z) (i : nat) : Z := (a >> (96 - 32 * Z.of_nat i)) mod 2 ^ 32.

(** [hostaddress::match_against]: the length of the prefix if it matches, or -1.  For an
    IPv4 prefix of length 0 the code shifts a 32-bit word by 32 bits, which is
    undefined. *)
Definition match_against (h : hostaddress) (na : netaddress) : comp Z :=
  let preflen := pref_len na in
  let lenwords := Z.to_nat (preflen / 32) in
  let lenbits := preflen mod 32 in
  let ha := n_host na in
  if negb (Bool.eqb (ipv4flag h) (ipv4flag ha)) then Ok (-1)
  else if ipv4flag h then
    let lenbits := if 32 <=? preflen then 32 else lenbits in
    assert_c (0 <? lenbits);;
    Ok (if (ip h >> (32 - lenbits)) =? (ip ha >> (32 - lenbits)) then preflen else -1)
  else if 128 <? preflen then Ok (-1)
  else if negb (forallb (λ i, word6 (ip h) i =? word6 (ip ha) i) (seq 0 lenwords)) then Ok (-1)
  else if 0 <? lenbits then
    Ok (if (word6 (ip h) lenwords >> (32 - lenbits)) =? (word6 (ip ha) lenwords >> (32 - lenbits))
        then preflen else -1)
  else Ok preflen.

(** ** Message routing information (ntlp) *)

Record mri_pathcoupled := mk_pc {
  sourceaddress : hostaddress;
  sourceprefix : Z;
  sourceport : Z;
  destaddress : hostaddress;
  destprefix : Z;
  destport : Z;
  protocol : Z;
  flowlabel : Z;
  ds_field : Z;
  spi : Z;
  downstream : bool;
}.
#[export] Instance mri_pathcoupled_eta : Eta mri_pathcoupled := λ m,
  mk_pc (sourceaddress m) (sourceprefix m) (sourceport m) (destaddress m) (destprefix m) (destport m)
    (protocol m) (flowlabel m) (ds_field m) (spi m) (downstream m).

(** Of the third routing method, explicit signalling targets, only what every method
    has. *)
Inductive mri :=
| PathCoupled (m : mri_pathcoupled)
| LooseEnd (source dest : hostaddress) (down : bool)
| OtherMRI (source dest : hostaddress) (down : bool).

Definition invertDirection (m : mri) : mri :=
  match m with
  | PathCoupled p => PathCoupled (p <| downstream := negb (downstream p) |>)
  | LooseEnd s d b => LooseEnd s d (negb b)
  | OtherMRI s d b => OtherMRI s d (negb b)
  end.

Definition get_destaddress (m : mri) : hostaddress :=
  match m with PathCoupled p => destaddress p | LooseEnd _ d _ | OtherMRI _ d _ => d end.

Definition as_pathcoupled (m : mri) : option mri_pathcoupled :=
  match m with PathCoupled p => Some p | _ => None end.

(** ** Messages *)

Inductive natfw_object :=
| session_lifetime (value : Z)
| external_address (a : hostaddress) (port : Z)
| extended_flow_info (rule_action sub_ports : Z)
| information_code (severity response_code object_type : Z)
| nonce (value : Z)
| msg_sequence_number (value : Z)
| data_terminal_info (protocol dr_port ds_port : Z) (* 0 where the object does not say *)
| icmp_types (types : list Z)
| raw_object (type : Z) (body : list Z).

Definition object_type (o : natfw_object) : Z :=
  match o with
  | session_lifetime _ => 0xF1
  | external_address _ _ => 0xF2
  | extended_flow_info _ _ => 0xF3
  | information_code _ _ _ => 0xF4
  | nonce _ => 0xF5
  | msg_sequence_number _ => 0xF6
  | data_terminal_info _ _ _ => 0xF7
  | icmp_types _ => 0xF9
  | raw_object t _ => t
  end.

(** The message types, the MSG_TYPE of the classes of messages. *)
Definition CREATE : Z := 1.
Definition EXT : Z := 2.
Definition RESPONSE : Z := 3.

Record natfw_msg := mk_msg {
  msg_type : Z;
  proxy_mode_flag : bool;
  objects : gmap Z natfw_object;
}.
#[export] Instance natfw_msg_eta : Eta natfw_msg := λ m,
  mk_msg (msg_type m) (proxy_mode_flag m) (objects m).

Definition set_object (m : natfw_msg) (o : natfw_object) : natfw_msg :=
  m <| objects := <[object_type o := o]> (objects m) |>.

Definition ra_allow : Z := 1.
Definition ra_deny : Z := 2.

(** [get_session_lifetime], [get_rule_action] and [get_subsequent_ports] have a default
    for a message without the object, [get_msg_sequence_number] asserts that there is
    one. *)
Definition get_session_lifetime (m : natfw_msg) : Z :=
  match objects m !! 0xF1 with Some (session_lifetime v) => v | _ => 0 end.
Definition get_rule_action (m : natfw_msg) : Z :=
  match objects m !! 0xF3 with Some (extended_flow_info a _) => a | _ => ra_deny end.
Definition get_subsequent_ports (m : natfw_msg) : Z :=
  match objects m !! 0xF3 with Some (extended_flow_info _ p) => p | _ => 0 end.
Definition get_nonce (m : natfw_msg) : Z :=
  match objects m !! 0xF5 with Some (nonce v) => v | _ => 0 end.
Definition get_protocol (m : natfw_msg) : Z :=
  match objects m !! 0xF7 with Some (data_terminal_info p _ _) => p | _ => 0 end.
Definition get_dr_port (m : natfw_msg) : Z :=
  match objects m !! 0xF7 with Some (data_terminal_info _ p _) => p | _ => 0 end.
Definition has_msg_sequence_number (m : natfw_msg) : option Z :=
  match objects m !! 0xF6 with Some (msg_sequence_number v) => Some v | _ => None end.
Definition get_msg_sequence_number (m : natfw_msg) : comp Z := deref (has_msg_sequence_number m).

Definition sc_success : Z := 2.
Definition sc_protocol_error : Z := 3.
Definition sc_transient_failure : Z := 4.
Definition sc_permanent_failure : Z := 5.
Definition sc_signaling_session_failures : Z := 6.
Definition suc_successfully_processed : Z := 1.
Definition tfail_resources_unavailable : Z := 1.
Definition fail_authentication_failed : Z := 1.
Definition fail_nr_not_reached : Z := 7.
Definition sigfail_lifetime_too_big : Z := 2.
Definition sigfail_no_reservation_found : Z := 3.
Definition sigfail_unknown_policy_rule_action : Z := 5.

Definition is_success (m : natfw_msg) : bool :=
  match objects m !! 0xF4 with
  | Some (information_code s c _) => (s =? sc_success) && (c =? suc_successfully_processed)
  | _ => false
  end.

(** [natfw_response::is_response_to]. *)
Definition is_response_to (resp create : natfw_msg) : comp bool :=
  a ← get_msg_sequence_number resp;
  b ← get_msg_sequence_number create;
  Ok (a =? b).

(** The body is null if the received bytes could not be parsed. *)
Record ntlp_msg := mk_ntlp {
  m_sid : Z;
  routing_info : mri;
  sii_handle : Z;
  body : option natfw_msg;
}.

Definition copy_for_forwarding (m : ntlp_msg) (new_mri : option mri) : ntlp_msg :=
  mk_ntlp (m_sid m) (default (routing_info m) new_mri) 0 (body m).

Definition create_response (m : ntlp_msg) (severity response_code : Z) : ntlp_msg :=
  let resp := set_object (mk_msg RESPONSE false ∅) (information_code severity response_code 0) in
  let resp := match body m ≫= has_msg_sequence_number with
              | Some n => set_object resp (msg_sequence_number n)
              | None => resp
              end in
  mk_ntlp (m_sid m) (invertDirection (routing_info m)) 0 (Some resp).

Definition create_success_response (m : ntlp_msg) (lifetime : Z) : ntlp_msg :=
  let r := create_response m sc_success suc_successfully_processed in
  mk_ntlp (m_sid r) (routing_info r) (sii_handle r)
    ((λ b, set_object b (session_lifetime lifetime)) <$> body r).

(** Comparison of message sequence numbers after RFC 1982. *)
Definition is_greater_than (s1 s2 : Z) : bool :=
  let LIMIT := 2147483648 in
  negb (s1 =? s2)
  && (((s1 <? s2) && (LIMIT <? s2 - s1)) || ((s2 <? s1) && (s1 - s2 <? LIMIT))).

(** A [request_error]: severity and response code. *)
Abbreviation request_error := (Z * Z)%type.

Definition create_error_response (m : ntlp_msg) (e : request_error) : ntlp_msg :=
  create_response m e.1 e.2.

(** ** Events *)

Record api_create := mk_api_create {
  ac_source : hostaddress;
  ac_dest : hostaddress;
  ac_source_port : Z;
  ac_dest_port : Z;
  ac_protocol : Z;
  ac_icmp_types : list Z;
  ac_lifetime : Z;
  ac_proxy : bool;
  ac_return_queue : bool;
}.

Record api_ext := mk_api_ext {
  ae_action : Z;
  ae_nr_address : hostaddress;
  ae_nr_prefix : Z;
  ae_nr_port : Z;
  ae_ni_address : hostaddress;
  ae_ni_prefix : Z;
  ae_ni_port : Z;
  ae_protocol : Z;
  ae_lifetime : Z;
  ae_ni_address_known : bool;
  ae_proxy : bool;
  ae_return_queue : bool;
}.

Inductive event :=
| network_notification_event
| route_changed_bad_event (sid : Z)
| no_next_node_found_event (sid : Z)
| routing_state_check_event (sid : Z) (m : mri)
| msg_event (sid : Z) (m : ntlp_msg) (for_this_node : bool)
| timer_event (sid id : Z)
| api_create_event (e : api_create)
| api_ext_event (e : api_ext)
| api_teardown_event (sid : Z) (proxy : bool).

Definition get_session_id (evt : event) : option Z :=
  match evt with
  | network_notification_event | api_create_event _ | api_ext_event _ => None
  | route_changed_bad_event sid | no_next_node_found_event sid | routing_state_check_event sid _
  | msg_event sid _ _ | timer_event sid _ | api_teardown_event sid _ => Some sid
  end.

(** [is_timer(evt)] and [is_timer(evt, t)], for a timer with id [t]. *)
Definition is_timer (evt : event) : bool :=
  match evt with timer_event _ _ => true | _ => false end.
Definition is_timer_of (evt : event) (t : Z) : bool :=
  match evt with timer_event _ id => id =? t | _ => false end.

Definition is_no_next_node_found_event (evt : event) : bool :=
  match evt with no_next_node_found_event _ => true | _ => false end.
Definition is_route_changed_bad_event (evt : event) : bool :=
  match evt with route_changed_bad_event _ => true | _ => false end.

(** The message of class [type] that the event carries: [is_natfw_create],
    [is_natfw_response] and [is_natfw_ext] together with the casts that follow them. *)
Definition get_msg (type : Z) (evt : event) : option (ntlp_msg * natfw_msg) :=
  match evt with
  | msg_event _ m _ =>
      match body m with
      | Some b => if msg_type b =? type then Some (m, b) else None
      | None => None
      end
  | _ => None
  end.

(** [is_natfw_response(evt, msg)]: a response with the sequence number of [msg]. *)
Definition get_response_msn (evt : event) (m : ntlp_msg) : option (ntlp_msg * natfw_msg) :=
  match body m ≫= has_msg_sequence_number, get_msg RESPONSE evt with
  | Some n, Some (r, b) =>
      if decide (has_msg_sequence_number b = Some n) then Some (r, b) else None
  | _, _ => None
  end.

(** ** Policy rules *)

Definition ACTION_ALLOW : Z := 1.
Definition ACTION_DENY : Z := 2.

Record fw_policy_rule := mk_fw {
  fw_action : Z;
  fw_ds_addr : hostaddress; fw_ds_prefix : Z; fw_ds_port : Z;
  fw_dr_addr : hostaddress; fw_dr_prefix : Z; fw_dr_port : Z;
  fw_protocol : Z;
}.

Inductive nat_type := TYPE_DEST_NAT | TYPE_SOURCE_NAT.

Record nat_policy_rule := mk_nat {
  nat_ds_addr : hostaddress; nat_ds_port : Z;
  nat_ext_addr : hostaddress; nat_ext_port : Z;
  nat_dr_addr : hostaddress; nat_dr_port : Z;
  nat_protocol : Z;
  rule_type : nat_type;
}.

(** The arguments of an iptables command, in place of its text. *)
Inductive target :=
| ACCEPT | DROP
| DNAT (a : hostaddress) (port : Z)
| SNAT (a : hostaddress) (port : Z).

Record expression := mk_expr {
  x_protocol : Z;
  x_source : hostaddress; x_source_prefix : option Z;
  x_dest : hostaddress; x_dest_prefix : option Z;
  x_sport : Z; x_dport : Z;
  x_target : target;
}.

Inductive chain := natfwd_filter | natfwd_dnat | natfwd_snat.
Inductive command := Append (c : chain) (x : expression) | Delete (c : chain) (x : expression).

#[export] Instance target_eq_dec : EqDecision target.
Proof. solve_decision. Defined.
#[export] Instance expression_eq_dec : EqDecision expression.
Proof. solve_decision. Defined.
#[export] Instance chain_eq_dec : EqDecision chain.
Proof. solve_decision. Defined.

(** [create_expression] of a firewall rule, downstream or upstream. *)
Definition fw_expression (r : fw_policy_rule) (down : bool) : expression :=
  let t := if fw_action r =? ACTION_ALLOW then ACCEPT else DROP in
  if down then
    mk_expr (fw_protocol r) (fw_ds_addr r) (Some (fw_ds_prefix r)) (fw_dr_addr r) (Some (fw_dr_prefix r))
      (fw_ds_port r) (fw_dr_port r) t
  else
    mk_expr (fw_protocol r) (fw_dr_addr r) (Some (fw_dr_prefix r)) (fw_ds_addr r) (Some (fw_ds_prefix r))
      (fw_dr_port r) (fw_ds_port r) t.

(** [create_expression] of a NAT rule, and the chain it goes to. *)
Definition nat_expression (r : nat_policy_rule) : chain * expression :=
  match rule_type r with
  | TYPE_DEST_NAT =>
      (natfwd_dnat, mk_expr (nat_protocol r) (nat_ds_addr r) None (nat_ext_addr r) None (nat_ds_port r)
        (nat_ext_port r) (DNAT (nat_dr_addr r) (nat_dr_port r)))
  | TYPE_SOURCE_NAT =>
      (natfwd_snat, mk_expr (nat_protocol r) (nat_ds_addr r) None (nat_dr_addr r) None (nat_ds_port r)
        (nat_dr_port r) (SNAT (nat_ext_addr r) (nat_ext_port r)))
  end.

(** What [install] appends and [remove] deletes. *)
Definition rule_lines (nat : option nat_policy_rule) (fw : option fw_policy_rule) : list (chain * expression) :=
  match nat with Some r => [nat_expression r] | None => [] end
  ++ match fw with
     | Some r => [(natfwd_filter, fw_expression r true); (natfwd_filter, fw_expression r false)]
     | None => []
     end.

(** ** The pool of external addresses *)

Record nat_manager := mk_nat_manager {
  address : hostaddress;
  available : list Z;
  external_to_private : gmap appladdress appladdress;
}.
#[export] Instance nat_manager_eta : Eta nat_manager := λ n,
  mk_nat_manager (address n) (available n) (external_to_private n).

(** [fill_available]: the ports from [start] to [stop], pushed in order. *)
Definition fill_available (start stop : Z) : list Z := seqZ start (stop - start + 1).

Definition new_nat_manager (addr : hostaddress) (start stop : Z) : nat_manager :=
  mk_nat_manager addr (fill_available start stop) ∅.

Definition nat_reserve (n : nat_manager) (priv : appladdress) : (request_error + appladdress) * nat_manager :=
  match available n with
  | port :: l =>
      let ext := mk_appl (address n) (a_protocol priv) port in
      (inr ext, n <| available := l |> <| external_to_private := <[ext := priv]> (external_to_private n) |>)
  | [] => (inl (sc_transient_failure, tfail_resources_unavailable), n)
  end.

Definition nat_release (n : nat_manager) (ext : appladdress) : nat_manager :=
  n <| available := available n ++ [a_port ext] |>
    <| external_to_private := delete ext (external_to_private n) |>.

Definition nat_lookup (n : nat_manager) (ext : appladdress) : request_error + appladdress :=
  match external_to_private n !! ext with
  | Some priv => inr priv
  | None => inl (sc_signaling_session_failures, sigfail_no_reservation_found)
  end.

(** ** Configuration, world, and the services of the dispatcher *)

(** A parameter of the repository (protlib), with the type it was registered with. *)
Inductive configpar :=
| par_uint16 (v : Z)
| par_uint32 (v : Z)
| par_hostaddresses (l : list hostaddress)
| par_networks (l : list netaddress).

(** [getPar] and [getParRef] at the type that the caller expects: they throw if it is not
    the registered one.  The two callers for which the types may differ are reached only
    from functions declared [throw ()], where an exception ends the program. *)
Definition getpar_uint32 (p : configpar) : comp Z :=
  match p with par_uint32 v => Ok v | _ => Abort end.
Definition getparref_networks (p : configpar) : comp (list netaddress) :=
  match p with par_networks l => Ok l | _ => Abort end.

Record natfw_config := mk_config {
  ni_max_retries_par : Z;
  ni_response_timeout_par : Z;
  nf_max_session_lifetime : Z;
  is_nf_nat : bool;
  is_nf_firewall : bool;
  is_nf_edge_node : bool;
  nf_private_networks_par : configpar;
  nr_max_session_lifetime : Z;
  nr_ext_max_retries_par : configpar;
  nr_ext_response_timeout_par : Z;
}.

(** The types that [registerAllPars] gives to these two; [setPar] does not change them. *)
Definition registered (conf : natfw_config) : Prop :=
  (∃ l, nf_private_networks_par conf = par_hostaddresses l) ∧
  (∃ v, nr_ext_max_retries_par conf = par_uint16 v).

Record world := mk_world {
  w_nat : nat_manager;
  w_commands : list command;
  w_sent : list ntlp_msg;
  w_answers : list (Z * mri);
  w_replies : list Z;
  w_timers : list (Z * Z * Z);
  w_next_id : Z;
  w_rand : list Z;
  w_random : list Z;
  w_ids : list Z;
}.
#[export] Instance world_eta : Eta world := λ w,
  mk_world (w_nat w) (w_commands w) (w_sent w) (w_answers w) (w_replies w) (w_timers w) (w_next_id w)
    (w_rand w) (w_random w) (w_ids w).

Definition send_message (w : world) (m : ntlp_msg) : world := w <| w_sent := w_sent w ++ [m] |>.

(** A timer that will send an event to session [sid] after [seconds], which is passed as
    an [int]; its id is new. *)
Definition start_timer (w : world) (sid seconds : Z) : Z * world :=
  (w_next_id w, w <| w_next_id := w_next_id w + 1 |> <| w_timers := w_timers w ++ [(sid, w_next_id w, s32 seconds)] |>).

(** The services of [iptables_policy_rule_installer]: a command is recorded when it is
    run, and, as in the code, what it returns changes nothing.  A firewall or NAT has this
    installer if the parameter nf-install-policy-rules is set; without it, it runs no
    commands at all, and the record is of the commands that it would have run. *)
Definition install_policy_rules (w : world) (nat : option nat_policy_rule) (fw : option fw_policy_rule) : world :=
  w <| w_commands := w_commands w ++ ((λ '(c, x), Append c x) <$> rule_lines nat fw) |>.

Definition remove_policy_rules (w : world) (nat : option nat_policy_rule) (fw : option fw_policy_rule) : world :=
  w <| w_commands := w_commands w ++ ((λ '(c, x), Delete c x) <$> rule_lines nat fw) |>.

Definition reserve_external_address (w : world) (priv : appladdress) : (request_error + appladdress) * world :=
  let '(r, n) := nat_reserve (w_nat w) priv in (r, w <| w_nat := n |>).

Definition release_external_address (w : world) (ext : appladdress) : world :=
  w <| w_nat := nat_release (w_nat w) ext |>.

Fixpoint in_networks (networks : list netaddress) (a : hostaddress) : comp bool :=
  match networks with
  | [] => Ok false
  | n :: l =>
      r ← match_against a n;
      if r =? pref_len n then Ok true else in_networks l a
  end.

Definition is_from_private_side (conf : natfw_config) (a : hostaddress) : comp bool :=
  networks ← getparref_networks (nf_private_networks_par conf);
  in_networks networks a.

(** [dispatcher::is_authorized] accepts everything. *)
Definition is_authorized (m : ntlp_msg) : bool := true.

(** The checks of [session]: an error to throw, or nothing. *)
Definition check_lifetime (lifetime max_lifetime : Z) : option request_error :=
  if max_lifetime <? lifetime then Some (sc_signaling_session_failures, sigfail_lifetime_too_big) else None.
Definition check_authorization (m : ntlp_msg) : option request_error :=
  if is_authorized m then None else Some (sc_permanent_failure, fail_authentication_failed).
Definition check_request (lifetime max_lifetime : Z) (m : ntlp_msg) : option request_error :=
  match check_lifetime lifetime max_lifetime with Some e => Some e | None => check_authorization m end.

(** [session::get_nr_address].  For another routing method the text of the error is a
    pointer 125 bytes into a string of 14, which is undefined. *)
Definition get_nr_address (m : ntlp_msg) : comp appladdress :=
  match routing_info m with
  | PathCoupled p => Ok (mk_appl (destaddress p) (protocol p) (destport p))
  | LooseEnd _ d _ =>
      ext ← deref (body m);
      Ok (mk_appl d (get_protocol ext) (get_dr_port ext))
  | OtherMRI _ _ _ => Abort
  end.

Definition random32 (w : world) : Z * world :=
  (default 0 (head (w_random w)), w <| w_random := tail (w_random w) |>).

(** The interface of [session]: a session processes an event. *)
Class Session (S : Type) := {
  process_event : S → event → world → comp (S * world);
  is_final : S → bool;
}.

End Natfw.
