(* ===== verification/NatfwSession.v ===== *)
(** * natfw-nslp: initiator, responder and forwarder sessions

    The state machines of src/ni_session.cpp, src/nr_session.cpp and src/nf_session.cpp.
    A handler takes the session, the event and the [world] and returns the session and
    the world after it; the exceptions that the code throws in these classes are caught
    in the function that calls the thrower, and are values here.  A timer is the id of
    the timer message it waits for, 0 when it is stopped. *)

From S2P Require Import Prelude Natfw.
From Stdlib Require Import Floats.SpecFloat.
Import Natfw.

(** ** Double precision arithmetic of [setup_session] *)
Module Double.

Definition of_Z (x : Z) : spec_float := binary_normalize 53 1024 x 0 false.
Definition mul (x y : spec_float) : spec_float := SFmul 53 1024 x y.
Definition add (x y : spec_float) : spec_float := SFadd 53 1024 x y.
Definition div (x y : spec_float) : spec_float := SFdiv 53 1024 x y.

(** [(int) ceil(x)]; converting a value that does not fit is undefined. *)
Definition ceil_int (x : spec_float) : comp Z :=
  match x with
  | S754_zero _ => Ok 0
  | S754_finite s m e =>
      let z := if s then - Zpos m else Zpos m in
      let c := if 0 <=? e then z << e else - ((- z) >> (- e)) in
      assert_c ((- 2 ^ 31 <=? c) && (c <? 2 ^ 31));; Ok c
  | _ => Abort
  end.

End Double.

(** ** The initiator *)
Module Ni.

Inductive ni_state_t := STATE_IDLE | STATE_WAITRESP | STATE_SESSION | STATE_FINAL.

Record ni_session := mk_ni {
  id : Z;
  msn : Z;
  state : ni_state_t;
  ni_mri : option mri;
  icmp : list Z;
  last_create_msg : option ntlp_msg;
  proxy_mode : bool;
  lifetime : Z;
  refresh_interval : Z;
  response_timeout : Z;
  create_counter : Z;
  max_retries : Z;
  proxy_session : bool;
  nonce_value : Z;
  response_timer : Z;
  refresh_timer : Z;
}.
#[global] Instance ni_session_eta : Eta ni_session := λ s,
  mk_ni (id s) (msn s) (state s) (ni_mri s) (icmp s) (last_create_msg s) (proxy_mode s) (lifetime s)
    (refresh_interval s) (response_timeout s) (create_counter s) (max_retries s) (proxy_session s)
    (nonce_value s) (response_timer s) (refresh_timer s).

(** The constructor; [set_nonce] also sets [proxy_session].  [proxy_mode] is not
    initialised before [setup_session] sets it. *)
Definition new_ni_session (sid random_msn random_nonce : Z) (conf : natfw_config) : ni_session :=
  mk_ni sid random_msn STATE_IDLE None [] None false 0 20 (ni_response_timeout_par conf) 0
    (ni_max_retries_par conf) true random_nonce 0 0.

Definition build_create_message (s : ni_session) : comp (ntlp_msg * ni_session) :=
  m ← deref (ni_mri s);
  let n := u32 (msn s + 1) in
  let create := mk_msg CREATE (proxy_mode s) ∅ in
  let create := set_object create (session_lifetime (lifetime s)) in
  let create := set_object create (extended_flow_info ra_allow 0) in
  let create := set_object create (msg_sequence_number n) in
  let create := match icmp s with [] => create | l => set_object create (icmp_types l) end in
  let create := if proxy_mode s || proxy_session s then set_object create (nonce (nonce_value s)) else create in
  Ok (mk_ntlp (id s) m 0 (Some create), s <| msn := n |>).

(** [ceil(lifetime / ((max_retries + 0.5) * 1.5))].  The sum and the product are exact in
    double precision, and the quotient of numbers below [2^34] is rounded by less than
    its distance from the next integer, so that this is the exact ceiling. *)
Definition refresh_of (lifetime max_retries : Z) : Z :=
  - ((- (4 * lifetime)) / (3 * (2 * max_retries + 1))).

(** [ceil((((rand() % 1000) / 1000.0) + 0.5) * r)]. *)
Definition timeout_of (rand r : Z) : comp Z :=
  let x := Double.div (Double.of_Z (rand mod 1000)) (Double.of_Z 1000) in
  let x := Double.add x (Double.div (Double.of_Z 1) (Double.of_Z 2)) in
  Double.ceil_int (Double.mul x (Double.of_Z r)).

Definition setup_session (s : ni_session) (e : api_create) (w : world) : comp (ni_session * world) :=
  let m := mk_pc (ac_source e) 32 (ac_source_port e) (ac_dest e) 32 (ac_dest_port e) (ac_protocol e) 0 0 0 true in
  let s := s <| ni_mri := Some (PathCoupled m) |> in
  let s := if negb (ac_lifetime e =? 0) then s <| lifetime := ac_lifetime e |> else s in
  let r := refresh_of (lifetime s) (max_retries s) in
  assert_c (r <? 2 ^ 32);;
  assert_c (0 <? r);;
  t ← timeout_of (default 0 (head (w_rand w))) r;
  Ok (s <| refresh_interval := r |> <| response_timeout := u32 t |> <| proxy_mode := ac_proxy e |>,
      w <| w_rand := tail (w_rand w) |>).

Definition ni_handle_state_idle (s : ni_session) (evt : event) (w : world) : comp (ni_session * world) :=
  match evt with
  | api_create_event e =>
      '(s, w) ← setup_session s e w;
      '(m, s) ← build_create_message s;
      let s := s <| last_create_msg := Some m |> in
      let w := send_message w m in
      let '(t, w) := start_timer w (id s) (response_timeout s) in
      let s := s <| response_timer := t |> in
      let w := if ac_return_queue e then w <| w_replies := w_replies w ++ [id s] |> else w in
      Ok (s <| state := STATE_WAITRESP |>, w)
  | _ => Ok (s <| state := STATE_FINAL |>, w)
  end.

(** A response to the last CREATE: the session is established or refreshed, or it
    ends. *)
Definition ni_response (s : ni_session) (resp : natfw_msg) (w : world) : comp (ni_session * world) :=
  m ← deref (last_create_msg s);
  c ← deref (body m);
  ok ← is_response_to resp c;
  if negb ok then Ok (s, w)
  else if is_success resp then
    let s := s <| response_timer := 0 |> in
    let '(t, w) := start_timer w (id s) (refresh_interval s) in
    Ok (s <| refresh_timer := t |> <| create_counter := 0 |> <| state := STATE_SESSION |>, w)
  else Ok (s <| state := STATE_FINAL |>, w).

(** The response timer went off: send the last CREATE again, or give up. *)
Definition ni_timeout (s : ni_session) (w : world) : comp (ni_session * world) :=
  if create_counter s <? max_retries s then
    let s := s <| create_counter := u32 (create_counter s + 1) |> in
    m ← deref (last_create_msg s);
    let w := send_message w m in
    let '(t, w) := start_timer w (id s) (response_timeout s) in
    Ok (s <| response_timer := t |>, w)
  else Ok (s <| state := STATE_FINAL |>, w).

(** The user ends the session: a CREATE with lifetime 0. *)
Definition ni_teardown (s : ni_session) (w : world) : comp (ni_session * world) :=
  let s := s <| lifetime := 0 |> <| last_create_msg := None |> in
  '(m, s) ← build_create_message s;
  Ok (s <| state := STATE_FINAL |>, send_message w m).

Definition ni_handle_state_waitresp (s : ni_session) (evt : event) (w : world) : comp (ni_session * world) :=
  match get_msg RESPONSE evt with
  | Some (_, resp) => ni_response s resp w
  | None =>
      if is_timer_of evt (response_timer s) then ni_timeout s w
      else match evt with
      | no_next_node_found_event _ => Ok (s <| state := STATE_FINAL |>, w)
      | api_teardown_event _ _ => ni_teardown s w
      | _ => Ok (s, w)
      end
  end.

Definition ni_handle_state_session (s : ni_session) (evt : event) (w : world) : comp (ni_session * world) :=
  last ← deref (last_create_msg s);
  match get_response_msn evt last with
  | Some (_, resp) => ni_response s resp w
  | None =>
      if is_timer_of evt (refresh_timer s) then
        '(m, s) ← build_create_message s;
        let s := s <| last_create_msg := Some m |> in
        let w := send_message w m in
        let '(t, w) := start_timer w (id s) (response_timeout s) in
        Ok (s <| response_timer := t |>, w)
      else if is_timer_of evt (response_timer s) then ni_timeout s w
      else match evt with
      | api_teardown_event _ _ => ni_teardown s w
      | _ => Ok (s, w)
      end
  end.

Definition ni_process_event (s : ni_session) (evt : event) (w : world) : comp (ni_session * world) :=
  match state s with
  | STATE_IDLE => ni_handle_state_idle s evt w
  | STATE_WAITRESP => ni_handle_state_waitresp s evt w
  | STATE_SESSION => ni_handle_state_session s evt w
  | STATE_FINAL => Ok (s, w)
  end.

#[global] Instance ni_is_session : Session ni_session := {|
  process_event := ni_process_event;
  is_final s := match state s with STATE_FINAL => true | _ => false end;
|}.

End Ni.

(** ** The responder *)
Module Nr.

Inductive nr_state_t := STATE_IDLE | STATE_SESSION | STATE_FINAL.

Record nr_session := mk_nr {
  id : Z;
  msn : Z;
  state : nr_state_t;
  lifetime : Z;
  max_lifetime : Z;
  state_timer : Z;
}.
#[global] Instance nr_session_eta : Eta nr_session := λ s,
  mk_nr (id s) (msn s) (state s) (lifetime s) (max_lifetime s) (state_timer s).

Definition new_nr_session (sid : Z) (conf : natfw_config) : nr_session :=
  mk_nr sid 0 STATE_IDLE 0 (nr_max_session_lifetime conf) 0.

(** Accepts a CREATE: answers it and waits for its lifetime. *)
Definition accept (s : nr_session) (m : ntlp_msg) (lt n : Z) (w : world) : nr_session * world :=
  let s := s <| lifetime := lt |> <| msn := n |> in
  let w := send_message w (create_success_response m lt) in
  let '(t, w) := start_timer w (id s) lt in
  (s <| state_timer := t |> <| state := STATE_SESSION |>, w).

Definition nr_handle_state_idle (s : nr_session) (evt : event) (w : world) : comp (nr_session * world) :=
  match get_msg CREATE evt with
  | Some (m, c) =>
      let lt := get_session_lifetime c in
      n ← get_msg_sequence_number c;
      match check_request lt (max_lifetime s) m with
      | Some e => Ok (s <| state := STATE_FINAL |>, send_message w (create_error_response m e))
      | None =>
          if 0 <? lt then Ok (accept s m lt n w)
          else Ok (s <| state := STATE_FINAL |>, w)
      end
  | None => Ok (s <| state := STATE_FINAL |>, w)
  end.

Definition nr_handle_state_session (s : nr_session) (evt : event) (w : world) : comp (nr_session * world) :=
  match get_msg CREATE evt with
  | Some (m, c) =>
      let lt := get_session_lifetime c in
      n ← get_msg_sequence_number c;
      match check_request lt (max_lifetime s) m with
      | Some e => Ok (s, send_message w (create_error_response m e))
      | None =>
          if negb (is_greater_than n (msn s)) then Ok (s, w)
          else if 0 <? lt then Ok (accept s m lt n w)
          else if lt =? 0 then Ok (s <| state := STATE_FINAL |>, w)
          else Ok (s, w)
      end
  | None =>
      if is_timer_of evt (state_timer s) then Ok (s <| state := STATE_FINAL |>, w) else Ok (s, w)
  end.

Definition nr_process_event (s : nr_session) (evt : event) (w : world) : comp (nr_session * world) :=
  match state s with
  | STATE_IDLE => nr_handle_state_idle s evt w
  | STATE_SESSION => nr_handle_state_session s evt w
  | STATE_FINAL => Ok (s, w)
  end.

#[global] Instance nr_is_session : Session nr_session := {|
  process_event := nr_process_event;
  is_final s := match state s with STATE_FINAL => true | _ => false end;
|}.

End Nr.

(** ** The forwarder *)
Module Nf.

Inductive nf_state_t := STATE_IDLE | STATE_WAITRESP | STATE_SESSION | STATE_FINAL.

Record nf_session := mk_nf {
  id : Z;
  msn : Z;
  state : nf_state_t;
  config : natfw_config;
  proxy_mode : bool;
  lifetime : Z;
  max_lifetime : Z;
  response_timeout : Z;
  state_timer : Z;
  response_timer : Z;
  ni_mri : option mri;
  nr_mri : option mri;
  create_message : option ntlp_msg;
  fw_rule : option fw_policy_rule;
  nat_rule : option nat_policy_rule;
  ext_addr : option appladdress;
}.
#[global] Instance nf_session_eta : Eta nf_session := λ s,
  mk_nf (id s) (msn s) (state s) (config s) (proxy_mode s) (lifetime s) (max_lifetime s) (response_timeout s)
    (state_timer s) (response_timer s) (ni_mri s) (nr_mri s) (create_message s) (fw_rule s) (nat_rule s)
    (ext_addr s).

Definition new_nf_session (sid : Z) (conf : natfw_config) : nf_session :=
  mk_nf sid 0 STATE_IDLE conf false 0 0 0 0 0 None None None None None None.

Definition create_mri_with_dest (m : mri_pathcoupled) (priv : appladdress) : comp mri :=
  assert_c (downstream m);;
  Ok (PathCoupled (m <| destaddress := a_host priv |> <| destport := a_port priv |>)).
Definition create_mri_with_source (m : mri_pathcoupled) (priv : appladdress) : comp mri :=
  assert_c (downstream m);;
  Ok (PathCoupled (m <| sourceaddress := a_host priv |> <| sourceport := a_port priv |>)).
Definition create_mri_inverted (m : mri_pathcoupled) : comp mri :=
  assert_c (downstream m);; Ok (invertDirection (PathCoupled m)).

Definition create_msg_for_nr (s : nf_session) (m : ntlp_msg) : comp ntlp_msg :=
  if is_nf_nat (config s) then x ← deref (nr_mri s); Ok (copy_for_forwarding m (Some x))
  else Ok (copy_for_forwarding m None).
Definition create_msg_for_ni (s : nf_session) (m : ntlp_msg) : comp ntlp_msg :=
  if is_nf_nat (config s) then x ← deref (ni_mri s); Ok (copy_for_forwarding m (Some x))
  else Ok (copy_for_forwarding m None).

(** [save_fw_policy_rule]: the error it throws, or the session with the rule.  Without a
    path-coupled MRI it only returns false, which its caller ignores. *)
Definition save_fw_policy_rule (s : nf_session) (m : ntlp_msg) (create : natfw_msg)
    : comp (request_error + nf_session) :=
  match as_pathcoupled (routing_info m) with
  | None => Ok (inr s)
  | Some pc =>
      assert_c (downstream pc);;
      let unknown := (sc_signaling_session_failures, sigfail_unknown_policy_rule_action) in
      if negb (get_subsequent_ports create =? 0) then Ok (inl unknown)
      else
        let rule a := mk_fw a (sourceaddress pc) (sourceprefix pc) (sourceport pc) (destaddress pc)
                        (destprefix pc) (destport pc) (protocol pc) in
        if get_rule_action create =? ra_allow then Ok (inr (s <| fw_rule := Some (rule ACTION_ALLOW) |>))
        else if get_rule_action create =? ra_deny then Ok (inr (s <| fw_rule := Some (rule ACTION_DENY) |>))
        else Ok (inl unknown)
  end.

Definition save_nat_policy_rule (s : nf_session) (pc : mri_pathcoupled) (dr_addr : appladdress) (t : nat_type)
    : comp nf_session :=
  assert_c (downstream pc);;
  Ok (s <| nat_rule := Some (mk_nat (sourceaddress pc) (sourceport pc) (destaddress pc) (destport pc)
                               (a_host dr_addr) (a_port dr_addr) (protocol pc) t) |>).

(** The rewriting of addresses that a NAT prepares: the error to answer, or the session
    with both MRIs and the NAT rule. *)
Definition setup_nat (s : nf_session) (pc : mri_pathcoupled) (w : world)
    : comp ((request_error + nf_session) * world) :=
  from_private ← is_from_private_side (config s) (sourceaddress pc);
  let dest := mk_appl (destaddress pc) (protocol pc) (destport pc) in
  if negb from_private then
    match nat_lookup (w_nat w) dest with
    | inl e => Ok (inl e, w)
    | inr addr =>
        nr ← create_mri_with_dest pc addr;
        ni ← create_mri_inverted pc;
        s ← save_nat_policy_rule (s <| nr_mri := Some nr |> <| ni_mri := Some ni |>) pc addr TYPE_DEST_NAT;
        Ok (inr s, w)
    end
  else
    let '(r, w) := reserve_external_address w dest in
    match r with
    | inl e => Ok (inl e, w)
    | inr addr =>
        let s := s <| ext_addr := Some addr |> in
        nr ← create_mri_with_source pc addr;
        ni ← create_mri_inverted pc;
        s ← save_nat_policy_rule (s <| nr_mri := Some nr |> <| ni_mri := Some ni |>) pc addr TYPE_SOURCE_NAT;
        Ok (inr s, w)
    end.

Definition refuse (s : nf_session) (m : ntlp_msg) (e : request_error) (w : world) : nf_session * world :=
  (s <| state := STATE_FINAL |>, send_message w (create_error_response m e)).

Definition nf_handle_state_idle_create (s : nf_session) (m : ntlp_msg) (create : natfw_msg) (w : world)
    : comp (nf_session * world) :=
  let s := s <| create_message := Some m |> in
  r ← (if is_nf_firewall (config s) then save_fw_policy_rule s m create else Ok (inr s));
  match r with
  | inl e => Ok (refuse s m e w)
  | inr s =>
      pc ← deref (as_pathcoupled (routing_info m));
      '(r, w) ← (if is_nf_nat (config s) then setup_nat s pc w else Ok (inr s, w));
      match r with
      | inl e => Ok (refuse s m e w)
      | inr s =>
          fwd ← create_msg_for_nr s m;
          let w := send_message w fwd in
          let '(t, w) := start_timer w (id s) (lifetime s) in
          Ok (s <| state_timer := t |> <| state := STATE_WAITRESP |>, w)
      end
  end.

Definition nf_handle_state_idle (s : nf_session) (evt : event) (w : world) : comp (nf_session * world) :=
  match get_msg CREATE evt with
  | Some (m, create) =>
      let lt := get_session_lifetime create in
      n ← get_msg_sequence_number create;
      let s := s <| max_lifetime := nf_max_session_lifetime (config s) |>
                 <| response_timeout := nf_max_session_lifetime (config s) |> in
      match check_request lt (max_lifetime s) m with
      | Some e => Ok (refuse s m e w)
      | None =>
          if lt =? 0 then Ok (s <| state := STATE_FINAL |>, w)
          else nf_handle_state_idle_create (s <| lifetime := lt |> <| msn := n |>) m create w
      end
  | None => Ok (s <| state := STATE_FINAL |>, w)
  end.

(** [if (is_external_address_reserved()) d->release_external_address(...)]. *)
Definition release_reserved (s : nf_session) (w : world) : world :=
  match ext_addr s with Some a => release_external_address w a | None => w end.

(** The destination does not answer: tell the initiator and give up. *)
Definition not_reached (s : nf_session) (w : world) : comp (nf_session * world) :=
  latest ← deref (create_message s);
  let w := send_message w (create_response latest sc_permanent_failure fail_nr_not_reached) in
  Ok (s <| state := STATE_FINAL |>, release_reserved s w).

Definition waitresp_response (s : nf_session) (m : ntlp_msg) (resp : natfw_msg) (w : world)
    : comp (nf_session * world) :=
  cm ← deref (create_message s);
  c ← deref (body cm);
  ok ← is_response_to resp c;
  if negb ok then Ok (s, w)
  else if is_success resp then
    let w := install_policy_rules w (nat_rule s) (fw_rule s) in
    fwd ← create_msg_for_ni s m;
    let w := send_message w fwd in
    let '(t, w) := start_timer w (id s) (lifetime s) in
    Ok (s <| state_timer := t |> <| state := STATE_SESSION |>, w)
  else
    let s := s <| state_timer := 0 |> in
    fwd ← create_msg_for_ni s m;
    let w := send_message w fwd in
    Ok (s <| state := STATE_FINAL |>, release_reserved s w).

Definition waitresp_create (s : nf_session) (m : ntlp_msg) (create : natfw_msg) (w : world)
    : comp (nf_session * world) :=
  cm ← deref (create_message s);
  previous ← deref (body cm);
  match check_authorization m with
  | Some e => Ok (s, send_message w (create_error_response m e))
  | None =>
      n ← get_msg_sequence_number create;
      p ← get_msg_sequence_number previous;
      if (p <? n) && (get_session_lifetime create =? 0) then
        let s := s <| state_timer := 0 |> in
        let w := send_message w (copy_for_forwarding m None) in
        Ok (s <| state := STATE_FINAL |>, release_reserved s w)
      else if n =? p then
        let w := send_message w (copy_for_forwarding m None) in
        let '(t, w) := start_timer w (id s) (response_timeout s) in
        Ok (s <| state_timer := t |>, w)
      else Ok (s, w)
  end.

Definition nf_handle_state_waitresp (s : nf_session) (evt : event) (w : world) : comp (nf_session * world) :=
  last ← deref (create_message s);
  match get_response_msn evt last with
  | Some (m, resp) => waitresp_response s m resp w
  | None =>
  match get_msg CREATE evt with
  | Some (m, create) => waitresp_create s m create w
  | None =>
      create ← deref (body last);
      if negb (is_nf_nat (config s)) && is_no_next_node_found_event evt && proxy_mode_flag create then
        let s := s <| proxy_mode := true |> in
        let w := install_policy_rules w None (fw_rule s) in
        let w := send_message w (create_success_response last (lifetime s)) in
        Ok (s <| state_timer := 0 |> <| state := STATE_SESSION |>, w)
      else if is_no_next_node_found_event evt || is_timer_of evt (state_timer s) then not_reached s w
      else Ok (s, w)
  end
  end.

Definition session_create (s : nf_session) (m : ntlp_msg) (create : natfw_msg) (w : world)
    : comp (nf_session * world) :=
  let lt := get_session_lifetime create in
  n ← get_msg_sequence_number create;
  match check_request lt (max_lifetime s) m with
  | Some e => Ok (s, send_message w (create_error_response m e))
  | None =>
      if negb (is_greater_than n (msn s)) then Ok (s, w)
      else if 0 <? lt then
        let s := s <| lifetime := lt |> <| msn := n |> <| create_message := Some m |> in
        if negb (proxy_mode s) then
          fwd ← create_msg_for_nr s m;
          let w := send_message w fwd in
          let '(t, w) := start_timer w (id s) (response_timeout s) in
          Ok (s <| response_timer := t |>, w)
        else Ok (s, send_message w (create_success_response m lt))
      else
        let s := s <| state_timer := 0 |> <| response_timer := 0 |> in
        let w := remove_policy_rules w (nat_rule s) (fw_rule s) in
        fwd ← create_msg_for_nr s m;
        let w := send_message w fwd in
        Ok (s <| state := STATE_FINAL |>, release_reserved s w)
  end.

Definition session_response (s : nf_session) (m : ntlp_msg) (resp : natfw_msg) (w : world)
    : comp (nf_session * world) :=
  cm ← deref (create_message s);
  c ← deref (body cm);
  ok ← is_response_to resp c;
  if negb ok then Ok (s, w)
  else if is_success resp then
    fwd ← create_msg_for_ni s m;
    let w := send_message w fwd in
    let '(t, w) := start_timer w (id s) (lifetime s) in
    Ok (s <| state_timer := t |>, w)
  else
    let w := remove_policy_rules w (nat_rule s) (fw_rule s) in
    fwd ← create_msg_for_ni s m;
    let w := send_message w fwd in
    Ok (s <| state := STATE_FINAL |>, release_reserved s w).

Definition nf_handle_state_session (s : nf_session) (evt : event) (w : world) : comp (nf_session * world) :=
  match get_msg CREATE evt with
  | Some (m, create) => session_create s m create w
  | None =>
  last ← deref (create_message s);
  match get_response_msn evt last with
  | Some (m, resp) => session_response s m resp w
  | None =>
      if negb (proxy_mode s) && (is_no_next_node_found_event evt || is_timer_of evt (response_timer s)) then
        let s := s <| state_timer := 0 |> <| response_timer := 0 |> in
        not_reached s (remove_policy_rules w (nat_rule s) (fw_rule s))
      else if is_timer_of evt (state_timer s) then
        let s := s <| response_timer := 0 |> in
        let w := remove_policy_rules w (nat_rule s) (fw_rule s) in
        Ok (s <| state := STATE_FINAL |>, release_reserved s w)
      else if is_route_changed_bad_event evt then Ok (s <| state := STATE_FINAL |>, w)
      else Ok (s, w)
  end
  end.

Definition nf_process_event (s : nf_session) (evt : event) (w : world) : comp (nf_session * world) :=
  match state s with
  | STATE_IDLE => nf_handle_state_idle s evt w
  | STATE_WAITRESP => nf_handle_state_waitresp s evt w
  | STATE_SESSION => nf_handle_state_session s evt w
  | STATE_FINAL => Ok (s, w)
  end.

#[global] Instance nf_is_session : Session nf_session := {|
  process_event := nf_process_event;
  is_final s := match state s with STATE_FINAL => true | _ => false end;
|}.

End Nf.
