(* ===== verification/NatfwExt.v ===== *)
(** * natfw-nslp: sessions of the EXT part

    A receiver behind a NAT or firewall announces itself with EXT messages: the session
    of the receiver (src/nr_ext_session.cpp), those of the forwarders on the way
    (src/nf_non_edge_ext_session.cpp), and that of the edge node, which reserves an
    external address and answers (src/nf_edge_ext_session.cpp).  The edge session acts
    on the session table and is completed in [NatfwNode]. *)

From S2P Require Import Prelude Natfw NatfwSession.
Import Natfw.

(** ** The receiver *)
Module NrExt.

Inductive nr_ext_state_t := STATE_IDLE | STATE_WAITRESP | STATE_SESSION | STATE_FINAL.

Record nr_ext_session := mk_nr_ext {
  id : Z;
  msn : Z;
  state : nr_ext_state_t;
  proxy_mode : bool;
  ext_template : option ntlp_msg;
  last_ext_msg : option ntlp_msg;
  lifetime : Z;
  refresh_interval : Z;
  response_timeout : Z;
  ext_counter : Z;
  max_retries : Z;
  response_timer : Z;
  refresh_timer : Z;
}.
#[global] Instance nr_ext_session_eta : Eta nr_ext_session := λ s,
  mk_nr_ext (id s) (msn s) (state s) (proxy_mode s) (ext_template s) (last_ext_msg s) (lifetime s)
    (refresh_interval s) (response_timeout s) (ext_counter s) (max_retries s) (response_timer s)
    (refresh_timer s).

Definition new_nr_ext_session (sid random_msn : Z) (conf : natfw_config) : comp nr_ext_session :=
  retries ← getpar_uint32 (nr_ext_max_retries_par conf);
  Ok (mk_nr_ext sid (u32 random_msn) STATE_IDLE false None None 0 20 (nr_ext_response_timeout_par conf) 0
        retries 0 0).

Definition build_ext_message (s : nr_ext_session) : comp (ntlp_msg * nr_ext_session) :=
  m ← deref (ext_template s);
  ext ← deref (body m);
  let n := u32 (msn s + 1) in
  let ext := set_object (set_object ext (session_lifetime (lifetime s))) (msg_sequence_number n) in
  Ok (mk_ntlp (m_sid m) (routing_info m) (sii_handle m) (Some ext), s <| msn := n |>).

Definition setup_ext_session (s : nr_ext_session) (e : api_ext) (w : world) : comp (nr_ext_session * world) :=
  let ext := mk_msg EXT (ae_proxy e) ∅ in
  let ext := set_object (set_object ext (session_lifetime 0)) (msg_sequence_number 0) in
  assert_c ((ae_action e =? ACTION_ALLOW) || (ae_action e =? ACTION_DENY));;
  let ext := set_object ext
    (extended_flow_info (if ae_action e =? ACTION_ALLOW then ra_allow else ra_deny) 0) in
  let ext := if negb (ae_ni_address_known e)
             then set_object ext (data_terminal_info (ae_protocol e) (ae_nr_port e) (ae_ni_port e)) else ext in
  let '(ext, w) := if ae_proxy e then let '(x, w) := random32 w in (set_object ext (nonce x), w)
                   else (ext, w) in
  let m := if ae_ni_address_known e then
             PathCoupled (mk_pc (ae_ni_address e) (ae_ni_prefix e) (ae_ni_port e) (ae_nr_address e)
               (ae_nr_prefix e) (ae_nr_port e) (ae_protocol e) 0 0 0 false)
           else LooseEnd (ae_ni_address e) (ae_nr_address e) false in
  let s := s <| ext_template := Some (mk_ntlp (id s) m 0 (Some ext)) |> in
  let s := if negb (ae_lifetime e =? 0) then s <| lifetime := ae_lifetime e |> else s in
  let r := Ni.refresh_of (lifetime s) (max_retries s) in
  assert_c (r <? 2 ^ 32);;
  assert_c (0 <? r);;
  Ok (s <| refresh_interval := r |> <| proxy_mode := ae_proxy e |>, w).

Definition nr_ext_handle_state_idle (s : nr_ext_session) (evt : event) (w : world)
    : comp (nr_ext_session * world) :=
  match evt with
  | api_ext_event e =>
      '(s, w) ← setup_ext_session s e w;
      '(m, s) ← build_ext_message s;
      let s := s <| last_ext_msg := Some m |> in
      let w := send_message w m in
      let '(t, w) := start_timer w (id s) (response_timeout s) in
      let s := s <| response_timer := t |> in
      let w := if ae_return_queue e then w <| w_replies := w_replies w ++ [id s] |> else w in
      Ok (s <| state := STATE_WAITRESP |>, w)
  | _ => Ok (s <| state := STATE_FINAL |>, w)
  end.

(** A response to the last EXT. *)
Definition nr_ext_response (s : nr_ext_session) (resp : natfw_msg) (w : world) : comp (nr_ext_session * world) :=
  m ← deref (last_ext_msg s);
  ext ← deref (body m);
  ok ← is_response_to resp ext;
  if negb ok then Ok (s, w)
  else if is_success resp then
    let s := s <| response_timer := 0 |> in
    let '(t, w) := start_timer w (id s) (refresh_interval s) in
    Ok (s <| refresh_timer := t |> <| ext_counter := 0 |> <| state := STATE_SESSION |>, w)
  else Ok (s <| state := STATE_FINAL |>, w).

Definition nr_ext_timeout (s : nr_ext_session) (w : world) : comp (nr_ext_session * world) :=
  if ext_counter s <? max_retries s then
    let s := s <| ext_counter := u32 (ext_counter s + 1) |> in
    m ← deref (last_ext_msg s);
    let w := send_message w m in
    let '(t, w) := start_timer w (id s) (response_timeout s) in
    Ok (s <| response_timer := t |>, w)
  else Ok (s <| state := STATE_FINAL |>, w).

Definition nr_ext_teardown (s : nr_ext_session) (w : world) : comp (nr_ext_session * world) :=
  let s := s <| lifetime := 0 |> <| last_ext_msg := None |> in
  '(m, s) ← build_ext_message s;
  Ok (s <| state := STATE_FINAL |>, send_message w m).

Definition nr_ext_handle_state_waitresp (s : nr_ext_session) (evt : event) (w : world)
    : comp (nr_ext_session * world) :=
  match get_msg RESPONSE evt with
  | Some (_, resp) => nr_ext_response s resp w
  | None =>
      if is_timer_of evt (response_timer s) then nr_ext_timeout s w
      else match evt with
      | api_teardown_event _ _ => nr_ext_teardown s w
      | _ => Ok (s, w)
      end
  end.

Definition nr_ext_handle_state_session (s : nr_ext_session) (evt : event) (w : world)
    : comp (nr_ext_session * world) :=
  match get_msg RESPONSE evt with
  | Some (_, resp) => nr_ext_response s resp w
  | None =>
      if is_timer_of evt (refresh_timer s) then
        '(m, s) ← build_ext_message s;
        let s := s <| last_ext_msg := Some m |> in
        let w := send_message w m in
        let '(t, w) := start_timer w (id s) (response_timeout s) in
        Ok (s <| response_timer := t |>, w)
      else if is_timer_of evt (response_timer s) then nr_ext_timeout s w
      else match evt with
      | api_teardown_event _ _ => nr_ext_teardown s w
      | _ => Ok (s, w)
      end
  end.

Definition nr_ext_process_event (s : nr_ext_session) (evt : event) (w : world) : comp (nr_ext_session * world) :=
  match state s with
  | STATE_IDLE => nr_ext_handle_state_idle s evt w
  | STATE_WAITRESP => nr_ext_handle_state_waitresp s evt w
  | STATE_SESSION => nr_ext_handle_state_session s evt w
  | STATE_FINAL => Ok (s, w)
  end.

#[global] Instance nr_ext_is_session : Session nr_ext_session := {|
  process_event := nr_ext_process_event;
  is_final s := match state s with STATE_FINAL => true | _ => false end;
|}.

End NrExt.

(** ** Forwarders that are not at the edge *)
Module NonEdge.

Inductive non_edge_state_t := STATE_IDLE | STATE_WAITRESP | STATE_SESSION | STATE_FINAL.

(** [ext_addr] is never set: it is the default address, with port 0. *)
Record nf_non_edge_ext_session := mk_non_edge {
  id : Z;
  msn : Z;
  state : non_edge_state_t;
  config : natfw_config;
  lifetime : Z;
  max_lifetime : Z;
  response_timeout : Z;
  state_timer : Z;
  response_timer : Z;
  last_ext_msg : option ntlp_msg;
  ext_addr : appladdress;
}.
#[global] Instance non_edge_eta : Eta nf_non_edge_ext_session := λ s,
  mk_non_edge (id s) (msn s) (state s) (config s) (lifetime s) (max_lifetime s) (response_timeout s)
    (state_timer s) (response_timer s) (last_ext_msg s) (ext_addr s).

(** [appladdress()] *)
Definition default_appladdress : appladdress := mk_appl (mk_host false 0) 0 0.

Definition new_non_edge_session (sid : Z) (conf : natfw_config) : comp nf_non_edge_ext_session :=
  assert_c (is_nf_nat conf || is_nf_firewall conf);;
  Ok (mk_non_edge sid 0 STATE_IDLE conf 0 60 0 0 0 None default_appladdress).

Definition non_edge_handle_state_idle_ext (s : nf_non_edge_ext_session) (m : ntlp_msg) (w : world)
    : nf_non_edge_ext_session * world :=
  let s := s <| last_ext_msg := Some m |> in
  let w := send_message w (copy_for_forwarding m None) in
  let '(t, w) := start_timer w (id s) (lifetime s) in
  (s <| state_timer := t |> <| state := STATE_WAITRESP |>, w).

Definition non_edge_handle_state_idle (s : nf_non_edge_ext_session) (evt : event) (w : world)
    : comp (nf_non_edge_ext_session * world) :=
  match get_msg EXT evt with
  | Some (m, ext) =>
      let lt := get_session_lifetime ext in
      n ← get_msg_sequence_number ext;
      let s := s <| max_lifetime := nf_max_session_lifetime (config s) |>
                 <| response_timeout := nf_max_session_lifetime (config s) |> in
      match check_request lt (max_lifetime s) m with
      | Some e => Ok (s <| state := STATE_FINAL |>, send_message w (create_error_response m e))
      | None =>
          if lt =? 0 then Ok (s <| state := STATE_FINAL |>, w)
          else Ok (non_edge_handle_state_idle_ext (s <| lifetime := lt |> <| msn := n |>) m w)
      end
  | None => Ok (s <| state := STATE_FINAL |>, w)
  end.

(** The peer does not answer. *)
Definition non_edge_not_reached (s : nf_non_edge_ext_session) (w : world) : comp (nf_non_edge_ext_session * world) :=
  latest ← deref (last_ext_msg s);
  Ok (s <| state := STATE_FINAL |>,
      send_message w (create_response latest sc_permanent_failure fail_nr_not_reached)).

(** A response in state WAITRESP or SESSION; both start the state timer. *)
Definition non_edge_response (s : nf_non_edge_ext_session) (m : ntlp_msg) (resp : natfw_msg) (w : world)
    : comp (nf_non_edge_ext_session * world) :=
  last ← deref (last_ext_msg s);
  ext ← deref (body last);
  ok ← is_response_to resp ext;
  if negb ok then Ok (s, w)
  else
    let w := send_message w (copy_for_forwarding m None) in
    if is_success resp then
      let '(t, w) := start_timer w (id s) (lifetime s) in
      Ok (s <| state_timer := t |> <| state := STATE_SESSION |>, w)
    else
      let s := match state s with STATE_WAITRESP => s <| state_timer := 0 |> | _ => s end in
      Ok (s <| state := STATE_FINAL |>, w).

Definition non_edge_handle_state_waitresp (s : nf_non_edge_ext_session) (evt : event) (w : world)
    : comp (nf_non_edge_ext_session * world) :=
  match get_msg RESPONSE evt with
  | Some (m, resp) => non_edge_response s m resp w
  | None =>
  match get_msg EXT evt with
  | Some (m, ext) =>
      last ← deref (last_ext_msg s);
      previous ← deref (body last);
      if negb (is_authorized m) then
        Ok (s, send_message w (create_response m sc_permanent_failure fail_authentication_failed))
      else
        n ← get_msg_sequence_number ext;
        p ← get_msg_sequence_number previous;
        if (p <? n) && (get_session_lifetime ext =? 0) then
          let s := s <| state_timer := 0 |> in
          Ok (s <| state := STATE_FINAL |>, send_message w (copy_for_forwarding m None))
        else Ok (s, w)
  | None =>
      if is_no_next_node_found_event evt || is_timer_of evt (state_timer s) then non_edge_not_reached s w
      else Ok (s, w)
  end
  end.

Definition non_edge_handle_state_session (s : nf_non_edge_ext_session) (evt : event) (w : world)
    : comp (nf_non_edge_ext_session * world) :=
  match get_msg EXT evt with
  | Some (m, ext) =>
      let lt := get_session_lifetime ext in
      n ← get_msg_sequence_number ext;
      match check_request lt (max_lifetime s) m with
      | Some e => Ok (s, send_message w (create_error_response m e))
      | None =>
          if negb (is_greater_than n (msn s)) then Ok (s, w)
          else if 0 <? lt then
            let s := s <| lifetime := lt |> <| msn := n |> <| last_ext_msg := Some m |> in
            let w := send_message w (copy_for_forwarding m None) in
            let '(t, w) := start_timer w (id s) (response_timeout s) in
            Ok (s <| response_timer := t |>, w)
          else
            let s := s <| response_timer := 0 |> <| state_timer := 0 |> in
            let w := release_external_address w (ext_addr s) in
            Ok (s <| state := STATE_FINAL |>, send_message w (copy_for_forwarding m None))
      end
  | None =>
  match get_msg RESPONSE evt with
  | Some (m, resp) => non_edge_response s m resp w
  | None =>
      if is_no_next_node_found_event evt || is_timer_of evt (response_timer s) then
        last ← deref (last_ext_msg s);
        _ ← deref (body last);
        non_edge_not_reached (s <| state_timer := 0 |>) w
      else if is_timer_of evt (state_timer s) then
        let s := s <| response_timer := 0 |> in
        Ok (s <| state := STATE_FINAL |>, release_external_address w (ext_addr s))
      else Ok (s, w)
  end
  end.

Definition non_edge_process_event (s : nf_non_edge_ext_session) (evt : event) (w : world)
    : comp (nf_non_edge_ext_session * world) :=
  match state s with
  | STATE_IDLE => non_edge_handle_state_idle s evt w
  | STATE_WAITRESP => non_edge_handle_state_waitresp s evt w
  | STATE_SESSION => non_edge_handle_state_session s evt w
  | STATE_FINAL => Ok (s, w)
  end.

#[global] Instance non_edge_is_session : Session nf_non_edge_ext_session := {|
  process_event := non_edge_process_event;
  is_final s := match state s with STATE_FINAL => true | _ => false end;
|}.

End NonEdge.

(** ** The edge node *)
Module Edge.

Inductive edge_state_t := STATE_IDLE | STATE_SESSION | STATE_FINAL.

Record nf_edge_ext_session := mk_edge {
  id : Z;
  msn : Z;
  state : edge_state_t;
  config : natfw_config;
  proxy_mode : bool;
  proxy_session_id : option Z;
  lifetime : Z;
  max_lifetime : Z;
  state_timer : Z;
  ext_addr : appladdress;
  fw_rule : option fw_policy_rule;
  nat_rule : option nat_policy_rule;
}.
#[global] Instance edge_eta : Eta nf_edge_ext_session := λ s,
  mk_edge (id s) (msn s) (state s) (config s) (proxy_mode s) (proxy_session_id s) (lifetime s) (max_lifetime s)
    (state_timer s) (ext_addr s) (fw_rule s) (nat_rule s).

(** The constructor; [proxy_session_id] is a random id that nothing reads until a proxy
    session exists.  [max_lifetime] is never set to the configured one. *)
Definition new_edge_session (sid : Z) (conf : natfw_config) : comp nf_edge_ext_session :=
  assert_c (is_nf_nat conf || is_nf_firewall conf);;
  Ok (mk_edge sid 0 STATE_IDLE conf false None 0 60 0 NonEdge.default_appladdress None None).

Definition build_edge_device_response (s : nf_edge_ext_session) (m : ntlp_msg) (ext : natfw_msg)
    (addr : option appladdress) : comp ntlp_msg :=
  n ← get_msg_sequence_number ext;
  let resp := set_object (mk_msg RESPONSE false ∅) (msg_sequence_number n) in
  let resp := set_object resp (information_code sc_success suc_successfully_processed EXT) in
  let resp := set_object resp (session_lifetime (lifetime s)) in
  let resp := match addr with Some a => set_object resp (external_address (a_host a) (a_port a)) | None => resp end in
  Ok (mk_ntlp (id s) (invertDirection (routing_info m)) 0 (Some resp)).

(** The error it throws, or the rule, or nothing if the MRI is not path-coupled. *)
Definition build_fw_policy_rule (m : ntlp_msg) (ext : natfw_msg) : comp (request_error + option fw_policy_rule) :=
  match as_pathcoupled (routing_info m) with
  | None => Ok (inr None)
  | Some pc =>
      if negb (get_subsequent_ports ext =? 0) then
        Ok (inl (sc_signaling_session_failures, sigfail_unknown_policy_rule_action))
      else
        assert_c (get_rule_action ext =? ra_deny);;
        Ok (inr (Some (mk_fw ACTION_DENY (sourceaddress pc) (sourceprefix pc) (sourceport pc) (destaddress pc)
                         (destprefix pc) (destport pc) (protocol pc))))
  end.

(** The rules that let the traffic for a proxy session in. *)
Definition proxy_rules (s : nf_edge_ext_session) (pc : mri_pathcoupled) : nf_edge_ext_session :=
  s <| nat_rule := if is_nf_nat (config s) then
                     Some (mk_nat (sourceaddress pc) (sourceport pc) (a_host (ext_addr s)) (a_port (ext_addr s))
                             (destaddress pc) (destport pc) (protocol pc) TYPE_DEST_NAT)
                   else None |>
    <| fw_rule := if is_nf_firewall (config s) then
                    Some (mk_fw ACTION_ALLOW (sourceaddress pc) (sourceprefix pc) (sourceport pc)
                            (destaddress pc) (destprefix pc) (destport pc) (protocol pc))
                  else None |>.

End Edge.
