(* ===== verification/NatfwNode.v ===== *)
(** * natfw-nslp: the session table and the dispatcher

    src/session_manager.cpp and [process] and [create_session] of src/dispatcher.cpp.
    The sessions of an edge node create and end other sessions, so that their state
    machine (src/nf_edge_ext_session.cpp) is here. *)

From S2P Require Import Prelude Natfw NatfwSession NatfwExt.
Import Natfw.

Module NatfwNode.

Section node.
Context (config : natfw_config).

Inductive session :=
| S_ni (s : Ni.ni_session)
| S_nr (s : Nr.nr_session)
| S_nf (s : Nf.nf_session)
| S_nr_ext (s : NrExt.nr_ext_session)
| S_non_edge (s : NonEdge.nf_non_edge_ext_session)
| S_edge (s : Edge.nf_edge_ext_session).

Record node := mk_node { session_table : gmap Z session; n_world : world }.

(** [create_unique_id]: random ids until one is not in use. *)
Fixpoint unique_id (t : gmap Z session) (ids : list Z) : comp (Z * list Z) :=
  match ids with
  | [] => NoFuel
  | i :: l => match t !! i with Some _ => unique_id t l | None => Ok (i, l) end
  end.

Definition create_unique_id (n : node) : comp (Z * node) :=
  '(i, l) ← unique_id (session_table n) (w_ids (n_world n));
  Ok (i, mk_node (session_table n) ((n_world n) <| w_ids := l |>)).

(** [session_table[s->get_id()] = s]. *)
Definition add_session (n : node) (sid : Z) (s : session) : node :=
  mk_node (<[sid := s]> (session_table n)) (n_world n).

Definition create_ni_session (n : node) : comp (Z * Ni.ni_session * node) :=
  '(i, n) ← create_unique_id n;
  let '(m, w) := random32 (n_world n) in
  let '(x, w) := random32 w in
  let s := Ni.new_ni_session i m x config in
  Ok (i, s, add_session (mk_node (session_table n) w) i (S_ni s)).

Definition create_nr_ext_session (n : node) : comp (Z * session * node) :=
  '(i, n) ← create_unique_id n;
  let '(m, w) := random32 (n_world n) in
  s ← NrExt.new_nr_ext_session i m config;
  Ok (i, S_nr_ext s, add_session (mk_node (session_table n) w) i (S_nr_ext s)).

(** [dispatcher::create_session]: the id and the session created for the event, if any. *)
Definition create_session (n : node) (evt : event) : comp (option (Z * session) * node) :=
  let known sid s := Ok (Some (sid, s), add_session n sid s) in
  match evt with
  | api_create_event _ => '(i, s, n) ← create_ni_session n; Ok (Some (i, S_ni s), n)
  | api_ext_event _ => '(i, s, n) ← create_nr_ext_session n; Ok (Some (i, s), n)
  | msg_event sid _ for_this_node =>
      if decide (is_Some (get_msg CREATE evt)) then
        if for_this_node && negb (is_nf_nat config) then known sid (S_nr (Nr.new_nr_session sid config))
        else known sid (S_nf (Nf.new_nf_session sid config))
      else if decide (is_Some (get_msg EXT evt)) then
        if is_nf_nat config || is_nf_firewall config then
          if is_nf_edge_node config then s ← Edge.new_edge_session sid config; known sid (S_edge s)
          else s ← NonEdge.new_non_edge_session sid config; known sid (S_non_edge s)
        else Ok (None, n)
      else Ok (None, n)
  | _ => Ok (None, n)
  end.

(** A session is removed when it is final after an event. *)
Definition keep_session (n : node) (sid : Z) (s : session) (final : bool) : node :=
  mk_node (if final then delete sid (session_table n) else <[sid := s]> (session_table n)) (n_world n).

Definition run_plain {S} `{Session S} (wrap : S → session) (n : node) (sid : Z) (s : S) (evt : event) : comp node :=
  '(s, w) ← process_event s evt (n_world n);
  Ok (keep_session (mk_node (session_table n) w) sid (wrap s) (is_final s)).

(** ** The edge session *)

Definition on_world (f : world → world) (n : node) : node := mk_node (session_table n) (f (n_world n)).

Definition create_ni_proxy_session (n : node) (pc : mri_pathcoupled) (lifetime nonce : Z) : comp (Z * node) :=
  '(i, s, n) ← create_ni_session n;
  let s := s <| Ni.nonce_value := nonce |> <| Ni.proxy_session := true |> in
  let e := mk_api_create (sourceaddress pc) (destaddress pc) (sourceport pc) (destport pc) (protocol pc) []
             lifetime false false in
  '(s, w) ← process_event s (api_create_event e) (n_world n);
  Ok (i, add_session (mk_node (session_table n) w) i (S_ni s)).

Definition tg_create_proxy (s : Edge.nf_edge_ext_session) (m : ntlp_msg) (ext : natfw_msg) (n : node)
    : comp (Edge.nf_edge_ext_session * node) :=
  pc ← deref (as_pathcoupled (routing_info m));
  '(sid, n) ← create_ni_proxy_session n pc (Edge.lifetime s) (get_nonce ext);
  let s := Edge.proxy_rules (s <| Edge.proxy_session_id := Some sid |>) pc in
  Ok (s, on_world (λ w, install_policy_rules w (Edge.nat_rule s) (Edge.fw_rule s)) n).

(** [d->process] of a teardown event.  An edge session, also one that now has the id,
    takes it for an unexpected event; the session that waits here holds its lock. *)
Definition process_teardown (self sid : Z) (n : node) : comp node :=
  let evt := api_teardown_event sid false in
  if sid =? self then NoFuel
  else match session_table n !! sid with
  | None => Ok n
  | Some (S_ni s) => run_plain S_ni n sid s evt
  | Some (S_nr s) => run_plain S_nr n sid s evt
  | Some (S_nf s) => run_plain S_nf n sid s evt
  | Some (S_nr_ext s) => run_plain S_nr_ext n sid s evt
  | Some (S_non_edge s) => run_plain S_non_edge n sid s evt
  | Some (S_edge s) =>
      match Edge.state s with
      | Edge.STATE_SESSION => Ok n
      | _ => Ok (keep_session n sid (S_edge s) true)
      end
  end.

Definition tg_teardown_proxy (s : Edge.nf_edge_ext_session) (n : node) : comp node :=
  sid ← deref (Edge.proxy_session_id s);
  n ← process_teardown (Edge.id s) sid n;
  Ok (on_world (λ w, remove_policy_rules w (Edge.nat_rule s) (Edge.fw_rule s)) n).

(** Accepting an EXT, after the checks; no session is returned if an exception leaves
    the handler. *)
Definition edge_accept (s : Edge.nf_edge_ext_session) (m : ntlp_msg) (ext : natfw_msg) (n : node)
    : comp (option Edge.nf_edge_ext_session * node) :=
  let conf := Edge.config s in
  rule ← (if is_nf_firewall conf && (get_rule_action ext =? ra_deny) then Edge.build_fw_policy_rule m ext
          else Ok (inr None));
  match rule with
  | inl _ => Ok (None, n)
  | inr fw =>
      let w := install_policy_rules (n_world n) None fw in
      '(r, w) ← (if is_nf_nat conf then priv ← get_nr_address m; Ok (reserve_external_address w priv)
                 else Ok (inr (Edge.ext_addr s), w));
      match r with
      | inl e => Ok (Some (s <| Edge.state := Edge.STATE_FINAL |>),
                     mk_node (session_table n) (send_message w (create_error_response m e)))
      | inr addr =>
          let s := s <| Edge.ext_addr := addr |> in
          resp ← Edge.build_edge_device_response s m ext (if is_nf_nat conf then Some addr else None);
          let '(t, w) := start_timer (send_message w resp) (Edge.id s) (Edge.lifetime s) in
          let s := s <| Edge.state_timer := t |> in
          let n := mk_node (session_table n) w in
          '(s, n) ← (if Edge.proxy_mode s then tg_create_proxy s m ext n else Ok (s, n));
          Ok (Some (s <| Edge.state := Edge.STATE_SESSION |>), n)
      end
  end.

Definition edge_handle_state_idle (s : Edge.nf_edge_ext_session) (evt : event) (n : node)
    : comp (option Edge.nf_edge_ext_session * node) :=
  let final := Some (s <| Edge.state := Edge.STATE_FINAL |>) in
  match get_msg EXT evt with
  | Some (m, ext) =>
      let lt := get_session_lifetime ext in
      k ← get_msg_sequence_number ext;
      match check_request lt (Edge.max_lifetime s) m with
      | Some e => Ok (final, on_world (λ w, send_message w (create_error_response m e)) n)
      | None =>
          private ← is_from_private_side (Edge.config s) (get_destaddress (routing_info m));
          if negb private || (lt =? 0) then Ok (final, n)
          else edge_accept (s <| Edge.lifetime := lt |> <| Edge.msn := k |>
                              <| Edge.proxy_mode := proxy_mode_flag ext |>) m ext n
      end
  | None => Ok (final, n)
  end.

(** The session ends, on request or because it timed out. *)
Definition edge_end (s : Edge.nf_edge_ext_session) (n : node) : comp (option Edge.nf_edge_ext_session * node) :=
  let n := on_world (λ w, release_external_address w (Edge.ext_addr s)) n in
  n ← (if Edge.proxy_mode s then tg_teardown_proxy s n else Ok n);
  Ok (Some (s <| Edge.state := Edge.STATE_FINAL |>), n).

Definition edge_handle_state_session (s : Edge.nf_edge_ext_session) (evt : event) (n : node)
    : comp (option Edge.nf_edge_ext_session * node) :=
  match get_msg EXT evt with
  | Some (m, ext) =>
      let lt := get_session_lifetime ext in
      k ← get_msg_sequence_number ext;
      match check_request lt (Edge.max_lifetime s) m with
      | Some e => Ok (Some s, on_world (λ w, send_message w (create_error_response m e)) n)
      | None =>
          if negb (is_greater_than k (Edge.msn s)) then Ok (Some s, n)
          else if 0 <? lt then
            let s := s <| Edge.lifetime := lt |> <| Edge.msn := k |> in
            let w := send_message (n_world n) (create_success_response m lt) in
            let '(t, w) := start_timer w (Edge.id s) lt in
            Ok (Some (s <| Edge.state_timer := t |>), mk_node (session_table n) w)
          else edge_end s n
      end
  | None => if is_timer_of evt (Edge.state_timer s) then edge_end s n else Ok (Some s, n)
  end.

Definition edge_process_event (s : Edge.nf_edge_ext_session) (evt : event) (n : node)
    : comp (option Edge.nf_edge_ext_session * node) :=
  match Edge.state s with
  | Edge.STATE_IDLE => edge_handle_state_idle s evt n
  | Edge.STATE_SESSION => edge_handle_state_session s evt n
  | Edge.STATE_FINAL => Ok (Some s, n)
  end.

(** ** The dispatcher *)

(** The event is processed by its session; after an exception the session is removed. *)
Definition run_session (n : node) (sid : Z) (s : session) (evt : event) : comp node :=
  match s with
  | S_ni s => run_plain S_ni n sid s evt
  | S_nr s => run_plain S_nr n sid s evt
  | S_nf s => run_plain S_nf n sid s evt
  | S_nr_ext s => run_plain S_nr_ext n sid s evt
  | S_non_edge s => run_plain S_non_edge n sid s evt
  | S_edge s =>
      '(r, n) ← edge_process_event s evt n;
      Ok (match r with
          | None => keep_session n sid (S_edge s) true
          | Some s =>
              keep_session n sid (S_edge s) (match Edge.state s with Edge.STATE_FINAL => true | _ => false end)
          end)
  end.

Definition process (n : node) (evt : event) : comp node :=
  match evt with
  | routing_state_check_event sid m =>
      Ok (on_world (λ w, w <| w_answers := w_answers w ++ [(sid, m)] |>) n)
  | msg_event _ (mk_ntlp sid m sii None) _ =>
      Ok (on_world (λ w, send_message w (create_response (mk_ntlp sid m sii None) sc_protocol_error 0)) n)
  | _ =>
      match get_session_id evt ≫= λ sid, s ← session_table n !! sid; Some (sid, s) with
      | Some (sid, s) => run_session n sid s evt
      | None =>
          '(r, n) ← create_session n evt;
          match r with
          | Some (sid, s) => run_session n sid s evt
          | None => Ok n
          end
      end
  end.

(** A sequence of events. *)
Fixpoint process_all (n : node) (evts : list event) : comp node :=
  match evts with
  | [] => Ok n
  | evt :: l => n ← process n evt; process_all n l
  end.

End node.

End NatfwNode.
