(* ===== verification/NatfwFacts.v ===== *)
(** * natfw-nslp: what a session owes

    Every rule a forwarder installs it removes again, and every external port it takes
    from the pool it gives back.  The [net] effect of the iptables commands and the pool
    are compared with what the sessions hold: a session may change both sides only
    together. *)

From S2P Require Import Prelude Natfw NatfwSession.
Import Natfw.

Module NatfwFacts.

(** ** Counting *)

Definition count {A} `{EqDecision A} (x : A) (l : list A) : Z :=
  Z.of_nat (length (filter (λ y, y = x) l)).

Lemma count_cons {A} `{EqDecision A} (x y : A) l :
  count x (y :: l) = (if decide (y = x) then 1 else 0) + count x l.
Proof. unfold count. rewrite filter_cons. case_decide; simpl; lia. Qed.

Lemma count_app {A} `{EqDecision A} (x : A) l k : count x (l ++ k) = count x l + count x k.
Proof. unfold count. rewrite filter_app, length_app. lia. Qed.

(** How often a rule was appended without being deleted. *)
Fixpoint net (l : list command) (r : chain * expression) : Z :=
  match l with
  | [] => 0
  | Append c x :: l => (if decide ((c, x) = r) then 1 else 0) + net l r
  | Delete c x :: l => - (if decide ((c, x) = r) then 1 else 0) + net l r
  end.

Lemma net_app l k r : net (l ++ k) r = net l r + net k r.
Proof. induction l as [|[] l IH]; cbn [net app]; lia. Qed.

Lemma net_append (rs : list (chain * expression)) r :
  net ((λ '(c, x), Append c x) <$> rs) r = count r rs.
Proof.
  induction rs as [|[c x] rs IH]; [done|]. rewrite count_cons, <-IH. done.
Qed.

Lemma net_delete (rs : list (chain * expression)) r :
  net ((λ '(c, x), Delete c x) <$> rs) r = - count r rs.
Proof.
  induction rs as [|[c x] rs IH]; [done|]. rewrite count_cons, fmap_cons. cbn [net].
  rewrite IH. lia.
Qed.

(** ** Worlds *)

Definition avail (w : world) (p : Z) : Z := count p (available (w_nat w)).

(** A part of the program that neither runs iptables, nor touches the pool, nor draws
    session ids. *)
Definition quiet (w w' : world) : Prop :=
  w_commands w' = w_commands w ∧ w_nat w' = w_nat w ∧ w_ids w' = w_ids w.

Lemma net_install w nat fw r :
  net (w_commands (install_policy_rules w nat fw)) r = net (w_commands w) r + count r (rule_lines nat fw).
Proof. unfold install_policy_rules. cbn. by rewrite net_app, net_append. Qed.

Lemma net_remove w nat fw r :
  net (w_commands (remove_policy_rules w nat fw)) r = net (w_commands w) r - count r (rule_lines nat fw).
Proof. unfold remove_policy_rules. cbn. rewrite net_app, net_delete. lia. Qed.

(** ** Events without surprises

    The messages that the handlers expect: a CREATE has a sequence number and a
    downstream path-coupled MRI, a RESPONSE has a sequence number.  The lifetime the
    user asks for gives timers that can be represented. *)

Definition timers_ok (lifetime retries : Z) : Prop :=
  0 < lifetime ∧ Ni.refresh_of lifetime retries < 2 ^ 32 ∧
  ∀ k, wp (Ni.timeout_of k (Ni.refresh_of lifetime retries)) (λ _, True).

Definition msg_ok (m : ntlp_msg) (b : natfw_msg) : Prop :=
  (msg_type b = CREATE → is_Some (has_msg_sequence_number b) ∧
     ∃ pc, routing_info m = PathCoupled pc ∧ downstream pc = true) ∧
  (msg_type b = RESPONSE → is_Some (has_msg_sequence_number b)).

Definition event_ok (retries : Z) (evt : event) : Prop :=
  match evt with
  | msg_event _ m _ => match body m with Some b => msg_ok m b | None => True end
  | api_create_event e => timers_ok (ac_lifetime e) retries
  | _ => True
  end.

Lemma get_msg_create retries evt m b :
  event_ok retries evt → get_msg CREATE evt = Some (m, b) →
  (∃ n, has_msg_sequence_number b = Some n) ∧ body m = Some b ∧
  ∃ pc, routing_info m = PathCoupled pc ∧ downstream pc = true.
Proof.
  destruct evt; try done. cbn. destruct (body m0) as [b0|] eqn:Hb; [|done].
  case_match eqn:Ht; [|done]. intros [H _] [= <- <-].
  apply Z.eqb_eq in Ht. destruct (H Ht) as [[n Hn] Hpc]. eauto.
Qed.

Lemma get_msg_response retries evt m b :
  event_ok retries evt → get_msg RESPONSE evt = Some (m, b) →
  ∃ n, has_msg_sequence_number b = Some n.
Proof.
  destruct evt; try done. cbn. destruct (body m0) as [b0|] eqn:Hb; [|done].
  case_match eqn:Ht; [|done]. intros [_ H] [= <- <-].
  apply Z.eqb_eq in Ht. apply (H Ht).
Qed.

Lemma get_response_msn_inv evt m r b :
  get_response_msn evt m = Some (r, b) →
  get_msg RESPONSE evt = Some (r, b) ∧
  ∃ c n, body m = Some c ∧ has_msg_sequence_number c = Some n ∧ has_msg_sequence_number b = Some n.
Proof.
  unfold get_response_msn. destruct (body m) as [c|]; [|done]. cbn.
  destruct (has_msg_sequence_number c) as [n|] eqn:Hc; [|done].
  destruct (get_msg RESPONSE evt) as [[r' b']|]; [|done]. case_decide; [|done].
  intros [= <- <-]. eauto 10.
Qed.

(** ** The initiator and the responder *)

(** A session that waits for an answer still has the CREATE it sent. *)
Definition sent_create (o : option ntlp_msg) : Prop :=
  ∃ m c n, o = Some m ∧ body m = Some c ∧ has_msg_sequence_number c = Some n.

Definition ni_ok (retries : Z) (s : Ni.ni_session) : Prop :=
  Ni.max_retries s = retries ∧
  match Ni.state s with
  | Ni.STATE_WAITRESP | Ni.STATE_SESSION =>
      is_Some (Ni.ni_mri s) ∧ sent_create (Ni.last_create_msg s)
  | _ => True
  end.

Lemma refresh_positive lt retries : 0 <= retries → 0 < lt → 0 < Ni.refresh_of lt retries.
Proof.
  intros H1 H2. unfold Ni.refresh_of.
  assert (- (4 * lt) / (3 * (2 * retries + 1)) < 0); [|lia].
  apply Z.div_lt_upper_bound; lia.
Qed.

(** A message built by the initiator carries a sequence number. *)
Lemma build_create_ok s :
  is_Some (Ni.ni_mri s) →
  wp (Ni.build_create_message s) (λ '(m, s'),
    sent_create (Some m) ∧ s' = s <| Ni.msn := u32 (Ni.msn s + 1) |>).
Proof.
  intros [m Hm]. unfold Ni.build_create_message. rewrite Hm. cbn. split; [|done].
  eexists _, _, (u32 (Ni.msn s + 1)). split_and!; [done..|].
  unfold has_msg_sequence_number, set_object.
  destruct (Ni.icmp s); destruct (Ni.proxy_mode s || Ni.proxy_session s); cbn;
    repeat (rewrite lookup_insert_ne by done); by rewrite lookup_insert_eq.
Qed.

Lemma ni_response_ok retries s resp n w :
  ni_ok retries s → (Ni.state s = Ni.STATE_WAITRESP ∨ Ni.state s = Ni.STATE_SESSION) →
  has_msg_sequence_number resp = Some n →
  wp (Ni.ni_response s resp w) (λ '(s', w'), ni_ok retries s' ∧ quiet w w').
Proof.
  intros Hs Hst Hr. unfold Ni.ni_response.
  assert (is_Some (Ni.ni_mri s) ∧ sent_create (Ni.last_create_msg s)) as [Hm Hc].
  { destruct Hs as [_ Hs]. by destruct Hst as [E|E]; rewrite E in Hs. }
  destruct Hc as (m & c & k & Hl & Hb & Hk). rewrite Hl. cbn. rewrite Hb. cbn.
  unfold is_response_to, get_msg_sequence_number. rewrite Hr, Hk. cbn.
  destruct (n =? k); cbn; [|done].
  destruct (is_success resp); cbn; (split; [|done]); (split; [apply Hs|]); cbn; [|done].
  split; [done|]. eexists _, _, _. eauto.
Qed.

Lemma ni_timeout_ok retries s w :
  ni_ok retries s → sent_create (Ni.last_create_msg s) →
  wp (Ni.ni_timeout s w) (λ '(s', w'), ni_ok retries s' ∧ quiet w w').
Proof.
  intros [Hr Hs] (m & c & n & Hl & Hb & Hn). unfold Ni.ni_timeout.
  destruct (_ <? _); cbn; [|by repeat split].
  rewrite Hl in Hs |- *. cbn. split; [by split|done].
Qed.

Lemma ni_teardown_ok retries s w :
  ni_ok retries s → is_Some (Ni.ni_mri s) →
  wp (Ni.ni_teardown s w) (λ '(s', w'), ni_ok retries s' ∧ quiet w w').
Proof.
  intros [Hr Hs] Hm. unfold Ni.ni_teardown. apply wp_bind.
  eapply wp_mono; [by apply build_create_ok|]. intros [m s'] [_ ->]. by repeat split.
Qed.

Lemma ni_step retries s evt w :
  0 <= retries → ni_ok retries s → event_ok retries evt →
  wp (Ni.ni_process_event s evt w) (λ '(s', w'), ni_ok retries s' ∧ quiet w w').
Proof.
  intros H0 Hs Hev. unfold Ni.ni_process_event. destruct (Ni.state s) eqn:Hst.
  - (* IDLE *) destruct Hs as [Hr _]. destruct evt; try (by repeat split).
    destruct Hev as (Hlt & Hmax & Ht). cbn [Ni.ni_handle_state_idle]. unfold Ni.setup_session.
    rewrite (proj2 (Z.eqb_neq _ _)) by lia. cbn. rewrite Hr.
    pose proof (refresh_positive _ _ H0 Hlt) as Hpos.
    rewrite !(proj2 (Z.ltb_lt _ _)) by lia. cbn.
    destruct (wp_inv _ _ (Ht (default 0 (head (w_rand w))))) as (t & -> & _).
    cbn -[Ni.build_create_message]. apply wp_bind.
    eapply wp_mono; [by apply build_create_ok|]. intros [m s'] [Hm ->]. cbn.
    split; [split; [done|by split]|]. by destruct (ac_return_queue e).
  - (* WAITRESP *) unfold Ni.ni_handle_state_waitresp.
    pose proof Hs as [Hr Hs']. rewrite Hst in Hs'. destruct Hs' as [Hm Hc].
    destruct (get_msg RESPONSE evt) as [[m b]|] eqn:Hg.
    { destruct (get_msg_response _ _ _ _ Hev Hg) as [n Hn]. eapply ni_response_ok; eauto. }
    destruct (is_timer_of _ _); [by apply ni_timeout_ok|].
    destruct evt; try (split; done). by apply ni_teardown_ok.
  - (* SESSION *) unfold Ni.ni_handle_state_session.
    pose proof Hs as [Hr Hs']. rewrite Hst in Hs'. destruct Hs' as [Hm Hc].
    pose proof Hc as (l & c & n & Hl & _). rewrite Hl. cbn -[get_response_msn].
    destruct (get_response_msn evt l) as [[m b]|] eqn:Hg.
    { destruct (get_response_msn_inv _ _ _ _ Hg) as (_ & _ & k & _ & _ & Hk).
      eapply ni_response_ok; eauto. }
    destruct (is_timer_of evt (Ni.refresh_timer s)).
    { apply wp_bind. eapply wp_mono; [by apply build_create_ok|]. intros [m s'] [Hm' ->]. cbn.
      split; [|done]. split; [done|]. cbn. by rewrite Hst. }
    destruct (is_timer_of _ _); [by apply ni_timeout_ok|].
    destruct evt; try (split; done). by apply ni_teardown_ok.
  - by split.
Qed.

Lemma nr_step retries s evt w :
  event_ok retries evt → wp (Nr.nr_process_event s evt w) (λ '(_, w'), quiet w w').
Proof.
  intros Hev. unfold Nr.nr_process_event, Nr.nr_handle_state_idle, Nr.nr_handle_state_session.
  destruct (Nr.state s); [..|by repeat split];
    (destruct (get_msg CREATE evt) as [[m b]|] eqn:Hg;
     [destruct (get_msg_create _ _ _ _ Hev Hg) as [[n Hn] _]; unfold get_msg_sequence_number;
      rewrite Hn; cbn -[check_request is_greater_than]|]);
    repeat case_match; by repeat split.
Qed.

(** ** The forwarder *)

(** The rules of a session are in effect in state SESSION, its external address is
    reserved until it is final. *)
Definition nf_rules (s : Nf.nf_session) (r : chain * expression) : Z :=
  match Nf.state s with
  | Nf.STATE_SESSION => count r (rule_lines (Nf.nat_rule s) (Nf.fw_rule s))
  | _ => 0
  end.

Definition owed (a : option appladdress) (p : Z) : Z :=
  match a with Some a => if decide (a_port a = p) then 1 else 0 | None => 0 end.

Definition nf_held (s : Nf.nf_session) (p : Z) : Z :=
  match Nf.state s with
  | Nf.STATE_WAITRESP | Nf.STATE_SESSION => owed (Nf.ext_addr s) p
  | _ => 0
  end.

Definition keeps (s : Nf.nf_session) (w : world) (s' : Nf.nf_session) (w' : world) : Prop :=
  (∀ r, net (w_commands w') r - nf_rules s' r = net (w_commands w) r - nf_rules s r) ∧
  (∀ p, avail w' p + nf_held s' p = avail w p + nf_held s p) ∧
  w_ids w' = w_ids w.

(** Either the node is not a NAT, or its list of private networks has the type it is read
    with, which is not the one it is registered with, and networks that [match_against]
    can compare with. *)
Definition config_ok (conf : natfw_config) : Prop :=
  is_nf_nat conf = false ∨
  ∃ l, nf_private_networks_par conf = par_networks l ∧ Forall (λ n, 0 < pref_len n) l.

Definition nf_ok (conf : natfw_config) (s : Nf.nf_session) : Prop :=
  Nf.config s = conf ∧
  match Nf.state s with
  | Nf.STATE_IDLE => Nf.nat_rule s = None ∧ Nf.ext_addr s = None
  | Nf.STATE_FINAL => True
  | _ =>
      sent_create (Nf.create_message s) ∧
      if is_nf_nat conf then is_Some (Nf.ni_mri s) ∧ is_Some (Nf.nr_mri s)
      else Nf.nat_rule s = None ∧ Nf.ext_addr s = None
  end.

Lemma private_side_ok conf h :
  config_ok conf → is_nf_nat conf = true → wp (is_from_private_side conf h) (λ _, True).
Proof.
  intros [H|(l & Hl & Hok)] Hnat; [congruence|]. unfold is_from_private_side. rewrite Hl. cbn. clear Hl.
  induction Hok as [|n l Hn _ IH]; [done|]. cbn. apply wp_bind.
  apply wp_mono with (P := λ _, True); [|intros r _; by case_match].
  unfold match_against. case_match; [done|]. case_match.
  - apply wp_bind, wp_assert; [|done]. apply Z.ltb_lt.
    case_match eqn:Hl; [done|]. apply Z.leb_gt in Hl. zlia.
  - by repeat case_match.
Qed.

Lemma keeps_quiet s w s' w' :
  (∀ r, nf_rules s' r = nf_rules s r) → (∀ p, nf_held s' p = nf_held s p) → quiet w w' →
  keeps s w s' w'.
Proof.
  intros Hr Hh (Hc & Hn & Hi). split_and!; [|intros p; unfold avail|done].
  - intros r. by rewrite Hr, Hc.
  - by rewrite Hh, Hn.
Qed.

Lemma avail_release s w p : avail (Nf.release_reserved s w) p = avail w p + owed (Nf.ext_addr s) p.
Proof.
  unfold Nf.release_reserved, avail, owed. destruct (Nf.ext_addr s) as [a|]; cbn; [|lia].
  rewrite count_app, count_cons. unfold count at 2. cbn. lia.
Qed.

Lemma commands_release s w : w_commands (Nf.release_reserved s w) = w_commands w.
Proof. unfold Nf.release_reserved. by destruct (Nf.ext_addr s). Qed.

Lemma ids_release s w : w_ids (Nf.release_reserved s w) = w_ids w.
Proof. unfold Nf.release_reserved. by destruct (Nf.ext_addr s). Qed.

(** A session that ends before it was established, or after. *)
Lemma keeps_end s s0 s' w w' :
  Nf.state s = Nf.STATE_WAITRESP → Nf.state s' = Nf.STATE_FINAL → Nf.ext_addr s0 = Nf.ext_addr s →
  quiet w w' → keeps s w s' (Nf.release_reserved s0 w').
Proof.
  intros H1 H2 H3 (Hc & Hn & Hi). unfold keeps, nf_rules, nf_held. rewrite H1, H2.
  split_and!; [|intros p|by rewrite ids_release].
  - intros r. by rewrite commands_release, Hc.
  - rewrite avail_release, H3. unfold avail. rewrite Hn. lia.
Qed.

Lemma keeps_end_session s s0 s' w w' :
  Nf.state s = Nf.STATE_SESSION → Nf.state s' = Nf.STATE_FINAL → Nf.ext_addr s0 = Nf.ext_addr s →
  quiet (remove_policy_rules w (Nf.nat_rule s) (Nf.fw_rule s)) w' →
  keeps s w s' (Nf.release_reserved s0 w').
Proof.
  intros H1 H2 H3 (Hc & Hn & Hi). unfold keeps, nf_rules, nf_held. rewrite H1, H2.
  split_and!; [|intros p|by rewrite ids_release].
  - intros r. rewrite commands_release, Hc, net_remove. lia.
  - rewrite avail_release, H3. unfold avail. rewrite Hn. cbn. lia.
Qed.

Lemma msg_for_nr s m :
  (is_nf_nat (Nf.config s) = true → is_Some (Nf.nr_mri s)) → ∃ f, Nf.create_msg_for_nr s m = Ok f.
Proof.
  unfold Nf.create_msg_for_nr. destruct (is_nf_nat _); [|eauto].
  intros H. destruct H as [x Hx]; [done|]. rewrite Hx. cbn. eauto.
Qed.

Lemma msg_for_ni s m :
  (is_nf_nat (Nf.config s) = true → is_Some (Nf.ni_mri s)) → ∃ f, Nf.create_msg_for_ni s m = Ok f.
Proof.
  unfold Nf.create_msg_for_ni. destruct (is_nf_nat _); [|eauto].
  intros H. destruct H as [x Hx]; [done|]. rewrite Hx. cbn. eauto.
Qed.

(** What the handlers of an established session rely on. *)
Lemma nf_ok_waiting conf s :
  nf_ok conf s → Nf.state s = Nf.STATE_WAITRESP ∨ Nf.state s = Nf.STATE_SESSION →
  (∃ m c n, Nf.create_message s = Some m ∧ body m = Some c ∧ has_msg_sequence_number c = Some n) ∧
  (is_nf_nat (Nf.config s) = true → is_Some (Nf.nr_mri s)) ∧
  (is_nf_nat (Nf.config s) = true → is_Some (Nf.ni_mri s)) ∧
  (is_nf_nat (Nf.config s) = false → Nf.nat_rule s = None ∧ Nf.ext_addr s = None).
Proof.
  intros [-> H] Hst. destruct Hst as [E|E]; rewrite E in H; destruct H as [H1 H2];
    (split; [exact H1|]); by destruct (is_nf_nat conf); destruct H2.
Qed.

Lemma not_reached_eq s w m :
  Nf.create_message s = Some m →
  Nf.not_reached s w =
    Ok (s <| Nf.state := Nf.STATE_FINAL |>,
        Nf.release_reserved s (send_message w (create_response m sc_permanent_failure fail_nr_not_reached))).
Proof. intros H. unfold Nf.not_reached. by rewrite H. Qed.

Lemma save_fw_ok s m c pc :
  routing_info m = PathCoupled pc → downstream pc = true →
  wp (Nf.save_fw_policy_rule s m c) (λ r,
    match r with inl _ => True | inr s' => ∃ x, s' = s <| Nf.fw_rule := x |> end).
Proof.
  intros H1 H2. unfold Nf.save_fw_policy_rule. rewrite H1. cbn. rewrite H2. cbn.
  repeat case_match; simplify_eq/=; eauto.
Qed.

Lemma setup_nat_ok s pc w :
  config_ok (Nf.config s) → is_nf_nat (Nf.config s) = true → downstream pc = true → Nf.ext_addr s = None →
  wp (Nf.setup_nat s pc w) (λ '(r, w'),
    w_commands w' = w_commands w ∧ w_ids w' = w_ids w ∧
    match r with
    | inl _ => w_nat w' = w_nat w
    | inr s' =>
        Nf.config s' = Nf.config s ∧ Nf.create_message s' = Nf.create_message s ∧
        is_Some (Nf.ni_mri s') ∧ is_Some (Nf.nr_mri s') ∧
        ∀ p, avail w' p + owed (Nf.ext_addr s') p = avail w p
    end).
Proof.
  intros Hc Hnat Hd He. unfold Nf.setup_nat. apply wp_bind.
  eapply wp_mono; [by apply private_side_ok|]. intros b _.
  unfold Nf.create_mri_with_dest, Nf.create_mri_with_source, Nf.create_mri_inverted,
    Nf.save_nat_policy_rule. rewrite Hd.
  destruct b; cbn -[reserve_external_address].
  - unfold reserve_external_address, nat_reserve.
    destruct (available (w_nat w)) as [|port l] eqn:Ha; cbn; [done|].
    split_and!; try done. intros p. unfold avail. cbn. rewrite Ha, count_cons. cbn. lia.
  - destruct (nat_lookup _ _); cbn; [done|]. split_and!; try done.
    intros p. rewrite He. cbn. lia.
Qed.

(** A session that ends in state IDLE has done nothing. *)
Lemma idle_final conf s s' w w' :
  Nf.state s = Nf.STATE_IDLE → Nf.config s' = conf → Nf.state s' = Nf.STATE_FINAL → quiet w w' →
  nf_ok conf s' ∧ keeps s w s' w'.
Proof.
  intros Hst E1 E2 Hq. split; [by split; [|rewrite E2]|].
  apply keeps_quiet; [| |done]; intros ?; unfold nf_rules, nf_held; by rewrite Hst, E2.
Qed.

Lemma nf_idle_create_ok conf s m c n pc w :
  config_ok conf → nf_ok conf s → Nf.state s = Nf.STATE_IDLE →
  body m = Some c → has_msg_sequence_number c = Some n →
  routing_info m = PathCoupled pc → downstream pc = true →
  wp (Nf.nf_handle_state_idle_create s m c w) (λ '(s', w'), nf_ok conf s' ∧ keeps s w s' w').
Proof.
  intros Hconf [Hcf Hs] Hst Hb Hn Hpc Hd. rewrite Hst in Hs. destruct Hs as [Hnr Hext].
  unfold Nf.nf_handle_state_idle_create.
  assert (sent_create (Some m)) as Hsent by (eexists _, _, _; eauto).
  assert (wp (if is_nf_firewall (Nf.config s)
              then Nf.save_fw_policy_rule (s <| Nf.create_message := Some m |>) m c
              else Ok (inr (s <| Nf.create_message := Some m |>)))
    (λ r, match r with
          | inl _ => True
          | inr s' => ∃ x, s' = s <| Nf.create_message := Some m |> <| Nf.fw_rule := x |>
          end)) as Hfw.
  { case_match; [by eapply save_fw_ok|]. by exists (Nf.fw_rule s). }
  apply wp_bind. eapply wp_mono; [exact Hfw|].
  intros [e|s1]; [by intros _; apply idle_final|]. intros [x ->].
  rewrite Hpc. cbn -[Nf.setup_nat Nf.create_msg_for_nr]. rewrite Hcf.
  destruct (is_nf_nat conf) eqn:Hnat.
  - apply wp_bind. eapply wp_mono; [apply setup_nat_ok; cbn; by rewrite ?Hcf|].
    intros [[e|s2] w2] (E1 & E2 & E3); [by apply idle_final; [..|split_and!]|].
    destruct E3 as (F1 & F2 & F3 & F4 & F5). cbn in F1, F2.
    destruct (msg_for_nr s2 m) as [f ->]; [done|]. cbn. split.
    + split; cbn; [done|]. by rewrite F2, Hnat.
    + split_and!; cbn; [..|done]; [intros r|intros p]; unfold nf_rules, nf_held; cbn; rewrite Hst.
      * by rewrite E1.
      * rewrite <-(F5 p). unfold avail. cbn. lia.
  - cbn -[Nf.create_msg_for_nr].
    edestruct msg_for_nr as [f Hf]; [|rewrite Hf; cbn]; [cbn; congruence|]. split.
    + split; cbn; [done|]. by rewrite Hnat, Hnr, Hext.
    + apply keeps_quiet; [intros r|intros p|done]; unfold nf_rules, nf_held; cbn; rewrite Hst; [done|].
      by rewrite Hext.
Qed.

Lemma nf_idle_ok conf s evt retries w :
  config_ok conf → nf_ok conf s → Nf.state s = Nf.STATE_IDLE → event_ok retries evt →
  wp (Nf.nf_handle_state_idle s evt w) (λ '(s', w'), nf_ok conf s' ∧ keeps s w s' w').
Proof.
  intros Hconf Hs Hst Hev. pose proof Hs as [Hcf Hs']. rewrite Hst in Hs'.
  unfold Nf.nf_handle_state_idle.
  destruct (get_msg CREATE evt) as [[m c]|] eqn:Hg; [|by apply idle_final].
  destruct (get_msg_create _ _ _ _ Hev Hg) as ([n Hn] & Hb & pc & Hpc & Hd).
  unfold get_msg_sequence_number. rewrite Hn. cbn -[check_request Nf.nf_handle_state_idle_create].
  destruct (check_request _ _ m); [by apply idle_final|]. destruct (_ =? 0); [by apply idle_final|].
  eapply wp_mono; [eapply nf_idle_create_ok; [done| |cbn; exact Hst|done..]|].
  - split; cbn; [done|]. by rewrite Hst.
  - intros [s' w'] [H1 H2]. split; [done|].
    unfold keeps, nf_rules, nf_held in H2 |- *. cbn in H2. by rewrite Hst in H2 |- *.
Qed.

(** A forwarder that stays as it is, but for its timers, message and sequence number. *)
Lemma keeps_same s w s' w' :
  Nf.state s' = Nf.state s → Nf.nat_rule s' = Nf.nat_rule s → Nf.fw_rule s' = Nf.fw_rule s →
  Nf.ext_addr s' = Nf.ext_addr s → quiet w w' → keeps s w s' w'.
Proof.
  intros H1 H2 H3 H4 Hq. apply keeps_quiet; [| |done]; intros x; unfold nf_rules, nf_held.
  - by rewrite H1, H2, H3.
  - by rewrite H1, H4.
Qed.

Lemma nf_final_ok conf s' : Nf.config s' = conf → Nf.state s' = Nf.STATE_FINAL → nf_ok conf s'.
Proof. intros H1 H2. by split; [|rewrite H2]. Qed.

(** An established session stays well-formed whatever timers it starts. *)
Lemma nf_ok_moves conf s s' :
  nf_ok conf s → Nf.state s = Nf.STATE_WAITRESP ∨ Nf.state s = Nf.STATE_SESSION →
  Nf.state s' = Nf.STATE_WAITRESP ∨ Nf.state s' = Nf.STATE_SESSION →
  Nf.config s' = Nf.config s → sent_create (Nf.create_message s') →
  Nf.ni_mri s' = Nf.ni_mri s → Nf.nr_mri s' = Nf.nr_mri s →
  Nf.nat_rule s' = Nf.nat_rule s → Nf.ext_addr s' = Nf.ext_addr s → nf_ok conf s'.
Proof.
  intros [Hc H] Hst Hst' E1 E2 E3 E4 E5 E6. split; [by rewrite E1|].
  rewrite E3, E4, E5, E6.
  destruct Hst as [E|E]; rewrite E in H; destruct H as [_ H];
    destruct Hst' as [E'|E']; by rewrite E'.
Qed.

(** A session that is established installs its rules. *)
Lemma keeps_rules s s' w w' :
  Nf.state s = Nf.STATE_WAITRESP → Nf.state s' = Nf.STATE_SESSION →
  Nf.nat_rule s' = Nf.nat_rule s → Nf.fw_rule s' = Nf.fw_rule s → Nf.ext_addr s' = Nf.ext_addr s →
  quiet (install_policy_rules w (Nf.nat_rule s) (Nf.fw_rule s)) w' → keeps s w s' w'.
Proof.
  intros H1 H2 H3 H4 H5 (Hc & Hn & Hi). unfold keeps, nf_rules, nf_held. rewrite H1, H2, H3, H4, H5.
  split_and!; [intros r|intros p|done].
  - rewrite Hc, net_install. lia.
  - unfold avail. by rewrite Hn.
Qed.

Lemma nf_waitresp_response_ok conf s m resp n w :
  nf_ok conf s → Nf.state s = Nf.STATE_WAITRESP → has_msg_sequence_number resp = Some n →
  wp (Nf.waitresp_response s m resp w) (λ '(s', w'), nf_ok conf s' ∧ keeps s w s' w').
Proof.
  intros Hs Hst Hr. pose proof Hs as [Hcf _].
  destruct (nf_ok_waiting _ _ Hs (or_introl Hst)) as ((cm & c & k & Hcm & Hb & Hk) & H1 & H2 & H3).
  unfold Nf.waitresp_response. rewrite Hcm. cbn. rewrite Hb. cbn.
  unfold is_response_to, get_msg_sequence_number. rewrite Hr, Hk. cbn.
  destruct (n =? k); cbn -[Nf.create_msg_for_ni]; [|by split; [|apply keeps_same]].
  destruct (is_success resp).
  - destruct (msg_for_ni s m H2) as [f ->]. cbn. split.
    + eapply nf_ok_moves; cbn; eauto. rewrite Hcm. eexists _, _, _. eauto.
    + apply keeps_rules; [done..|]. by repeat split.
  - cbn -[Nf.create_msg_for_ni]. edestruct msg_for_ni as [f Hf]; [|rewrite Hf]; [exact H2|].
    cbn -[Nf.release_reserved]. split; [by apply nf_final_ok|]. by apply keeps_end.
Qed.

Lemma nf_waitresp_create_ok conf s m c n w :
  nf_ok conf s → Nf.state s = Nf.STATE_WAITRESP → has_msg_sequence_number c = Some n →
  wp (Nf.waitresp_create s m c w) (λ '(s', w'), nf_ok conf s' ∧ keeps s w s' w').
Proof.
  intros Hs Hst Hr. pose proof Hs as [Hcf _].
  destruct (nf_ok_waiting _ _ Hs (or_introl Hst)) as ((cm & c0 & k & Hcm & Hb & Hk) & H1 & H2 & H3).
  unfold Nf.waitresp_create. rewrite Hcm. cbn. rewrite Hb. cbn -[Nf.release_reserved].
  unfold get_msg_sequence_number. rewrite Hr, Hk. cbn -[Nf.release_reserved].
  case_match; cbn -[Nf.release_reserved]; [split; [by apply nf_final_ok|by apply keeps_end]|].
  destruct (n =? k); cbn; [|by split; [|apply keeps_same]].
  split; [|by apply keeps_same]. eapply nf_ok_moves; cbn; eauto.
  rewrite Hcm. eexists _, _, _. eauto.
Qed.

Lemma nf_waitresp_ok conf s evt retries w :
  nf_ok conf s → Nf.state s = Nf.STATE_WAITRESP → event_ok retries evt →
  wp (Nf.nf_handle_state_waitresp s evt w) (λ '(s', w'), nf_ok conf s' ∧ keeps s w s' w').
Proof.
  intros Hs Hst Hev. pose proof Hs as [Hcf _].
  destruct (nf_ok_waiting _ _ Hs (or_introl Hst)) as ((cm & c & k & Hcm & Hb & Hk) & H1 & H2 & H3).
  unfold Nf.nf_handle_state_waitresp. rewrite Hcm. cbn -[get_response_msn Nf.not_reached].
  destruct (get_response_msn evt cm) as [[m resp]|] eqn:Hg.
  { destruct (get_response_msn_inv _ _ _ _ Hg) as (_ & _ & n & _ & _ & Hn).
    by eapply nf_waitresp_response_ok. }
  destruct (get_msg CREATE evt) as [[m c']|] eqn:Hg'.
  { destruct (get_msg_create _ _ _ _ Hev Hg') as ([n Hn] & _). by eapply nf_waitresp_create_ok. }
  rewrite Hb. cbn -[Nf.not_reached].
  destruct (is_nf_nat (Nf.config s)) eqn:Hnat; cbn -[Nf.not_reached].
  2: destruct (is_no_next_node_found_event evt && proxy_mode_flag c); cbn -[Nf.not_reached].
  2: { destruct (H3 eq_refl) as [Hn0 Hx0]. split.
    - eapply nf_ok_moves; cbn; eauto. rewrite Hcm. eexists _, _, _. eauto.
    - apply keeps_rules; [done..|]. rewrite Hn0. by repeat split. }
  all: case_match; [|by split; [|apply keeps_same]].
  all: rewrite (not_reached_eq _ _ _ Hcm); cbn -[Nf.release_reserved];
    split; [by apply nf_final_ok|by apply keeps_end].
Qed.

Lemma nf_session_create_ok conf s m c n w :
  nf_ok conf s → Nf.state s = Nf.STATE_SESSION →
  body m = Some c → has_msg_sequence_number c = Some n →
  wp (Nf.session_create s m c w) (λ '(s', w'), nf_ok conf s' ∧ keeps s w s' w').
Proof.
  intros Hs Hst Hb Hn. pose proof Hs as [Hcf _].
  destruct (nf_ok_waiting _ _ Hs (or_intror Hst)) as (_ & H1 & H2 & H3).
  assert (sent_create (Some m)) as Hsent by (eexists _, _, _; eauto).
  unfold Nf.session_create, get_msg_sequence_number. rewrite Hn.
  cbn -[check_request is_greater_than Nf.create_msg_for_nr Nf.release_reserved].
  destruct (check_request _ _ m); [by split; [|apply keeps_same]|].
  destruct (is_greater_than _ _); cbn -[Nf.create_msg_for_nr Nf.release_reserved];
    [|by split; [|apply keeps_same]].
  destruct (0 <? _); cbn -[Nf.create_msg_for_nr Nf.release_reserved].
  - destruct (Nf.proxy_mode s); cbn -[Nf.create_msg_for_nr].
    + split; [|by apply keeps_same]. eapply nf_ok_moves; cbn; eauto.
    + edestruct msg_for_nr as [f Hf]; [|rewrite Hf]; [exact H1|]. cbn.
      split; [|by apply keeps_same]. eapply nf_ok_moves; cbn; eauto.
  - edestruct msg_for_nr as [f Hf]; [|rewrite Hf]; [exact H1|]. cbn -[Nf.release_reserved].
    split; [by apply nf_final_ok|]. by apply keeps_end_session.
Qed.

Lemma nf_session_response_ok conf s m resp n w :
  nf_ok conf s → Nf.state s = Nf.STATE_SESSION → has_msg_sequence_number resp = Some n →
  wp (Nf.session_response s m resp w) (λ '(s', w'), nf_ok conf s' ∧ keeps s w s' w').
Proof.
  intros Hs Hst Hr. pose proof Hs as [Hcf _].
  destruct (nf_ok_waiting _ _ Hs (or_intror Hst)) as ((cm & c & k & Hcm & Hb & Hk) & H1 & H2 & H3).
  unfold Nf.session_response. rewrite Hcm. cbn. rewrite Hb. cbn.
  unfold is_response_to, get_msg_sequence_number. rewrite Hr, Hk. cbn.
  destruct (n =? k); cbn -[Nf.create_msg_for_ni]; [|by split; [|apply keeps_same]].
  destruct (msg_for_ni s m H2) as [f ->].
  destruct (is_success resp); cbn -[Nf.release_reserved].
  - split; [|by apply keeps_same]. eapply nf_ok_moves; cbn; eauto.
    rewrite Hcm. eexists _, _, _. eauto.
  - split; [by apply nf_final_ok|]. by apply keeps_end_session.
Qed.

Lemma nf_session_ok conf s evt retries w :
  nf_ok conf s → Nf.state s = Nf.STATE_SESSION → event_ok retries evt →
  is_route_changed_bad_event evt = false →
  wp (Nf.nf_handle_state_session s evt w) (λ '(s', w'), nf_ok conf s' ∧ keeps s w s' w').
Proof.
  intros Hs Hst Hev Hroute. pose proof Hs as [Hcf _].
  destruct (nf_ok_waiting _ _ Hs (or_intror Hst)) as ((cm & c & k & Hcm & Hb & Hk) & H1 & H2 & H3).
  unfold Nf.nf_handle_state_session. rewrite Hcm, Hroute.
  destruct (get_msg CREATE evt) as [[m c']|] eqn:Hg'.
  { destruct (get_msg_create _ _ _ _ Hev Hg') as ([n Hn] & Hb' & _). by eapply nf_session_create_ok. }
  cbn -[get_response_msn Nf.not_reached Nf.release_reserved].
  destruct (get_response_msn evt cm) as [[m resp]|] eqn:Hg.
  { destruct (get_response_msn_inv _ _ _ _ Hg) as (_ & _ & n & _ & _ & Hn).
    by eapply nf_session_response_ok. }
  case_match; [|case_match; [|by split; [|apply keeps_same]]].
  - erewrite not_reached_eq by exact Hcm. cbn -[Nf.release_reserved].
    split; [by apply nf_final_ok|]. by apply keeps_end_session.
  - cbn -[Nf.release_reserved]. split; [by apply nf_final_ok|]. by apply keeps_end_session.
Qed.

(** A forwarder processes every expected event but a change of route, stays well-formed
    and keeps its accounts. *)
Lemma nf_step conf s evt retries w :
  config_ok conf → nf_ok conf s → event_ok retries evt → is_route_changed_bad_event evt = false →
  wp (Nf.nf_process_event s evt w) (λ '(s', w'), nf_ok conf s' ∧ keeps s w s' w').
Proof.
  intros Hc Hs Hev Hr. unfold Nf.nf_process_event. destruct (Nf.state s) eqn:Hst.
  - by eapply nf_idle_ok.
  - by eapply nf_waitresp_ok.
  - by eapply nf_session_ok.
  - split; [done|]. by apply keeps_same.
Qed.

End NatfwFacts.
