(* ===== verification/NatfwNodeFacts.v ===== *)
(** * natfw-nslp: the accounts of a node

    The rules in effect on a node are those of its established forwarder sessions, and
    the ports missing from its pool those that its sessions hold, after any sequence of
    expected events. *)

From S2P Require Import Prelude Natfw NatfwSession NatfwExt NatfwNode NatfwFacts.
Import Natfw NatfwNode NatfwFacts.

Module NatfwNodeFacts.

(** ** Sums over a table *)

Definition map_sum {A} (f : A → Z) (m : gmap Z A) : Z := map_fold (λ _ x acc, f x + acc) 0 m.

Lemma map_sum_insert {A} (f : A → Z) m i x :
  m !! i = None → map_sum f (<[i:=x]> m) = f x + map_sum f m.
Proof. intros H. apply (map_fold_insert_L (λ _ x acc, f x + acc)); [intros; lia|done]. Qed.

Lemma map_sum_delete {A} (f : A → Z) m i x :
  m !! i = Some x → map_sum f m = f x + map_sum f (delete i m).
Proof. intros H. apply (map_fold_delete_L (λ _ x acc, f x + acc)); [intros; lia|done]. Qed.

Lemma map_sum_update {A} (f : A → Z) m i x y :
  m !! i = Some x → map_sum f (<[i:=y]> m) = f y - f x + map_sum f m.
Proof.
  intros H. rewrite <-insert_delete_eq, map_sum_insert by apply lookup_delete_eq.
  rewrite (map_sum_delete f m i x) by done. lia.
Qed.

(** ** Fresh session ids *)

Definition unused {A} (m : gmap Z A) (ids : list Z) : nat := length (filter (λ i, m !! i = None) ids).

Lemma unused_mono {A} (m : gmap Z A) ids i x : (unused m ids ≤ unused (delete i m) ids ∧
  unused (<[i:=x]> m) ids ≤ unused m ids)%nat.
Proof.
  unfold unused. induction ids as [|j l IH]; [done|]. rewrite !filter_cons.
  split; repeat case_decide; simpl; try lia; exfalso.
  - destruct (decide (i = j)) as [<-|]; [by rewrite lookup_delete_eq in *|by rewrite lookup_delete_ne in *].
  - destruct (decide (i = j)) as [<-|]; [by rewrite lookup_insert_eq in *|by rewrite lookup_insert_ne in *].
Qed.

Lemma unused_insert_notin {A} (m : gmap Z A) ids i x :
  i ∉ ids → unused (<[i:=x]> m) ids = unused m ids.
Proof.
  unfold unused. intros Hi. f_equal. induction ids as [|j l IH]; [done|].
  apply not_elem_of_cons in Hi as [Hij Hi]. by rewrite !filter_cons, IH, lookup_insert_ne.
Qed.

Lemma unused_insert {A} (m : gmap Z A) ids i x :
  NoDup ids → (unused m ids ≤ S (unused (<[i:=x]> m) ids))%nat.
Proof.
  unfold unused. induction 1 as [|j l Hj Hl IH]; [simpl; lia|]. rewrite !filter_cons.
  destruct (decide (i = j)) as [<-|Hij].
  - rewrite lookup_insert_eq, (decide_False (P := Some x = None)) by done.
    pose proof (unused_insert_notin m l i x Hj) as Hu. unfold unused in Hu. rewrite Hu.
    case_decide; simpl; lia.
  - rewrite lookup_insert_ne by done. case_decide; simpl; lia.
Qed.

Lemma unused_update {A} (m : gmap Z A) ids i x y :
  m !! i = Some x → unused (<[i:=y]> m) ids = unused m ids.
Proof.
  intros H. unfold unused. f_equal. induction ids as [|j l IH]; [done|]. rewrite !filter_cons, IH.
  destruct (decide (i = j)) as [<-|]; [|by rewrite lookup_insert_ne].
  by rewrite lookup_insert_eq, H, !decide_False.
Qed.

Section node.
Context (conf : natfw_config).

Abbreviation retries := (ni_max_retries_par conf).

(** The events of the theorem: those of the CREATE part of the protocol, without
    changes of routes. *)
Definition expected (evt : event) : Prop :=
  event_ok retries evt ∧ is_route_changed_bad_event evt = false ∧ get_msg EXT evt = None ∧
  match evt with api_ext_event _ => False | _ => True end.

Definition session_ok (s : session) : Prop :=
  match s with
  | S_ni s => ni_ok retries s
  | S_nr _ => True
  | S_nf s => nf_ok conf s
  | _ => False
  end.

Definition s_rules (r : chain * expression) (s : session) : Z :=
  match s with S_nf s => nf_rules s r | _ => 0 end.
Definition s_held (p : Z) (s : session) : Z :=
  match s with S_nf s => nf_held s p | _ => 0 end.

Lemma quiet_keeps w w' : quiet w w' →
  (∀ r, net (w_commands w') r - 0 = net (w_commands w) r - 0) ∧
  (∀ p, avail w' p + 0 = avail w p + 0) ∧ w_ids w' = w_ids w.
Proof. intros (Hc & Hn & Hi). unfold avail. by rewrite Hc, Hn. Qed.

(** The step of a session in a node, with what it changes. *)
Lemma session_step n sid s evt :
  config_ok conf → 0 <= retries → session_ok s → expected evt →
  wp (run_session conf n sid s evt) (λ n', ∃ s' w' final, let w := n_world n in
    n' = keep_session (mk_node (session_table n) w') sid s' final ∧
    session_ok s' ∧ (final = true → (∀ r, s_rules r s' = 0) ∧ (∀ p, s_held p s' = 0)) ∧
    (∀ r, net (w_commands w') r - s_rules r s' = net (w_commands w) r - s_rules r s) ∧
    (∀ p, avail w' p + s_held p s' = avail w p + s_held p s) ∧ w_ids w' = w_ids w).
Proof.
  intros Hc H0 Hs (Hev & Hr & _). destruct s as [s|s|s|s|s|s]; try done; cbn -[process_event keep_session] in Hs |- *;
    unfold run_plain; apply wp_bind.
  - eapply wp_mono; [by apply ni_step|]. intros [s' w'] [H1 H2]. eexists (S_ni s'), w', _. split; [done|].
    split; [done|]. split; [done|]. by apply quiet_keeps.
  - eapply wp_mono; [by eapply nr_step|]. intros [s' w'] H2. eexists (S_nr s'), w', _. split; [done|].
    split; [done|]. split; [done|]. by apply quiet_keeps.
  - eapply wp_mono; [by eapply nf_step|]. intros [s' w'] [H1 H2]. eexists (S_nf s'), w', _. split; [done|].
    split; [done|]. split; [|done]. cbn. unfold nf_rules, nf_held. by destruct (Nf.state s').
Qed.

(** ** The invariant *)

Definition accounts (pool : list Z) (n : node) : Prop :=
  (∀ r, net (w_commands (n_world n)) r = map_sum (s_rules r) (session_table n)) ∧
  (∀ p, avail (n_world n) p + map_sum (s_held p) (session_table n) = count p pool).

Definition node_ok (pool : list Z) (k : nat) (n : node) : Prop :=
  accounts pool n ∧
  (∀ i s, session_table n !! i = Some s → session_ok s) ∧
  NoDup (w_ids (n_world n)) ∧ (k ≤ unused (session_table n) (w_ids (n_world n)))%nat.

Lemma run_session_ok pool k n sid s evt :
  config_ok conf → 0 <= retries → expected evt →
  node_ok pool k n → session_table n !! sid = Some s →
  wp (run_session conf n sid s evt) (node_ok pool k).
Proof.
  intros Hc H0 Hev ((Hr & Hp) & Hs & Hd & Hk) Hl. eapply wp_mono; [apply session_step; eauto|].
  intros n' (s' & w' & final & -> & H1 & Hf & H2 & H3 & H4).
  unfold node_ok, accounts, keep_session. cbn [session_table n_world]. rewrite H4. destruct final.
  - destruct (Hf eq_refl) as [F1 F2]. split_and!; [intros r|intros p| |done|].
    + specialize (H2 r). rewrite F1, Hr, (map_sum_delete _ _ _ _ Hl) in H2. lia.
    + specialize (H3 p). specialize (Hp p). rewrite F2 in H3. rewrite (map_sum_delete _ _ _ _ Hl) in Hp. lia.
    + intros i x Hx. apply (Hs i). by eapply lookup_delete_Some.
    + pose proof (unused_mono (session_table n) (w_ids (n_world n)) sid s). lia.
  - split_and!; [intros r|intros p| |done|].
    + specialize (H2 r). rewrite Hr in H2. rewrite (map_sum_update _ _ _ _ _ Hl). lia.
    + specialize (H3 p). specialize (Hp p). rewrite (map_sum_update _ _ _ _ _ Hl). lia.
    + intros i x Hx. destruct (decide (sid = i)) as [<-|].
      * rewrite lookup_insert_eq in Hx. by simplify_eq.
      * rewrite lookup_insert_ne in Hx by done. eauto.
    + by rewrite (unused_update _ _ _ s).
Qed.

(** A new session owes nothing. *)
Lemma add_session_ok pool k k' n sid s :
  node_ok pool k n → session_table n !! sid = None → session_ok s →
  (∀ r, s_rules r s = 0) → (∀ p, s_held p s = 0) →
  (k' ≤ unused (<[sid:=s]> (session_table n)) (w_ids (n_world n)))%nat →
  node_ok pool k' (add_session n sid s) ∧ session_table (add_session n sid s) !! sid = Some s.
Proof.
  intros ((Hr & Hp) & Hs & Hd & Hk) Hl H1 H2 H3 Hk'. unfold add_session, node_ok, accounts.
  cbn [session_table n_world]. split; [|apply lookup_insert_eq].
  split_and!; [intros r|intros p| |done..].
  - by rewrite map_sum_insert, H2.
  - by rewrite map_sum_insert, H3.
  - intros i x. destruct (decide (sid = i)) as [<-|].
    + rewrite lookup_insert_eq. by intros [= <-].
    + rewrite lookup_insert_ne by done. eauto.
Qed.

Lemma unique_id_ok (t : gmap Z (session)) ids :
  NoDup ids → (0 < unused t ids)%nat →
  ∃ i l, unique_id t ids = Ok (i, l) ∧ t !! i = None ∧ NoDup l ∧ (i ∉ l) ∧ unused t ids = S (unused t l).
Proof.
  unfold unused. induction 1 as [|j l Hj Hl IH]; [simpl; lia|]. cbn [unique_id]. rewrite filter_cons.
  destruct (t !! j) eqn:Ht.
  - rewrite decide_False by done. done.
  - rewrite decide_True by done. intros _. by exists j, l.
Qed.

Lemma create_ni_ok pool k n :
  node_ok pool (S k) n →
  wp (create_ni_session conf n) (λ '(i, s, n'), node_ok pool k n' ∧ session_table n' !! i = Some (S_ni s)).
Proof.
  intros (Ha & Hs & Hd & Hk). unfold create_ni_session, create_unique_id.
  destruct (unique_id_ok (session_table n) (w_ids (n_world n))) as (i & l & Hu & Hi & Hl & Hil & Hn);
    [done|lia|]. rewrite Hu. cbn -[add_session].
  apply add_session_ok with k; try done.
  - split_and!; try done; [apply Ha..|]. change (k ≤ unused (session_table n) l)%nat. lia.
  - cbn -[unused]. rewrite unused_insert_notin by done. lia.
Qed.

Lemma create_session_ok pool k n evt :
  node_ok pool (S k) n → expected evt →
  (∀ sid, get_session_id evt = Some sid → session_table n !! sid = None) →
  wp (create_session conf n evt) (λ '(r, n'),
    node_ok pool k n' ∧ match r with Some (i, s) => session_table n' !! i = Some s | None => True end).
Proof.
  intros Hn (_ & _ & Hext & Hapi) Hl. pose proof Hn as (Ha & Hs & Hd & Hk).
  assert (node_ok pool k n) as Hnone by (split_and!; try done; [apply Ha..|lia]).
  destruct evt; try done; cbn -[add_session get_msg] in *.
  - assert (∀ s, session_ok s → (∀ r, s_rules r s = 0) → (∀ p, s_held p s = 0) →
      node_ok pool k (add_session n sid s) ∧ session_table (add_session n sid s) !! sid = Some s) as Hadd.
    { intros s ? ? ?. apply add_session_ok with (S k); auto.
      pose proof (unused_insert (session_table n) _ sid s Hd). lia. }
    case_decide; [destruct (_ && _); by apply Hadd|].
    by rewrite Hext, decide_False by by intros [].
  - apply wp_bind. eapply wp_mono; [by apply create_ni_ok|]. by intros [[i s] n'].
Qed.

Lemma process_ok pool k n evt :
  config_ok conf → 0 <= retries → node_ok pool (S k) n → expected evt →
  wp (process conf n evt) (node_ok pool k).
Proof.
  intros Hc H0 Hn Hev. pose proof Hn as (Ha & Hs & Hd & Hk).
  assert (node_ok pool k n) as Hnone by (split_and!; try done; [apply Ha..|lia]).
  assert (wp (match get_session_id evt ≫= λ sid, s ← session_table n !! sid; Some (sid, s) with
      | Some (sid, s) => run_session conf n sid s evt
      | None => '(r, n) ← create_session conf n evt;
                match r with Some (sid, s) => run_session conf n sid s evt | None => Ok n end
      end) (node_ok pool k)) as Hmain.
  { destruct (get_session_id evt ≫= _) as [[sid s]|] eqn:Hg.
    - apply run_session_ok; try done. destruct (get_session_id evt) as [i|]; [|done]. cbn in Hg.
      destruct (session_table n !! i) eqn:Hi; by simplify_eq/=.
    - apply wp_bind. eapply wp_mono; [apply create_session_ok; [done..|]|].
      + intros sid Hsid. rewrite Hsid in Hg. cbn in Hg. by destruct (session_table n !! sid).
      + intros [[[sid s]|] n'] [H1 H2]; [|done]. by apply run_session_ok. }
  unfold process. destruct evt as [| | | |sid [? ? ? [b|]] ?| | | |]; try exact Hmain; exact Hnone.
Qed.

Lemma process_all_ok pool evts n :
  config_ok conf → 0 <= retries → Forall expected evts → node_ok pool (length evts) n →
  wp (process_all conf n evts) (node_ok pool 0).
Proof.
  intros Hc H0 Hev. revert n. induction Hev as [|evt evts Hevt _ IH]; intros n Hn; [done|].
  cbn [process_all]. apply wp_bind. eapply wp_mono; [by apply process_ok|]. apply IH.
Qed.

End node.

End NatfwNodeFacts.
