(* ===== verification/NatfwProps.v ===== *)
(** * natfw-nslp: nodes, and the protocol between them

    What a node installs and reserves over its life, and what initiator, forwarder and
    responder agree on when messages arrive, or do not. *)

From S2P Require Import Prelude Natfw NatfwSession NatfwExt NatfwNode NatfwFacts NatfwNodeFacts.
Import Natfw NatfwNode NatfwFacts NatfwNodeFacts.

Module NatfwProps.

(** ** The life of a node *)

(** C2: A node that starts without sessions processes every sequence of expected events
    (well-formed CREATE and RESPONSE messages, requests of the user, timers, and
    messages that cannot be parsed), whatever their order, without a crash, unless it is
    a NAT whose list of private networks cannot be read as such; see
    [NatfwExtProps] for the type that the program gives to it.  Afterwards
    the iptables rules in effect are exactly those of its forwarder sessions in state
    SESSION, each as often as there are sessions with it, and every port that is missing
    from the pool of external addresses is held by a session. *)
Theorem node_accounts conf w evts :
  config_ok conf → 0 <= ni_max_retries_par conf →
  w_commands w = [] → NoDup (w_ids w) → (length evts ≤ length (w_ids w))%nat →
  Forall (expected conf) evts →
  wp (process_all conf (mk_node ∅ w) evts) (λ n,
    (∀ r, net (w_commands (n_world n)) r = map_sum (s_rules r) (session_table n)) ∧
    (∀ p, avail (n_world n) p + map_sum (s_held p) (session_table n) = avail w p)).
Proof.
  intros Hc H0 Hcmd Hd Hlen Hev.
  eapply wp_mono; [apply (process_all_ok conf (available (w_nat w))); try done|by intros n [? _]].
  unfold node_ok, accounts. cbn [session_table n_world]. split_and!.
  - intros r. by rewrite Hcmd.
  - intros p. unfold map_sum. rewrite map_fold_empty. unfold avail. lia.
  - intros i s. by rewrite lookup_empty.
  - done.
  - etrans; [exact Hlen|]. apply Nat.eq_le_incl. unfold unused. symmetry. clear.
    induction (w_ids w) as [|i l IH]; [done|]. rewrite filter_cons, lookup_empty, decide_True by done.
    simpl. by rewrite IH.
Qed.

(** C39: When GIST reports that a route of an established forwarder session is no longer
    usable, the session is forgotten and nothing else happens: no command is run and no
    address released.  If the accounts were right before, its rules are now in effect
    without a session that could remove them, and its external port is lost. *)
Theorem route_change_leaks conf pool n sid s :
  accounts pool n → session_table n !! sid = Some (S_nf s) → Nf.state s = Nf.STATE_SESSION →
  is_Some (Nf.create_message s) →
  process conf n (route_changed_bad_event sid)
    = Ok (mk_node (delete sid (session_table n)) (n_world n)) ∧
  (∀ r, net (w_commands (n_world n)) r
    = map_sum (s_rules r) (delete sid (session_table n)) + count r (rule_lines (Nf.nat_rule s) (Nf.fw_rule s))) ∧
  (∀ p, avail (n_world n) p + map_sum (s_held p) (delete sid (session_table n))
    = count p pool - owed (Nf.ext_addr s) p).
Proof.
  intros [Hr Hp] Hl Hst [m Hm]. split_and!.
  - unfold process, get_session_id. cbn -[run_session]. rewrite Hl. cbn -[run_session].
    unfold run_session. cbn. unfold Nf.nf_process_event, Nf.nf_handle_state_session.
    rewrite Hst, Hm. cbn -[get_response_msn]. unfold get_response_msn. cbn.
    destruct (body m ≫= has_msg_sequence_number); by destruct (Nf.proxy_mode s).
  - intros r. rewrite Hr, (map_sum_delete _ _ _ _ Hl). cbn. unfold nf_rules. rewrite Hst. lia.
  - intros p. rewrite <-(Hp p), (map_sum_delete _ _ _ _ Hl). cbn. unfold nf_held. rewrite Hst. lia.
Qed.


End NatfwProps.
