(* ===== verification/NatfwExtProps.v ===== *)
(** * natfw-nslp: configuration parameters and the EXT part

    What the registered types of the parameters mean for a node, and what is left behind
    by the session of a forwarder that is not at the edge. *)

From S2P Require Import Prelude Natfw NatfwSession NatfwExt NatfwNode.
Import Natfw NatfwNode.

Module NatfwExtProps.

Lemma private_side_fatal conf a : registered conf → is_from_private_side conf a = Abort.
Proof. intros [[l Hl] _]. unfold is_from_private_side. by rewrite Hl. Qed.

(** The request passes [check_request]. *)
Lemma check_request_ok lt max m : lt <= max → check_request lt max m = None.
Proof. intros H. unfold check_request, check_lifetime. by rewrite (proj2 (Z.ltb_ge _ _)). Qed.

Lemma get_msg_body type sid x mri sii c b :
  msg_type c = type → get_msg type (msg_event sid (mk_ntlp x mri sii (Some c)) b)
    = Some (mk_ntlp x mri sii (Some c), c).
Proof. intros <-. cbn. by rewrite Z.eqb_refl. Qed.

(** A message for which there is no session goes to a new one. *)
Lemma process_new conf n sid x mri sii c b :
  session_table n !! sid = None →
  process conf n (msg_event sid (mk_ntlp x mri sii (Some c)) b)
  = ('(r, n) ← create_session conf n (msg_event sid (mk_ntlp x mri sii (Some c)) b);
     match r with
     | Some (i, s) => run_session conf n i s (msg_event sid (mk_ntlp x mri sii (Some c)) b)
     | None => Ok n
     end).
Proof. intros H. cbn -[create_session run_session]. by rewrite H. Qed.

Lemma process_known conf n sid s evt :
  get_session_id evt = Some sid → session_table n !! sid = Some s →
  match evt with
  | routing_state_check_event _ _ => False
  | msg_event _ m _ => is_Some (body m)
  | _ => True
  end →
  process conf n evt = run_session conf n sid s evt.
Proof.
  intros Hi Hs He. unfold process. rewrite Hi. cbn -[run_session]. rewrite Hs.
  destruct evt as [| | | |? [? ? ? [?|]] ?| | | |]; try done. by destruct He.
Qed.

(** ** The types of the parameters *)

Lemma setup_nat_fatal s pc w : registered (Nf.config s) → Nf.setup_nat s pc w = Abort.
Proof. intros H. unfold Nf.setup_nat. by rewrite private_side_fatal. Qed.

(** C33: With the parameters as [registerAllPars] registers them, the list of private
    networks and the number of EXT retries are read with another type than they have,
    which ends the program.  Every request of the user for an EXT session stops the
    daemon; so does, on a NAT, the first well-formed CREATE for a new session, and on an
    edge node the first EXT with a sequence number and a lifetime of at most a minute. *)
Theorem parameter_types_fatal conf n sid m c b :
  registered conf → session_table n !! sid = None → body m = Some c → is_Some (has_msg_sequence_number c) →
  (∀ e i l, unique_id (session_table n) (w_ids (n_world n)) = Ok (i, l) →
    process conf n (api_ext_event e) = Abort) ∧
  (msg_type c = CREATE → is_nf_nat conf = true →
   0 < get_session_lifetime c <= nf_max_session_lifetime conf →
   get_subsequent_ports c = 0 → get_rule_action c = ra_allow →
   (∃ pc, routing_info m = PathCoupled pc ∧ downstream pc = true) →
   process conf n (msg_event sid m b) = Abort) ∧
  (msg_type c = EXT → is_nf_nat conf || is_nf_firewall conf = true → is_nf_edge_node conf = true →
   get_session_lifetime c <= 60 →
   process conf n (msg_event sid m b) = Abort).
Proof.
  intros Hreg Hl Hb [k Hk]. destruct m as [x mri sii mb]. cbn in Hb. subst mb. split_and!.
  - intros e i l Hu. destruct Hreg as [_ [v Hv]]. cbn -[run_session create_nr_ext_session].
    unfold create_nr_ext_session, create_unique_id. rewrite Hu. cbn.
    unfold NrExt.new_nr_ext_session. by rewrite Hv.
  - intros Ht Hnat Hlt Hp Ha (pc & Hpc & Hd). cbn in Hpc. subst mri. rewrite process_new by done.
    unfold create_session. rewrite get_msg_body, decide_True by eauto. rewrite Hnat, andb_false_r.
    cbn -[Nf.nf_handle_state_idle]. unfold Nf.nf_handle_state_idle. rewrite get_msg_body by done.
    unfold get_msg_sequence_number. rewrite Hk. cbn -[check_request Nf.nf_handle_state_idle_create].
    rewrite check_request_ok by lia. rewrite (proj2 (Z.eqb_neq _ 0)) by lia.
    unfold Nf.nf_handle_state_idle_create, Nf.save_fw_policy_rule. cbn -[Nf.setup_nat]. rewrite Hd, Hp, Ha.
    destruct (is_nf_firewall conf); cbn -[Nf.setup_nat]; rewrite Hnat; by rewrite setup_nat_fatal.
  - intros Ht Hnf Hedge Hlt. rewrite process_new by done. unfold create_session.
    rewrite decide_False by (intros [y Hy]; cbn in Hy; by rewrite Ht in Hy).
    rewrite get_msg_body, decide_True by eauto.
    unfold Edge.new_edge_session. rewrite Hnf, Hedge. cbn -[edge_handle_state_idle].
    unfold edge_handle_state_idle. rewrite get_msg_body by done.
    unfold get_msg_sequence_number. rewrite Hk. cbn -[check_request is_from_private_side].
    rewrite check_request_ok by done. by rewrite private_side_fatal.
Qed.

(** ** The session of a forwarder *)

(** C34: On a forwarder that is not at the edge, an EXT that is answered with success and
    never refreshed passes through, with its response, unchanged and without any rule
    being installed; when its session times out, an address that was never reserved is
    released: port 0 joins the pool of external ports. *)
Theorem ext_session_pollutes_pool conf w sid m ext r resp k b b' :
  is_nf_nat conf || is_nf_firewall conf = true → is_nf_edge_node conf = false →
  body m = Some ext → msg_type ext = EXT → has_msg_sequence_number ext = Some k →
  0 < get_session_lifetime ext <= nf_max_session_lifetime conf →
  body r = Some resp → msg_type resp = RESPONSE → has_msg_sequence_number resp = Some k →
  is_success resp = true → 0 < w_next_id w →
  wp (process_all conf (mk_node ∅ w)
        [msg_event sid m b; msg_event sid r b'; timer_event sid (w_next_id w + 1)])
    (λ n, session_table n = ∅ ∧ w_commands (n_world n) = w_commands w ∧
      w_sent (n_world n) = w_sent w ++ [copy_for_forwarding m None; copy_for_forwarding r None] ∧
      available (w_nat (n_world n)) = available (w_nat w) ++ [0]).
Proof.
  intros Hnf Hedge Hb Ht Hk Hlt Hb' Ht' Hk' Hok Hid.
  destruct m as [x mri sii mb], r as [x' mri' sii' mb']. cbn in Hb, Hb'. subst mb mb'.
  cbn [process_all]. rewrite process_new by done. unfold create_session.
  rewrite decide_False by (intros [y Hy]; cbn in Hy; by rewrite Ht in Hy).
  rewrite get_msg_body, decide_True by eauto.
  unfold NonEdge.new_non_edge_session. rewrite Hnf, Hedge.
  cbn -[NonEdge.non_edge_handle_state_idle process].
  unfold NonEdge.non_edge_handle_state_idle. rewrite get_msg_body by done.
  unfold get_msg_sequence_number. rewrite Hk. cbn -[check_request process].
  rewrite check_request_ok by lia. rewrite (proj2 (Z.eqb_neq _ 0)) by lia. cbn -[process].
  erewrite process_known; [|done|apply lookup_insert_eq|by eexists].
  cbn -[process NonEdge.non_edge_handle_state_waitresp].
  unfold NonEdge.non_edge_handle_state_waitresp. rewrite get_msg_body by done. cbn -[process NonEdge.non_edge_response].
  unfold NonEdge.non_edge_response, is_response_to, get_msg_sequence_number. cbn -[process].
  rewrite Hk, Hk'. cbn -[process]. rewrite Z.eqb_refl, Hok. cbn -[process].
  erewrite process_known; [|done|apply lookup_insert_eq|done].
  cbn. rewrite (proj2 (Z.eqb_neq (w_next_id w + 1) 0)) by lia. rewrite Z.eqb_refl. cbn.
  split_and!; [|done|by rewrite <-app_assoc|done].
  by rewrite !insert_insert_eq, delete_insert_eq, ?delete_empty.
Qed.

End NatfwExtProps.
