(* ===== verification/NatfwPath.v ===== *)
(** * natfw-nslp: initiator, forwarder and responder on a path

    The messages that one session sends are delivered to the next one: a session that is
    set up across a firewall, and a session whose response is lost. *)

From S2P Require Import Prelude Natfw NatfwSession NatfwFacts.
Import Natfw NatfwFacts.

Module NatfwPath.

(** ** The messages *)

(** The CREATE of an initiator, as the other nodes read it. *)
Definition is_create (c : natfw_msg) (n lt : Z) (proxy : bool) : Prop :=
  msg_type c = CREATE ∧ proxy_mode_flag c = proxy ∧ get_session_lifetime c = lt ∧
  get_rule_action c = ra_allow ∧ get_subsequent_ports c = 0 ∧ has_msg_sequence_number c = Some n.

Lemma build_create_fields s x :
  Ni.ni_mri s = Some x →
  ∃ c, Ni.build_create_message s
         = Ok (mk_ntlp (Ni.id s) x 0 (Some c), s <| Ni.msn := u32 (Ni.msn s + 1) |>) ∧
       is_create c (u32 (Ni.msn s + 1)) (Ni.lifetime s) (Ni.proxy_mode s).
Proof.
  intros Hx. unfold Ni.build_create_message. rewrite Hx. cbn. eexists. split; [done|].
  unfold is_create, get_session_lifetime, get_rule_action, get_subsequent_ports, has_msg_sequence_number,
    set_object.
  destruct (Ni.icmp s); destruct (Ni.proxy_mode s || Ni.proxy_session s); cbn; split_and!; try done;
    repeat (rewrite lookup_insert_ne by done); by rewrite lookup_insert_eq.
Qed.

(** A response of success to [m], as the initiator reads it. *)
Definition is_response (r : natfw_msg) (n : Z) : Prop :=
  msg_type r = RESPONSE ∧ is_success r = true ∧ has_msg_sequence_number r = Some n.

Lemma success_response_fields m c n lt :
  body m = Some c → has_msg_sequence_number c = Some n →
  ∃ r, create_success_response m lt = mk_ntlp (m_sid m) (invertDirection (routing_info m)) 0 (Some r) ∧
       is_response r n.
Proof.
  intros Hb Hn. unfold create_success_response, create_response. rewrite Hb. cbn. rewrite Hn. cbn.
  eexists. split; [done|]. unfold is_response, is_success, has_msg_sequence_number, set_object. cbn.
  split_and!; [done|..]; repeat (rewrite lookup_insert_ne by done); by rewrite lookup_insert_eq.
Qed.

(** ** The steps of the sessions *)

(** The MRI of the flow that the user asked for. *)
Definition flow_mri (e : api_create) : mri_pathcoupled :=
  mk_pc (ac_source e) 32 (ac_source_port e) (ac_dest e) 32 (ac_dest_port e) (ac_protocol e) 0 0 0 true.

Lemma ni_start sid n0 x conf e w :
  0 <= ni_max_retries_par conf → timers_ok (ac_lifetime e) (ni_max_retries_par conf) →
  ∃ c s' w', let m := mk_ntlp sid (PathCoupled (flow_mri e)) 0 (Some c) in
    Ni.ni_process_event (Ni.new_ni_session sid n0 x conf) (api_create_event e) w = Ok (s', w') ∧
    is_create c (u32 (n0 + 1)) (ac_lifetime e) (ac_proxy e) ∧
    w_sent w' = w_sent w ++ [m] ∧ Ni.last_create_msg s' = Some m ∧
    Ni.state s' = Ni.STATE_WAITRESP ∧ Ni.create_counter s' = 0 ∧
    Ni.max_retries s' = ni_max_retries_par conf ∧ Ni.msn s' = u32 (n0 + 1) ∧ Ni.id s' = sid ∧
    Ni.lifetime s' = ac_lifetime e.
Proof.
  intros H0 (Hlt & Hmax & Ht). cbn [Ni.ni_process_event Ni.new_ni_session Ni.state Ni.ni_handle_state_idle].
  unfold Ni.setup_session. rewrite (proj2 (Z.eqb_neq _ _)) by lia. cbn.
  pose proof (refresh_positive _ _ H0 Hlt) as Hpos.
  rewrite !(proj2 (Z.ltb_lt _ _)) by lia. cbn.
  destruct (wp_inv _ _ (Ht (default 0 (head (w_rand w))))) as (t & -> & _).
  cbn -[Ni.build_create_message].
  edestruct build_create_fields as (c & Hc & Hf); [|rewrite Hc]; [done|]. cbn in Hf |- *.
  exists c. destruct (ac_return_queue e); eexists _, _; by split_and!.
Qed.

(** A response of success to the last CREATE. *)
Lemma ni_established s sid m r n c w b :
  Ni.state s = Ni.STATE_WAITRESP → Ni.last_create_msg s = Some c →
  body m = Some r → is_response r n →
  (∃ k, body c = Some k ∧ has_msg_sequence_number k = Some n) →
  wp (Ni.ni_process_event s (msg_event sid m b) w) (λ '(s', w'),
    Ni.state s' = Ni.STATE_SESSION ∧ Ni.msn s' = Ni.msn s ∧ Ni.lifetime s' = Ni.lifetime s ∧ w_sent w' = w_sent w).
Proof.
  intros Hst Hl Hb (Ht & Hok & Hn) (k & Hk & Hkn). unfold Ni.ni_process_event. rewrite Hst.
  unfold Ni.ni_handle_state_waitresp. cbn. rewrite Hb, Ht. cbn.
  unfold Ni.ni_response. rewrite Hl. cbn. rewrite Hk. cbn.
  unfold is_response_to, get_msg_sequence_number. rewrite Hn, Hkn. cbn. by rewrite Z.eqb_refl, Hok.
Qed.

(** A responder without a session accepts a CREATE. *)
Lemma nr_accepts sid conf m c n lt px w b :
  body m = Some c → is_create c n lt px → 0 < lt <= nr_max_session_lifetime conf →
  wp (Nr.nr_process_event (Nr.new_nr_session sid conf) (msg_event sid m b) w) (λ '(s', w'),
    Nr.state s' = Nr.STATE_SESSION ∧ Nr.msn s' = n ∧ Nr.lifetime s' = lt ∧
    Nr.max_lifetime s' = nr_max_session_lifetime conf ∧
    w_sent w' = w_sent w ++ [create_success_response m lt]).
Proof.
  intros Hb (Ht & _ & Hlt & _ & _ & Hn) Hr. cbn. unfold Nr.nr_handle_state_idle. cbn. rewrite Hb, Ht. cbn.
  unfold get_msg_sequence_number. rewrite Hn, Hlt. cbn. unfold check_request, check_lifetime.
  rewrite (proj2 (Z.ltb_ge _ _)) by lia. cbn. by rewrite (proj2 (Z.ltb_lt _ _)) by lia.
Qed.

Lemma is_greater_than_irrefl n : is_greater_than n n = false.
Proof. unfold is_greater_than. by rewrite Z.eqb_refl. Qed.

(** One with a session ignores the CREATE that it has accepted last. *)
Lemma nr_ignores s sid m c n lt px w b :
  Nr.state s = Nr.STATE_SESSION → Nr.msn s = n → lt <= Nr.max_lifetime s →
  body m = Some c → is_create c n lt px →
  Nr.nr_process_event s (msg_event sid m b) w = Ok (s, w).
Proof.
  intros Hst Hm Hlt Hb (Ht & _ & Hl & _ & _ & Hn). unfold Nr.nr_process_event. rewrite Hst.
  unfold Nr.nr_handle_state_session. cbn. rewrite Hb, Ht. cbn. unfold get_msg_sequence_number. rewrite Hn, Hl.
  cbn -[is_greater_than]. unfold check_request, check_lifetime. rewrite (proj2 (Z.ltb_ge _ _)) by lia.
  cbn -[is_greater_than]. by rewrite Hm, is_greater_than_irrefl.
Qed.

(** ** A session across a firewall *)

(** The user asks for a session; every message is delivered to the next node, and the
    response back. *)
Definition setup_path (ni : Ni.ni_session) (nf : Nf.nf_session) (nr : Nr.nr_session) (e : api_create)
    (wi wf wr : world) : comp (Ni.ni_session * Nf.nf_session * Nr.nr_session * (world * world * world)) :=
  '(ni, wi) ← process_event ni (api_create_event e) wi;
  m ← deref (last (w_sent wi));
  '(nf, wf) ← process_event nf (msg_event (m_sid m) m false) wf;
  m ← deref (last (w_sent wf));
  '(nr, wr) ← process_event nr (msg_event (m_sid m) m true) wr;
  m ← deref (last (w_sent wr));
  '(nf, wf) ← process_event nf (msg_event (m_sid m) m false) wf;
  m ← deref (last (w_sent wf));
  '(ni, wi) ← process_event ni (msg_event (m_sid m) m true) wi;
  Ok (ni, nf, nr, (wi, wf, wr)).

(** The two rules for the flow: packets from the sender to the receiver, and back. *)
Definition allow_rules (e : api_create) : list (chain * expression) :=
  [(natfwd_filter, mk_expr (ac_protocol e) (ac_source e) (Some 32) (ac_dest e) (Some 32)
      (ac_source_port e) (ac_dest_port e) ACCEPT);
   (natfwd_filter, mk_expr (ac_protocol e) (ac_dest e) (Some 32) (ac_source e) (Some 32)
      (ac_dest_port e) (ac_source_port e) ACCEPT)].

(** A firewall forwards a CREATE for a new session and remembers the rules. *)
Lemma nf_forwards sid conf m c e n lt px w b :
  is_nf_firewall conf = true → is_nf_nat conf = false →
  body m = Some c → is_create c n lt px → 0 < lt <= nf_max_session_lifetime conf →
  routing_info m = PathCoupled (flow_mri e) →
  wp (Nf.nf_process_event (Nf.new_nf_session sid conf) (msg_event sid m b) w) (λ '(s', w'),
    Nf.state s' = Nf.STATE_WAITRESP ∧ Nf.msn s' = n ∧ Nf.lifetime s' = lt ∧ Nf.config s' = conf ∧
    Nf.create_message s' = Some m ∧ rule_lines (Nf.nat_rule s') (Nf.fw_rule s') = allow_rules e ∧
    w_commands w' = w_commands w ∧ w_sent w' = w_sent w ++ [copy_for_forwarding m None]).
Proof.
  intros Hfw Hnat Hb (Ht & _ & Hl & Ha & Hp & Hn) Hlt Hm. cbn. unfold Nf.nf_handle_state_idle. cbn.
  rewrite Hb, Ht. cbn. unfold get_msg_sequence_number. rewrite Hn, Hl. cbn.
  unfold check_request, check_lifetime. rewrite (proj2 (Z.ltb_ge _ _)) by lia. cbn.
  rewrite (proj2 (Z.eqb_neq _ _)) by lia. unfold Nf.nf_handle_state_idle_create. cbn. rewrite Hfw.
  unfold Nf.save_fw_policy_rule. rewrite Hm. cbn. rewrite Hp, Ha. cbn. rewrite Hnat. cbn.
  unfold Nf.create_msg_for_nr. cbn. rewrite Hnat. by split_and!.
Qed.

(** It installs them with the response. *)
Lemma nf_installs s sid m r n cm w b :
  Nf.state s = Nf.STATE_WAITRESP → is_nf_nat (Nf.config s) = false →
  Nf.create_message s = Some cm → (∃ k, body cm = Some k ∧ has_msg_sequence_number k = Some n) →
  body m = Some r → is_response r n →
  wp (Nf.nf_process_event s (msg_event sid m b) w) (λ '(s', w'),
    Nf.state s' = Nf.STATE_SESSION ∧ Nf.msn s' = Nf.msn s ∧ Nf.lifetime s' = Nf.lifetime s ∧
    w_commands w' = w_commands w ++ ((λ '(c, x), Append c x) <$> rule_lines (Nf.nat_rule s) (Nf.fw_rule s)) ∧
    w_sent w' = w_sent w ++ [copy_for_forwarding m None]).
Proof.
  intros Hst Hnat Hcm (k & Hk & Hkn) Hb (Ht & Hok & Hn). unfold Nf.nf_process_event. rewrite Hst.
  unfold Nf.nf_handle_state_waitresp. rewrite Hcm. cbn. unfold get_response_msn. rewrite Hk. cbn.
  rewrite Hkn, Hb, Ht. cbn. rewrite Hn, decide_True by done. unfold Nf.waitresp_response.
  rewrite Hcm. cbn. rewrite Hk. cbn. unfold is_response_to, get_msg_sequence_number. rewrite Hn, Hkn. cbn.
  rewrite Z.eqb_refl, Hok. cbn. unfold Nf.create_msg_for_ni. rewrite Hnat. by split_and!.
Qed.

(** C11: If the user asks for a session, every node on the path accepts its lifetime and
    no message is lost, then initiator, firewall and responder all end in state SESSION
    with the same sequence number and the lifetime that was asked for, and the firewall
    has run exactly two commands: they append rules that accept packets with the
    protocol, the addresses and the ports of the request, and with addresses and ports
    exchanged.  (What the packet filter makes of the commands is not part of the model:
    they name ports for every protocol, also for ICMP, which has none.) *)
Theorem path_established sid n0 x ci cf cr e wi wf wr :
  0 <= ni_max_retries_par ci → timers_ok (ac_lifetime e) (ni_max_retries_par ci) →
  is_nf_firewall cf = true → is_nf_nat cf = false →
  ac_lifetime e <= nf_max_session_lifetime cf → ac_lifetime e <= nr_max_session_lifetime cr →
  wp (setup_path (Ni.new_ni_session sid n0 x ci) (Nf.new_nf_session sid cf) (Nr.new_nr_session sid cr)
        e wi wf wr)
    (λ '(ni, nf, nr, (wi', wf', wr')),
      Ni.state ni = Ni.STATE_SESSION ∧ Nf.state nf = Nf.STATE_SESSION ∧ Nr.state nr = Nr.STATE_SESSION ∧
      Ni.msn ni = Nf.msn nf ∧ Nf.msn nf = Nr.msn nr ∧
      Ni.lifetime ni = ac_lifetime e ∧ Nf.lifetime nf = ac_lifetime e ∧ Nr.lifetime nr = ac_lifetime e ∧
      w_commands wf' = w_commands wf ++ ((λ '(c, x), Append c x) <$> allow_rules e)).
Proof.
  intros H0 Ht Hfw Hnat Hf Hr. pose proof Ht as (Hlt & _). unfold setup_path.
  destruct (ni_start sid n0 x ci e wi H0 Ht) as (c & ni & wi1 & E1 & Hc & E2 & E3 & E4 & _ & _ & E5 & _ & E6).
  pose proof Hc as (_ & _ & _ & _ & _ & Hn).
  cbn [process_event Ni.ni_is_session Nr.nr_is_session Nf.nf_is_session]. rewrite E1. cbn [mbind comp_bind].
  rewrite E2, last_snoc. cbn [deref mbind comp_bind m_sid]. apply wp_bind.
  eapply wp_mono; [by eapply nf_forwards|]. intros [nf wf1] (F1 & F2 & F3 & F4 & F5 & F6 & F7 & F8).
  rewrite F8, last_snoc. cbn [deref mbind comp_bind m_sid copy_for_forwarding]. apply wp_bind.
  eapply wp_mono; [by eapply nr_accepts|]. intros [nr wr1] (G1 & G2 & G3 & _ & G5).
  rewrite G5, last_snoc. cbn [deref mbind comp_bind].
  edestruct success_response_fields as (r & Hr1 & Hr2); [..|rewrite Hr1]; [done|exact Hn|].
  cbn [m_sid routing_info]. apply wp_bind.
  eapply wp_mono; [eapply nf_installs; try done; [by rewrite F4|by exists c]|].
  intros [nf2 wf2] (I1 & I2 & I3 & I4 & I5).
  rewrite I5, last_snoc. cbn [deref mbind comp_bind m_sid copy_for_forwarding]. apply wp_bind.
  eapply wp_mono; [eapply ni_established; try done; by exists c|]. intros [ni2 wi2] (J1 & J2 & J3 & _). cbn [wp].
  split_and!; try done; [congruence..|]. by rewrite I4, F6, F7.
Qed.

(** ** A lost response *)

Fixpoint deliver (nr : Nr.nr_session) (ms : list ntlp_msg) (w : world) : comp (Nr.nr_session * world) :=
  match ms with
  | [] => Ok (nr, w)
  | m :: ms => '(nr, w) ← process_event nr (msg_event (m_sid m) m true) w; deliver nr ms w
  end.

(** The response timer of the initiator goes off [k] times; what the initiator sends is
    delivered to the responder, what the responder sends is lost. *)
Fixpoint timeouts (k : nat) (ni : Ni.ni_session) (wi : world) (nr : Nr.nr_session) (wr : world)
    : comp (Ni.ni_session * world * Nr.nr_session * world) :=
  match k with
  | O => Ok (ni, wi, nr, wr)
  | S k =>
      '(ni, wi') ← process_event ni (timer_event (Ni.id ni) (Ni.response_timer ni)) wi;
      '(nr, wr) ← deliver nr (drop (length (w_sent wi)) (w_sent wi')) wr;
      timeouts k ni wi' nr wr
  end.

(** One retry, which the responder ignores. *)
Lemma timeout_retry ni wi nr wr m c n lt px k :
  Ni.state ni = Ni.STATE_WAITRESP → Ni.last_create_msg ni = Some m → Ni.create_counter ni < Ni.max_retries ni →
  Nr.state nr = Nr.STATE_SESSION → Nr.msn nr = n → lt <= Nr.max_lifetime nr →
  body m = Some c → is_create c n lt px →
  ∃ t wi', w_sent wi' = w_sent wi ++ [m] ∧
    timeouts (S k) ni wi nr wr
    = timeouts k (ni <| Ni.create_counter := u32 (Ni.create_counter ni + 1) |> <| Ni.response_timer := t |>)
        wi' nr wr.
Proof.
  intros Hst Hl Hc Hnr Hn Hlt Hb Hcr. cbn [timeouts process_event Ni.ni_is_session].
  unfold Ni.ni_process_event. rewrite Hst. unfold Ni.ni_handle_state_waitresp. cbn -[Ni.ni_timeout timeouts].
  rewrite Z.eqb_refl. unfold Ni.ni_timeout. rewrite (proj2 (Z.ltb_lt _ _)) by done.
  cbn [Ni.last_create_msg upd Ni.ni_session_eta]. rewrite Hl. cbn -[timeouts drop].
  rewrite drop_app_length. cbn [deliver process_event Nr.nr_is_session].
  rewrite (nr_ignores _ _ _ c n lt px) by done. cbn -[timeouts].
  eexists _, _. split; [|reflexivity]. done.
Qed.

Lemma timeouts_fail j ni wi nr wr m c n lt px :
  Ni.state ni = Ni.STATE_WAITRESP → Ni.last_create_msg ni = Some m →
  0 <= Ni.create_counter ni → Ni.max_retries ni < 2 ^ 32 →
  Ni.create_counter ni + Z.of_nat j = Ni.max_retries ni →
  Nr.state nr = Nr.STATE_SESSION → Nr.msn nr = n → lt <= Nr.max_lifetime nr →
  body m = Some c → is_create c n lt px →
  wp (timeouts (S j) ni wi nr wr) (λ '(ni', wi', nr', wr'),
    Ni.state ni' = Ni.STATE_FINAL ∧ nr' = nr ∧ wr' = wr ∧ w_sent wi' = w_sent wi ++ replicate j m).
Proof.
  revert ni wi. induction j as [|j IH]; intros ni wi Hst Hl H0 Hmax Hj Hnr Hn Hlt Hb Hc.
  - cbn [timeouts process_event Ni.ni_is_session].
    unfold Ni.ni_process_event. rewrite Hst. unfold Ni.ni_handle_state_waitresp. cbn.
    rewrite Z.eqb_refl. unfold Ni.ni_timeout. rewrite (proj2 (Z.ltb_ge _ _)) by lia.
    cbn. rewrite drop_all. cbn. by rewrite app_nil_r.
  - destruct (timeout_retry ni wi nr wr m c n lt px (S j)) as (t & wi' & Hw & ->); try done; [lia|].
    eapply wp_mono; [apply IH; cbn; try done|].
    + unfold u32. rewrite Z.mod_small by lia. lia.
    + unfold u32. rewrite Z.mod_small by lia. lia.
    + intros [[[ni' wi''] nr'] wr'] (A1 & A2 & A3 & A4). split_and!; try done.
      by rewrite A4, Hw, <-app_assoc.
Qed.

(** C32: If the responder's answer to the first CREATE is lost, retrying is in vain.  The
    initiator sends the CREATE again each time its response timer goes off, as often as
    it is configured to, all copies arrive, and the responder answers none of them since
    their sequence number is the one it has accepted.  In the end the initiator has given
    up and the responder has an established session. *)
Theorem lost_response_fatal sid n0 x ci cr e wi wr :
  0 <= ni_max_retries_par ci < 2 ^ 32 → timers_ok (ac_lifetime e) (ni_max_retries_par ci) →
  ac_lifetime e <= nr_max_session_lifetime cr →
  wp ('(ni, wi1) ← process_event (Ni.new_ni_session sid n0 x ci) (api_create_event e) wi;
      '(nr, wr1) ← deliver (Nr.new_nr_session sid cr) (drop (length (w_sent wi)) (w_sent wi1)) wr;
      timeouts (S (Z.to_nat (ni_max_retries_par ci))) ni wi1 nr wr1)
    (λ '(ni, wi2, nr, wr2),
      Ni.state ni = Ni.STATE_FINAL ∧ Nr.state nr = Nr.STATE_SESSION ∧
      ∃ m, w_sent wi2 = w_sent wi ++ replicate (S (Z.to_nat (ni_max_retries_par ci))) m ∧
           w_sent wr2 = w_sent wr ++ [create_success_response m (ac_lifetime e)]).
Proof.
  intros H0 Ht Hr. pose proof Ht as (Hlt & _).
  destruct (ni_start sid n0 x ci e wi) as (c & ni & wi1 & E1 & Hc & E2 & E3 & E4 & E5 & E6 & E7 & E8);
    [lia|done|].
  cbn [process_event Ni.ni_is_session]. rewrite E1. cbn [mbind comp_bind].
  rewrite E2, drop_app_length. cbn [deliver process_event Nr.nr_is_session m_sid].
  apply wp_bind, wp_bind. eapply wp_mono; [by eapply nr_accepts|].
  intros [nr wr1] (G1 & G2 & G3 & G4 & G5). apply wp_ok.
  eapply wp_mono; [eapply timeouts_fail; [done|done|lia..|done|exact G2|by rewrite G4|done|done]|].
  intros [[[ni' wi'] nr'] wr'] (A1 & -> & -> & A4). split_and!; try done.
  eexists. split; [|exact G5]. by rewrite A4, E2, <-app_assoc.
Qed.

End NatfwPath.
