(* ===== verification/NatfwWitness.v ===== *)
(** * natfw-nslp: the theorems on concrete nodes

    A firewall between an initiator and a responder, with lifetimes of up to a minute and
    three retries. *)

From S2P Require Import Prelude Natfw NatfwSession NatfwExt NatfwNode NatfwFacts NatfwNodeFacts NatfwProps NatfwExtProps NatfwPath.
Import Natfw NatfwNode NatfwFacts NatfwNodeFacts NatfwProps NatfwExtProps NatfwPath.

Module NatfwWitness.

(** The parameters have the types that the program registers them with. *)
Definition firewall : natfw_config :=
  mk_config 3 2 60 false true false (par_hostaddresses []) 60 (par_uint16 3) 2.

Definition request : api_create :=
  mk_api_create (mk_host true 0x0a000001) (mk_host true 0x0a000002) 1000 80 6 [] 30 false true.

Definition create_msg : natfw_msg :=
  set_object (set_object (set_object (mk_msg CREATE false ∅) (session_lifetime 30)) (extended_flow_info ra_allow 0))
    (msg_sequence_number 5).
Definition create7 : ntlp_msg := mk_ntlp 7 (PathCoupled (flow_mri request)) 0 (Some create_msg).

Definition world0 : world :=
  mk_world (new_nat_manager (mk_host true 0x0a000001) 10000 10002) [] [] [] [] [] 1 [] [] [1; 2; 3; 4].

Lemma timeout_mod k r : Ni.timeout_of (k mod 1000) r = Ni.timeout_of k r.
Proof. unfold Ni.timeout_of. by rewrite Z.mod_mod. Qed.

Definition is_ok {A} (c : comp A) : bool := match c with Ok _ => true | _ => false end.

(** The timers for a lifetime, checked for each of the thousand random factors. *)
Lemma timers_ok_check lt retries :
  0 < lt → Ni.refresh_of lt retries < 2 ^ 32 →
  forallb (λ k, is_ok (Ni.timeout_of k (Ni.refresh_of lt retries))) (seqZ 0 1000) = true →
  timers_ok lt retries.
Proof.
  intros H1 H2 H3. split_and!; [done..|]. intros k. rewrite <-timeout_mod.
  rewrite forallb_forall in H3. specialize (H3 (k mod 1000)).
  destruct (Ni.timeout_of (k mod 1000) _); [done|..]; exfalso;
    (assert (false = true); [|done]); apply H3, list_elem_of_In, elem_of_seqZ;
    pose proof (Z.mod_pos_bound k 1000); lia.
Qed.

Lemma request_timers : timers_ok (ac_lifetime request) (ni_max_retries_par firewall).
Proof. apply timers_ok_check; [done|done|vm_compute; reflexivity]. Qed.

(** ** A node *)

Definition events : list event :=
  [api_create_event request; msg_event 7 create7 false;
   msg_event 7 (create_success_response create7 30) false; timer_event 7 99].

Lemma events_expected : Forall (expected firewall) events.
Proof.
  repeat (apply Forall_cons; split); [..|by apply Forall_nil]; split_and!; try done.
  - apply request_timers.
  - split; [|done]. intros _. split; [by eexists|]. by eexists.
Qed.

Lemma node_accounts_witness :
  wp (process_all firewall (mk_node ∅ world0) events) (λ n,
    (∀ r, net (w_commands (n_world n)) r = map_sum (s_rules r) (session_table n)) ∧
    (∀ p, avail (n_world n) p + map_sum (s_held p) (session_table n) = avail world0 p)) ∧
  wp (process_all firewall (mk_node ∅ world0) events) (λ n,
    (λ r, net (w_commands (n_world n)) r) <$> allow_rules request = [1; 1]).
Proof.
  split; [|vm_compute; reflexivity].
  apply (node_accounts firewall world0 events).
  - by left.
  - done.
  - reflexivity.
  - apply (bool_decide_unpack _). vm_compute. exact I.
  - cbn. lia.
  - apply events_expected.
Defined.

(** An established session, and a node with it. *)
Definition established : Nf.nf_session :=
  Nf.mk_nf 7 5 Nf.STATE_SESSION firewall false 30 60 60 3 0 None None (Some create7)
    (Some (mk_fw ACTION_ALLOW (mk_host true 0x0a000001) 32 1000 (mk_host true 0x0a000002) 32 80 6)) None None.

Definition node7 : node :=
  mk_node {[7 := S_nf established]}
    (world0 <| w_commands := (λ '(c, x), Append c x) <$> allow_rules request |>).

Lemma node7_accounts : accounts [10000; 10001; 10002] node7.
Proof.
  assert (∀ f, map_sum f (session_table node7) = f (S_nf established)) as Hsum.
  { intros f. unfold node7. cbn [session_table]. rewrite <-insert_empty, map_sum_insert by done.
    unfold map_sum. rewrite map_fold_empty. lia. }
  split.
  - intros r. rewrite Hsum. cbn [n_world node7 w_commands]. apply (net_append (allow_rules request)).
  - intros p. rewrite Hsum. cbn. by rewrite Z.add_0_r.
Qed.

Lemma route_change_leaks_witness :
  process firewall node7 (route_changed_bad_event 7) = Ok (mk_node ∅ (n_world node7)) ∧
  count (natfwd_filter, fw_expression (mk_fw ACTION_ALLOW (mk_host true 0x0a000001) 32 1000
    (mk_host true 0x0a000002) 32 80 6) true) (rule_lines (Nf.nat_rule established) (Nf.fw_rule established)) = 1.
Proof.
  split; [|vm_compute; reflexivity].
  destruct (route_change_leaks firewall [10000; 10001; 10002] node7 7 established) as [H _].
  - apply node7_accounts.
  - reflexivity.
  - reflexivity.
  - by eexists.
  - rewrite H. reflexivity.
Defined.

Definition no_msn : ntlp_msg :=
  mk_ntlp 7 (PathCoupled (flow_mri request)) 0 (Some (set_object (mk_msg CREATE false ∅) (session_lifetime 30))).


(** ** The EXT part *)

Definition edge_nat : natfw_config :=
  mk_config 3 2 60 true false true (par_hostaddresses []) 60 (par_uint16 3) 2.

Definition ext_request : api_ext :=
  mk_api_ext ACTION_ALLOW (mk_host true 0x0a000002) 32 80 (mk_host true 0x0a000001) 32 1000 6 30 true false false.

Definition ext_msg : natfw_msg :=
  set_object (set_object (mk_msg EXT false ∅) (session_lifetime 30)) (msg_sequence_number 5).
Definition ext7 : ntlp_msg := mk_ntlp 7 (PathCoupled (flow_mri request)) 0 (Some ext_msg).

Lemma parameter_types_fatal_witness :
  process edge_nat (mk_node ∅ world0) (api_ext_event ext_request) = Abort ∧
  process edge_nat (mk_node ∅ world0) (msg_event 7 create7 false) = Abort ∧
  process edge_nat (mk_node ∅ world0) (msg_event 7 ext7 false) = Abort.
Proof.
  assert (registered edge_nat) as Hreg by (split; by eexists).
  destruct (parameter_types_fatal edge_nat (mk_node ∅ world0) 7 create7 create_msg false) as (H1 & H2 & _);
    [done|reflexivity|reflexivity|by eexists|].
  destruct (parameter_types_fatal edge_nat (mk_node ∅ world0) 7 ext7 ext_msg false) as (_ & _ & H3);
    [done|reflexivity|reflexivity|by eexists|].
  split_and!.
  - by apply (H1 ext_request 1 [2; 3; 4]).
  - apply H2; [reflexivity..|done|reflexivity|reflexivity|]. by eexists.
  - by apply H3.
Defined.

Definition ext_response : ntlp_msg := create_success_response ext7 30.

Lemma ext_session_pollutes_pool_witness :
  wp (process_all firewall (mk_node ∅ world0)
        [msg_event 7 ext7 false; msg_event 7 ext_response false; timer_event 7 2])
    (λ n, available (w_nat (n_world n)) = [10000; 10001; 10002; 0]).
Proof.
  eapply wp_mono.
  - apply (ext_session_pollutes_pool firewall world0 7 ext7 ext_msg ext_response
      (default ext_msg (body ext_response)) 5 false false); reflexivity || done.
  - intros n (_ & _ & _ & H). by rewrite H.
Defined.

(** ** A path *)

Lemma path_established_witness :
  wp (setup_path (Ni.new_ni_session 7 4 0 firewall) (Nf.new_nf_session 7 firewall)
        (Nr.new_nr_session 7 firewall) request world0 world0 world0)
    (λ '(ni, nf, nr, (_, wf, _)),
      Ni.state ni = Ni.STATE_SESSION ∧ Nf.state nf = Nf.STATE_SESSION ∧ Nr.state nr = Nr.STATE_SESSION ∧
      Ni.lifetime ni = 30 ∧ Nf.lifetime nf = 30 ∧ Nr.lifetime nr = 30 ∧
      (λ r, net (w_commands wf) r) <$> allow_rules request = [1; 1]).
Proof.
  eapply wp_mono.
  - apply (path_established 7 4 0 firewall firewall firewall request world0 world0 world0);
      [done|apply request_timers|done..].
  - intros [[[ni nf] nr] [[wi wf] wr]] (H1 & H2 & H3 & H4 & H5 & H6 & H7 & H8 & H9).
    split_and!; [done..|rewrite H9; vm_compute; reflexivity].
Defined.

Lemma lost_response_fatal_witness :
  wp ('(ni, wi1) ← process_event (Ni.new_ni_session 7 4 0 firewall) (api_create_event request) world0;
      '(nr, wr1) ← deliver (Nr.new_nr_session 7 firewall) (drop (length (w_sent world0)) (w_sent wi1)) world0;
      timeouts 4 ni wi1 nr wr1)
    (λ '(ni, wi2, nr, wr2),
      Ni.state ni = Ni.STATE_FINAL ∧ Nr.state nr = Nr.STATE_SESSION ∧
      length (w_sent wi2) = 4%nat ∧ length (w_sent wr2) = 1%nat).
Proof.
  eapply wp_mono.
  - apply (lost_response_fatal 7 4 0 firewall firewall request world0 world0);
      [done|apply request_timers|done].
  - intros [[[ni wi2] nr] wr2] (H1 & H2 & m & H3 & H4). rewrite H3, H4. by split_and!.
Defined.

End NatfwWitness.
